(** * WildDuck message-management core: a shallow embedding

    The development follows the JavaScript sources of the repository:

    - [lib/message-handler.js]  ([MessageHandler]: add, checkExistingMessage,
      updateQuota, del, move, update),
    - [lib/handlers/on-copy.js] (the IMAP COPY hook),
    - the SASL PLAIN [AUTHENTICATE] command handler,
    - the Server-Sent-Events endpoint ([formatJournalData]).

    JavaScript strings are sequences of UTF-16 code units, numbers are
    integers of [Z], MongoDB collections are lists of documents in natural
    order, and the callback chains become a state-and-error monad over the
    database. *)

From Stdlib Require Import ZArith NArith List String Ascii Bool Lia.
From Stdlib Require Import Sorting.Sorted Sorting.Permutation.
Import ListNotations.

Open Scope Z_scope.

(** [length] is the length of lists throughout. *)
Abbreviation length := Datatypes.length.

(* ================================================================== *)
(** * Part 1. JavaScript strings and buffers *)
(* ================================================================== *)

Module JS.

(** A JavaScript string: its UTF-16 code units. *)
Definition jsstring := list N.

Definition SPACE : N := 32%N.
Definition LF : N := 10%N.
Definition CR : N := 13%N.
Definition NUL : N := 0%N.
(** U+2026 HORIZONTAL ELLIPSIS, one code unit. *)
Definition ELLIPSIS : N := 8230%N.
(** U+FFFD REPLACEMENT CHARACTER. *)
Definition REPLACEMENT : N := 65533%N.

Definition code_of_ascii (a : ascii) : N := N_of_ascii a.

(** The code units of an ASCII literal. *)
Fixpoint lit (s : string) : jsstring :=
  match s with
  | EmptyString => []
  | String a r => code_of_ascii a :: lit r
  end.

Definition between (lo hi c : N) : bool := ((lo <=? c) && (c <=? hi))%N.

(** The class [\s] of regular expressions, which is also what
    [String.prototype.trim] strips: WhiteSpace and LineTerminator. *)
Definition isSpace (c : N) : bool :=
  between 9 13 c || (c =? 32)%N || (c =? 160)%N || (c =? 5760)%N
  || between 8192 8202 c || (c =? 8232)%N || (c =? 8233)%N
  || (c =? 8239)%N || (c =? 8287)%N || (c =? 12288)%N || (c =? 65279)%N.

Fixpoint dropWhile {A} (p : A -> bool) (l : list A) : list A :=
  match l with
  | [] => []
  | x :: r => if p x then dropWhile p r else l
  end.

Definition trimStart (s : jsstring) : jsstring := dropWhile isSpace s.
Definition trimEnd (s : jsstring) : jsstring := rev (dropWhile isSpace (rev s)).
(** [s.trim()] *)
Definition trim (s : jsstring) : jsstring := trimEnd (trimStart s).

(** [s.substr(0, n)] for [n >= 0]. *)
Definition substr0 (s : jsstring) (n : nat) : jsstring := firstn n s.

(** [s.lastIndexOf(x)] for a one-unit needle: [-1] when absent. *)
Fixpoint lastIndexOf (x : N) (s : jsstring) : Z :=
  match s with
  | [] => -1
  | c :: r =>
      let k := lastIndexOf x r in
      if 0 <=? k then k + 1 else if (c =? x)%N then 0 else -1
  end.

(** [s.replace(/\r\n/g, '\n')] *)
Fixpoint replace_crlf (s : jsstring) : jsstring :=
  match s with
  | [] => []
  | c :: r =>
      match r with
      | d :: r' =>
          if ((c =? CR) && (d =? LF))%N then LF :: replace_crlf r'
          else c :: replace_crlf r
      | [] => [c]
      end
  end.

(** [s.replace(/\s+/g, ' ')]: every maximal run of white space becomes
    one space.  [inrun] tells that the previous unit was white space. *)
Fixpoint collapse_from (inrun : bool) (s : jsstring) : jsstring :=
  match s with
  | [] => []
  | c :: r =>
      if isSpace c
      then (if inrun then collapse_from true r else SPACE :: collapse_from true r)
      else c :: collapse_from false r
  end.

Definition collapse_ws (s : jsstring) : jsstring := collapse_from false s.

Definition isHighSurrogate (c : N) : bool := between 55296 56319 c.
Definition isLowSurrogate (c : N) : bool := between 56320 57343 c.

Definition utf8_3 (c : N) : list N :=
  [N.lor 224 (N.shiftr c 12);
   N.lor 128 (N.land (N.shiftr c 6) 63);
   N.lor 128 (N.land c 63)]%N.

Definition utf8_4 (cp : N) : list N :=
  [N.lor 240 (N.shiftr cp 18);
   N.lor 128 (N.land (N.shiftr cp 12) 63);
   N.lor 128 (N.land (N.shiftr cp 6) 63);
   N.lor 128 (N.land cp 63)]%N.

(** The bytes of [Buffer.from(s)] (UTF-8): a surrogate pair is one
    four-byte sequence, a lone surrogate is written as U+FFFD. *)
Fixpoint utf8_encode (s : jsstring) : list N :=
  match s with
  | [] => []
  | c :: r =>
      if (c <? 128)%N then c :: utf8_encode r
      else if (c <? 2048)%N then
        N.lor 192 (N.shiftr c 6) :: N.lor 128 (N.land c 63) :: utf8_encode r
      else if isHighSurrogate c then
        match r with
        | d :: r' =>
            if isLowSurrogate d
            then utf8_4 (65536 + N.shiftl (c - 55296) 10 + (d - 56320))%N
                 ++ utf8_encode r'
            else utf8_3 REPLACEMENT ++ utf8_encode r
        | [] => utf8_3 REPLACEMENT
        end
      else if isLowSurrogate c then utf8_3 REPLACEMENT ++ utf8_encode r
      else utf8_3 c ++ utf8_encode r
  end.

(** [Buffer.byteLength(s)] *)
Definition byteLength (s : jsstring) : nat := length (utf8_encode s).

(** Truthiness of a string: the empty string is falsy. *)
Definition nonEmpty (s : jsstring) : bool :=
  match s with [] => false | _ => true end.

End JS.

Import JS.

(* ================================================================== *)
(** * Part 2. Derived text fields of [MessageHandler.add] *)
(* ================================================================== *)

Section DerivedFields.

(** [consts.MAX_PLAINTEXT_CONTENT] and [consts.MAX_HTML_CONTENT]; the
    module [lib/consts.js] is a table of constants. *)
Variable MAX_PLAINTEXT_CONTENT : nat.
Variable MAX_HTML_CONTENT : nat.

(** [messageData.text], lines 185-190. *)
Definition storedText (text : jsstring) : jsstring :=
  let t := trim (replace_crlf text) in
  if (length t <=? MAX_PLAINTEXT_CONTENT)%nat then t
  else substr0 t MAX_PLAINTEXT_CONTENT.

(** [messageData.text.replace(/\s+/g, ' ').trim()], line 191. *)
Definition collapsedText (text : jsstring) : jsstring :=
  trim (collapse_ws (storedText text)).

(** Lines 192-199, applied to the collapsed text. *)
Definition cutIntro (intro0 : jsstring) : jsstring :=
  if (128 <? length intro0)%nat then
    let intro := substr0 intro0 128 in
    let lastSp := lastIndexOf SPACE intro in
    let intro := if 0 <? lastSp then substr0 intro (Z.to_nat lastSp) else intro in
    intro ++ [ELLIPSIS]
  else intro0.

(** [messageData.intro]; the field is only set when [maildata.text] is
    truthy (line 184). *)
Definition storedIntro (text : jsstring) : option jsstring :=
  if nonEmpty text then Some (cutIntro (collapsedText text)) else None.

(** The callback of [maildata.html.map], lines 205-218, with the closure
    variable [htmlSize] threaded through the traversal. *)
Fixpoint mapHtml (htmlSize : nat) (l : list jsstring) : list jsstring :=
  match l with
  | [] => []
  | html :: rest =>
      if (MAX_HTML_CONTENT <=? htmlSize)%nat || negb (nonEmpty html)
      then [] :: mapHtml htmlSize rest
      else if (htmlSize + byteLength html <=? MAX_HTML_CONTENT)%nat
      then html :: mapHtml (htmlSize + byteLength html) rest
      else
        let html' :=
          substr0 html (htmlSize + byteLength html - MAX_HTML_CONTENT) in
        html' :: mapHtml (htmlSize + byteLength html') rest
  end.

(** [messageData.html], lines 202-220: set only for a non-empty
    [maildata.html]. *)
Definition storedHtml (html : list jsstring) : option (list jsstring) :=
  match html with
  | [] => None
  | _ => Some (filter nonEmpty (mapHtml 0 html))
  end.

(** Cumulative byte length of an [html[]] array. *)
Definition htmlBytes (l : list jsstring) : nat :=
  fold_right (fun h n => (byteLength h + n)%nat) 0%nat l.

End DerivedFields.

(* ================================================================== *)
(** * Part 3. SASL PLAIN: the [AUTHENTICATE PLAIN] command handler *)
(* ================================================================== *)

Module Base64.

(** The decoding table of [Buffer.from(s, 'base64')]: both the standard and
    the URL-safe alphabet are legal. *)
Definition unbase64 (c : N) : option N :=
  if between 65 90 c then Some (c - 65)%N
  else if between 97 122 c then Some (c - 71)%N
  else if between 48 57 c then Some (c + 4)%N
  else if ((c =? 43) || (c =? 45))%N then Some 62%N
  else if ((c =? 47) || (c =? 95))%N then Some 63%N
  else None.

(** The legal characters of the input, as six-bit values: an illegal
    character is skipped and ['='] stops the decoder. *)
Fixpoint sextets (s : jsstring) : list N :=
  match s with
  | [] => []
  | c :: r =>
      match unbase64 c with
      | Some v => v :: sextets r
      | None => if (c =? 61)%N then [] else sextets r
      end
  end.

(** Every legal character after the first of a group of four completes one
    byte; an unfinished group keeps the bytes it completed. *)
Fixpoint bytes_of_sextets (l : list N) : list N :=
  match l with
  | a :: b :: c :: d :: r =>
      N.lor (N.shiftl a 2) (N.shiftr (N.land b 48) 4)
      :: N.lor (N.shiftl (N.land b 15) 4) (N.shiftr (N.land c 60) 2)
      :: N.lor (N.shiftl (N.land c 3) 6) (N.land d 63)
      :: bytes_of_sextets r
  | [a; b; c] =>
      [N.lor (N.shiftl a 2) (N.shiftr (N.land b 48) 4);
       N.lor (N.shiftl (N.land b 15) 4) (N.shiftr (N.land c 60) 2)]
  | [a; b] => [N.lor (N.shiftl a 2) (N.shiftr (N.land b 48) 4)]
  | _ => []
  end.

(** [new Buffer(s, 'base64')] *)
Definition decode (s : jsstring) : list N := bytes_of_sextets (sextets s).

End Base64.

Module Utf8.

(** A multi-byte sequence being read: continuation bytes still expected,
    the code point so far, and the range the next byte must lie in. *)
Record pending := Pending {
  needed : nat;
  point : N;
  lower : N;
  upper : N
}.

(** A byte read with no sequence pending. *)
Definition lead (b : N) : list N * option pending :=
  if (b <=? 127)%N then ([b], None)
  else if between 194 223 b then
    ([], Some (Pending 1 (N.land b 31) 128 191))
  else if between 224 239 b then
    ([], Some (Pending 2 (N.land b 15)
                 (if (b =? 224)%N then 160 else 128)
                 (if (b =? 237)%N then 159 else 191))%N)
  else if between 240 244 b then
    ([], Some (Pending 3 (N.land b 7)
                 (if (b =? 240)%N then 144 else 128)
                 (if (b =? 244)%N then 143 else 191))%N)
  else ([REPLACEMENT], None).

(** The code points of a byte sequence; every ill-formed subsequence
    becomes U+FFFD and the byte that broke it is read again as a lead. *)
Fixpoint points (st : option pending) (bs : list N) : list N :=
  match bs with
  | [] => match st with Some _ => [REPLACEMENT] | None => [] end
  | b :: r =>
      match st with
      | None => let (out, st') := lead b in out ++ points st' r
      | Some p =>
          if between (lower p) (upper p) b then
            let cp := N.lor (N.shiftl (point p) 6) (N.land b 63) in
            match needed p with
            | S (S n) => points (Some (Pending (S n) cp 128 191)) r
            | _ => cp :: points None r
            end
          else
            let (out, st') := lead b in
            REPLACEMENT :: out ++ points st' r
      end
  end.

(** UTF-16 code units of a code point. *)
Definition units (cp : N) : jsstring :=
  if (cp <? 65536)%N then [cp]
  else [55296 + N.shiftr (cp - 65536) 10; 56320 + N.land (cp - 65536) 1023]%N.

(** [buffer.toString()] *)
Definition toString (bs : list N) : jsstring := flat_map units (points None bs).

End Utf8.

(** [s.split(sep)] for a one-unit separator. *)
Fixpoint split_on (sep : N) (s : jsstring) : list jsstring :=
  match s with
  | [] => [[]]
  | c :: r =>
      if (c =? sep)%N then [] :: split_on sep r
      else
        match split_on sep r with
        | h :: t => (c :: h) :: t
        | [] => [[c]]
        end
  end.

Module Auth.

Record AuthUser := { au_id : nat; au_username : jsstring }.

(** What the server's [onAuth] hook hands to its callback: an error, a
    response without [user], or a response with one. *)
Inductive AuthReply :=
| AuthErr (message : string)
| AuthNoUser
| AuthOk (user : AuthUser).

Record AuthRequest := {
  ar_method : string;
  ar_username : jsstring;
  ar_password : jsstring
}.

(** The records given to [logger.info]. *)
Record LogRecord := {
  lg_tnx : string;
  lg_username : jsstring;
  lg_method : string;
  lg_action : string;
  lg_cid : nat;
  lg_err : option string
}.

Inductive ConnState := NotAuthenticated | Authenticated.

Record Connection := {
  cn_id : nat;
  cn_secure : bool;
  cn_disableSTARTTLS : bool;
  cn_ignoreSTARTTLS : bool;
  (** [this._server.onAuth], when it is a function *)
  cn_onAuth : option (AuthRequest -> AuthReply);
  cn_state : ConnState;
  cn_session_user : option AuthUser;
  (** [this._nextHandler] is set *)
  cn_awaiting : bool;
  (** lines written with [this.send] *)
  cn_sent : list string;
  cn_log : list LogRecord
}.

Record Response := {
  rs_response : string;
  rs_code : option string;
  rs_message : jsstring
}.

(** What the command's [callback] receives; [Pending] when the handler
    asked for the token with a continuation request instead. *)
Inductive Outcome :=
| CallbackError (message : string)
| Respond (r : Response)
| AwaitToken.

Definition BAD (msg : string) : Outcome := Respond {| rs_response := "BAD"; rs_code := None; rs_message := lit msg |}.
Definition NO (msg : string) : Outcome := Respond {| rs_response := "NO"; rs_code := None; rs_message := lit msg |}.

Definition with_log (c : Connection) (r : LogRecord) : Connection :=
  {| cn_id := cn_id c; cn_secure := cn_secure c;
     cn_disableSTARTTLS := cn_disableSTARTTLS c;
     cn_ignoreSTARTTLS := cn_ignoreSTARTTLS c; cn_onAuth := cn_onAuth c;
     cn_state := cn_state c; cn_session_user := cn_session_user c;
     cn_awaiting := cn_awaiting c; cn_sent := cn_sent c;
     cn_log := cn_log c ++ [r] |}.

Definition with_user (c : Connection) (u : AuthUser) : Connection :=
  {| cn_id := cn_id c; cn_secure := cn_secure c;
     cn_disableSTARTTLS := cn_disableSTARTTLS c;
     cn_ignoreSTARTTLS := cn_ignoreSTARTTLS c; cn_onAuth := cn_onAuth c;
     cn_state := Authenticated; cn_session_user := Some u;
     cn_awaiting := cn_awaiting c; cn_sent := cn_sent c;
     cn_log := cn_log c |}.

Definition with_awaiting (c : Connection) (b : bool) (sent : list string) : Connection :=
  {| cn_id := cn_id c; cn_secure := cn_secure c;
     cn_disableSTARTTLS := cn_disableSTARTTLS c;
     cn_ignoreSTARTTLS := cn_ignoreSTARTTLS c; cn_onAuth := cn_onAuth c;
     cn_state := cn_state c; cn_session_user := cn_session_user c;
     cn_awaiting := b; cn_sent := cn_sent c ++ sent;
     cn_log := cn_log c |}.

Definition log_auth (c : Connection) (username : jsstring) (action : string)
    (err : option string) : LogRecord :=
  {| lg_tnx := "auth"; lg_username := username; lg_method := "PLAIN";
     lg_action := action; lg_cid := cn_id c; lg_err := err |}.

(** [data[i] || ''] *)
Definition field (data : list jsstring) (i : nat) : jsstring := nth i data [].

(** [authenticate(connection, token, callback)], lines 47-131.  The hook is
    the one the handler found to be a function. *)
Definition authenticate (onAuth : AuthRequest -> AuthReply)
    (connection : Connection) (token : jsstring) : Connection * Outcome :=
  let data := split_on NUL (Utf8.toString (Base64.decode token)) in
  if negb (length data =? 3)%nat then
    (connection, BAD "Invalid SASL argument")
  else
    let username := trim (field data 1) in
    let password := trim (field data 2) in
    match onAuth {| ar_method := "PLAIN"; ar_username := username;
                    ar_password := password |} with
    | AuthErr e =>
        (with_log connection (log_auth connection username "fail" (Some e)),
         CallbackError e)
    | AuthNoUser =>
        (with_log connection (log_auth connection username "fail" None),
         Respond {| rs_response := "NO";
                    rs_code := Some "AUTHENTICATIONFAILED"%string;
                    rs_message := lit "Invalid credentials" |})
    | AuthOk u =>
        (with_user
           (with_log connection (log_auth connection username "success" None)) u,
         Respond {| rs_response := "OK"; rs_code := None;
                    rs_message :=
                      utf8_encode (username ++ lit " authenticated") |})
    end.

(** [handler(command, callback, next)], lines 14-44; [attribute] is
    [command.attributes[0].value] when there is one. *)
Definition handler (this : Connection) (attribute : option jsstring)
    : Connection * Outcome :=
  let token := trim (match attribute with Some v => v | None => [] end) in
  if negb (cn_secure this) && negb (cn_disableSTARTTLS this)
     && negb (cn_ignoreSTARTTLS this)
  then (this, BAD "Run STARTTLS first")
  else
    match cn_onAuth this with
    | None => (this, NO "Authentication not implemented")
    | Some onAuth =>
        if negb (nonEmpty token)
        then (with_awaiting this true ["+"%string], AwaitToken)
        else authenticate onAuth this token
    end.

(** [this._nextHandler(token, next)], lines 34-38: the line that follows
    the continuation request. *)
Definition nextHandler (this : Connection) (token : jsstring)
    : Connection * Outcome :=
  match cn_onAuth this with
  | None => (this, NO "Authentication not implemented")
  | Some onAuth => authenticate onAuth (with_awaiting this false []) token
  end.

End Auth.

(* ================================================================== *)
(** * Part 4. The Server-Sent-Events frame of a journal entry *)
(* ================================================================== *)

Module Obj.

Open Scope string_scope.

(** The values found in journal documents and option bags. *)
Inductive JsValue :=
| VUndefined
| VNull
| VBool (b : bool)
| VNum (z : Z)
| VStr (s : string)
| VOid (hex : string)
| VStrs (l : list string).

(** A plain object: its own enumerable keys in insertion order. *)
Definition JsObject := list (string * JsValue).

Definition truthy (v : JsValue) : bool :=
  match v with
  | VUndefined | VNull => false
  | VBool b => b
  | VNum z => negb (z =? 0)%Z
  | VStr s => negb (s =? "")
  | VOid _ | VStrs _ => true
  end.

(** [Object.keys(o)] *)
Definition obj_keys (o : JsObject) : list string := map fst o.

(** The own property [key] of [o], when there is one. *)
Fixpoint obj_lookup (key : string) (o : JsObject) : option JsValue :=
  match o with
  | [] => None
  | (k, v) :: r => if k =? key then Some v else obj_lookup key r
  end.

(** [o[key]] *)
Definition obj_get (key : string) (o : JsObject) : JsValue :=
  match obj_lookup key o with Some v => v | None => VUndefined end.

(** [o[key] = v]: an existing key keeps its place, a new one goes last. *)
Fixpoint obj_set (key : string) (v : JsValue) (o : JsObject) : JsObject :=
  match o with
  | [] => [(key, v)]
  | (k, w) :: r => if k =? key then (k, v) :: r else (k, w) :: obj_set key v r
  end.

End Obj.

Module Sse.

Import Obj.
Open Scope string_scope.

(** [['_id', 'ignore', 'user', 'modseq', 'unseenChange', 'created']] *)
Definition OMITTED : list string :=
  ["_id"; "ignore"; "user"; "modseq"; "unseenChange"; "created"].

(** [array.includes(key)] *)
Definition includes (l : list string) (key : string) : bool :=
  existsb (String.eqb key) l.

(** [e.command !== 'COUNTERS'] *)
Definition notCounters (e : JsObject) : bool :=
  match obj_get "command" e with
  | VStr c => negb (c =? "COUNTERS")
  | _ => true
  end.

(** The body of the [forEach] of lines 151-158, for one key. *)
Definition copyKey (e : JsObject) (data : JsObject) (key : string) : JsObject :=
  if negb (includes OMITTED key) then
    if notCounters e && (key =? "unseen") then data
    else obj_set key (obj_get key e) data
  else data.

(** The object [data] that [formatJournalData] serializes. *)
Definition journalData (e : JsObject) : JsObject :=
  fold_left (copyKey e) (obj_keys e) [].

(** [s.split('\n')] *)
Fixpoint split_lines (s : string) : list string :=
  match s with
  | EmptyString => [EmptyString]
  | String c r =>
      if Ascii.eqb c "010"%char then EmptyString :: split_lines r
      else
        match split_lines r with
        | h :: t => String c h :: t
        | [] => [String c EmptyString]
        end
  end.

(** [l.join(sep)] *)
Fixpoint join (sep : string) (l : list string) : string :=
  match l with
  | [] => ""
  | [x] => x
  | x :: r => x ++ sep ++ join sep r
  end.

Definition NL : string := String "010"%char EmptyString.

Section Format.

(** [JSON.stringify(data, false, 2)] and [value.toString()] are the
    runtime's. *)
Variable stringify : JsObject -> string.
Variable toString : JsValue -> string.

(** The [id:] line, pushed when [e._id] is truthy (lines 162-164). *)
Definition idLine (e : JsObject) : list string :=
  if truthy (obj_get "_id" e) then ["id: " ++ toString (obj_get "_id" e)]
  else [].

(** [formatJournalData(e)], lines 149-167. *)
Definition formatJournalData (e : JsObject) : string :=
  let data := journalData e in
  let response :=
    List.app
      [String.append "data: "
         (join (NL ++ "data: ") (split_lines (stringify data)))]
      (idLine e) in
  join NL response ++ NL ++ NL.

End Format.

End Sse.

(* ================================================================== *)
(** * Part 5. Documents and the database *)
(* ================================================================== *)

Import Obj.
Open Scope string_scope.
Open Scope list_scope.
Open Scope Z_scope.

(** A MongoDB [ObjectID]; [new ObjectID()] draws them from a counter. *)
Definition ObjectID := nat.
Bind Scope nat_scope with ObjectID.

(** ** Documents *)

Record Mailbox := {
  mb_id : ObjectID;
  mb_user : ObjectID;
  mb_path : string;
  mb_specialUse : option string;
  mb_uidValidity : Z;
  mb_uidNext : Z;
  mb_modifyIndex : Z;
  mb_retention : Z;
  mb_subscribed : bool
}.

Record User := {
  u_id : ObjectID;
  u_storageUsed : Z
}.

Record Thread := {
  th_id : ObjectID;
  th_user : ObjectID;
  th_subject : jsstring;
  th_ids : list string
}.

(** A record of the attachment store, keyed by [(hash, magic)]. *)
Record Attachment := {
  at_id : string;
  at_magic : string;
  at_refCount : Z
}.

(** The parsed MIME tree, as far as the handler reads it. *)
Record MimeTree := {
  (** [mimeTree.attachmentMap]: attachment id to storage key *)
  attachmentMap : list (string * string);
  (** [mimeTree.parsedHeader]: header key to its values *)
  parsedHeader : list (string * list jsstring)
}.

(** The fields of a message document that the handler writes once and
    carries unchanged afterwards.  The envelope, the body structure and the
    indexed-header projection are opaque here. *)
Record Content := {
  c_idate : Z;
  c_hdate : Z;
  c_size : Z;
  c_msgid : string;
  c_subject : jsstring;
  c_magic : string;
  c_mimeTree : MimeTree;
  c_attachments : list string;
  c_ha : bool;
  c_text : option jsstring;
  c_intro : option jsstring;
  c_html : option (list jsstring);
  c_filters : list string;
  c_opaque : list N
}.

Record Message := {
  m_id : ObjectID;
  m_root : ObjectID;
  m_mailbox : ObjectID;
  m_user : ObjectID;
  m_uid : Z;
  m_modseq : Z;
  m_thread : ObjectID;
  m_flags : list string;
  m_unseen : bool;
  m_flagged : bool;
  m_undeleted : bool;
  m_draft : bool;
  m_exp : bool;
  m_rdate : Z;
  (** [searchable] is [true] or absent *)
  m_searchable : bool;
  (** [junk] is [true] or absent *)
  m_junk : bool;
  m_meta : JsObject;
  m_content : Content
}.

Inductive Command := EXISTS | EXPUNGE | FETCH | COUNTERS.

(** The first argument of [notifier.addEntries] as the callers give it: a
    mailbox document, a mailbox id, or a user id with a path. *)
Inductive Scope :=
| ScopeMailbox (m : Mailbox)
| ScopeId (id : ObjectID)
| ScopeUserPath (user : ObjectID) (path : string).

Record JournalEntry := {
  je_command : Command;
  je_uid : Z;
  je_message : ObjectID;
  je_modseq : option Z;
  je_unseen : option bool;
  (** [ignore]: the session id of the origin, when there is a session *)
  je_ignore : option nat;
  je_junk : option Z;
  je_flags : option (list string);
  je_unseenChange : option bool
}.

(** An element of the [sourceUid] and [destinationUid] arrays of [move]:
    a UID, or a message id when [returnIds] is set. *)
Inductive Ref := RUid (uid : Z) | RId (id : ObjectID).

(** A frame written to the origin session:
    [session.formatResponse(command, argument)]. *)
Inductive Frame :=
| FrameUid (c : Command) (uid : Z)
| FrameList (c : Command) (l : list Ref).

Record Session := {
  ss_id : nat;
  ss_user : ObjectID;
  (** [session.selected.mailbox], when a mailbox is selected *)
  ss_selected : option string
}.

(** ** The database

    Collections are lists in natural (insertion) order.  [journal] keeps
    each entry with the scope it was appended under, [fired] the pokes of
    [notifier.fire], [wire] the frames written to the origin session,
    [nextOid] the next fresh [ObjectID] and [ops] the number of database
    calls issued so far. *)
Definition JournalDoc := (Scope * JournalEntry)%type.

Record Store := {
  mailboxes : list Mailbox;
  messages : list Message;
  users : list User;
  threads : list Thread;
  attachments : list Attachment;
  journal : list JournalDoc;
  fired : list (ObjectID * string);
  wire : list Frame;
  nextOid : ObjectID;
  ops : nat
}.

Definition set_mb_uidNext (v : Z) (x : Mailbox) : Mailbox :=
  {| mb_id := mb_id x; mb_user := mb_user x; mb_path := mb_path x;
     mb_specialUse := mb_specialUse x; mb_uidValidity := mb_uidValidity x;
     mb_uidNext := v; mb_modifyIndex := mb_modifyIndex x;
     mb_retention := mb_retention x; mb_subscribed := mb_subscribed x |}.

Definition set_mb_modifyIndex (v : Z) (x : Mailbox) : Mailbox :=
  {| mb_id := mb_id x; mb_user := mb_user x; mb_path := mb_path x;
     mb_specialUse := mb_specialUse x; mb_uidValidity := mb_uidValidity x;
     mb_uidNext := mb_uidNext x; mb_modifyIndex := v;
     mb_retention := mb_retention x; mb_subscribed := mb_subscribed x |}.

Definition set_mb_subscribed (v : bool) (x : Mailbox) : Mailbox :=
  {| mb_id := mb_id x; mb_user := mb_user x; mb_path := mb_path x;
     mb_specialUse := mb_specialUse x; mb_uidValidity := mb_uidValidity x;
     mb_uidNext := mb_uidNext x; mb_modifyIndex := mb_modifyIndex x;
     mb_retention := mb_retention x; mb_subscribed := v |}.

Definition set_u_storageUsed (v : Z) (x : User) : User :=
  {| u_id := u_id x; u_storageUsed := v |}.

Definition set_th_ids (v : list string) (x : Thread) : Thread :=
  {| th_id := th_id x; th_user := th_user x; th_subject := th_subject x;
     th_ids := v |}.

Definition set_at_refCount (v : Z) (x : Attachment) : Attachment :=
  {| at_id := at_id x; at_magic := at_magic x; at_refCount := v |}.

Definition set_m_id (v : ObjectID) (x : Message) : Message :=
  {| m_id := v; m_root := m_root x; m_mailbox := m_mailbox x;
     m_user := m_user x; m_uid := m_uid x; m_modseq := m_modseq x;
     m_thread := m_thread x; m_flags := m_flags x; m_unseen := m_unseen x;
     m_flagged := m_flagged x; m_undeleted := m_undeleted x;
     m_draft := m_draft x; m_exp := m_exp x; m_rdate := m_rdate x;
     m_searchable := m_searchable x; m_junk := m_junk x; m_meta := m_meta x;
     m_content := m_content x |}.

Definition set_m_mailbox (v : ObjectID) (x : Message) : Message :=
  {| m_id := m_id x; m_root := m_root x; m_mailbox := v; m_user := m_user x;
     m_uid := m_uid x; m_modseq := m_modseq x; m_thread := m_thread x;
     m_flags := m_flags x; m_unseen := m_unseen x; m_flagged := m_flagged x;
     m_undeleted := m_undeleted x; m_draft := m_draft x; m_exp := m_exp x;
     m_rdate := m_rdate x; m_searchable := m_searchable x;
     m_junk := m_junk x; m_meta := m_meta x; m_content := m_content x |}.

Definition set_m_uid (v : Z) (x : Message) : Message :=
  {| m_id := m_id x; m_root := m_root x; m_mailbox := m_mailbox x;
     m_user := m_user x; m_uid := v; m_modseq := m_modseq x;
     m_thread := m_thread x; m_flags := m_flags x; m_unseen := m_unseen x;
     m_flagged := m_flagged x; m_undeleted := m_undeleted x;
     m_draft := m_draft x; m_exp := m_exp x; m_rdate := m_rdate x;
     m_searchable := m_searchable x; m_junk := m_junk x; m_meta := m_meta x;
     m_content := m_content x |}.

Definition set_m_modseq (v : Z) (x : Message) : Message :=
  {| m_id := m_id x; m_root := m_root x; m_mailbox := m_mailbox x;
     m_user := m_user x; m_uid := m_uid x; m_modseq := v;
     m_thread := m_thread x; m_flags := m_flags x; m_unseen := m_unseen x;
     m_flagged := m_flagged x; m_undeleted := m_undeleted x;
     m_draft := m_draft x; m_exp := m_exp x; m_rdate := m_rdate x;
     m_searchable := m_searchable x; m_junk := m_junk x; m_meta := m_meta x;
     m_content := m_content x |}.

Definition set_m_flags (v : list string) (x : Message) : Message :=
  {| m_id := m_id x; m_root := m_root x; m_mailbox := m_mailbox x;
     m_user := m_user x; m_uid := m_uid x; m_modseq := m_modseq x;
     m_thread := m_thread x; m_flags := v; m_unseen := m_unseen x;
     m_flagged := m_flagged x; m_undeleted := m_undeleted x;
     m_draft := m_draft x; m_exp := m_exp x; m_rdate := m_rdate x;
     m_searchable := m_searchable x; m_junk := m_junk x; m_meta := m_meta x;
     m_content := m_content x |}.

Definition set_m_unseen (v : bool) (x : Message) : Message :=
  {| m_id := m_id x; m_root := m_root x; m_mailbox := m_mailbox x;
     m_user := m_user x; m_uid := m_uid x; m_modseq := m_modseq x;
     m_thread := m_thread x; m_flags := m_flags x; m_unseen := v;
     m_flagged := m_flagged x; m_undeleted := m_undeleted x;
     m_draft := m_draft x; m_exp := m_exp x; m_rdate := m_rdate x;
     m_searchable := m_searchable x; m_junk := m_junk x; m_meta := m_meta x;
     m_content := m_content x |}.

Definition set_m_flagged (v : bool) (x : Message) : Message :=
  {| m_id := m_id x; m_root := m_root x; m_mailbox := m_mailbox x;
     m_user := m_user x; m_uid := m_uid x; m_modseq := m_modseq x;
     m_thread := m_thread x; m_flags := m_flags x; m_unseen := m_unseen x;
     m_flagged := v; m_undeleted := m_undeleted x; m_draft := m_draft x;
     m_exp := m_exp x; m_rdate := m_rdate x; m_searchable := m_searchable x;
     m_junk := m_junk x; m_meta := m_meta x; m_content := m_content x |}.

Definition set_m_undeleted (v : bool) (x : Message) : Message :=
  {| m_id := m_id x; m_root := m_root x; m_mailbox := m_mailbox x;
     m_user := m_user x; m_uid := m_uid x; m_modseq := m_modseq x;
     m_thread := m_thread x; m_flags := m_flags x; m_unseen := m_unseen x;
     m_flagged := m_flagged x; m_undeleted := v; m_draft := m_draft x;
     m_exp := m_exp x; m_rdate := m_rdate x; m_searchable := m_searchable x;
     m_junk := m_junk x; m_meta := m_meta x; m_content := m_content x |}.

Definition set_m_draft (v : bool) (x : Message) : Message :=
  {| m_id := m_id x; m_root := m_root x; m_mailbox := m_mailbox x;
     m_user := m_user x; m_uid := m_uid x; m_modseq := m_modseq x;
     m_thread := m_thread x; m_flags := m_flags x; m_unseen := m_unseen x;
     m_flagged := m_flagged x; m_undeleted := m_undeleted x; m_draft := v;
     m_exp := m_exp x; m_rdate := m_rdate x; m_searchable := m_searchable x;
     m_junk := m_junk x; m_meta := m_meta x; m_content := m_content x |}.

Definition set_m_exp (v : bool) (x : Message) : Message :=
  {| m_id := m_id x; m_root := m_root x; m_mailbox := m_mailbox x;
     m_user := m_user x; m_uid := m_uid x; m_modseq := m_modseq x;
     m_thread := m_thread x; m_flags := m_flags x; m_unseen := m_unseen x;
     m_flagged := m_flagged x; m_undeleted := m_undeleted x;
     m_draft := m_draft x; m_exp := v; m_rdate := m_rdate x;
     m_searchable := m_searchable x; m_junk := m_junk x; m_meta := m_meta x;
     m_content := m_content x |}.

Definition set_m_rdate (v : Z) (x : Message) : Message :=
  {| m_id := m_id x; m_root := m_root x; m_mailbox := m_mailbox x;
     m_user := m_user x; m_uid := m_uid x; m_modseq := m_modseq x;
     m_thread := m_thread x; m_flags := m_flags x; m_unseen := m_unseen x;
     m_flagged := m_flagged x; m_undeleted := m_undeleted x;
     m_draft := m_draft x; m_exp := m_exp x; m_rdate := v;
     m_searchable := m_searchable x; m_junk := m_junk x; m_meta := m_meta x;
     m_content := m_content x |}.

Definition set_m_searchable (v : bool) (x : Message) : Message :=
  {| m_id := m_id x; m_root := m_root x; m_mailbox := m_mailbox x;
     m_user := m_user x; m_uid := m_uid x; m_modseq := m_modseq x;
     m_thread := m_thread x; m_flags := m_flags x; m_unseen := m_unseen x;
     m_flagged := m_flagged x; m_undeleted := m_undeleted x;
     m_draft := m_draft x; m_exp := m_exp x; m_rdate := m_rdate x;
     m_searchable := v; m_junk := m_junk x; m_meta := m_meta x;
     m_content := m_content x |}.

Definition set_m_junk (v : bool) (x : Message) : Message :=
  {| m_id := m_id x; m_root := m_root x; m_mailbox := m_mailbox x;
     m_user := m_user x; m_uid := m_uid x; m_modseq := m_modseq x;
     m_thread := m_thread x; m_flags := m_flags x; m_unseen := m_unseen x;
     m_flagged := m_flagged x; m_undeleted := m_undeleted x;
     m_draft := m_draft x; m_exp := m_exp x; m_rdate := m_rdate x;
     m_searchable := m_searchable x; m_junk := v; m_meta := m_meta x;
     m_content := m_content x |}.

Definition set_m_meta (v : JsObject) (x : Message) : Message :=
  {| m_id := m_id x; m_root := m_root x; m_mailbox := m_mailbox x;
     m_user := m_user x; m_uid := m_uid x; m_modseq := m_modseq x;
     m_thread := m_thread x; m_flags := m_flags x; m_unseen := m_unseen x;
     m_flagged := m_flagged x; m_undeleted := m_undeleted x;
     m_draft := m_draft x; m_exp := m_exp x; m_rdate := m_rdate x;
     m_searchable := m_searchable x; m_junk := m_junk x; m_meta := v;
     m_content := m_content x |}.

Definition set_mailboxes (v : list Mailbox) (x : Store) : Store :=
  {| mailboxes := v; messages := messages x; users := users x;
     threads := threads x; attachments := attachments x;
     journal := journal x; fired := fired x; wire := wire x;
     nextOid := nextOid x; ops := ops x |}.

Definition set_messages (v : list Message) (x : Store) : Store :=
  {| mailboxes := mailboxes x; messages := v; users := users x;
     threads := threads x; attachments := attachments x;
     journal := journal x; fired := fired x; wire := wire x;
     nextOid := nextOid x; ops := ops x |}.

Definition set_users (v : list User) (x : Store) : Store :=
  {| mailboxes := mailboxes x; messages := messages x; users := v;
     threads := threads x; attachments := attachments x;
     journal := journal x; fired := fired x; wire := wire x;
     nextOid := nextOid x; ops := ops x |}.

Definition set_threads (v : list Thread) (x : Store) : Store :=
  {| mailboxes := mailboxes x; messages := messages x; users := users x;
     threads := v; attachments := attachments x; journal := journal x;
     fired := fired x; wire := wire x; nextOid := nextOid x; ops := ops x |}.

Definition set_attachments (v : list Attachment) (x : Store) : Store :=
  {| mailboxes := mailboxes x; messages := messages x; users := users x;
     threads := threads x; attachments := v; journal := journal x;
     fired := fired x; wire := wire x; nextOid := nextOid x; ops := ops x |}.

Definition set_journal (v : list JournalDoc) (x : Store) : Store :=
  {| mailboxes := mailboxes x; messages := messages x; users := users x;
     threads := threads x; attachments := attachments x; journal := v;
     fired := fired x; wire := wire x; nextOid := nextOid x; ops := ops x |}.

Definition set_fired (v : list (ObjectID * string)) (x : Store) : Store :=
  {| mailboxes := mailboxes x; messages := messages x; users := users x;
     threads := threads x; attachments := attachments x;
     journal := journal x; fired := v; wire := wire x; nextOid := nextOid x;
     ops := ops x |}.

Definition set_wire (v : list Frame) (x : Store) : Store :=
  {| mailboxes := mailboxes x; messages := messages x; users := users x;
     threads := threads x; attachments := attachments x;
     journal := journal x; fired := fired x; wire := v; nextOid := nextOid x;
     ops := ops x |}.

Definition set_nextOid (v : ObjectID) (x : Store) : Store :=
  {| mailboxes := mailboxes x; messages := messages x; users := users x;
     threads := threads x; attachments := attachments x;
     journal := journal x; fired := fired x; wire := wire x; nextOid := v;
     ops := ops x |}.

Definition set_ops (v : nat) (x : Store) : Store :=
  {| mailboxes := mailboxes x; messages := messages x; users := users x;
     threads := threads x; attachments := attachments x;
     journal := journal x; fired := fired x; wire := wire x;
     nextOid := nextOid x; ops := v |}.

(** ** Queries and updates on a collection *)

(** [collection.findOne(q)]: the first match in natural order. *)
Definition findOne {A} (q : A -> bool) (c : list A) : option A := find q c.

(** The update of the first match. *)
Fixpoint updateFirst {A} (q : A -> bool) (f : A -> A) (c : list A) : list A :=
  match c with
  | [] => []
  | d :: r => if q d then f d :: r else d :: updateFirst q f r
  end.

(** [collection.deleteOne(q)] *)
Fixpoint deleteFirst {A} (q : A -> bool) (c : list A) : list A :=
  match c with
  | [] => []
  | d :: r => if q d then r else d :: deleteFirst q r
  end.

(** The option [returnOriginal] of [findOneAndUpdate]; the driver returns
    the document as it was before the update unless told otherwise. *)
Definition returnOriginal (opt : option bool) : bool :=
  match opt with Some b => b | None => true end.

(** [collection.findOneAndUpdate(q, f, {returnOriginal})]: [item.value]
    and the collection afterwards. *)
Definition findOneAndUpdate {A} (q : A -> bool) (f : A -> A)
    (opt : option bool) (c : list A) : option A * list A :=
  match findOne q c with
  | Some d =>
      (Some (if returnOriginal opt then d else f d), updateFirst q f c)
  | None => (None, c)
  end.

(** [cursor.sort({uid: 1})]: a stable insertion sort on [uid]. *)
Fixpoint insertByUid (m : Message) (l : list Message) : list Message :=
  match l with
  | [] => [m]
  | x :: r => if m_uid m <? m_uid x then m :: l else x :: insertByUid m r
  end.

Fixpoint sortByUid (l : list Message) : list Message :=
  match l with
  | [] => []
  | m :: r => insertByUid m (sortByUid r)
  end.

(** ** Errors and the monad of the callback chains *)

Inductive Error :=
(** an [err] handed over by the database driver *)
| StoreError
(** [new Error('Mailbox is missing')] with [imapResponse = 'TRYCREATE'] *)
| MailboxMissing
(** [new Error('Mailbox is missing')] of [update], without response code *)
| MailboxMissingPlain
(** [new Error('Mailbox disappeared')] *)
| MailboxDisappeared
(** [new Error('Nothing was changed')] *)
| NothingChanged.

Inductive Outcome (A : Type) :=
| Ok (a : A)
| Fail (e : Error).
Arguments Ok {A} a.
Arguments Fail {A} e.

(** A computation on the database: what the final callback receives, and
    the database it leaves. *)
Definition M (A : Type) : Type := Store -> Outcome A * Store.

Definition ret {A} (a : A) : M A := fun s => (Ok a, s).
Definition fail {A} (e : Error) : M A := fun s => (Fail e, s).

Definition bind {A B} (m : M A) (k : A -> M B) : M B :=
  fun s =>
    match m s with
    | (Ok a, s') => k a s'
    | (Fail e, s') => (Fail e, s')
    end.

(** [m] with an error callback of its own: [h] takes over when [m] fails. *)
Definition orElse {A} (m : M A) (h : Error -> M A) : M A :=
  fun s =>
    match m s with
    | (Ok a, s') => (Ok a, s')
    | (Fail e, s') => h e s'
    end.

(** The two branches of a callback [(err, value) => ...]: [onErr] for an
    error, [k] for a value. *)
Definition attempt {A B} (m : M A) (onErr : Error -> M B) (k : A -> M B) : M B :=
  fun s =>
    match m s with
    | (Ok a, s') => k a s'
    | (Fail e, s') => onErr e s'
    end.

(** A call whose callback ignores both the error and the result. *)
Definition ignoring {A} (m : M A) : M unit :=
  fun s => (Ok tt, snd (m s)).

(** A state change that cannot fail. *)
Definition modify (f : Store -> Store) : M unit := fun s => (Ok tt, f s).

Declare Scope db_scope.
Delimit Scope db_scope with db.
Notation "x <- m ;; k" := (bind m (fun x => k))
  (at level 100, m at next level, right associativity) : db_scope.
Notation "m ;;; k" := (bind m (fun _ => k))
  (at level 100, right associativity) : db_scope.
Notation "'when' b 'then' m" := (if b then m else ret tt)
  (at level 99, b at next level, m at next level) : db_scope.
Open Scope db_scope.

(** [new ObjectID()] *)
Definition newObjectID : M ObjectID :=
  fun s => (Ok (nextOid s), set_nextOid (S (nextOid s)) s).

Definition dedup (l : list string) : list string :=
  fold_left (fun acc x => if existsb (String.eqb x) acc then acc else acc ++ [x]) l [].

Section Database.

(** The schedule of driver failures: call number [n] hands an [err] to its
    callback when [fails n] holds, and then changes nothing. *)
Variable fails : nat -> bool.

(** One round trip to the database. *)
Definition call {A} (act : Store -> A * Store) : M A :=
  fun s =>
    let s1 := set_ops (S (ops s)) s in
    if fails (ops s) then (Fail StoreError, s1)
    else let (a, s2) := act s1 in (Ok a, s2).

Definition on_mailboxes {A} (f : list Mailbox -> A * list Mailbox) : M A :=
  call (fun s => let (a, c) := f (mailboxes s) in (a, set_mailboxes c s)).
Definition on_messages {A} (f : list Message -> A * list Message) : M A :=
  call (fun s => let (a, c) := f (messages s) in (a, set_messages c s)).
Definition on_users {A} (f : list User -> A * list User) : M A :=
  call (fun s => let (a, c) := f (users s) in (a, set_users c s)).
Definition on_threads {A} (f : list Thread -> A * list Thread) : M A :=
  call (fun s => let (a, c) := f (threads s) in (a, set_threads c s)).
Definition on_attachments {A} (f : list Attachment -> A * list Attachment) : M A :=
  call (fun s => let (a, c) := f (attachments s) in (a, set_attachments c s)).

(** [cursor.next(callback)]: the documents themselves are those of the
    query's result, here the step only accounts for the round trip. *)
Definition cursorNext : M unit := call (fun s => (tt, s)).

(** ** The notifier

    Modelled from the spec: the notifier ([lib/imap-notifier.js]) is not
    part of the sources.  [addEntries(scope, always, entries, cb)] appends
    the entries to the journal under the scope, in the order given;
    notifier errors are never handed to the caller.  Of the messages that
    are announced by EXISTS entries without a [modseq] (the documents that
    [move] stores with MODSEQ 0, and the copies of the COPY hook) the
    notifier reassigns the MODSEQ: it raises the [modifyIndex] of the
    mailbox of the scope by one and gives that value to the messages of
    the mailbox that those entries name (spec 4.5, step 2: the clone is
    stored with [modseq = 0] and the notifier will reassign; scenario S3:
    the destination ends at [(5, >= 5)]).  Entries of other commands and
    entries that carry a [modseq] are appended only: the scenarios S2 and
    S4 of the spec, with the mailbox at [(7, 12)] after a replaced
    duplicate and at [(101, 51)] after an update, leave no room for a
    raise on behalf of the EXPUNGE and FETCH entries that [add] and
    [update] hand over without a [modseq].  [fire(user, path)] publishes a
    poke. *)

(** An EXISTS entry that carries no [modseq]. *)
Definition unnumbered (e : JournalEntry) : bool :=
  match je_command e, je_modseq e with
  | EXISTS, None => true
  | _, _ => false
  end.

(** The mailbox that a scope stands for. *)
Definition inScope (scope : Scope) (mb : Mailbox) : bool :=
  match scope with
  | ScopeMailbox m => (mb_id mb =? mb_id m)%nat
  | ScopeId id => (mb_id mb =? id)%nat
  | ScopeUserPath user path =>
      (mb_user mb =? user)%nat && String.eqb (mb_path mb) path
  end.

(** The message is one of mailbox [mailbox] that an unnumbered entry
    names. *)
Definition announced (entries : list JournalEntry) (mailbox : ObjectID)
    (m : Message) : bool :=
  (m_mailbox m =? mailbox)%nat
  && existsb (fun e => unnumbered e && (je_message e =? m_id m)%nat) entries.

Definition renumber (scope : Scope) (entries : list JournalEntry) (s : Store)
    : Store :=
  if existsb unnumbered entries then
    match findOne (inScope scope) (mailboxes s) with
    | Some mailboxData =>
        let modseq := mb_modifyIndex mailboxData + 1 in
        set_messages
          (map (fun m =>
                  if announced entries (mb_id mailboxData) m
                  then set_m_modseq modseq m else m)
             (messages s))
          (set_mailboxes
             (updateFirst (inScope scope) (set_mb_modifyIndex modseq)
                (mailboxes s))
             s)
    | None => s
    end
  else s.

Definition addEntries (scope : Scope) (entries : list JournalEntry) : M unit :=
  modify (fun s =>
    let s := renumber scope entries s in
    set_journal (journal s ++ map (pair scope) entries) s).

Definition fire (user : ObjectID) (path : string) : M unit :=
  modify (fun s => set_fired (fired s ++ [(user, path)]) s).

(** [session.writeStream.write(session.formatResponse(...))] *)
Definition write (f : Frame) : M unit :=
  modify (fun s => set_wire (wire s ++ [f]) s).

(** ** The attachment store

    Modelled from the spec: the attachment store
    ([lib/attachment-storage.js]) and the MIME indexer are not part of the
    sources.  [create(hash, magic)] makes a record with [refCount = 1] or
    increments an existing one; [updateMany(ids, delta, magic)] adds
    [delta] to the records named; [deleteMany(ids, magic)] decrements them
    and deletes those whose count reaches 0. *)
Definition isAttachment (id magic : string) (a : Attachment) : bool :=
  String.eqb (at_id a) id && String.eqb (at_magic a) magic.

Definition createAttachment (magic : string) (c : list Attachment) (id : string)
    : list Attachment :=
  match findOne (isAttachment id magic) c with
  | Some _ =>
      updateFirst (isAttachment id magic)
        (fun a => set_at_refCount (at_refCount a + 1) a) c
  | None => c ++ [{| at_id := id; at_magic := magic; at_refCount := 1 |}]
  end.

Definition addRefs (delta : Z) (magic : string) (c : list Attachment)
    (id : string) : list Attachment :=
  updateFirst (isAttachment id magic)
    (fun a => set_at_refCount (at_refCount a + delta) a) c.

Definition storeNodeBodies (ids : list string) (magic : string) : M unit :=
  on_attachments (fun c => (tt, fold_left (createAttachment magic) ids c)).

Definition updateMany (ids : list string) (delta : Z) (magic : string) : M unit :=
  on_attachments (fun c => (tt, fold_left (addRefs delta magic) ids c)).

Definition deleteMany (ids : list string) (magic : string) : M unit :=
  on_attachments (fun c =>
    (tt, filter (fun a => 0 <? at_refCount a)
           (fold_left (addRefs (-1) magic) ids c))).


(* ================================================================== *)
(** * Part 6. [MessageHandler] *)
(* ================================================================== *)

(** [Date.now()] *)
Variable now : Z.
(** [consts.BULK_BATCH_SIZE], [consts.MAX_PLAINTEXT_CONTENT] and
    [consts.MAX_HTML_CONTENT]: [lib/consts.js] is a table of constants. *)
Variable BULK_BATCH_SIZE : nat.
Variable MAX_PLAINTEXT_CONTENT : nat.
Variable MAX_HTML_CONTENT : nat.
(** [crypto.createHash('sha1').update(id).digest('base64')] without its
    padding. *)
Variable digest : jsstring -> string.

(** The ways the callers name a mailbox in the options of [getMailbox]:
    [mailbox] as a document, [mailbox] as an id (with or without [user]),
    [user] with [specialUse], [user] with [path]. *)
Inductive MailboxRef :=
| RefObject (m : Mailbox)
| RefId (id : ObjectID) (user : option ObjectID)
| RefSpecialUse (user : ObjectID) (specialUse : string)
| RefPath (user : ObjectID) (path : string).

Definition eqOpt (o : option string) (s : string) : bool :=
  match o with Some x => String.eqb x s | None => false end.

Definition mailboxQuery (options : MailboxRef) (m : Mailbox) : bool :=
  match options with
  | RefObject o => mb_id m =? mb_id o
  | RefId id user =>
      (mb_id m =? id)
      && match user with Some u => mb_user m =? u | None => true end
  | RefSpecialUse user su => (mb_user m =? user) && eqOpt (mb_specialUse m) su
  | RefPath user path => (mb_user m =? user) && String.eqb (mb_path m) path
  end%nat.

Definition byId (id : ObjectID) (m : Mailbox) : bool := (mb_id m =? id)%nat.
Definition userById (id : ObjectID) (u : User) : bool := (u_id u =? id)%nat.

(** [getMailbox(options, callback)], lines 47-79. *)
Definition getMailbox (options : MailboxRef) : M Mailbox :=
  match options with
  | RefObject m => ret m
  | _ =>
      mailbox <- on_mailboxes (fun c => (findOne (mailboxQuery options) c, c)) ;;
      match mailbox with
      | None => fail MailboxMissing
      | Some m => ret m
      end
  end.

Record Prepared := {
  p_id : ObjectID;
  p_mimeTree : MimeTree;
  p_size : Z;
  p_idate : Z;
  p_hdate : Z;
  p_msgid : string;
  p_subject : jsstring;
  (** envelope, body structure and indexed headers *)
  p_opaque : list N
}.

Record Maildata := {
  md_attachments : list string;
  md_text : jsstring;
  md_html : list jsstring;
  md_magic : string
}.

Record AddOptions := {
  ao_target : MailboxRef;
  ao_prepared : Prepared;
  ao_maildata : Maildata;
  ao_flags : list string;
  ao_meta : JsObject;
  ao_filters : list string;
  ao_session : option Session;
  ao_skipExisting : bool
}.

Inductive Status := StatusNew | StatusUpdate | StatusSkip | StatusMoved.

Record AddResult := {
  r_uidValidity : option Z;
  r_uid : Z;
  r_id : ObjectID;
  r_mailbox : ObjectID;
  r_status : Status
}.

(** [options.session && options.session.selected &&
    options.session.selected.mailbox === path] *)
Definition selectedIs (session : option Session) (path : string) : bool :=
  match session with
  | Some ss => eqOpt (ss_selected ss) path
  | None => false
  end.

(** [options.session && options.session.id] *)
Definition ignoreOf (session : option Session) : option nat :=
  option_map ss_id session.

Definition entry (c : Command) (uid : Z) (message : ObjectID)
    (modseq : option Z) (unseen : bool) (ignore : option nat) : JournalEntry :=
  {| je_command := c; je_uid := uid; je_message := message;
     je_modseq := modseq; je_unseen := Some unseen; je_ignore := ignore;
     je_junk := None; je_flags := None; je_unseenChange := None |}.

(** [$inc: {uidNext: 1, modifyIndex: 1}] *)
Definition incBoth (m : Mailbox) : Mailbox :=
  set_mb_modifyIndex (mb_modifyIndex m + 1) (set_mb_uidNext (mb_uidNext m + 1) m).
(** [$inc: {uidNext: 1}] *)
Definition incUidNext (m : Mailbox) : Mailbox :=
  set_mb_uidNext (mb_uidNext m + 1) m.
(** [$inc: {modifyIndex: 1}] *)
Definition incModifyIndex (m : Mailbox) : Mailbox :=
  set_mb_modifyIndex (mb_modifyIndex m + 1) m.
(** [$inc: {storageUsed: n}] *)
Definition incStorage (n : Z) (u : User) : User :=
  set_u_storageUsed (u_storageUsed u + n) u.

(** The duplicate probe of lines 336-343. *)
Definition isDuplicate (mailboxData : Mailbox) (hdate : Z) (msgid : string)
    (m : Message) : bool :=
  (m_mailbox m =? mb_id mailboxData)%nat
  && (c_hdate (m_content m) =? hdate)
  && String.eqb (c_msgid (m_content m)) msgid
  && (0 <? m_uid m) && (m_uid m <? mb_uidNext mailboxData).

(** The hash key [(_id, mailbox, uid)] of a message document. *)
Definition isMessage (id mailbox : ObjectID) (uid : Z) (m : Message) : bool :=
  (m_id m =? id)%nat && (m_mailbox m =? mailbox)%nat && (m_uid m =? uid).

(** [checkExistingMessage(mailboxData, message, options, callback)], lines
    334-464.  [None] is the bare [callback()]: go on adding. *)
Definition checkExistingMessage (mailboxData : Mailbox) (hdate : Z)
    (msgid : string) (flags : list string) (options : AddOptions)
    : M (option AddResult) :=
  existing <- on_messages (fun c =>
    (findOne (isDuplicate mailboxData hdate msgid) c, c)) ;;
  match existing with
  | None => ret None
  | Some existing =>
      if ao_skipExisting options then
        ret (Some {| r_uidValidity := None; r_uid := m_uid existing;
                     r_id := m_id existing; r_mailbox := mb_id mailboxData;
                     r_status := StatusSkip |})
      else
        (* acquire new UID+MODSEQ *)
        item <- on_mailboxes
          (findOneAndUpdate (byId (mb_id mailboxData)) incBoth (Some true)) ;;
        match item with
        | None => fail MailboxMissing
        | Some mailboxData =>
            let uid := mb_uidNext mailboxData in
            let modseq := mb_modifyIndex mailboxData + 1 in
            item <- on_messages
              (findOneAndUpdate
                 (isMessage (m_id existing) (mb_id mailboxData) (m_uid existing))
                 (fun m => set_m_flags flags (set_m_modseq modseq (set_m_uid uid m)))
                 (Some false)) ;;
            match item with
            | None => ret None
            | Some updated =>
                let selected :=
                  selectedIs (ao_session options) (mb_path mailboxData) in
                (when selected then write (FrameUid EXPUNGE (m_uid existing))) ;;;
                (when selected then write (FrameUid EXISTS (m_uid updated))) ;;;
                addEntries (ScopeMailbox mailboxData)
                  [entry EXPUNGE (m_uid existing) (m_id existing) None
                     (m_unseen existing) (ignoreOf (ao_session options))] ;;;
                addEntries (ScopeMailbox mailboxData)
                  [entry EXISTS (m_uid updated) (m_id updated)
                     (Some (m_modseq updated)) (m_unseen updated)
                     (ignoreOf (ao_session options))] ;;;
                fire (mb_user mailboxData) (mb_path mailboxData) ;;;
                ret (Some {| r_uidValidity := Some (mb_uidValidity mailboxData);
                             r_uid := uid; r_id := m_id existing;
                             r_mailbox := mb_id mailboxData;
                             r_status := StatusUpdate |})
            end
        end
  end.

(** [[].concat(header[key] || []).pop() || ''] *)
Definition lastHeader (t : MimeTree) (key : string) : jsstring :=
  match find (fun kv => String.eqb (fst kv) key) (parsedHeader t) with
  | Some (_, values) => last values []
  | None => []
  end.

(** [id.replace(/[<>]/g, '')] *)
Definition stripAngles (s : jsstring) : jsstring :=
  filter (fun c => negb ((c =? 60) || (c =? 62))%N) s.

(** The reference ids of [getThreadId], lines 913-933; splitting on
    [/\s+/] is splitting at each collapsed run of white space. *)
Definition referenceIds (t : MimeTree) : list string :=
  let joined :=
    lastHeader t "message-id" ++ [SPACE]
    ++ lastHeader t "in-reply-to" ++ [SPACE]
    ++ substr0 (lastHeader t "thread-index") 22 ++ [SPACE]
    ++ lastHeader t "references" in
  firstn 10
    (dedup
       (map digest
          (filter nonEmpty
             (map (fun id => trim (stripAngles id))
                (split_on SPACE (collapse_ws joined)))))).

Definition sharesId (refs : list string) (t : Thread) : bool :=
  existsb (fun id => existsb (String.eqb id) refs) (th_ids t).

Definition beqString (a b : jsstring) : bool :=
  if list_eq_dec N.eq_dec a b then true else false.

(** [$addToSet: {flags: {$each: l}}] and the like. *)
Definition addToSet (l : list string) (set : list string) : list string :=
  fold_left
    (fun acc x => if existsb (String.eqb x) acc then acc else acc ++ [x]) l set.

(** [getThreadId(userId, subject, mimeTree, callback)], lines 912-969. *)
Definition getThreadId (userId : ObjectID) (subject : jsstring) (t : MimeTree)
    : M ObjectID :=
  let refs := referenceIds t in
  r <- on_threads
    (findOneAndUpdate
       (fun th => (th_user th =? userId)%nat && sharesId refs th
                  && beqString (th_subject th) subject)
       (fun th => set_th_ids (addToSet refs (th_ids th)) th)
       (Some false)) ;;
  match r with
  | Some th => ret (th_id th)
  | None =>
      (* thread not found, create a new one *)
      id <- newObjectID ;;
      on_threads (fun c =>
        (tt, c ++ [{| th_id := id; th_user := userId; th_subject := subject;
                       th_ids := refs |}])) ;;;
      ret id
  end.

(** [flags.includes(flag)] *)
Definition hasFlag (flags : list string) (flag : string) : bool :=
  existsb (String.eqb flag) flags.

(** [['\\Junk', '\\Trash'].includes(specialUse)] *)
Definition isJunkOrTrash (specialUse : option string) : bool :=
  eqOpt specialUse "\Junk" || eqOpt specialUse "\Trash".

(** [Object.keys(attachmentMap || {}).map(key => attachmentMap[key])] *)
Definition attachmentIdsOf (t : MimeTree) : list string :=
  map snd (attachmentMap t).

(** The callback [cleanup] of [add], lines 118-129, around the steps whose
    errors it receives. *)
Definition cleanup {A} (attachmentIds : list string) (magic : string)
    (steps : M A) : M A :=
  orElse steps (fun err =>
    match attachmentIds with
    | [] => fail err
    | _ => ignoring (deleteMany attachmentIds magic) ;;; fail err
    end).

(** The callback [rollback] of [add], lines 233-243; [cleanup] is around
    it. *)
Definition rollback {A} (user : ObjectID) (size : Z) (steps : M A) : M A :=
  orElse steps (fun err =>
    ignoring (on_users
      (findOneAndUpdate (userById user) (incStorage (- size)) None)) ;;;
    fail err).

(** The message object of lines 137-220 with the mailbox specific values
    of lines 270-281 and the thread of line 288. *)
Definition messageData (options : AddOptions) (retention : Z)
    (mailboxData : Mailbox) (thread : ObjectID) : Message :=
  let prepared := ao_prepared options in
  let maildata := ao_maildata options in
  let flags := ao_flags options in
  {| m_id := p_id prepared;
     m_root := p_id prepared;
     m_mailbox := mb_id mailboxData;
     m_user := mb_user mailboxData;
     m_uid := mb_uidNext mailboxData;
     m_modseq := mb_modifyIndex mailboxData + 1;
     m_thread := thread;
     m_flags := flags;
     m_unseen := negb (hasFlag flags "\Seen");
     m_flagged := hasFlag flags "\Flagged";
     m_undeleted := negb (hasFlag flags "\Deleted");
     m_draft := hasFlag flags "\Draft";
     m_exp := negb (retention =? 0);
     m_rdate := now + retention;
     m_searchable :=
       negb (isJunkOrTrash (mb_specialUse mailboxData))
       && negb (hasFlag flags "\Deleted");
     m_junk := eqOpt (mb_specialUse mailboxData) "\Junk";
     m_meta := ao_meta options;
     m_content :=
       {| c_idate := p_idate prepared;
          c_hdate := p_hdate prepared;
          c_size := p_size prepared;
          c_msgid := p_msgid prepared;
          c_subject := p_subject prepared;
          c_magic := md_magic maildata;
          c_mimeTree := p_mimeTree prepared;
          c_attachments := md_attachments maildata;
          c_ha := match md_attachments maildata with [] => false | _ => true end;
          c_text :=
            if nonEmpty (md_text maildata)
            then Some (storedText MAX_PLAINTEXT_CONTENT (md_text maildata))
            else None;
          c_intro := storedIntro MAX_PLAINTEXT_CONTENT (md_text maildata);
          c_html := storedHtml MAX_HTML_CONTENT (md_html maildata);
          c_filters := ao_filters options;
          c_opaque := p_opaque prepared |} |}.

(** [add(options, callback)], lines 83-332. *)
Definition add (options : AddOptions) : M AddResult :=
  let prepared := ao_prepared options in
  let mimeTree := p_mimeTree prepared in
  let size := p_size prepared in
  let flags := ao_flags options in
  let maildata := ao_maildata options in
  mailboxData <- getMailbox (ao_target options) ;;
  existing <- checkExistingMessage mailboxData (p_hdate prepared)
                (p_msgid prepared) flags options ;;
  match existing with
  | Some info => ret info
  | None =>
      cleanup (attachmentIdsOf mimeTree) (md_magic maildata)
        (storeNodeBodies (attachmentIdsOf mimeTree) (md_magic maildata) ;;;
         on_users (findOneAndUpdate (userById (mb_user mailboxData))
                     (incStorage size) None) ;;;
         rollback (mb_user mailboxData) size
           ((* acquire new UID+MODSEQ *)
            item <- on_mailboxes
              (findOneAndUpdate (byId (mb_id mailboxData)) incBoth None) ;;
            match item with
            | None => fail MailboxMissing
            | Some mailboxData' =>
                thread <- getThreadId (mb_user mailboxData')
                            (p_subject prepared) mimeTree ;;
                let messageData :=
                  messageData options (mb_retention mailboxData)
                    mailboxData' thread in
                on_messages (fun c => (tt, c ++ [messageData])) ;;;
                (when selectedIs (ao_session options) (mb_path mailboxData')
                 then write (FrameUid EXISTS (m_uid messageData))) ;;;
                addEntries (ScopeMailbox mailboxData')
                  [entry EXISTS (m_uid messageData) (m_id messageData)
                     (Some (m_modseq messageData)) (m_unseen messageData)
                     (ignoreOf (ao_session options))] ;;;
                fire (mb_user mailboxData') (mb_path mailboxData') ;;;
                ret {| r_uidValidity := Some (mb_uidValidity mailboxData');
                       r_uid := m_uid messageData;
                       r_id := m_id messageData;
                       r_mailbox := mb_id mailboxData';
                       r_status := StatusNew |}
            end))
  end.

(** The first argument that [updateQuota] is called with: it reads the
    property [user] of it.  An [ObjectID] has no such property. *)
Inductive QuotaArg :=
| ArgMailbox (m : Mailbox)
| ArgObjectID (id : ObjectID).

(** [mailboxData.user] *)
Definition propUser (a : QuotaArg) : option ObjectID :=
  match a with
  | ArgMailbox m => Some (mb_user m)
  | ArgObjectID _ => None
  end.

(** [updateQuota(mailboxData, inc, callback)], lines 466-480; the query
    [{_id: undefined}] matches no user. *)
Definition updateQuota (mailboxData : QuotaArg) (inc : option Z)
    : M (option User) :=
  on_users
    (findOneAndUpdate
       (fun u => match propUser mailboxData with
                 | Some id => userById id u
                 | None => false
                 end)
       (incStorage (match inc with Some n => n | None => 0 end))
       None).

Record DelOptions := {
  do_message : Message;
  do_mailbox : option MailboxRef;
  do_session : option Session
}.

(** [del(options, callback)], lines 482-548. *)
Definition del (options : DelOptions) : M bool :=
  let message := do_message options in
  mailboxData <- getMailbox
    (match do_mailbox options with
     | Some o => o
     | None => RefId (m_mailbox message) None
     end) ;;
  on_messages (fun c =>
    (tt, deleteFirst
           (isMessage (m_id message) (mb_id mailboxData) (m_uid message)) c)) ;;;
  ignoring (updateQuota (ArgObjectID (mb_id mailboxData))
              (Some (- c_size (m_content message)))) ;;;
  (match attachmentIdsOf (c_mimeTree (m_content message)) with
   | [] => ret tt
   | attachmentIds =>
       ignoring (deleteMany attachmentIds (c_magic (m_content message)))
   end) ;;;
  (when selectedIs (do_session options) (mb_path mailboxData)
   then write (FrameUid EXPUNGE (m_uid message))) ;;;
  addEntries (ScopeId (mb_id mailboxData))
    [entry EXPUNGE (m_uid message) (m_id message) None (m_unseen message)
       (ignoreOf (do_session options))] ;;;
  fire (mb_user mailboxData) (mb_path mailboxData) ;;;
  ret true.

(** ** [move] *)

(** One key of the [updates] object of [move] and of the [changes] object
    of [update], with its value; the list is [Object.keys] order. *)
Inductive Change :=
| ChSeen (value : bool)
| ChDeleted (value : bool)
| ChFlagged (value : bool)
| ChDraft (value : bool)
(** [expires]: a date (its [getTime()]) or a falsy value *)
| ChExpires (value : option Z)
| ChOther (key : string).

Record MoveOptions := {
  mo_source : MailboxRef;
  mo_destination : MailboxRef;
  (** [options.messageQuery], a query on [uid], when given *)
  mo_messageQuery : option (Z -> bool);
  mo_messages : list Z;
  mo_returnIds : bool;
  mo_updates : list Change;
  mo_markAsSeen : bool;
  mo_session : option Session
}.

Record MoveResult := {
  mr_uidValidity : Z;
  mr_sourceUid : list Ref;
  mr_destinationUid : list Ref;
  mr_mailbox : ObjectID;
  mr_status : Status
}.

(** Modelled from the spec: [tools.checkRangeQuery(uids)] ([lib/tools.js]
    is not part of the sources) is the query on [uid] that selects the set
    of messages given. *)
Definition checkRangeQuery (uids : list Z) : Z -> bool :=
  fun uid => existsb (Z.eqb uid) uids.

(** [Array.from(new Set(flags))] without [fname] *)
Definition withoutFlag (fname : string) (flags : list string) : list string :=
  filter (fun f => negb (String.eqb f fname)) (dedup flags).

(** The two branches that maintain a flag in [move]: [present] tells
    whether the flag is wanted. *)
Definition maintainFlag (fname : string) (present : bool) (message : Message)
    : Message :=
  if present && negb (hasFlag (m_flags message) fname) then
    set_m_flags (m_flags message ++ [fname]) message
  else if negb present && hasFlag (m_flags message) fname then
    set_m_flags (withoutFlag fname (m_flags message)) message
  else message.

(** The body of the [forEach] over [options.updates], lines 690-735. *)
Definition applyMoveUpdate (message : Message) (c : Change) : Message :=
  match c with
  | ChSeen v => set_m_unseen v (maintainFlag "\Seen" (negb v) message)
  | ChDeleted v => set_m_undeleted v (maintainFlag "\Deleted" (negb v) message)
  | ChFlagged v => set_m_flagged v (maintainFlag "\Flagged" v message)
  | ChDraft v => set_m_draft v (maintainFlag "\Draft" v message)
  | ChExpires (Some t) => set_m_rdate t (set_m_exp true message)
  | ChExpires None => set_m_exp false message
  | ChOther _ => message
  end.

(** Lines 737-742. *)
Definition markAsSeen (message : Message) : Message :=
  let message := set_m_unseen false message in
  if hasFlag (m_flags message) "\Seen" then message
  else set_m_flags (m_flags message ++ ["\Seen"]) message.

(** The junk transition of lines 681-688 (and of the COPY hook): the
    message's [junk] afterwards and the [junk] mark of the journal entry. *)
Definition junkTransition (target : Mailbox) (message : Message)
    : bool * option Z :=
  if eqOpt (mb_specialUse target) "\Junk" && negb (m_junk message)
  then (true, Some 1)
  else if negb (eqOpt (mb_specialUse target) "\Trash") && m_junk message
  then (false, Some (-1))
  else (m_junk message, None).

(** The document that [move] inserts for [message], lines 650-742. *)
Definition movedMessage (options : MoveOptions) (target : Mailbox)
    (id : ObjectID) (uidNext : Z) (message : Message) : Message :=
  let moved :=
    {| m_id := id;
       m_root := m_root message;
       m_mailbox := mb_id target;
       m_user := m_user message;
       m_uid := uidNext;
       m_modseq := 0;
       m_thread := m_thread message;
       m_flags := m_flags message;
       m_unseen := m_unseen message;
       m_flagged := m_flagged message;
       m_undeleted := m_undeleted message;
       m_draft := m_draft message;
       m_exp := negb (mb_retention target =? 0);
       m_rdate := now + mb_retention target;
       m_searchable :=
         negb (isJunkOrTrash (mb_specialUse target) || negb (m_undeleted message));
       m_junk := fst (junkTransition target message);
       m_meta := m_meta message;
       m_content := m_content message |} in
  let moved := fold_left applyMoveUpdate (mo_updates options) moved in
  if mo_markAsSeen options then markAsSeen moved else moved.

(** The arrays that [move] fills while it runs. *)
Record MoveAcc := {
  sourceUid : list Ref;
  destinationUid : list Ref;
  removeEntries : list JournalEntry;
  existsEntries : list JournalEntry
}.

Definition withJunk (junk : option Z) (e : JournalEntry) : JournalEntry :=
  {| je_command := je_command e; je_uid := je_uid e;
     je_message := je_message e; je_modseq := je_modseq e;
     je_unseen := je_unseen e; je_ignore := je_ignore e;
     je_junk := junk; je_flags := je_flags e;
     je_unseenChange := je_unseenChange e |}.

(** The flush of lines 603-610 and 786-795: the removals of the batch go
    to the journal of the source, then its additions to that of the
    target. *)
Definition flushMove (mailboxData target : Mailbox) (acc : MoveAcc) : M unit :=
  addEntries (ScopeMailbox mailboxData) (removeEntries acc) ;;;
  addEntries (ScopeMailbox target) (existsEntries acc) ;;;
  fire (mb_user mailboxData) (mb_path mailboxData) ;;;
  fire (mb_user target) (mb_path target).

(** The callback [done] of [move], lines 587-613. *)
Definition moveDone (mailboxData target : Mailbox) (acc : MoveAcc)
    (err : option Error) : M MoveResult :=
  (match existsEntries acc with
   | [] => ret tt
   | _ => flushMove mailboxData target acc
   end) ;;;
  match err with
  | Some e => fail e
  | None =>
      ret {| mr_uidValidity := mb_uidValidity target;
             mr_sourceUid := sourceUid acc;
             mr_destinationUid := destinationUid acc;
             mr_mailbox := mb_id mailboxData;
             mr_status := StatusMoved |}
  end.

(** One message of [processNext], lines 624-797, from the reservation of
    the destination UID to the point where the next message is asked for:
    the arrays afterwards.  A step that fails leaves through [done]; the
    entries not yet flushed are then those the message started with. *)
Definition moveOne (options : MoveOptions) (mailboxData target : Mailbox)
    (acc : MoveAcc) (message : Message) : M MoveAcc :=
  let messageId := m_id message in
  let messageUid := m_uid message in
  let sourceUid :=
    sourceUid acc
    ++ [if mo_returnIds options then RId messageId else RUid messageUid] in
  item <- on_mailboxes
    (findOneAndUpdate (byId (mb_id target)) incUidNext None) ;;
  match item with
  | None => fail MailboxDisappeared
  | Some item =>
      id <- newObjectID ;;
      let uidNext := mb_uidNext item in
      let destinationUid :=
        destinationUid acc
        ++ [if mo_returnIds options then RId id else RUid uidNext] in
      let unseen := m_unseen message in
      let junk := snd (junkTransition target message) in
      let moved := movedMessage options target id uidNext message in
      on_messages (fun c => (tt, c ++ [moved])) ;;;
      (* delete old message *)
      on_messages (fun c =>
        (tt, deleteFirst
               (isMessage messageId (mb_id mailboxData) messageUid) c)) ;;;
      (when match mo_session options with Some _ => true | None => false end
       then write (FrameList EXPUNGE sourceUid)) ;;;
      let acc :=
        {| sourceUid := sourceUid;
           destinationUid := destinationUid;
           removeEntries :=
             removeEntries acc
             ++ [entry EXPUNGE messageUid messageId None unseen
                   (ignoreOf (mo_session options))];
           existsEntries :=
             existsEntries acc
             ++ [withJunk junk
                   (entry EXISTS uidNext id None (m_unseen moved) None)] |} in
      if (BULK_BATCH_SIZE <=? length (existsEntries acc))%nat then
        flushMove mailboxData target acc ;;;
        ret {| sourceUid := sourceUid; destinationUid := destinationUid;
               removeEntries := []; existsEntries := [] |}
      else ret acc
  end.

(** [processNext], lines 615-802, over the documents of the cursor. *)
Fixpoint moveNext (options : MoveOptions) (mailboxData target : Mailbox)
    (cursor : list Message) (acc : MoveAcc) : M MoveResult :=
  attempt cursorNext
    (fun err => moveDone mailboxData target acc (Some err))
    (fun _ =>
       match cursor with
       | [] => moveDone mailboxData target acc None
       | message :: rest =>
           attempt (moveOne options mailboxData target acc message)
             (fun err => moveDone mailboxData target acc (Some err))
             (fun acc => moveNext options mailboxData target rest acc)
       end).

(** The documents of
    [find({mailbox, uid: query}).sort({uid: 1})]: those the collection
    holds when the operation starts. *)
Definition inMailbox (mailbox : ObjectID) (query : Z -> bool) (m : Message)
    : bool :=
  (m_mailbox m =? mailbox)%nat && query (m_uid m).

Definition moveQuery (options : MoveOptions) : Z -> bool :=
  match mo_messageQuery options with
  | Some q => q
  | None => checkRangeQuery (mo_messages options)
  end.

(** [move(options, callback)], lines 550-808. *)
Definition move (options : MoveOptions) : M MoveResult :=
  mailboxData <- getMailbox (mo_source options) ;;
  target <- getMailbox (mo_destination options) ;;
  (* increase the mailbox modification index *)
  ignoring (on_mailboxes
    (findOneAndUpdate (byId (mb_id mailboxData)) incModifyIndex None)) ;;;
  fun s =>
    let cursor :=
      sortByUid
        (filter (inMailbox (mb_id mailboxData) (moveQuery options))
           (messages s)) in
    moveNext options mailboxData target cursor
      {| sourceUid := []; destinationUid := [];
         removeEntries := []; existsEntries := [] |} s.

(** ** [update] *)

(** The columns that a [$set] can address. *)
Record SetDoc := {
  s_unseen : option bool;
  s_undeleted : option bool;
  s_flagged : option bool;
  s_draft : option bool;
  s_exp : option bool;
  s_rdate : option Z;
  s_modseq : option Z
}.

(** The update document that [update] builds, with its flag [update]. *)
Record Updates := {
  up_set : SetDoc;
  up_addFlags : list string;
  up_removeFlags : list string;
  up_update : bool
}.

Definition emptySet : SetDoc :=
  {| s_unseen := None; s_undeleted := None; s_flagged := None;
     s_draft := None; s_exp := None; s_rdate := None; s_modseq := None |}.

Definition set_s_unseen (v : bool) (d : SetDoc) : SetDoc :=
  {| s_unseen := Some v; s_undeleted := s_undeleted d;
     s_flagged := s_flagged d; s_draft := s_draft d; s_exp := s_exp d;
     s_rdate := s_rdate d; s_modseq := s_modseq d |}.
Definition set_s_undeleted (v : bool) (d : SetDoc) : SetDoc :=
  {| s_unseen := s_unseen d; s_undeleted := Some v;
     s_flagged := s_flagged d; s_draft := s_draft d; s_exp := s_exp d;
     s_rdate := s_rdate d; s_modseq := s_modseq d |}.
Definition set_s_flagged (v : bool) (d : SetDoc) : SetDoc :=
  {| s_unseen := s_unseen d; s_undeleted := s_undeleted d;
     s_flagged := Some v; s_draft := s_draft d; s_exp := s_exp d;
     s_rdate := s_rdate d; s_modseq := s_modseq d |}.
Definition set_s_exp (v : bool) (d : SetDoc) : SetDoc :=
  {| s_unseen := s_unseen d; s_undeleted := s_undeleted d;
     s_flagged := s_flagged d; s_draft := s_draft d; s_exp := Some v;
     s_rdate := s_rdate d; s_modseq := s_modseq d |}.
Definition set_s_rdate (v : Z) (d : SetDoc) : SetDoc :=
  {| s_unseen := s_unseen d; s_undeleted := s_undeleted d;
     s_flagged := s_flagged d; s_draft := s_draft d; s_exp := s_exp d;
     s_rdate := Some v; s_modseq := s_modseq d |}.
Definition set_s_modseq (v : Z) (d : SetDoc) : SetDoc :=
  {| s_unseen := s_unseen d; s_undeleted := s_undeleted d;
     s_flagged := s_flagged d; s_draft := s_draft d; s_exp := s_exp d;
     s_rdate := s_rdate d; s_modseq := Some v |}.

(** What one key does to the update document: the new [$set], and the
    flag that goes to [addFlags] (when the value is truthy) or to
    [removeFlags]. *)
Definition flagChange (set : SetDoc) (flag : string) (value : bool)
    (u : Updates) : Updates :=
  {| up_set := set;
     up_addFlags := if value then up_addFlags u ++ [flag] else up_addFlags u;
     up_removeFlags :=
       if value then up_removeFlags u else up_removeFlags u ++ [flag];
     up_update := true |}.

(** The body of the [forEach] over [changes], lines 996-1048. *)
Definition applyChange (u : Updates) (c : Change) : Updates :=
  match c with
  | ChSeen seen =>
      flagChange (set_s_unseen (negb seen) (up_set u)) "\Seen" seen u
  | ChDeleted deleted =>
      flagChange (set_s_undeleted (negb deleted) (up_set u)) "\Deleted" deleted u
  | ChFlagged flagged =>
      flagChange (set_s_flagged flagged (up_set u)) "\Flagged" flagged u
  | ChDraft draft =>
      flagChange (set_s_flagged draft (up_set u)) "\Draft" draft u
  | ChExpires (Some t) =>
      {| up_set := set_s_rdate t (set_s_exp true (up_set u));
         up_addFlags := up_addFlags u; up_removeFlags := up_removeFlags u;
         up_update := true |}
  | ChExpires None =>
      {| up_set := set_s_exp false (up_set u);
         up_addFlags := up_addFlags u; up_removeFlags := up_removeFlags u;
         up_update := true |}
  | ChOther _ => u
  end.

Definition buildUpdates (changes : list Change) : Updates :=
  fold_left applyChange changes
    {| up_set := emptySet; up_addFlags := []; up_removeFlags := [];
       up_update := false |}.

Definition orKeep {A} (o : option A) (a : A) : A :=
  match o with Some v => v | None => a end.

(** [$set] on a message document. *)
Definition applySet (d : SetDoc) (m : Message) : Message :=
  set_m_unseen (orKeep (s_unseen d) (m_unseen m))
    (set_m_undeleted (orKeep (s_undeleted d) (m_undeleted m))
       (set_m_flagged (orKeep (s_flagged d) (m_flagged m))
          (set_m_draft (orKeep (s_draft d) (m_draft m))
             (set_m_exp (orKeep (s_exp d) (m_exp m))
                (set_m_rdate (orKeep (s_rdate d) (m_rdate m))
                   (set_m_modseq (orKeep (s_modseq d) (m_modseq m)) m)))))).

(** [$pull: {flags: {$in: l}}] *)
Definition pull (l : list string) (flags : list string) : list string :=
  filter (fun f => negb (existsb (String.eqb f) l)) flags.

(** The update document on a message: [$set], [$addToSet] and [$pull]. *)
Definition applyUpdates (u : Updates) (m : Message) : Message :=
  let m := applySet (up_set u) m in
  set_m_flags (pull (up_removeFlags u) (addToSet (up_addFlags u) (m_flags m))) m.

(** The server refuses an update document in which two operators address
    the same path: [$addToSet] and [$pull] both on [flags]. *)
Definition conflicting (u : Updates) : bool :=
  match up_addFlags u, up_removeFlags u with
  | _ :: _, _ :: _ => true
  | _, _ => false
  end.

(** [messages.findOneAndUpdate(q, updates, {projection})] *)
Definition updateMessage (q : Message -> bool) (u : Updates)
    : M (option Message) :=
  if conflicting u then call (fun s => (tt, s)) ;;; fail StoreError
  else on_messages (findOneAndUpdate q (applyUpdates u) None).

Definition fetchEntry (messageData : Message) (unseenChange : bool)
    : JournalEntry :=
  {| je_command := FETCH; je_uid := m_uid messageData;
     je_message := m_id messageData; je_modseq := None; je_unseen := None;
     je_ignore := None; je_junk := None;
     je_flags := Some (m_flags messageData);
     je_unseenChange := Some unseenChange |}.

(** [!!changes.seen] *)
Definition changesSeen (changes : list Change) : bool :=
  existsb (fun c => match c with ChSeen true => true | _ => false end) changes.

(** The callback [done] of [update], lines 1104-1120. *)
Definition updateDone (mailboxData : Mailbox) (notifyEntries : list JournalEntry)
    (updatedCount : Z) (err : option Error) : M Z :=
  (match notifyEntries with
   | [] => ret tt
   | _ =>
       addEntries (ScopeMailbox mailboxData) notifyEntries ;;;
       fire (mb_user mailboxData) (mb_path mailboxData)
   end) ;;;
  match err with
  | Some e => fail e
  | None => ret updatedCount
  end.

(** [processNext] of [update], lines 1122-1173. *)
Fixpoint updateNext (mailbox : ObjectID) (mailboxData : Mailbox)
    (u : Updates) (unseenChange : bool) (cursor : list Message)
    (notifyEntries : list JournalEntry) (updatedCount : Z) : M Z :=
  attempt cursorNext
    (fun err => updateDone mailboxData notifyEntries updatedCount (Some err))
    (fun _ =>
       match cursor with
       | [] => updateDone mailboxData notifyEntries updatedCount None
       | messageData :: rest =>
           attempt
             (updateMessage
                (isMessage (m_id messageData) mailbox (m_uid messageData)) u)
             (fun err =>
                updateDone mailboxData notifyEntries updatedCount (Some err))
             (fun item =>
                match item with
                | None =>
                    updateNext mailbox mailboxData u unseenChange rest
                      notifyEntries updatedCount
                | Some messageData =>
                    let notifyEntries :=
                      notifyEntries ++ [fetchEntry messageData unseenChange] in
                    if (BULK_BATCH_SIZE <=? length notifyEntries)%nat then
                      addEntries (ScopeMailbox mailboxData) notifyEntries ;;;
                      fire (mb_user mailboxData) (mb_path mailboxData) ;;;
                      updateNext mailbox mailboxData u unseenChange rest
                        [] (updatedCount + 1)
                    else
                      updateNext mailbox mailboxData u unseenChange rest
                        notifyEntries (updatedCount + 1)
                end)
       end).

(** [update(user, mailbox, messageQuery, changes, callback)], lines
    988-1177. *)
Definition update (user mailbox : ObjectID) (messageQuery : Z -> bool)
    (changes : list Change) : M Z :=
  let updates := buildUpdates changes in
  if negb (up_update updates) then fail NothingChanged
  else
    (* acquire new MODSEQ *)
    item <- on_mailboxes
      (findOneAndUpdate
         (fun m => byId mailbox m && (mb_user m =? user)%nat)
         incModifyIndex (Some false)) ;;
    match item with
    | None => fail MailboxMissingPlain
    | Some mailboxData =>
        let updates :=
          {| up_set := set_s_modseq (mb_modifyIndex mailboxData) (up_set updates);
             up_addFlags := up_addFlags updates;
             up_removeFlags := up_removeFlags updates;
             up_update := up_update updates |} in
        fun s =>
          let cursor :=
            filter (inMailbox (mb_id mailboxData) messageQuery) (messages s) in
          updateNext mailbox mailboxData updates (changesSeen changes) cursor
            [] 0 s
    end.

(* ================================================================== *)
(** * Part 7. The COPY hook, [lib/handlers/on-copy.js] *)
(* ================================================================== *)

Record CopyUpdate := {
  cu_destination : string;
  cu_messages : list Z
}.

(** What [callback] receives without an error: the sentinels
    ['NONEXISTENT'] and ['TRYCREATE'], or [true] with the UID lists. *)
Inductive CopyResult :=
| NONEXISTENT
| TRYCREATE
| Copied (uidValidity : Z) (sourceUid destinationUid : list Z).

(** The local counters and arrays of the hook. *)
Record CopyAcc := {
  copiedMessages : nat;
  copiedStorage : Z;
  cp_sourceUid : list Z;
  cp_destinationUid : list Z
}.

(** The local [updateQuota] of the hook, lines 53-68; its callback takes
    no error. *)
Definition copyUpdateQuota (mailbox : Mailbox) (acc : CopyAcc) : M unit :=
  match copiedMessages acc with
  | O => ret tt
  | _ =>
      ignoring (on_users
        (findOneAndUpdate (userById (mb_user mailbox))
           (incStorage (copiedStorage acc)) None))
  end.

(** The document that the hook inserts for [message], lines 117-143. *)
Definition copiedMessage (target : Mailbox) (id : ObjectID) (uidNext : Z)
    (message : Message) : Message :=
  {| m_id := id;
     m_root := m_root message;
     m_mailbox := mb_id target;
     m_user := m_user message;
     m_uid := uidNext;
     m_modseq := m_modseq message;
     m_thread := m_thread message;
     m_flags := m_flags message;
     m_unseen := m_unseen message;
     m_flagged := m_flagged message;
     m_undeleted := m_undeleted message;
     m_draft := m_draft message;
     m_exp := negb (mb_retention target =? 0);
     m_rdate := now + mb_retention target;
     m_searchable := negb (isJunkOrTrash (mb_specialUse target));
     m_junk := fst (junkTransition target message);
     m_meta := obj_set "source" (VStr "IMAPCOPY") (m_meta message);
     m_content := m_content message |}.

(** What one message of [processNext] ends with: the arrays for the next
    message, or the sentinel that ends the hook. *)
Inductive CopyStep :=
| CopyNext (acc : CopyAcc)
| CopyLost (acc : CopyAcc).

(** One message of [processNext], lines 90-186.  The source UID enters
    [sourceUid] before the destination UID is reserved; an error hands the
    counters it was reached with to [updateQuota]. *)
Definition copyOne (session : Session) (target : Mailbox) (acc : CopyAcc)
    (message : Message) : M CopyStep :=
  let acc :=
    {| copiedMessages := copiedMessages acc;
       copiedStorage := copiedStorage acc;
       cp_sourceUid := m_uid message :: cp_sourceUid acc;
       cp_destinationUid := cp_destinationUid acc |} in
  item <- on_mailboxes
    (findOneAndUpdate (byId (mb_id target)) incUidNext None) ;;
  match item with
  | None => ret (CopyLost acc)
  | Some item =>
      let uidNext := mb_uidNext item in
      id <- newObjectID ;;
      let copied := copiedMessage target id uidNext message in
      let junk := snd (junkTransition target message) in
      on_messages (fun c => (tt, c ++ [copied])) ;;;
      let acc :=
        {| copiedMessages := S (copiedMessages acc);
           copiedStorage := copiedStorage acc + c_size (m_content copied);
           cp_sourceUid := cp_sourceUid acc;
           cp_destinationUid := uidNext :: cp_destinationUid acc |} in
      (match attachmentIdsOf (c_mimeTree (m_content copied)) with
       | [] => ret tt
       | attachmentIds =>
           ignoring (updateMany attachmentIds 1 (c_magic (m_content copied)))
       end) ;;;
      addEntries (ScopeUserPath (ss_user session) (mb_path target))
        [withJunk junk
           (entry EXISTS (m_uid copied) (m_id copied) None (m_unseen copied)
              None)] ;;;
      ret (CopyNext acc)
  end.

(** [processNext] of the hook, lines 72-188. *)
Fixpoint copyNext (session : Session) (mailbox target : Mailbox)
    (cursor : list Message) (acc : CopyAcc) : M CopyResult :=
  attempt cursorNext
    (fun err => copyUpdateQuota mailbox acc ;;; fail err)
    (fun _ =>
       match cursor with
       | [] =>
           copyUpdateQuota mailbox acc ;;;
           fire (ss_user session) (mb_path target) ;;;
           ret (Copied (mb_uidValidity target) (cp_sourceUid acc)
                  (cp_destinationUid acc))
       | message :: rest =>
           attempt (copyOne session target acc message)
             (fun err => copyUpdateQuota mailbox acc ;;; fail err)
             (fun step =>
                match step with
                | CopyLost acc => copyUpdateQuota mailbox acc ;;; ret TRYCREATE
                | CopyNext acc => copyNext session mailbox target rest acc
                end)
       end).

(** The hook [(path, update, session, callback)], lines 8-192. *)
Definition onCopy (path : string) (update : CopyUpdate) (session : Session)
    : M CopyResult :=
  mailbox <- on_mailboxes (fun c =>
    (findOne (mailboxQuery (RefPath (ss_user session) path)) c, c)) ;;
  match mailbox with
  | None => ret NONEXISTENT
  | Some mailbox =>
      target <- on_mailboxes (fun c =>
        (findOne
           (mailboxQuery (RefPath (ss_user session) (cu_destination update)))
           c, c)) ;;
      match target with
      | None => ret TRYCREATE
      | Some target =>
          fun s =>
            let cursor :=
              sortByUid
                (filter
                   (inMailbox (mb_id mailbox)
                      (checkRangeQuery (cu_messages update)))
                   (messages s)) in
            copyNext session mailbox target cursor
              {| copiedMessages := 0; copiedStorage := 0;
                 cp_sourceUid := []; cp_destinationUid := [] |} s
      end
  end.

End Database.

(* ================================================================== *)
(** * Part 8. Inputs of the scenarios and notions of the statements *)
(* ================================================================== *)

Module AuthScenario.

Import Auth.

(** The fields that [authenticate] splits the token into. *)
Definition fieldsOf (token : jsstring) : list jsstring :=
  split_on NUL (Utf8.toString (Base64.decode token)).

(** A server without accounts. *)
Definition noAccounts : AuthRequest -> AuthReply := fun _ => AuthNoUser.

Definition plainConnection : Connection :=
  {| cn_id := 1; cn_secure := true; cn_disableSTARTTLS := false;
     cn_ignoreSTARTTLS := false; cn_onAuth := Some noAccounts;
     cn_state := NotAuthenticated; cn_session_user := None;
     cn_awaiting := false; cn_sent := []; cn_log := [] |}.

(** The request that [authenticate] hands to the hook for a token. *)
Definition requestOf (token : jsstring) : AuthRequest :=
  {| ar_method := "PLAIN";
     ar_username := trim (nth 1 (fieldsOf token) []);
     ar_password := trim (nth 2 (fieldsOf token) []) |}.

Fixpoint sameUnits (a b : jsstring) : bool :=
  match a, b with
  | [], [] => true
  | x :: a, y :: b => (x =? y)%N && sameUnits a b
  | _, _ => false
  end.

(** A server with one account, [alice] with the password [secret], on a
    connection with TLS. *)
Definition alice : AuthUser := {| au_id := 1; au_username := lit "alice" |}.

Definition aliceOnly : AuthRequest -> AuthReply :=
  fun req =>
    if String.eqb (ar_method req) "PLAIN"
       && sameUnits (ar_username req) (lit "alice")
       && sameUnits (ar_password req) (lit "secret")
    then AuthOk alice else AuthNoUser.

Definition tlsConnection : Connection :=
  {| cn_id := 1; cn_secure := true; cn_disableSTARTTLS := false;
     cn_ignoreSTARTTLS := false; cn_onAuth := Some aliceOnly;
     cn_state := NotAuthenticated; cn_session_user := None;
     cn_awaiting := false; cn_sent := []; cn_log := [] |}.

End AuthScenario.

Module SseSpec.

Import Obj Sse.
Open Scope string_scope.

(** Whether [formatJournalData] leaves the key out of the payload. *)
Definition leftOut (e : JsObject) (key : string) : bool :=
  includes OMITTED key || (notCounters e && String.eqb key "unseen").

(** A line: a string without a line feed. *)
Definition oneLine (l : string) : Prop :=
  forall i, String.get i l <> Some "010"%char.

(** A journal document as the endpoint reads it, with every key that the
    notifier and the handlers write. *)
Definition journalDoc : JsObject :=
  [("_id", VOid "5f1"); ("command", VStr "EXISTS"); ("uid", VNum 7);
   ("unseen", VBool true); ("ignore", VStr "session1"); ("user", VOid "aa");
   ("modseq", VNum 11); ("unseenChange", VBool true); ("created", VNum 1);
   ("mailbox", VOid "bb"); ("message", VOid "cc")].

(** A printer that puts every key on a line of its own, and the
    [toString] of an id. *)
Definition keyPerLine (o : JsObject) : string :=
  String.concat (String "010"%char EmptyString) (obj_keys o).

Definition idToString (v : JsValue) : string :=
  match v with
  | VOid hex => hex
  | VStr s => s
  | _ => ""
  end.

(** What the cursor of the updates endpoint yields in the scenario of the
    stream: a new message in [bb], a flag change without effect on the
    unseen count in [cc], an entry without a command, an expunge in [bb]
    and a flag change in [dd] that changes the unseen count. *)
Definition streamDocs : list JsObject :=
  [[("_id", VOid "e1"); ("command", VStr "EXISTS"); ("mailbox", VOid "bb")];
   [("_id", VOid "e2"); ("command", VStr "FETCH"); ("mailbox", VOid "cc")];
   [("_id", VOid "e3"); ("mailbox", VOid "ee")];
   [("_id", VOid "e4"); ("command", VStr "EXPUNGE"); ("mailbox", VOid "bb")];
   [("_id", VOid "e5"); ("command", VStr "FETCH"); ("mailbox", VOid "dd");
    ("unseenChange", VBool true)]].

(** Three messages in every mailbox, one of them unseen. *)
Definition threeOneUnseen : string -> bool -> JsValue :=
  fun _ unseen => VNum (if unseen then 1 else 3).

End SseSpec.

Module Scenario.

(** A database without driver failures. *)
Definition reliable : nat -> bool := fun _ => false.

(** The hash of the thread resolver is immaterial in the scenarios. *)
Definition anyDigest : jsstring -> string := fun _ => "".

Definition mailbox (id : ObjectID) (path : string) (uidNext modifyIndex : Z)
    : Mailbox :=
  {| mb_id := id; mb_user := 1%nat; mb_path := path; mb_specialUse := None;
     mb_uidValidity := 1500000000; mb_uidNext := uidNext;
     mb_modifyIndex := modifyIndex; mb_retention := 0; mb_subscribed := true |}.

Definition content (size hdate : Z) (msgid : string) : Content :=
  {| c_idate := hdate; c_hdate := hdate; c_size := size; c_msgid := msgid;
     c_subject := lit "hello"; c_magic := "magic";
     c_mimeTree := {| attachmentMap := []; parsedHeader := [] |};
     c_attachments := []; c_ha := false; c_text := None; c_intro := None;
     c_html := None; c_filters := []; c_opaque := [] |}.

Definition message (id mailbox : ObjectID) (uid modseq size : Z)
    (msgid : string) : Message :=
  {| m_id := id; m_root := id; m_mailbox := mailbox; m_user := 1%nat;
     m_uid := uid; m_modseq := modseq; m_thread := 900%nat; m_flags := [];
     m_unseen := true; m_flagged := false; m_undeleted := true;
     m_draft := false; m_exp := false; m_rdate := 0; m_searchable := true;
     m_junk := false; m_meta := [];
     m_content := content size 1704067200000 msgid |}.

Definition store (mailboxes : list Mailbox) (messages : list Message)
    (storageUsed : Z) : Store :=
  {| mailboxes := mailboxes; messages := messages;
     users := [{| u_id := 1%nat; u_storageUsed := storageUsed |}];
     threads := []; attachments := []; journal := []; fired := [];
     wire := []; nextOid := 1000%nat; ops := 0%nat |}.

(** ** Add and duplicate: a mailbox at [(5, 10)], a message dated
    2024-01-01 with message id [<x@y>]. *)
Definition inbox : Mailbox := mailbox 10 "INBOX" 5 10.

Definition addStore : Store := store [inbox] [] 100.

Definition prepared : Prepared :=
  {| p_id := 500%nat;
     p_mimeTree := {| attachmentMap := []; parsedHeader := [] |};
     p_size := 42; p_idate := 1704067200000; p_hdate := 1704067200000;
     p_msgid := "<x@y>"; p_subject := lit "hello"; p_opaque := [] |}.

Definition addOptions : AddOptions :=
  {| ao_target := RefId 10%nat None; ao_prepared := prepared;
     ao_maildata := {| md_attachments := []; md_text := lit "hi there";
                       md_html := []; md_magic := "magic" |};
     ao_flags := []; ao_meta := []; ao_filters := [];
     ao_session := None; ao_skipExisting := false |}.

(** The same message handed in again under a new id, with the mailbox
    given as the document that the caller read before the first add
    ([options.mailbox] with an [_id], lines 49-52). *)
Definition staleOptions : AddOptions :=
  {| ao_target := RefObject inbox;
     ao_prepared :=
       {| p_id := 501%nat;
          p_mimeTree := {| attachmentMap := []; parsedHeader := [] |};
          p_size := 42; p_idate := 1704067200000; p_hdate := 1704067200000;
          p_msgid := "<x@y>"; p_subject := lit "hello"; p_opaque := [] |};
     ao_maildata := {| md_attachments := []; md_text := lit "hi there";
                       md_html := []; md_magic := "magic" |};
     ao_flags := []; ao_meta := []; ao_filters := [];
     ao_session := None; ao_skipExisting := false |}.

(** ** Delete: the user holds 142 bytes, 42 of them in the message with
    UID 5. *)
Definition delStore : Store :=
  store [mailbox 10 "INBOX" 6 11] [message 500 10 5 11 42 "<x@y>"] 142.

Definition delOptions : DelOptions :=
  {| do_message := message 500 10 5 11 42 "<x@y>"; do_mailbox := None;
     do_session := None |}.

(** ** Move: UIDs 7 and 9 (and 8, which stays) from a source at
    [(10, 20)] to a destination at [(3, 4)]. *)
Definition moveStore : Store :=
  store [mailbox 10 "INBOX" 10 20; mailbox 20 "Archive" 3 4]
    [message 509 10 9 19 10 "<c@y>"; message 507 10 7 17 10 "<a@y>";
     message 508 10 8 18 10 "<b@y>"] 30.

Definition moveOptions : MoveOptions :=
  {| mo_source := RefId 10%nat None; mo_destination := RefId 20%nat None;
     mo_messageQuery := None; mo_messages := [7; 9]; mo_returnIds := false;
     mo_updates := []; mo_markAsSeen := false; mo_session := None |}.

(** Modelled from the spec: [consts.BULK_BATCH_SIZE] ([lib/consts.js] is
    not part of the sources) is 150. *)
Definition BULK_BATCH_SIZE : nat := 150.

(** ** Update: one message, neither starred nor a draft. *)
Definition updateStore : Store :=
  store [mailbox 10 "INBOX" 6 11] [message 500 10 5 11 42 "<x@y>"] 142.

(** ** Copy: the store of the move, copied instead. *)
Definition copySession : Session :=
  {| ss_id := 77%nat; ss_user := 1%nat; ss_selected := Some "INBOX" |}.

Definition copyUpdate : CopyUpdate :=
  {| cu_destination := "Archive"; cu_messages := [7; 9] |}.

End Scenario.

(* ================================================================== *)
(** * Part 9. Notions of the statements on [add] *)
(* ================================================================== *)

Section AddSpec.

Variable now : Z.
Variables MAX_PLAINTEXT_CONTENT MAX_HTML_CONTENT : nat.

(** The three parts of the database that the statements on [add] are
    about. *)
Definition core (s : Store) : list Mailbox * list Message * list JournalDoc :=
  (mailboxes s, messages s, journal s).

(** What a fresh [add] leaves: the slot it reserved from the record [pre]
    as it was, the message in that slot, the journal entry, the result. *)
Definition addedFresh (options : AddOptions) (mailboxData : Mailbox)
    (s : Store) (r : AddResult) (s' : Store) : Prop :=
  exists pre thread,
    findOne (byId (mb_id mailboxData)) (mailboxes s) = Some pre
    /\ mailboxes s'
       = updateFirst (byId (mb_id mailboxData)) incBoth (mailboxes s)
    /\ messages s'
       = messages s
         ++ [messageData now MAX_PLAINTEXT_CONTENT MAX_HTML_CONTENT options
               (mb_retention mailboxData) pre thread]
    /\ journal s'
       = journal s
         ++ [(ScopeMailbox pre,
              entry EXISTS (mb_uidNext pre) (p_id (ao_prepared options))
                (Some (mb_modifyIndex pre + 1))
                (negb (hasFlag (ao_flags options) "\Seen"))
                (ignoreOf (ao_session options)))]
    /\ r = {| r_uidValidity := Some (mb_uidValidity pre);
              r_uid := mb_uidNext pre;
              r_id := p_id (ao_prepared options);
              r_mailbox := mb_id pre;
              r_status := StatusNew |}.

(** What [add] leaves when it rewrote the duplicate [existing]. *)
Definition replacedDuplicate (options : AddOptions) (mailboxData : Mailbox)
    (existing : Message) (s : Store) (r : AddResult) (s' : Store) : Prop :=
  exists pre old,
    findOne (byId (mb_id mailboxData)) (mailboxes s) = Some pre
    /\ findOne (isMessage (m_id existing) (mb_id pre) (m_uid existing))
         (messages s) = Some old
    /\ r = {| r_uidValidity := Some (mb_uidValidity pre);
              r_uid := mb_uidNext pre;
              r_id := m_id existing;
              r_mailbox := mb_id pre;
              r_status := StatusUpdate |}
    /\ mailboxes s'
       = updateFirst (byId (mb_id mailboxData)) incBoth (mailboxes s)
    /\ messages s'
       = updateFirst (isMessage (m_id existing) (mb_id pre) (m_uid existing))
           (fun m => set_m_flags (ao_flags options)
                       (set_m_modseq (mb_modifyIndex pre + 1)
                          (set_m_uid (mb_uidNext pre) m)))
           (messages s)
    /\ journal s'
       = journal s
         ++ [(ScopeMailbox pre,
              entry EXPUNGE (m_uid existing) (m_id existing) None
                (m_unseen existing) (ignoreOf (ao_session options)));
             (ScopeMailbox pre,
              entry EXISTS (mb_uidNext pre) (m_id existing)
                (Some (mb_modifyIndex pre + 1)) (m_unseen old)
                (ignoreOf (ao_session options)))].

End AddSpec.

(** The entries of a journal, as command, UID and message id. *)
Definition summary (j : list JournalDoc) : list (Command * Z * ObjectID) :=
  map (fun d => (je_command (snd d), je_uid (snd d), je_message (snd d))) j.

(* ================================================================== *)
(** * Part 9b. Notions of the statements on [move] and on the COPY hook *)
(* ================================================================== *)

(** The UIDs [uid], [uid + 1], ... handed out by [n] reservations. *)
Fixpoint uidsFrom (uid : Z) (n : nat) : list Z :=
  match n with
  | O => []
  | S k => uid :: uidsFrom (uid + 1) k
  end.

(** The total size of a list of messages. *)
Definition totalSize (l : list Message) : Z :=
  fold_right (fun m n => c_size (m_content m) + n) 0 l.

Section CopySpec.

Variable now : Z.

(** The documents that the COPY hook inserts for the messages of the
    cursor, when the ids are drawn from [id] on and the UIDs from [uid]
    on. *)
Fixpoint copiesFrom (target : Mailbox) (id : ObjectID) (uid : Z)
    (cursor : list Message) : list Message :=
  match cursor with
  | [] => []
  | m :: r =>
      copiedMessage now target id uid m :: copiesFrom target (S id) (uid + 1) r
  end.

(** The documents that [move] inserts, likewise. *)
Fixpoint movedFrom (options : MoveOptions) (target : Mailbox) (id : ObjectID)
    (uid : Z) (cursor : list Message) : list Message :=
  match cursor with
  | [] => []
  | m :: r =>
      movedMessage now options target id uid m
      :: movedFrom options target (S id) (uid + 1) r
  end.

(** The EXISTS entries that [move] makes for those documents. *)
Fixpoint existsFrom (options : MoveOptions) (target : Mailbox) (id : ObjectID)
    (uid : Z) (cursor : list Message) : list JournalEntry :=
  match cursor with
  | [] => []
  | m :: r =>
      withJunk (snd (junkTransition target m))
        (entry EXISTS uid id None
           (m_unseen (movedMessage now options target id uid m)) None)
      :: existsFrom options target (S id) (uid + 1) r
  end.

End CopySpec.

(** The EXPUNGE entries that [move] makes for the messages it takes out of
    the source. *)
Definition expungeOf (options : MoveOptions) (cursor : list Message)
    : list JournalEntry :=
  map (fun m => entry EXPUNGE (m_uid m) (m_id m) None (m_unseen m)
                  (ignoreOf (mo_session options))) cursor.

(** What [move] and the COPY hook return for a message: its id with
    [returnIds], its UID otherwise. *)
Definition refOf (returnIds : bool) (m : Message) : Ref :=
  if returnIds then RId (m_id m) else RUid (m_uid m).

(** The mailbox record that [getMailbox] hands on for a reference, in a
    database that answers. *)
Definition resolve (ref : MailboxRef) (s : Store) : option Mailbox :=
  match ref with
  | RefObject m => Some m
  | _ => findOne (mailboxQuery ref) (mailboxes s)
  end.

(** The journal documents of a run of [move] that starts with the entries
    [R] and [E] waiting and then makes the pairs [new] of an EXPUNGE and an
    EXISTS entry, one pair per message, for a batch size [bulk]. *)
Fixpoint moveJournal (bulk : nat) (source target : Mailbox)
    (R E : list JournalEntry) (new : list (JournalEntry * JournalEntry))
    : list JournalDoc :=
  match new with
  | [] =>
      match E with
      | [] => []
      | _ => map (pair (ScopeMailbox source)) R
             ++ map (pair (ScopeMailbox target)) E
      end
  | (r, e) :: rest =>
      if (bulk <=? length (E ++ [e]))%nat then
        (map (pair (ScopeMailbox source)) (R ++ [r])
         ++ map (pair (ScopeMailbox target)) (E ++ [e]))
        ++ moveJournal bulk source target [] [] rest
      else moveJournal bulk source target (R ++ [r]) (E ++ [e]) rest
  end.

(** The documents whose id is none of [ids]. *)
Definition withoutIds (ids : list ObjectID) (l : list Message) : list Message :=
  filter (fun x => negb (existsb (Nat.eqb (m_id x)) ids)) l.

(** A collection of messages with unique ids, all drawn from the counter
    of the database. *)
Definition uniqueIds (s : Store) : Prop :=
  NoDup (map m_id (messages s))
  /\ forall m, In m (messages s) -> (m_id m < nextOid s)%nat.

(** Every message of [s] is still there in [s'], or a message with its
    content and its owner is. *)
Definition covers (s s' : Store) : Prop :=
  forall m, In m (messages s) ->
    exists m', In m' (messages s')
               /\ m_content m' = m_content m /\ m_user m' = m_user m.

(** The documents of a mailbox that a query on the UID selects, in UID
    order: what the cursors of [move] and of the COPY hook run over. *)
Definition selected (mailbox : ObjectID) (query : Z -> bool) (s : Store)
    : list Message :=
  sortByUid (filter (inMailbox mailbox query) (messages s)).

(** The UIDs of the journal entries with command [c], in journal order. *)
Definition uidsOf (c : Command) (j : list JournalDoc) : list Z :=
  map (fun d => je_uid (snd d))
    (filter (fun d => match je_command (snd d), c with
                      | EXISTS, EXISTS | EXPUNGE, EXPUNGE
                      | FETCH, FETCH | COUNTERS, COUNTERS => true
                      | _, _ => false
                      end) j).
(* ================================================================== *)
(** * Part 9c. Notions for reasoning about computations *)
(* ================================================================== *)

(** [m] never changes the part [proj] of the database, whatever it
    returns. *)
Definition keeps {F A} (proj : Store -> F) (m : M A) : Prop :=
  forall s, proj (snd (m s)) = proj s.

(** A part of the database other than the call counter. *)
Definition data {F} (proj : Store -> F) : Prop :=
  forall n s, proj (set_ops n s) = proj s.

(** [b] is the message [a], or [a] with another MODSEQ, which only a
    message with an id from [n0] on can have got. *)
Definition restamped (n0 : ObjectID) (a b : Message) : Prop :=
  b = a \/ ((n0 <= m_id a)%nat /\ b = set_m_modseq (m_modseq b) a).

(** [b] is the mailbox record [a] with its [modifyIndex] as it was or
    raised. *)
Definition raised (a b : Mailbox) : Prop :=
  b = set_mb_modifyIndex (mb_modifyIndex b) a
  /\ mb_modifyIndex a <= mb_modifyIndex b.

(** Both absent, or both present and related. *)
Definition optRel {A} (R : A -> A -> Prop) (x y : option A) : Prop :=
  match x, y with
  | Some a, Some b => R a b
  | None, None => True
  | _, _ => False
  end.

(** The mailbox that the notifier takes the scope for, if any, has the
    id [id]. *)
Definition scopeIs (scope : Scope) (id : ObjectID) (s : Store) : Prop :=
  forall t, findOne (inScope scope) (mailboxes s) = Some t -> mb_id t = id.

(** The entries that [move] holds back for the next flush: removals, and
    additions that announce documents with ids from [n0] on. *)
Definition pending (n0 : ObjectID) (acc : MoveAcc) : Prop :=
  Forall (fun e => je_command e = EXPUNGE) (removeEntries acc)
  /\ Forall (fun e => unnumbered e = true /\ (n0 <= je_message e)%nat)
       (existsEntries acc).

(** When [m] hands an error on, it has left the part [proj] of the
    database alone. *)
Definition quiet {F A} (proj : Store -> F) (m : M A) : Prop :=
  forall s e s', m s = (Fail e, s') -> proj s' = proj s.

(** Every error that [m] hands on is one of [P]. *)
Definition raises {A} (P : Error -> Prop) (m : M A) : Prop :=
  forall s e s', m s = (Fail e, s') -> P e.

(** [m] hands no error on. *)
Definition succeeds {A} (m : M A) : Prop :=
  forall s, exists a s', m s = (Ok a, s').

(** What the clients can see of the database: the messages, the journal,
    the pokes and the frames written to the sessions. *)
Definition effects (s : Store)
    : list Message * list JournalDoc * list (ObjectID * string) * list Frame :=
  (messages s, journal s, fired s, wire s).

(** Every stored message has a UID below the [uidNext] of the record of
    its mailbox. *)
Definition uidsBelowNext (s : Store) : Prop :=
  forall m rec,
    In m (messages s) ->
    findOne (byId (m_mailbox m)) (mailboxes s) = Some rec ->
    m_uid m < mb_uidNext rec.

(** The keys of [changes] that [update] knows. *)
Definition recognised (c : Change) : bool :=
  match c with
  | ChOther _ => false
  | _ => true
  end.

(** The update document of [update] for the mailbox record [rec] as it
    was found: that of the changes, with the new MODSEQ in [$set]. *)
Definition updatesFor (changes : list Change) (rec : Mailbox) : Updates :=
  {| up_set := set_s_modseq (mb_modifyIndex rec + 1)
                 (up_set (buildUpdates changes));
     up_addFlags := up_addFlags (buildUpdates changes);
     up_removeFlags := up_removeFlags (buildUpdates changes);
     up_update := up_update (buildUpdates changes) |}.

(** The boolean columns of a message say what its flags say. *)
Definition consistent (m : Message) : Prop :=
  m_unseen m = negb (hasFlag (m_flags m) "\Seen")
  /\ m_undeleted m = negb (hasFlag (m_flags m) "\Deleted")
  /\ m_flagged m = hasFlag (m_flags m) "\Flagged"
  /\ m_draft m = hasFlag (m_flags m) "\Draft".
(* ================================================================== *)
(** * Part 9d. The journal stream of the updates endpoint and the hooks
      that look a mailbox up by its path *)
(* ================================================================== *)

Module Stream.

Import Obj Sse.
Open Scope string_scope.
Open Scope list_scope.

(** What [cursor.next] hands to its callback before the cursor is
    exhausted: a document or an error. *)
Inductive CursorItem :=
| Doc (e : JsObject)
| Broken (message : string).

(** What [done] receives. *)
Inductive StreamResult :=
| StreamDone (lastEventId : JsValue) (processed : nat)
| StreamError (message : string).

(** [mailboxes.add(x)] on a [Set] of strings, in insertion order. *)
Definition setAdd (x : string) (set : list string) : list string :=
  if includes set x then set else set ++ [x].

Section LoadJournalStream.

Variable stringify : JsObject -> string.
Variable toString : JsValue -> string.

(** Modelled from the spec: [tools.getMailboxCounter(db, mailbox, type,
    cb)] ([lib/tools.js] is not part of the sources) hands the number of
    messages of the mailbox, all or the unseen ones, to its callback; its
    error is ignored here, the count is then undefined. *)
Variable getMailboxCounter : string -> bool -> JsValue.

(** The mailbox that the [switch] of lines 233-245 adds for the entry. *)
Definition touches (e : JsObject) : option string :=
  let mailbox := obj_get "mailbox" e in
  match obj_get "command" e with
  | VStr c =>
      if String.eqb c "EXISTS" || String.eqb c "EXPUNGE" then
        if truthy mailbox then Some (toString mailbox) else None
      else if String.eqb c "FETCH" then
        if truthy mailbox
           && (truthy (obj_get "unseen" e) || truthy (obj_get "unseenChange" e))
        then Some (toString mailbox) else None
      else None
  | _ => None
  end.

(** The frame of lines 205-213 for one mailbox of the set;
    [new ObjectID(mailbox)] gives the id back that [toString] was called
    on. *)
Definition countersFrame (lastEventId : JsValue) (mailbox : string) : string :=
  formatJournalData stringify toString
    [("command", VStr "COUNTERS"); ("_id", lastEventId);
     ("mailbox", VOid mailbox); ("total", getMailboxCounter mailbox false);
     ("unseen", getMailboxCounter mailbox true)].

(** [processNext] of [loadJournalStream], lines 179-255, over what the
    cursor yields: the frames written to [res], and what [done] gets. *)
Fixpoint processNext (cursor : list CursorItem) (lastEventId : JsValue)
    (mailboxes : list string) (processed : nat) (written : list string)
    : list string * StreamResult :=
  match cursor with
  | [] =>
      (written ++ map (countersFrame lastEventId) mailboxes,
       StreamDone lastEventId processed)
  | Broken message :: _ => (written, StreamError message)
  | Doc e :: rest =>
      let lastEventId := obj_get "_id" e in
      if negb (truthy (obj_get "command" e)) then
        (* skip *)
        processNext rest lastEventId mailboxes processed written
      else
        processNext rest lastEventId
          (match touches e with
           | Some mailbox => setAdd mailbox mailboxes
           | None => mailboxes
           end)
          (S processed)
          (written ++ [formatJournalData stringify toString e])
  end.

(** [loadJournalStream(db, req, res, user, lastEventId, done)], lines
    169-259; [cursor] is what the query for the user's entries after
    [lastEventId], in [_id] order, yields. *)
Definition loadJournalStream (cursor : list CursorItem) (lastEventId : JsValue)
    : list string * StreamResult :=
  processNext cursor lastEventId [] 0 [].

(** The entries that have a command. *)
Definition withCommand (docs : list JsObject) : list JsObject :=
  filter (fun e => truthy (obj_get "command" e)) docs.

(** The set of mailboxes with the mailbox that an entry touches. *)
Definition collect (set : list string) (e : JsObject) : list string :=
  match touches e with
  | Some mailbox => setAdd mailbox set
  | None => set
  end.

(** The mailboxes that the entries touch, each once, in the order in which
    they first appear. *)
Definition touched (docs : list JsObject) : list string :=
  fold_left collect (withCommand docs) [].

End LoadJournalStream.

End Stream.

(* ------------------------------------------------------------------ *)
(** ** The hooks OPEN and UNSUBSCRIBE *)

Section PathHooks.

Variable fails : nat -> bool.

(** What the OPEN hook hands to its callback: ['NONEXISTENT'], or the
    mailbox record with its [uidList]. *)
Inductive OpenResult :=
| OpenNonexistent
| Opened (mailbox : Mailbox) (uidList : list Z).

(** The hook of SELECT and EXAMINE, [(path, session, callback)]: the
    mailbox of the user at the path, with the UIDs of its messages in
    ascending order. *)
Definition onOpen (path : string) (session : Session) : M OpenResult :=
  mailbox <- on_mailboxes fails (fun c =>
    (findOne (mailboxQuery (RefPath (ss_user session) path)) c, c)) ;;
  match mailbox with
  | None => ret OpenNonexistent
  | Some mailbox =>
      messages <- on_messages fails (fun c =>
        (sortByUid (filter (fun m => (m_mailbox m =? mb_id mailbox)%nat) c),
         c)) ;;
      ret (Opened mailbox (map m_uid messages))
  end.

(** What the UNSUBSCRIBE hook hands to its callback: ['NONEXISTENT'] or
    [true]. *)
Inductive UnsubscribeResult :=
| UnsubscribeNonexistent
| Unsubscribed.

(** The hook of UNSUBSCRIBE, [(path, session, callback)]. *)
Definition onUnsubscribe (path : string) (session : Session)
    : M UnsubscribeResult :=
  item <- on_mailboxes fails
    (findOneAndUpdate (mailboxQuery (RefPath (ss_user session) path))
       (set_mb_subscribed false) None) ;;
  match item with
  | None => ret UnsubscribeNonexistent
  | Some _ => ret Unsubscribed
  end.

End PathHooks.

(* ================================================================== *)
(** * Part 10. Properties of the derived text fields *)
(* ================================================================== *)

Section TextFacts.

Lemma byteLength_ascii_run (n : nat) : byteLength (repeat 97%N n) = n.
Proof.
  unfold byteLength. induction n as [|n IH]; simpl; [reflexivity|].
  now rewrite IH.
Qed.

Lemma firstn_run {A} (x : A) (k n : nat) :
  (k <= n)%nat -> firstn k (repeat x n) = repeat x k.
Proof.
  revert n. induction k as [|k IH]; intros [|n] Hk; simpl; try reflexivity.
  - lia.
  - f_equal. apply IH. lia.
Qed.

(** Nothing empty stays in the stored array. *)
Lemma storedHtml_no_empty (limit : nat) (html stored : list jsstring) :
  storedHtml limit html = Some stored -> Forall (fun h => h <> []) stored.
Proof.
  unfold storedHtml. destruct html as [|h r]; [discriminate|].
  intros [= <-]. apply Forall_forall. intros x Hx.
  apply filter_In in Hx. destruct Hx as [_ Hx]. now destruct x.
Qed.

(** C7 (as the code has it).  With a budget [limit >= 1], a single HTML part
    of [2 * limit + 1] ASCII characters is cut to its first [limit + 1]
    characters: the cut keeps as many characters as the part exceeds the
    budget by, so the stored array holds [limit + 1] bytes, one more than
    [MAX_HTML_CONTENT]. *)
Theorem html_budget_overrun (limit : nat) :
  (1 <= limit)%nat ->
  storedHtml limit [repeat 97%N (2 * limit + 1)]
    = Some [repeat 97%N (limit + 1)]
  /\ htmlBytes [repeat 97%N (limit + 1)] = (limit + 1)%nat
  /\ (limit < htmlBytes [repeat 97%N (limit + 1)])%nat.
Proof.
  intros Hl.
  assert (Hb : htmlBytes [repeat 97%N (limit + 1)] = (limit + 1)%nat).
  { unfold htmlBytes. simpl. rewrite byteLength_ascii_run. lia. }
  split; [|split; [exact Hb | rewrite Hb; lia]].
  unfold storedHtml, mapHtml.
  replace (limit <=? 0)%nat with false by (symmetry; apply Nat.leb_gt; lia).
  replace (nonEmpty (repeat 97%N (2 * limit + 1))) with true
    by (rewrite Nat.add_comm; reflexivity).
  cbn [negb orb]. rewrite byteLength_ascii_run.
  replace (0 + (2 * limit + 1) <=? limit)%nat with false
    by (symmetry; apply Nat.leb_gt; lia).
  unfold substr0.
  replace (0 + (2 * limit + 1) - limit)%nat with (limit + 1)%nat by lia.
  rewrite firstn_run by lia.
  cbn [filter]. now rewrite Nat.add_comm.
Qed.

Lemma html_budget_overrun_witness :
  storedHtml 10 [repeat 97%N (2 * 10 + 1)] = Some [repeat 97%N (10 + 1)]
  /\ htmlBytes [repeat 97%N (10 + 1)] = (10 + 1)%nat
  /\ (10 < htmlBytes [repeat 97%N (10 + 1)])%nat.
Proof. apply (html_budget_overrun 10). lia. Defined.

(** ** The intro *)

Lemma lastIndexOf_range (x : N) (s : jsstring) :
  -1 <= lastIndexOf x s < Z.of_nat (length s).
Proof.
  induction s as [|c r IH]; simpl length; cbn [lastIndexOf]; [lia|].
  destruct (0 <=? lastIndexOf x r) eqn:E.
  - apply Z.leb_le in E. lia.
  - destruct (c =? x)%N; lia.
Qed.

Lemma lastIndexOf_absent (x : N) (s : jsstring) :
  lastIndexOf x s < 0 -> forall j, nth_error s j <> Some x.
Proof.
  induction s as [|c r IH]; intros Hneg j.
  - now destruct j.
  - cbn [lastIndexOf] in Hneg.
    destruct (0 <=? lastIndexOf x r) eqn:E.
    + apply Z.leb_le in E. lia.
    + apply Z.leb_gt in E. destruct (c =? x)%N eqn:Ec; [lia|].
      destruct j as [|j]; simpl.
      * intros [= ->]. now rewrite N.eqb_refl in Ec.
      * now apply IH.
Qed.

Lemma lastIndexOf_found (x : N) (s : jsstring) :
  0 <= lastIndexOf x s ->
  nth_error s (Z.to_nat (lastIndexOf x s)) = Some x
  /\ forall j, (Z.to_nat (lastIndexOf x s) < j)%nat -> nth_error s j <> Some x.
Proof.
  induction s as [|c r IH]; cbn [lastIndexOf]; [lia|].
  destruct (0 <=? lastIndexOf x r) eqn:E.
  - apply Z.leb_le in E. intros _. destruct (IH E) as [Hk Hlast].
    replace (Z.to_nat (lastIndexOf x r + 1)) with (S (Z.to_nat (lastIndexOf x r)))
      by lia.
    split; [exact Hk|]. intros [|j] Hj; [lia|]. simpl. apply Hlast. lia.
  - apply Z.leb_gt in E. destruct (c =? x)%N eqn:Ec; [|lia]. intros _.
    apply N.eqb_eq in Ec. subst c. split; [reflexivity|].
    intros [|j] Hj; [lia|]. simpl. now apply lastIndexOf_absent.
Qed.

(** The shape of [cutIntro] on a long text: a prefix [p] of it, then the
    ellipsis. *)
Lemma cutIntro_long (c : jsstring) :
  (128 < length c)%nat ->
  let k := lastIndexOf SPACE (firstn 128 c) in
  cutIntro c = (if 0 <? k then firstn (Z.to_nat k) c else firstn 128 c)
               ++ [ELLIPSIS].
Proof.
  intros Hlen k. unfold cutIntro, substr0.
  replace (128 <? length c)%nat with true by (symmetry; apply Nat.ltb_lt; lia).
  fold k. destruct (0 <? k) eqn:Ek; [|reflexivity].
  rewrite firstn_firstn. f_equal. f_equal.
  pose proof (lastIndexOf_range SPACE (firstn 128 c)) as Hr. fold k in Hr.
  rewrite length_firstn in Hr. lia.
Qed.

End TextFacts.

(** C8 (as stated) fails: a text of 129 letters without white space is cut
    to its first 128 letters and gets the ellipsis, 129 characters. *)
Lemma intro_of_129_letters :
  storedIntro 1000 (repeat 97%N 129) = Some (repeat 97%N 128 ++ [ELLIPSIS])
  /\ ~ (length (repeat 97%N 128 ++ [ELLIPSIS]) <= 128)%nat.
Proof.
  split; [vm_compute; reflexivity|].
  rewrite length_app, repeat_length. simpl. lia.
Qed.

(** C8 (amended).  For a non-empty text, with [c] its white-space-collapsed
    form: [intro] is [c] itself when [c] has at most 128 characters;
    otherwise it is a prefix [p] of [c] of at most 128 characters followed
    by the ellipsis, where [p] ends before the last space among the first
    128 characters when there is one past the first position, and is the
    first 128 characters when there is none.  The intro has at most 129
    characters, and at most 128 when it was cut at a space. *)
Theorem intro_is_cut_prefix (limit : nat) (text : jsstring) :
  text <> [] ->
  let c := collapsedText limit text in
  exists intro,
    storedIntro limit text = Some intro
    /\ ((length c <= 128)%nat -> intro = c)
    /\ ((128 < length c)%nat ->
        exists p q,
          intro = p ++ [ELLIPSIS] /\ c = p ++ q /\ (length p <= 128)%nat
          /\ ((exists k, (0 < k < 128)%nat /\ nth_error c k = Some SPACE) ->
              exists k,
                (0 < k < 128)%nat /\ p = firstn k c
                /\ nth_error c k = Some SPACE
                /\ (forall j, (k < j < 128)%nat -> nth_error c j <> Some SPACE)
                /\ (length intro <= 128)%nat)
          /\ ((forall k, (0 < k < 128)%nat -> nth_error c k <> Some SPACE) ->
              p = firstn 128 c /\ length intro = 129%nat))
    /\ (length intro <= 129)%nat.
Proof.
  intros Hne c. exists (cutIntro c).
  assert (Hs : storedIntro limit text = Some (cutIntro c)).
  { unfold storedIntro. destruct text; [contradiction|reflexivity]. }
  split; [exact Hs|].
  assert (Hshort : (length c <= 128)%nat -> cutIntro c = c).
  { intros Hle. unfold cutIntro.
    now replace (128 <? length c)%nat with false
      by (symmetry; apply Nat.ltb_ge; lia). }
  destruct (Nat.leb_spec (length c) 128) as [Hle|Hgt].
  { split; [exact Hshort|]. split; [lia|]. rewrite Hshort by lia. lia. }
  split; [lia|].
  pose proof (cutIntro_long c Hgt) as Hcut. cbv zeta in Hcut.
  set (k := lastIndexOf SPACE (firstn 128 c)) in *.
  pose proof (lastIndexOf_range SPACE (firstn 128 c)) as Hr. fold k in Hr.
  rewrite length_firstn in Hr.
  assert (Hin : forall j, (j < 128)%nat ->
                          nth_error (firstn 128 c) j = nth_error c j).
  { intros j Hj. rewrite nth_error_firstn.
    now replace (j <? 128)%nat with true by (symmetry; apply Nat.ltb_lt; lia). }
  destruct (0 <? k) eqn:Ek.
  - apply Z.ltb_lt in Ek.
    destruct (lastIndexOf_found SPACE (firstn 128 c)) as [Hk Hlast];
      [fold k; lia|]. fold k in Hk, Hlast.
    assert (Hlen : length (firstn (Z.to_nat k) c) = Z.to_nat k)
      by (apply firstn_length_le; lia).
    split.
    + intros _. exists (firstn (Z.to_nat k) c), (skipn (Z.to_nat k) c).
      split; [exact Hcut|]. split; [now rewrite firstn_skipn|].
      split; [rewrite Hlen; lia|]. split.
      * intros _. exists (Z.to_nat k). split; [lia|]. split; [reflexivity|].
        split; [rewrite <- Hin by lia; exact Hk|]. split.
        -- intros j Hj. rewrite <- Hin by lia. apply Hlast. lia.
        -- rewrite Hcut, length_app, Hlen. simpl. lia.
      * intros Hnone. exfalso. apply (Hnone (Z.to_nat k)); [lia|].
        rewrite <- Hin by lia. exact Hk.
    + rewrite Hcut, length_app, Hlen. simpl. lia.
  - apply Z.ltb_ge in Ek.
    assert (Hlen : length (firstn 128 c) = 128%nat)
      by (apply firstn_length_le; lia).
    split.
    + intros _. exists (firstn 128 c), (skipn 128 c).
      split; [exact Hcut|]. split; [now rewrite firstn_skipn|].
      split; [lia|]. split.
      * intros [j [Hj Hsp]]. exfalso.
        destruct (Z.eq_dec k 0) as [Hk0|Hk0].
        -- destruct (lastIndexOf_found SPACE (firstn 128 c)) as [_ Hlast];
             [fold k; lia|]. fold k in Hlast.
           apply (Hlast j); [rewrite Hk0; simpl; lia|].
           rewrite Hin by lia. exact Hsp.
        -- apply (lastIndexOf_absent SPACE (firstn 128 c)) with (j := j);
             [fold k; lia|]. rewrite Hin by lia. exact Hsp.
      * intros _. split; [reflexivity|].
        rewrite Hcut, length_app, Hlen. reflexivity.
    + rewrite Hcut, length_app, Hlen. simpl. lia.
Qed.

Lemma intro_is_cut_prefix_witness :
  let c := collapsedText 1000 (lit "hello   world") in
  exists intro,
    storedIntro 1000 (lit "hello   world") = Some intro
    /\ ((length c <= 128)%nat -> intro = c)
    /\ ((128 < length c)%nat ->
        exists p q,
          intro = p ++ [ELLIPSIS] /\ c = p ++ q /\ (length p <= 128)%nat
          /\ ((exists k, (0 < k < 128)%nat /\ nth_error c k = Some SPACE) ->
              exists k,
                (0 < k < 128)%nat /\ p = firstn k c
                /\ nth_error c k = Some SPACE
                /\ (forall j, (k < j < 128)%nat -> nth_error c j <> Some SPACE)
                /\ (length intro <= 128)%nat)
          /\ ((forall k, (0 < k < 128)%nat -> nth_error c k <> Some SPACE) ->
              p = firstn 128 c /\ length intro = 129%nat))
    /\ (length intro <= 129)%nat.
Proof.
  apply (intro_is_cut_prefix 1000 (lit "hello   world")). discriminate.
Defined.

(* ================================================================== *)
(** * Part 11. SASL PLAIN arguments *)
(* ================================================================== *)

Module AuthFacts.

Import Auth AuthScenario.

(** The scenario token: base64 of NUL alice NUL hunter2. *)
Example fields_of_alice :
  fieldsOf (lit "AGFsaWNlAGh1bnRlcjI=") = [[]; lit "alice"; lit "hunter2"].
Proof. reflexivity. Qed.

(** C4 (as stated) fails on its own example: the three characters AAA are
    eighteen bits, two NUL bytes, and two NULs separate three empty fields;
    the handler hands them to the hook and answers what the hook decides,
    here NO AUTHENTICATIONFAILED. *)
Lemma token_AAA_is_not_refused :
  fieldsOf (lit "AAA") = [[]; []; []]
  /\ snd (handler plainConnection (Some (lit "AAA")))
     = Respond {| rs_response := "NO";
                  rs_code := Some "AUTHENTICATIONFAILED"%string;
                  rs_message := lit "Invalid credentials" |}
  /\ snd (handler plainConnection (Some (lit "AAA")))
     <> BAD "Invalid SASL argument".
Proof.
  split; [reflexivity|]. split; [reflexivity|]. vm_compute. discriminate.
Qed.

(** An answer of the hook is never the refusal of the argument. *)
Lemma hook_answer_not_BAD (onAuth : AuthRequest -> AuthReply)
    (connection : Connection) (token : jsstring) :
  length (fieldsOf token) = 3%nat ->
  snd (authenticate onAuth connection token) <> BAD "Invalid SASL argument".
Proof.
  intros H3. unfold authenticate. fold (fieldsOf token). rewrite H3. simpl.
  destruct (onAuth _); simpl; discriminate.
Qed.

(** C4 (amended).  A token whose decoded form does not split into exactly
    three NUL-separated fields is answered with BAD Invalid SASL argument,
    by [authenticate] and so by the handler that calls it (TLS in place,
    hook installed, token given with the command).  The token AAA is not
    such a token: it decodes to three empty fields and reaches the hook
    with an empty user name and an empty password. *)
Theorem bad_sasl_argument (onAuth : AuthRequest -> AuthReply)
    (connection : Connection) (token : jsstring) :
  length (fieldsOf token) <> 3%nat ->
  authenticate onAuth connection token = (connection, BAD "Invalid SASL argument")
  /\ (cn_secure connection = true ->
      cn_onAuth connection = Some onAuth ->
      trim token = token -> token <> [] ->
      handler connection (Some token)
        = (connection, BAD "Invalid SASL argument"))
  /\ fieldsOf (lit "AAA") = [[]; []; []]
  /\ authenticate onAuth connection (lit "AAA")
     = match onAuth {| ar_method := "PLAIN"; ar_username := [];
                       ar_password := [] |} with
       | AuthErr e =>
           (with_log connection (log_auth connection [] "fail" (Some e)),
            CallbackError e)
       | AuthNoUser =>
           (with_log connection (log_auth connection [] "fail" None),
            Respond {| rs_response := "NO";
                       rs_code := Some "AUTHENTICATIONFAILED"%string;
                       rs_message := lit "Invalid credentials" |})
       | AuthOk u =>
           (with_user
              (with_log connection (log_auth connection [] "success" None)) u,
            Respond {| rs_response := "OK"; rs_code := None;
                       rs_message := lit " authenticated" |})
       end.
Proof.
  intros Hn.
  assert (Ha : authenticate onAuth connection token
               = (connection, BAD "Invalid SASL argument")).
  { unfold authenticate. fold (fieldsOf token).
    destruct (Nat.eqb_spec (length (fieldsOf token)) 3) as [E|E];
      [contradiction|reflexivity]. }
  split; [exact Ha|]. split.
  - intros Hsec Hhook Htrim Hne. unfold handler.
    rewrite Hsec, Hhook, Htrim. cbn [negb andb].
    destruct token; [contradiction|]. cbn [nonEmpty negb]. exact Ha.
  - split; reflexivity.
Qed.

Lemma bad_sasl_argument_witness :
  authenticate noAccounts plainConnection (lit "AA")
    = (plainConnection, BAD "Invalid SASL argument")
  /\ handler plainConnection (Some (lit "AA"))
     = (plainConnection, BAD "Invalid SASL argument").
Proof.
  destruct (bad_sasl_argument noAccounts plainConnection (lit "AA"))
    as [Ha [Hh _]].
  - vm_compute. discriminate.
  - split; [exact Ha|]. apply Hh; [reflexivity|reflexivity|reflexivity|].
    discriminate.
Defined.

End AuthFacts.

(* ================================================================== *)
(** * Part 12. The payload of a journal frame *)
(* ================================================================== *)

Module SseFacts.

Import Obj Sse SseSpec.
Open Scope string_scope.

Lemma obj_lookup_set (key k : string) (v : JsValue) (o : JsObject) :
  obj_lookup k (obj_set key v o)
  = if String.eqb key k then Some v else obj_lookup k o.
Proof.
  induction o as [|[k' w] r IH]; simpl.
  - reflexivity.
  - destruct (String.eqb_spec k' key) as [->|Hne]; simpl.
    + destruct (String.eqb_spec key k); reflexivity.
    + rewrite IH. destruct (String.eqb_spec k' k) as [->|Hk]; [|reflexivity].
      destruct (String.eqb_spec key k) as [->|]; [contradiction|reflexivity].
Qed.

Lemma copyKey_lookup (e data : JsObject) (key k : string) :
  obj_lookup k (copyKey e data key)
  = if String.eqb key k && negb (leftOut e key)
    then Some (obj_get key e) else obj_lookup k data.
Proof.
  unfold copyKey, leftOut.
  destruct (includes OMITTED key); cbn [negb orb andb].
  - now rewrite andb_false_r.
  - destruct (notCounters e && String.eqb key "unseen"); cbn [negb].
    + now rewrite andb_false_r.
    + rewrite obj_lookup_set, andb_true_r. reflexivity.
Qed.

Lemma fold_copyKey_lookup (e : JsObject) (keys : list string) (k : string) :
  forall data,
    obj_lookup k (fold_left (copyKey e) keys data)
    = if existsb (String.eqb k) keys && negb (leftOut e k)
      then Some (obj_get k e) else obj_lookup k data.
Proof.
  induction keys as [|key r IH]; intros data; cbn [fold_left existsb].
  - reflexivity.
  - rewrite IH, copyKey_lookup.
    destruct (String.eqb_spec k key) as [->|Hne].
    + rewrite String.eqb_refl. cbn [orb andb].
      destruct (leftOut e key); cbn [negb andb];
        [now rewrite andb_false_r|].
      now destruct (existsb (String.eqb key) r).
    + destruct (String.eqb_spec key k) as [->|]; [contradiction|].
      reflexivity.
Qed.

Lemma append_assoc (a b c : string) :
  String.append (String.append a b) c = String.append a (String.append b c).
Proof. induction a as [|x a IH]; simpl; [reflexivity|now rewrite IH]. Qed.

Lemma lookup_keys (k : string) (e : JsObject) :
  existsb (String.eqb k) (obj_keys e) = false -> obj_lookup k e = None.
Proof.
  induction e as [|[k' v] r IH]; simpl; [reflexivity|].
  rewrite (String.eqb_sym k k'). destruct (String.eqb k' k); [discriminate|].
  exact IH.
Qed.

Lemma lookup_get (k : string) (e : JsObject) :
  existsb (String.eqb k) (obj_keys e) = true ->
  obj_lookup k e = Some (obj_get k e).
Proof.
  unfold obj_get. induction e as [|[k' v] r IH]; simpl; [discriminate|].
  rewrite (String.eqb_sym k k'). destruct (String.eqb k' k); [reflexivity|].
  exact IH.
Qed.

Lemma join_concat (sep : string) (l : list string) :
  join sep l = String.concat sep l.
Proof.
  induction l as [|x r IH]; [reflexivity|]. cbn [join String.concat].
  destruct r; [reflexivity|]. now rewrite IH.
Qed.

Lemma split_lines_cons (s : string) : exists h t, split_lines s = h :: t.
Proof.
  induction s as [|c r (h & t & IH)]; cbn [split_lines]; [eauto|].
  destruct (Ascii.eqb c "010"); [eauto|]. rewrite IH. eauto.
Qed.

(** [split('\n')] cuts the string at its line feeds, and nowhere else. *)
Lemma split_lines_concat (s : string) :
  String.concat NL (split_lines s) = s.
Proof.
  induction s as [|c r IH]; [reflexivity|]. cbn [split_lines].
  destruct (split_lines_cons r) as (h & t & E). rewrite E in *.
  destruct (Ascii.eqb_spec c "010") as [->|Hc].
  - change (String.concat NL ("" :: h :: t))
      with (String.append "" (String.append NL (String.concat NL (h :: t)))).
    rewrite IH. reflexivity.
  - destruct t as [|x t]; cbn [String.concat String.append] in *;
      now rewrite IH.
Qed.

Lemma oneLine_nil : oneLine "".
Proof. intros i. destruct i; discriminate. Qed.

Lemma oneLine_cons (c : ascii) (l : string) :
  c <> "010"%char -> oneLine l -> oneLine (String c l).
Proof.
  intros Hc Hl [|i]; cbn [String.get]; [congruence|apply Hl].
Qed.

Lemma split_lines_oneLine (s : string) : Forall oneLine (split_lines s).
Proof.
  induction s as [|c r IH]; cbn [split_lines].
  - repeat constructor. apply oneLine_nil.
  - destruct (Ascii.eqb_spec c "010") as [->|Hc].
    + constructor; [apply oneLine_nil|exact IH].
    + destruct (split_lines r) as [|h t].
      * repeat constructor. apply oneLine_cons; [exact Hc|apply oneLine_nil].
      * inversion IH; subst. constructor; [|assumption].
        now apply oneLine_cons.
Qed.

(** Joining with ["\ndata: "] behind a first ["data: "] puts ["data: "]
    before every line. *)
Lemma data_lines (h : string) (t : list string) :
  String.append "data: " (String.concat (String.append NL "data: ") (h :: t))
  = String.concat NL (map (String.append "data: ") (h :: t)).
Proof.
  revert h. induction t as [|x t IH]; intros h; [reflexivity|].
  change (String.concat (String.append NL "data: ") (h :: x :: t))
    with (String.append h
            (String.append (String.append NL "data: ")
               (String.concat (String.append NL "data: ") (x :: t)))).
  change (String.concat NL (map (String.append "data: ") (h :: x :: t)))
    with (String.append (String.append "data: " h)
            (String.append NL
               (String.concat NL (map (String.append "data: ") (x :: t))))).
  rewrite <- IH, !append_assoc. reflexivity.
Qed.

Lemma oneLine_inv (c : ascii) (l : string) :
  oneLine (String c l) -> c <> "010"%char /\ oneLine l.
Proof.
  intros H. split.
  - intros ->. now apply (H 0%nat).
  - intros i. apply (H (S i)).
Qed.

Lemma split_lines_one (h : string) : oneLine h -> split_lines h = [h].
Proof.
  induction h as [|c r IH]; intros H; [reflexivity|].
  apply oneLine_inv in H as [Hc Hr]. cbn [split_lines].
  destruct (Ascii.eqb_spec c "010"); [contradiction|]. now rewrite IH.
Qed.

Lemma split_lines_app (h rest : string) :
  oneLine h ->
  split_lines (String.append h (String.append NL rest))
  = h :: split_lines rest.
Proof.
  induction h as [|c r IH]; intros H; [reflexivity|].
  apply oneLine_inv in H as [Hc Hr]. cbn [String.append split_lines].
  destruct (Ascii.eqb_spec c "010"); [contradiction|]. now rewrite IH.
Qed.

(** The lines of a string are determined by the string. *)
Lemma split_lines_lines (lines : list string) :
  lines <> [] -> Forall oneLine lines ->
  split_lines (String.concat NL lines) = lines.
Proof.
  induction lines as [|h t IH]; intros Hne Hall; [contradiction|].
  inversion Hall as [|? ? Hh Ht]; subst.
  destruct t as [|x t]; [now apply split_lines_one|].
  change (String.concat NL (h :: x :: t))
    with (String.append h (String.append NL (String.concat NL (x :: t)))).
  rewrite split_lines_app by assumption. f_equal. apply IH; [discriminate|assumption].
Qed.

(** C9.  The object that [formatJournalData] serializes has none of the
    keys [_id], [ignore], [user], [modseq], [unseenChange], [created], has
    [unseen] only when the command is COUNTERS, and has every other key of
    the entry with the entry's value.  The frame puts [data: ] before
    every line of the serialized object; for an entry whose [_id] is an
    id, a line [id: ] with that id follows; the frame ends with an empty
    line. *)
Theorem sse_payload_keys (stringify : JsObject -> string)
    (toString : JsValue -> string) (e : JsObject) :
  let data := journalData e in
  let nl := String "010"%char EmptyString in
  (obj_lookup "_id" data = None /\ obj_lookup "ignore" data = None
   /\ obj_lookup "user" data = None /\ obj_lookup "modseq" data = None
   /\ obj_lookup "unseenChange" data = None
   /\ obj_lookup "created" data = None)
  /\ (obj_get "command" e <> VStr "COUNTERS" ->
      obj_lookup "unseen" data = None)
  /\ (obj_get "command" e = VStr "COUNTERS" ->
      obj_lookup "unseen" data = obj_lookup "unseen" e)
  /\ (forall key,
        key <> "_id" -> key <> "ignore" -> key <> "user" ->
        key <> "modseq" -> key <> "unseenChange" -> key <> "created" ->
        key <> "unseen" ->
        obj_lookup key data = obj_lookup key e)
  /\ exists lines,
       stringify data = String.concat nl lines
       /\ lines <> [] /\ Forall oneLine lines
       /\ (forall hex, obj_get "_id" e = VOid hex ->
           formatJournalData stringify toString e
           = String.append
               (String.concat nl (map (String.append "data: ") lines))
               (String.append nl
                  (String.append "id: "
                     (String.append (toString (VOid hex))
                        (String.append nl nl)))))
       /\ (obj_lookup "_id" e = None ->
           formatJournalData stringify toString e
           = String.append
               (String.concat nl (map (String.append "data: ") lines))
               (String.append nl nl)).
Proof.
  intros data nl. subst data.
  assert (Hall : forall key,
            obj_lookup key (journalData e)
            = if leftOut e key then None else obj_lookup key e).
  { intros key. unfold journalData. rewrite fold_copyKey_lookup.
    destruct (existsb (String.eqb key) (obj_keys e)) eqn:Hk; cbn [andb].
    - destruct (leftOut e key); cbn [negb]; [reflexivity|].
      symmetry. now apply lookup_get.
    - cbn [obj_lookup]. rewrite (lookup_keys _ _ Hk).
      now destruct (leftOut e key). }
  split; [rewrite !Hall; repeat split; reflexivity|].
  split.
  { intros Hc. rewrite Hall. unfold leftOut, notCounters.
    destruct (obj_get "command" e) as [| |b|z|s|h|l]; try reflexivity.
    destruct (String.eqb_spec s "COUNTERS") as [->|Hs];
      [contradiction|reflexivity]. }
  split.
  { intros Hc. rewrite Hall. unfold leftOut, notCounters. rewrite Hc.
    reflexivity. }
  split.
  { intros key H1 H2 H3 H4 H5 H6 H7. rewrite Hall.
    replace (leftOut e key) with false; [reflexivity|].
    symmetry. unfold leftOut, includes, OMITTED. cbn [existsb].
    repeat match goal with
           | |- context [String.eqb key ?k] =>
               destruct (String.eqb_spec key k); [contradiction|]
           end.
    now rewrite andb_false_r. }
  exists (split_lines (stringify (journalData e))).
  change nl with NL.
  split; [symmetry; apply split_lines_concat|].
  destruct (split_lines_cons (stringify (journalData e))) as (h & t & E).
  split; [rewrite E; discriminate|].
  split; [apply split_lines_oneLine|].
  unfold formatJournalData, idLine. cbv zeta.
  rewrite E, (join_concat _ (h :: t)), data_lines.
  split.
  - intros hex Hid. rewrite Hid. cbn [truthy List.app join].
    rewrite ?append_assoc. reflexivity.
  - intros Hid. unfold obj_get. rewrite Hid. cbn [truthy List.app join].
    reflexivity.
Qed.

Lemma sse_payload_keys_witness :
  obj_keys (journalData journalDoc) = ["command"; "uid"; "mailbox"; "message"]
  /\ formatJournalData keyPerLine idToString journalDoc
     = String.append "data: command"
         (String.append NL
            (String.append "data: uid"
               (String.append NL
                  (String.append "data: mailbox"
                     (String.append NL
                        (String.append "data: message"
                           (String.append NL
                              (String.append "id: 5f1"
                                 (String.append NL NL))))))))).
Proof.
  destruct (sse_payload_keys keyPerLine idToString journalDoc)
    as (_ & _ & _ & _ & lines & Hlines & Hne & Hone & Hid & _).
  split; [reflexivity|].
  rewrite (Hid "5f1" eq_refl).
  assert (E : split_lines (keyPerLine (journalData journalDoc)) = lines).
  { etransitivity; [exact (f_equal split_lines Hlines)|].
    apply split_lines_lines; assumption. }
  rewrite <- E. vm_compute. reflexivity.
Defined.

End SseFacts.

(* ================================================================== *)
(** * Part 13. Reasoning about computations on the database *)
(* ================================================================== *)

Section MonadFacts.

Variable fails : nat -> bool.

Lemma bind_ok {A B} (m : M A) (k : A -> M B) s b s' :
  bind m k s = (Ok b, s') ->
  exists a s1, m s = (Ok a, s1) /\ k a s1 = (Ok b, s').
Proof.
  unfold bind. destruct (m s) as [[a|e] s1]; [eauto|discriminate].
Qed.

Lemma attempt_ok {A B} (m : M A) (h : Error -> M B) (k : A -> M B) s b s' :
  attempt m h k s = (Ok b, s') ->
  (exists a s1, m s = (Ok a, s1) /\ k a s1 = (Ok b, s'))
  \/ (exists e s1, m s = (Fail e, s1) /\ h e s1 = (Ok b, s')).
Proof.
  unfold attempt. destruct (m s) as [[a|e] s1]; eauto.
Qed.

Lemma orElse_failing_ok {A} (m : M A) (h : Error -> M A) s a s' :
  (forall e s1, fst (h e s1) = Fail e) ->
  orElse m h s = (Ok a, s') -> m s = (Ok a, s').
Proof.
  intros Hh. unfold orElse. destruct (m s) as [[x|e] s1]; [trivial|].
  intros H. specialize (Hh e s1). rewrite H in Hh. discriminate.
Qed.

Lemma call_ok {A} (act : Store -> A * Store) s a s' :
  call fails act s = (Ok a, s') ->
  fails (ops s) = false /\ act (set_ops (S (ops s)) s) = (a, s').
Proof.
  unfold call. destruct (fails (ops s)); [discriminate|].
  destruct (act _) as [x s2]. intros [= -> ->]. auto.
Qed.

Lemma on_mailboxes_ok {A} (f : list Mailbox -> A * list Mailbox) s a s' :
  on_mailboxes fails f s = (Ok a, s') ->
  fst (f (mailboxes s)) = a
  /\ s' = set_mailboxes (snd (f (mailboxes s))) (set_ops (S (ops s)) s).
Proof.
  intros H. apply call_ok in H. destruct H as [_ H]. cbn in H.
  destruct (f (mailboxes s)) as [x c]. injection H as <- <-. auto.
Qed.

Lemma on_messages_ok {A} (f : list Message -> A * list Message) s a s' :
  on_messages fails f s = (Ok a, s') ->
  fst (f (messages s)) = a
  /\ s' = set_messages (snd (f (messages s))) (set_ops (S (ops s)) s).
Proof.
  intros H. apply call_ok in H. destruct H as [_ H]. cbn in H.
  destruct (f (messages s)) as [x c]. injection H as <- <-. auto.
Qed.

(** ** Parts of the database that a computation leaves alone *)

Lemma keeps_run {F A} (proj : Store -> F) (m : M A) s r s' :
  keeps proj m -> m s = (r, s') -> proj s' = proj s.
Proof. intros K H. specialize (K s). now rewrite H in K. Qed.

Lemma keeps_ret {F A} (proj : Store -> F) (a : A) : keeps proj (ret a).
Proof. intros s. reflexivity. Qed.

Lemma keeps_fail {F A} (proj : Store -> F) (e : Error) :
  keeps proj (@fail A e).
Proof. intros s. reflexivity. Qed.

Lemma keeps_bind {F A B} (proj : Store -> F) (m : M A) (k : A -> M B) :
  keeps proj m -> (forall a, keeps proj (k a)) -> keeps proj (bind m k).
Proof.
  intros Km Kk s. unfold bind. specialize (Km s).
  destruct (m s) as [[a|e] s1]; cbn in *; [|exact Km].
  now rewrite Kk.
Qed.

Lemma keeps_attempt {F A B} (proj : Store -> F) (m : M A) h (k : A -> M B) :
  keeps proj m -> (forall e, keeps proj (h e)) -> (forall a, keeps proj (k a)) ->
  keeps proj (attempt m h k).
Proof.
  intros Km Kh Kk s. unfold attempt. specialize (Km s).
  destruct (m s) as [[a|e] s1]; cbn in *; [rewrite Kk|rewrite Kh]; exact Km.
Qed.

Lemma keeps_orElse {F A} (proj : Store -> F) (m : M A) h :
  keeps proj m -> (forall e, keeps proj (h e)) -> keeps proj (orElse m h).
Proof.
  intros Km Kh s. unfold orElse. specialize (Km s).
  destruct (m s) as [[a|e] s1]; cbn in *; [|rewrite Kh]; exact Km.
Qed.

Lemma keeps_ignoring {F A} (proj : Store -> F) (m : M A) :
  keeps proj m -> keeps proj (ignoring m).
Proof. intros Km s. exact (Km s). Qed.

Lemma keeps_call {F A} (proj : Store -> F) (act : Store -> A * Store) :
  data proj -> (forall s, proj (snd (act s)) = proj s) ->
  keeps proj (call fails act).
Proof.
  intros D Ka s. unfold call. destruct (fails (ops s)); cbn; [apply D|].
  specialize (Ka (set_ops (S (ops s)) s)).
  destruct (act _) as [a s2]. cbn in *. now rewrite Ka, D.
Qed.

Lemma keeps_if {F A} (proj : Store -> F) (b : bool) (m1 m2 : M A) :
  keeps proj m1 -> keeps proj m2 -> keeps proj (if b then m1 else m2).
Proof. now destruct b. Qed.

Lemma keeps_modify {F} (proj : Store -> F) (f : Store -> Store) :
  (forall s, proj (f s) = proj s) -> keeps proj (modify f).
Proof. intros H s. apply H. Qed.

Lemma data_mailboxes : data mailboxes. Proof. now intros n s. Qed.
Lemma data_messages : data messages. Proof. now intros n s. Qed.
Lemma data_users : data users. Proof. now intros n s. Qed.
Lemma data_journal : data journal. Proof. now intros n s. Qed.
Lemma data_nextOid : data nextOid. Proof. now intros n s. Qed.

End MonadFacts.

(** ** The notifier *)

Section NotifierFacts.

(** Entries that the notifier only appends. *)
Lemma renumber_plain scope entries s :
  existsb unnumbered entries = false -> renumber scope entries s = s.
Proof. unfold renumber. now intros ->. Qed.

(** The notifier writes the journal, the MODSEQ of messages and the
    [modifyIndex] of a mailbox, and nothing else. *)
Lemma renumber_frame {F} (proj : Store -> F) scope entries s :
  (forall c x, proj (set_mailboxes c x) = proj x) ->
  (forall c x, proj (set_messages c x) = proj x) ->
  proj (renumber scope entries s) = proj s.
Proof.
  intros Hmb Hms. unfold renumber.
  destruct (existsb unnumbered entries); [|reflexivity].
  destruct (findOne _ _); [|reflexivity]. now rewrite Hms, Hmb.
Qed.

Lemma keeps_addEntries {F} (proj : Store -> F) scope entries :
  (forall c x, proj (set_mailboxes c x) = proj x) ->
  (forall c x, proj (set_messages c x) = proj x) ->
  (forall c x, proj (set_journal c x) = proj x) ->
  keeps proj (addEntries scope entries).
Proof.
  intros Hmb Hms Hj s. unfold addEntries, modify. cbn.
  rewrite Hj. now apply renumber_frame.
Qed.

Lemma addEntries_journal scope entries s :
  journal (snd (addEntries scope entries s))
  = journal s ++ map (pair scope) entries.
Proof.
  unfold addEntries, modify. cbn.
  now rewrite (renumber_frame journal) by reflexivity.
Qed.

Lemma restamped_refl n0 a : restamped n0 a a.
Proof. now left. Qed.

Lemma restamped_id n0 a b : restamped n0 a b -> m_id b = m_id a.
Proof. intros [->|[_ ->]]; reflexivity. Qed.

Lemma restamped_trans n0 a b c :
  restamped n0 a b -> restamped n0 b c -> restamped n0 a c.
Proof.
  intros [->|[Ha Hb]]; [trivial|]. intros [->|[_ Hc]].
  - right. auto.
  - right. split; [exact Ha|]. rewrite Hc at 1. rewrite Hb. reflexivity.
Qed.

Lemma restamped_mono n0 n1 a b :
  (n1 <= n0)%nat -> restamped n0 a b -> restamped n1 a b.
Proof. intros Hle [->|[Ha Hb]]; [now left|right]. split; [lia|exact Hb]. Qed.

(** A message below [n0] is as it was. *)
Lemma restamped_old n0 a b :
  restamped n0 a b -> (m_id a < n0)%nat -> b = a.
Proof. intros [->|[Ha _]] Hlt; [reflexivity|lia]. Qed.

(** What the queries of the handler read of a message is not its MODSEQ. *)
Lemma restamped_fields n0 a b :
  restamped n0 a b ->
  m_id b = m_id a /\ m_mailbox b = m_mailbox a /\ m_uid b = m_uid a
  /\ m_content b = m_content a /\ m_user b = m_user a
  /\ m_flags b = m_flags a /\ m_root b = m_root a.
Proof. intros [->|[_ ->]]; repeat split. Qed.

Lemma Forall2_restamped_refl n0 (l : list Message) :
  Forall2 (restamped n0) l l.
Proof. induction l; constructor; [apply restamped_refl|assumption]. Qed.

Lemma Forall2_restamped_trans n0 (l1 l2 l3 : list Message) :
  Forall2 (restamped n0) l1 l2 -> Forall2 (restamped n0) l2 l3 ->
  Forall2 (restamped n0) l1 l3.
Proof.
  intros H. revert l3. induction H as [|a b l1 l2 Hab H IH]; intros l3 H3;
    inversion H3; subst; constructor.
  - eapply restamped_trans; eassumption.
  - now apply IH.
Qed.

(** The messages after the notifier has been at them. *)
Lemma renumber_restamped n0 scope entries s :
  (forall e, In e entries -> unnumbered e = true -> (n0 <= je_message e)%nat) ->
  Forall2 (restamped n0) (messages s) (messages (renumber scope entries s)).
Proof.
  intros Hn. unfold renumber.
  destruct (existsb unnumbered entries); [|apply Forall2_restamped_refl].
  destruct (findOne _ _) as [mailboxData|]; [|apply Forall2_restamped_refl].
  cbn. induction (messages s) as [|m r IH]; cbn; constructor; [|exact IH].
  destruct (announced entries (mb_id mailboxData) m) eqn:E; [|now left].
  right. split; [|reflexivity].
  unfold announced in E. apply andb_true_iff in E. destruct E as [_ E].
  apply existsb_exists in E. destruct E as (e & Hin & He).
  apply andb_true_iff in He. destruct He as [Hu He].
  apply Nat.eqb_eq in He. rewrite <- He. now apply Hn.
Qed.

(** A query that does not read the MODSEQ finds the same documents. *)
Lemma deleteFirst_restamped n0 (q : Message -> bool) (l l' : list Message) :
  (forall a b, restamped n0 a b -> q b = q a) ->
  Forall2 (restamped n0) l l' ->
  Forall2 (restamped n0) (deleteFirst q l) (deleteFirst q l').
Proof.
  intros Hq. induction 1 as [|a b l l' Hab H IH]; cbn; [constructor|].
  rewrite (Hq a b Hab). destruct (q a); [exact H|]. now constructor.
Qed.

Lemma filter_restamped n0 (q : Message -> bool) (l l' : list Message) :
  (forall a b, restamped n0 a b -> q b = q a) ->
  Forall2 (restamped n0) l l' ->
  Forall2 (restamped n0) (filter q l) (filter q l').
Proof.
  intros Hq. induction 1 as [|a b l l' Hab H IH]; cbn; [constructor|].
  rewrite (Hq a b Hab). destruct (q a); [|exact IH]. now constructor.
Qed.

Lemma isMessage_restamped n0 id mailbox uid a b :
  restamped n0 a b -> isMessage id mailbox uid b = isMessage id mailbox uid a.
Proof. intros [->|[_ ->]]; reflexivity. Qed.

Lemma raised_refl a : raised a a.
Proof. split; [now destruct a|lia]. Qed.

Lemma raised_trans a b c : raised a b -> raised b c -> raised a c.
Proof.
  intros [Hb Hab] [Hc Hbc]. split; [|lia].
  rewrite Hc at 1. rewrite Hb. reflexivity.
Qed.

Lemma raised_fields a b :
  raised a b ->
  mb_id b = mb_id a /\ mb_user b = mb_user a /\ mb_path b = mb_path a
  /\ mb_uidNext b = mb_uidNext a /\ mb_uidValidity b = mb_uidValidity a
  /\ mb_specialUse b = mb_specialUse a /\ mb_retention b = mb_retention a
  /\ mb_subscribed b = mb_subscribed a.
Proof. intros [-> _]. repeat split. Qed.

Lemma optRel_refl {A} (R : A -> A -> Prop) (x : option A) :
  (forall a, R a a) -> optRel R x x.
Proof. intros H. destruct x; cbn; auto. Qed.

Lemma optRel_trans {A} (R : A -> A -> Prop) (x y z : option A) :
  (forall a b c, R a b -> R b c -> R a c) ->
  optRel R x y -> optRel R y z -> optRel R x z.
Proof.
  intros H. destruct x, y, z; cbn; try tauto. apply H.
Qed.

(** The record of a mailbox after one record has been rewritten by a
    function that keeps the ids. *)
Lemma findOne_byId_rewritten (R : Mailbox -> Mailbox -> Prop)
    (q : Mailbox -> bool) (f : Mailbox -> Mailbox) (id : ObjectID)
    (c : list Mailbox) :
  (forall m, mb_id (f m) = mb_id m) -> (forall m, R m m) ->
  (forall m, q m = true -> R m (f m)) ->
  optRel R (findOne (byId id) c) (findOne (byId id) (updateFirst q f c)).
Proof.
  intros Hid Hrefl Hf. unfold findOne, byId.
  induction c as [|x r IH]; cbn; [trivial|].
  destruct (q x) eqn:Eq; cbn.
  - rewrite Hid. destruct (mb_id x =? id)%nat; cbn; [now apply Hf|].
    apply optRel_refl, Hrefl.
  - destruct (mb_id x =? id)%nat; cbn; [apply Hrefl|exact IH].
Qed.

(** The record of a mailbox after the notifier has been called. *)
Lemma renumber_raised scope entries s id :
  optRel raised (findOne (byId id) (mailboxes s))
    (findOne (byId id) (mailboxes (renumber scope entries s))).
Proof.
  unfold renumber.
  destruct (existsb unnumbered entries);
    [|apply optRel_refl, raised_refl].
  destruct (findOne (inScope scope) (mailboxes s)) as [mailboxData|] eqn:E;
    [|apply optRel_refl, raised_refl].
  cbn. unfold findOne in E.
  assert (G : forall c,
            find (inScope scope) c = Some mailboxData ->
            optRel raised (findOne (byId id) c)
              (findOne (byId id)
                 (updateFirst (inScope scope)
                    (set_mb_modifyIndex (mb_modifyIndex mailboxData + 1)) c))).
  { intros c. unfold findOne, byId.
    induction c as [|x r IH]; cbn; [discriminate|].
    destruct (inScope scope x) eqn:Eq; cbn.
    - intros [= ->]. destruct (mb_id mailboxData =? id)%nat; cbn.
      + split; [reflexivity|cbn; lia].
      + apply optRel_refl, raised_refl.
    - intros H. destruct (mb_id x =? id)%nat; cbn;
        [apply raised_refl|now apply IH]. }
  now apply G.
Qed.

(** The uidNext of every record is as it was. *)
Lemma renumber_uidNext scope entries s id rec' :
  findOne (byId id) (mailboxes (renumber scope entries s)) = Some rec' ->
  exists rec, findOne (byId id) (mailboxes s) = Some rec /\ raised rec rec'.
Proof.
  intros H. pose proof (renumber_raised scope entries s id) as R.
  rewrite H in R. destruct (findOne (byId id) (mailboxes s)) as [rec|];
    [|contradiction]. eauto.
Qed.

End NotifierFacts.

Create HintDb keeps.

#[global] Hint Resolve keeps_ret keeps_fail keeps_bind keeps_attempt
  keeps_orElse keeps_ignoring keeps_if keeps_modify
  data_mailboxes data_messages data_users data_journal data_nextOid : keeps.

(** [keeps proj m] for a computation made of the primitives, when none of
    its steps writes the part. *)
Ltac head_of t :=
  match t with
  | ?f _ => head_of f
  | _ => t
  end.

Ltac keeps_step :=
  match goal with
  | |- forall _, _ => intro
  | |- keeps _ (match ?x with _ => _ end) => destruct x
  | |- keeps _ (bind _ _) => apply keeps_bind
  | |- keeps _ (attempt _ _ _) => apply keeps_attempt
  | |- keeps _ (orElse _ _) => apply keeps_orElse
  | |- keeps _ (ignoring _) => apply keeps_ignoring
  | |- keeps _ (ret _) => apply keeps_ret
  | |- keeps _ (fail _) => apply keeps_fail
  | |- keeps _ newObjectID => intro; reflexivity
  | |- keeps _ (modify _) => apply keeps_modify; intro; reflexivity
  | |- keeps _ (call _ _) =>
      apply keeps_call;
      [ intros ? ?; reflexivity
      | intro; repeat match goal with
                      | |- context [let (_, _) := ?p in _] => destruct p
                      end; reflexivity ]
  | |- keeps _ (addEntries _ _) =>
      first [ apply keeps_addEntries; intros; reflexivity
            | unfold addEntries; apply keeps_modify; intro; reflexivity ]
  | |- keeps _ ?m => let h := head_of m in progress unfold h
  end.

Ltac keeps_auto := repeat keeps_step.

(** From [H : m s = (Ok a, s')] for a [bind], a collection access or a
    return, the run of each part. *)
Ltac run_step H :=
  match type of H with
  | bind _ _ _ = (Ok _, _) =>
      let a := fresh "a" in
      let s1 := fresh "s" in
      let H1 := fresh "Hrun" in
      apply bind_ok in H; destruct H as (a & s1 & H1 & H)
  | ret _ _ = (Ok _, _) => unfold ret in H; inversion H; subst; clear H
  | fail _ _ = (Ok _, _) => discriminate H
  | modify _ _ = (Ok _, _) => unfold modify in H; inversion H; subst; clear H
  end.

(** The same for every run among the hypotheses, through the notifier and
    the session writes. *)
Ltac run_all :=
  repeat match goal with
  | H : bind _ _ _ = (Ok _, _) |- _ => run_step H
  | H : ret _ _ = (Ok _, _) |- _ => run_step H
  | H : fail _ _ = (Ok _, _) |- _ => discriminate H
  | H : modify _ _ = (Ok _, _) |- _ => run_step H
  | H : addEntries _ _ _ = (Ok _, _) |- _ => unfold addEntries in H
  | H : fire _ _ _ = (Ok _, _) |- _ => unfold fire in H
  | H : write _ _ = (Ok _, _) |- _ => unfold write in H
  | H : newObjectID _ = (Ok _, _) |- _ =>
      unfold newObjectID in H; inversion H; subst; clear H
  | H : (if ?b then _ else _) _ = (Ok _, _) |- _ => destruct b
  end.

(** From a run [H : m s0 = (r, s1)] of a computation that leaves the part
    [proj] alone, the equation [proj s1 = proj s0]. *)
Ltac kept proj H :=
  match type of H with
  | ?m ?s0 = (_, ?s1) =>
      let K := fresh "K" in
      assert (K : proj s1 = proj s0)
        by (eapply keeps_run; [|exact H]; keeps_auto);
      cbn in K
  end.

(* ================================================================== *)
(** * Part 14. [del] and the quota; [update] and the draft column *)
(* ================================================================== *)

Section DelFacts.

Variable fails : nat -> bool.

Lemma findOneAndUpdate_no_match {A} (f : A -> A) (opt : option bool) (c : list A) :
  findOneAndUpdate (fun _ => false) f opt c = (None, c).
Proof.
  unfold findOneAndUpdate, findOne.
  replace (find (fun _ => false) c) with (@None A); [reflexivity|].
  induction c; simpl; auto.
Qed.

(** Called with an [ObjectID], [updateQuota] finds no user. *)
Lemma updateQuota_of_id_keeps_users (id : ObjectID) (inc : option Z) :
  keeps users (updateQuota fails (ArgObjectID id) inc).
Proof.
  unfold updateQuota, on_users. cbn [propUser].
  apply keeps_call; [apply data_users|]. intros s.
  rewrite findOneAndUpdate_no_match. now destruct s.
Qed.

Lemma getMailbox_keeps {F} (proj : Store -> F) (options : MailboxRef) :
  data proj ->
  (forall s, proj (set_mailboxes (mailboxes s) s) = proj s) ->
  keeps proj (getMailbox fails options).
Proof.
  intros D Hm. unfold getMailbox, on_mailboxes.
  destruct options; try apply keeps_ret;
    (apply keeps_bind;
     [ apply keeps_call; [exact D|]; intros s; cbn; apply Hm
     | intros [m|]; [apply keeps_ret|apply keeps_fail] ]).
Qed.

Lemma del_keeps_users (options : DelOptions) : keeps users (del fails options).
Proof.
  unfold del.
  apply keeps_bind; [apply getMailbox_keeps; auto using data_users|].
  intros mailboxData.
  apply keeps_bind; [unfold on_messages; keeps_auto|]. intros _.
  apply keeps_bind;
    [apply keeps_ignoring, updateQuota_of_id_keeps_users|]. intros _.
  apply keeps_bind.
  { destruct (attachmentIdsOf _); [apply keeps_ret|].
    apply keeps_ignoring. unfold deleteMany, on_attachments. keeps_auto. }
  intros _. unfold write, addEntries, fire. keeps_auto.
Qed.

End DelFacts.

(** C5 (as the code has it).  [del] calls [updateQuota] with the id of the
    mailbox where the mailbox document is expected; the property [user] of
    an id is undefined and the update matches no user.  So no run of [del]
    changes any [storageUsed]: in the scenario the user holds 142 bytes
    before and after the message of 42 bytes is deleted, where the claim
    has 100. *)
Theorem del_leaves_storageUsed :
  (forall fails options s, users (snd (del fails options s)) = users s)
  /\ fst (del Scenario.reliable Scenario.delOptions Scenario.delStore) = Ok true
  /\ messages (snd (del Scenario.reliable Scenario.delOptions Scenario.delStore))
     = []
  /\ users (snd (del Scenario.reliable Scenario.delOptions Scenario.delStore))
     = [{| u_id := 1; u_storageUsed := 142 |}]
  /\ c_size (m_content (do_message Scenario.delOptions)) = 42.
Proof.
  split; [intros fails options s; apply del_keeps_users|].
  repeat split; reflexivity.
Qed.

Section UpdateFacts.

Lemma hasFlag_app (l : list string) (f g : string) :
  hasFlag (l ++ [g]) f = hasFlag l f || String.eqb f g.
Proof.
  unfold hasFlag. rewrite existsb_app. simpl. now rewrite orb_false_r.
Qed.

Lemma addToSet_one (flag : string) (flags : list string) :
  hasFlag (addToSet [flag] flags) flag = true.
Proof.
  unfold addToSet. cbn [fold_left].
  destruct (existsb (String.eqb flag) flags) eqn:E; [exact E|].
  rewrite hasFlag_app, String.eqb_refl. apply orb_true_r.
Qed.


Lemma existsb_filter_out {A} (p q : A -> bool) (l : list A) :
  (forall x, p x = true -> q x = true) ->
  existsb p (filter (fun x => negb (q x)) l) = false.
Proof.
  intros Hpq. induction l as [|x r IH]; [reflexivity|]. cbn [filter].
  destruct (q x) eqn:Eq; cbn [negb]; [exact IH|]. cbn [existsb].
  rewrite IH, orb_false_r. destruct (p x) eqn:Ep; [|reflexivity].
  apply Hpq in Ep. congruence.
Qed.

Lemma pull_one (flag : string) (flags : list string) :
  hasFlag (pull [flag] flags) flag = false.
Proof.
  unfold hasFlag, pull. apply existsb_filter_out. intros x Hx.
  apply String.eqb_eq in Hx. subst x. cbn. now rewrite String.eqb_refl.
Qed.

Lemma filter_all {A} (p : A -> bool) (l : list A) :
  (forall x, p x = true) -> filter p l = l.
Proof.
  intros Hp. induction l as [|x r IH]; [reflexivity|].
  cbn [filter]. now rewrite Hp, IH.
Qed.

Lemma pull_nil (flags : list string) : pull [] flags = flags.
Proof. unfold pull. now apply filter_all. Qed.

(** What the key [draft] alone does to a message. *)
Lemma applyUpdates_draft (m : Message) (value : bool) :
  applyUpdates (buildUpdates [ChDraft value]) m
  = set_m_flags
      (if value then addToSet ["\Draft"] (m_flags m)
       else pull ["\Draft"] (m_flags m))
      (applySet (set_s_flagged value emptySet) m).
Proof.
  unfold applyUpdates, buildUpdates.
  cbn [fold_left applyChange flagChange up_set up_addFlags up_removeFlags].
  destruct value; cbn [app].
  - now rewrite pull_nil.
  - reflexivity.
Qed.

(** No change key makes [update] write the column [draft]. *)
Lemma fold_applyChange_draft (changes : list Change) (u : Updates) :
  s_draft (up_set u) = None ->
  s_draft (up_set (fold_left applyChange changes u)) = None.
Proof.
  revert u. induction changes as [|c r IH]; intros u H; [exact H|].
  cbn [fold_left]. apply IH.
  destruct c as [v|v|v|v|[t|]|k]; cbn; auto.
Qed.

Lemma buildUpdates_never_sets_draft (changes : list Change) :
  s_draft (up_set (buildUpdates changes)) = None.
Proof. unfold buildUpdates. now apply fold_applyChange_draft. Qed.

End UpdateFacts.

(** C6 (as the code has it).  The key [draft] maintains the flag: a matched
    message has [\Draft] afterwards exactly when the value is true.  But
    the value is written to the column [flagged]; the column [draft] keeps
    what it had.  In the scenario, marking a message that is neither
    starred nor a draft as a draft leaves it with [flagged = true] and
    [draft = false]. *)
Theorem update_draft_writes_flagged :
  (forall (m : Message) (value : bool),
     let m' := applyUpdates (buildUpdates [ChDraft value]) m in
     hasFlag (m_flags m') "\Draft" = value
     /\ m_flagged m' = value
     /\ m_draft m' = m_draft m
     /\ m_unseen m' = m_unseen m /\ m_undeleted m' = m_undeleted m)
  /\ (let run := update Scenario.reliable 150 1 10 (fun uid => uid =? 5)
                   [ChDraft true] Scenario.updateStore in
      fst run = Ok 1
      /\ map (fun m => (m_uid m, m_flags m, m_flagged m, m_draft m, m_modseq m))
           (messages (snd run))
         = [(5, ["\Draft"], true, false, 12)]).
Proof.
  split.
  - intros m value m'. subst m'. rewrite applyUpdates_draft.
    split; [|repeat split].
    destruct value; cbn [m_flags set_m_flags];
      [apply addToSet_one|apply pull_one].
  - split; reflexivity.
Qed.

(* ================================================================== *)
(** * Part 15. [add]: the reserved slot, and the duplicate *)
(* ================================================================== *)

Section AddFacts.

Variable fails : nat -> bool.
Variable now : Z.
Variables MAX_PLAINTEXT_CONTENT MAX_HTML_CONTENT : nat.
Variable digest : jsstring -> string.

Lemma find_query_holds {A} (q q' : A -> bool) (c : list A) (d : A) :
  findOne q c = Some d -> q' d = true -> findOne q' c <> None.
Proof.
  unfold findOne. intros Hf Hq Hn. apply find_some in Hf.
  destruct Hf as [Hin _]. eapply find_none in Hn; eauto. congruence.
Qed.

Lemma findOne_holds {A} (q : A -> bool) (c : list A) (d : A) :
  findOne q c = Some d -> In d c /\ q d = true.
Proof. apply find_some. Qed.

Lemma byId_eq (id : ObjectID) (m : Mailbox) : byId id m = true -> mb_id m = id.
Proof. unfold byId. apply Nat.eqb_eq. Qed.

Lemma findOneAndUpdate_eq {A} (q : A -> bool) (f : A -> A) opt (c : list A) :
  findOneAndUpdate q f opt c
  = match findOne q c with
    | Some d => (Some (if returnOriginal opt then d else f d), updateFirst q f c)
    | None => (None, c)
    end.
Proof. reflexivity. Qed.

(** The run of the duplicate probe when it lets [add] go on. *)
Lemma checkExisting_none mb hdate msgid flags options s s' :
  checkExistingMessage fails mb hdate msgid flags options s = (Ok None, s') ->
  findOne (isDuplicate mb hdate msgid) (messages s) = None
  /\ mailboxes s' = mailboxes s /\ messages s' = messages s
  /\ journal s' = journal s.
Proof.
  unfold checkExistingMessage. intros H.
  run_step H. apply on_messages_ok in Hrun. cbn in Hrun.
  destruct Hrun as [<- ->].
  destruct (findOne (isDuplicate mb hdate msgid) (messages s))
    as [existing|] eqn:Ef.
  - exfalso. destruct (ao_skipExisting options); [run_step H|].
    run_step H. apply on_mailboxes_ok in Hrun. cbn in Hrun.
    destruct Hrun as [<- ->]. rewrite findOneAndUpdate_eq in H.
    destruct (findOne (byId (mb_id mb)) (mailboxes s)) as [pre|] eqn:Em;
      cbn in H; [|discriminate].
    run_step H. apply on_messages_ok in Hrun. cbn in Hrun.
    destruct Hrun as [<- ->]. rewrite findOneAndUpdate_eq in H.
    destruct (findOne (isMessage _ _ _) (messages s)) as [old|] eqn:Eo; cbn in H.
    + run_all.
    + apply findOne_holds in Ef. destruct Ef as [Hin Hd].
      apply findOne_holds in Em. destruct Em as [_ Hid]. apply byId_eq in Hid.
      unfold findOne in Eo. eapply find_none in Eo; [|exact Hin].
      unfold isMessage in Eo. unfold isDuplicate in Hd.
      rewrite !andb_true_iff in Hd. destruct Hd as [[[[Hmb _] _] _] _].
      rewrite Hid, Hmb, Nat.eqb_refl, Z.eqb_refl in Eo. discriminate.
  - run_step H. cbn. auto.
Qed.

(** The run of the duplicate probe when it ends [add]: the status is
    never [new]; with [update] the slot was reserved and the duplicate
    rewritten in place. *)
Lemma checkExisting_some mb hdate msgid flags options s info s' :
  checkExistingMessage fails mb hdate msgid flags options s = (Ok (Some info), s') ->
  exists existing,
    findOne (isDuplicate mb hdate msgid) (messages s) = Some existing
    /\ ((ao_skipExisting options = true
         /\ r_status info = StatusSkip /\ r_uid info = m_uid existing
         /\ r_id info = m_id existing /\ r_mailbox info = mb_id mb
         /\ mailboxes s' = mailboxes s /\ messages s' = messages s
         /\ journal s' = journal s)
        \/ (ao_skipExisting options = false
            /\ exists pre old,
                 findOne (byId (mb_id mb)) (mailboxes s) = Some pre
                 /\ findOne
                      (isMessage (m_id existing) (mb_id pre) (m_uid existing))
                      (messages s) = Some old
                 /\ info = {| r_uidValidity := Some (mb_uidValidity pre);
                              r_uid := mb_uidNext pre;
                              r_id := m_id existing;
                              r_mailbox := mb_id pre;
                              r_status := StatusUpdate |}
                 /\ mailboxes s'
                    = updateFirst (byId (mb_id mb)) incBoth (mailboxes s)
                 /\ messages s'
                    = updateFirst
                        (isMessage (m_id existing) (mb_id pre) (m_uid existing))
                        (fun m => set_m_flags flags
                                    (set_m_modseq (mb_modifyIndex pre + 1)
                                       (set_m_uid (mb_uidNext pre) m)))
                        (messages s)
                 /\ journal s'
                    = journal s
                      ++ [(ScopeMailbox pre,
                           entry EXPUNGE (m_uid existing) (m_id existing) None
                             (m_unseen existing)
                             (ignoreOf (ao_session options)));
                          (ScopeMailbox pre,
                           entry EXISTS (mb_uidNext pre) (m_id existing)
                             (Some (mb_modifyIndex pre + 1))
                             (m_unseen old)
                             (ignoreOf (ao_session options)))])).
Proof.
  unfold checkExistingMessage. intros H.
  run_step H. apply on_messages_ok in Hrun. cbn in Hrun.
  destruct Hrun as [<- ->].
  destruct (findOne (isDuplicate mb hdate msgid) (messages s))
    as [existing|] eqn:Ef; [|run_step H].
  exists existing. split; [reflexivity|].
  destruct (ao_skipExisting options).
  - left. run_step H. cbn. auto 10.
  - right. split; [reflexivity|].
    run_step H. apply on_mailboxes_ok in Hrun. cbn in Hrun.
    destruct Hrun as [<- ->]. rewrite findOneAndUpdate_eq in H.
    destruct (findOne (byId (mb_id mb)) (mailboxes s)) as [pre|] eqn:Em;
      cbn in H; [|discriminate].
    run_step H. apply on_messages_ok in Hrun. cbn in Hrun.
    destruct Hrun as [<- ->]. rewrite findOneAndUpdate_eq in H.
    destruct (findOne (isMessage _ _ _) (messages s)) as [old|] eqn:Eo; cbn in H;
      [|run_step H].
    exists pre, old. split; [reflexivity|]. split; [exact Eo|].
    assert (Hid : m_id old = m_id existing).
    { apply findOne_holds in Eo. destruct Eo as [_ Eo]. unfold isMessage in Eo.
      rewrite !andb_true_iff in Eo. destruct Eo as [[Eo _] _].
      now apply Nat.eqb_eq in Eo. }
    run_all; cbn; rewrite Hid, <- ?app_assoc; auto 10.
Qed.

Lemma cleanup_ok {A} ids magic (m : M A) s a s' :
  cleanup fails ids magic m s = (Ok a, s') -> m s = (Ok a, s').
Proof.
  unfold cleanup. apply orElse_failing_ok. intros e s1.
  destruct ids; [reflexivity|]. unfold bind, ignoring. reflexivity.
Qed.

Lemma rollback_ok {A} user size (m : M A) s a s' :
  rollback fails user size m s = (Ok a, s') -> m s = (Ok a, s').
Proof.
  unfold rollback. apply orElse_failing_ok. intros e s1.
  unfold bind, ignoring. reflexivity.
Qed.

Lemma core_eq s s' :
  core s' = core s ->
  mailboxes s' = mailboxes s /\ messages s' = messages s
  /\ journal s' = journal s.
Proof. unfold core. intros [= -> -> ->]. auto. Qed.

Lemma data_core : data core.
Proof. now intros n s. Qed.

(** The three ways in which [add] succeeds. *)
Lemma add_cases options s r s' :
  add fails now MAX_PLAINTEXT_CONTENT MAX_HTML_CONTENT digest options s
    = (Ok r, s') ->
  exists mailboxData,
    fst (getMailbox fails (ao_target options) s) = Ok mailboxData
    /\ match findOne (isDuplicate mailboxData (p_hdate (ao_prepared options))
                        (p_msgid (ao_prepared options))) (messages s) with
       | None =>
           addedFresh now MAX_PLAINTEXT_CONTENT MAX_HTML_CONTENT options
             mailboxData s r s'
       | Some existing =>
           if ao_skipExisting options
           then r_status r = StatusSkip /\ r_uid r = m_uid existing
                /\ r_id r = m_id existing
                /\ r_mailbox r = mb_id mailboxData /\ core s' = core s
           else replacedDuplicate options mailboxData existing s r s'
       end.
Proof.
  unfold add. intros H.
  run_step H. rename a into mailboxData, s0 into s0, Hrun into Hget.
  exists mailboxData. split; [now rewrite Hget|].
  assert (K0 : core s0 = core s).
  { eapply keeps_run; [|exact Hget].
    apply getMailbox_keeps; [apply data_core|]. now intros []. }
  apply core_eq in K0. destruct K0 as (Kmb0 & Kms0 & Kj0).
  run_step H. rename Hrun into Hprobe.
  destruct a as [info|].
  - run_step H. apply checkExisting_some in Hprobe.
    destruct Hprobe as (existing & Hfound & Hcase).
    rewrite Kms0 in Hfound. rewrite Hfound.
    destruct Hcase as [Hskip|Hupd].
    + destruct Hskip as (-> & Hst & Hu & Hi & Hbox & Hmb & Hms & Hj).
      repeat split; auto. unfold core. congruence.
    + destruct Hupd as (-> & pre & old & Hpre & Hold & Hr & Hmb & Hms & Hj).
      exists pre, old. rewrite Kmb0 in Hpre, Hmb. rewrite Kms0 in Hold, Hms.
      rewrite Kj0 in Hj. auto 10.
  - apply checkExisting_none in Hprobe.
    destruct Hprobe as (Hnodup & Kmb1 & Kms1 & Kj1).
    rewrite Kms0 in Hnodup. rewrite Hnodup.
    apply cleanup_ok in H.
    run_step H. rename Hrun into Hbodies.
    assert (K2 : core s2 = core s1).
    { eapply keeps_run; [|exact Hbodies]. keeps_auto. }
    apply core_eq in K2. destruct K2 as (Kmb2 & Kms2 & Kj2).
    run_step H. rename Hrun into Hquota.
    assert (K3 : core s3 = core s2).
    { eapply keeps_run; [|exact Hquota]. keeps_auto. }
    apply core_eq in K3. destruct K3 as (Kmb3 & Kms3 & Kj3).
    apply rollback_ok in H.
    run_step H. apply on_mailboxes_ok in Hrun. cbn in Hrun.
    destruct Hrun as [<- ->]. rewrite findOneAndUpdate_eq in H.
    assert (Emb : mailboxes s3 = mailboxes s) by congruence.
    assert (Ems : messages s3 = messages s) by congruence.
    assert (Ej : journal s3 = journal s) by congruence.
    rewrite Emb in H.
    destruct (findOne (byId (mb_id mailboxData)) (mailboxes s))
      as [pre|] eqn:Em; cbn in H; [|discriminate].
    run_step H. rename a1 into thread, Hrun into Hthread.
    assert (K5 : core s4
                 = core (set_mailboxes
                           (updateFirst (byId (mb_id mailboxData)) incBoth
                              (mailboxes s))
                           (set_ops (S (ops s3)) s3))).
    { eapply keeps_run; [|exact Hthread]. keeps_auto. }
    apply core_eq in K5. cbn in K5. destruct K5 as (Kmb5 & Kms5 & Kj5).
    run_step H. apply on_messages_ok in Hrun. cbn in Hrun.
    destruct Hrun as [_ ->].
    exists pre, thread. split; [exact Em|].
    run_all; cbn; rewrite ?Kmb5, ?Kms5, ?Kj5, ?Ems, ?Ej; auto 10.
Qed.

(** ** Lists with one more document at the end *)

Lemma findOne_last {A} (q : A -> bool) (c : list A) (d : A) :
  (forall x, In x c -> q x = false) -> q d = true ->
  findOne q (c ++ [d]) = Some d.
Proof.
  intros Hc Hd. unfold findOne. induction c as [|x r IH]; cbn.
  - now rewrite Hd.
  - rewrite (Hc x) by now left. apply IH. intros y Hy. apply Hc. now right.
Qed.

Lemma updateFirst_last {A} (q : A -> bool) (f : A -> A) (c : list A) (d : A) :
  (forall x, In x c -> q x = false) -> q d = true ->
  updateFirst q f (c ++ [d]) = c ++ [f d].
Proof.
  intros Hc Hd. induction c as [|x r IH]; cbn.
  - now rewrite Hd.
  - rewrite (Hc x) by now left. f_equal. apply IH. intros y Hy. apply Hc.
    now right.
Qed.

Lemma findOne_updateFirst {A} (q : A -> bool) (f : A -> A) (c : list A) (d : A) :
  (forall x, q (f x) = q x) -> findOne q c = Some d ->
  findOne q (updateFirst q f c) = Some (f d).
Proof.
  intros Hf. unfold findOne. induction c as [|x r IH]; cbn; [discriminate|].
  destruct (q x) eqn:Ex; cbn.
  - intros [= ->]. now rewrite Hf, Ex.
  - rewrite Ex. exact IH.
Qed.

Lemma findOne_none {A} (q : A -> bool) (c : list A) :
  (forall x, In x c -> q x = false) -> findOne q c = None.
Proof.
  intros Hc. unfold findOne. induction c as [|x r IH]; cbn; [reflexivity|].
  rewrite (Hc x) by now left. apply IH. intros y Hy. apply Hc. now right.
Qed.

Lemma byId_incBoth id m : byId id (incBoth m) = byId id m.
Proof. reflexivity. Qed.

End AddFacts.

(** C2 (as stated) fails: the reservation hands back the record as it was
    before the increment.  On the mailbox at [(5, 10)] the call returns
    the record reading [(5, 10)] while the collection holds [(6, 11)]. *)
Lemma reservation_returns_old_record :
  fst (findOneAndUpdate (byId 10) incBoth None [Scenario.inbox])
    = Some Scenario.inbox
  /\ findOne (byId 10)
       (snd (findOneAndUpdate (byId 10) incBoth None [Scenario.inbox]))
     = Some (Scenario.mailbox 10 "INBOX" 6 11)
  /\ fst (findOneAndUpdate (byId 10) incBoth None [Scenario.inbox])
     <> findOne (byId 10)
          (snd (findOneAndUpdate (byId 10) incBoth None [Scenario.inbox])).
Proof. split; [reflexivity|]. split; [reflexivity|]. discriminate. Qed.

(** C2 (amended).  The reservation step of [add] increments [uidNext] and
    [modifyIndex] of the mailbox record by 1 in one update and returns the
    record as it was before the increment.  The new message takes its UID
    from the returned [uidNext] and its MODSEQ is the returned
    [modifyIndex] plus 1: the slot below the new [uidNext], at the new
    [modifyIndex]. *)
Theorem add_reserves_slot (fails : nat -> bool) (now : Z)
    (MAX_PLAINTEXT_CONTENT MAX_HTML_CONTENT : nat)
    (digest : jsstring -> string) (options : AddOptions)
    (s s' : Store) (r : AddResult) :
  add fails now MAX_PLAINTEXT_CONTENT MAX_HTML_CONTENT digest options s
    = (Ok r, s') ->
  r_status r = StatusNew ->
  exists pre post message,
    findOne (byId (r_mailbox r)) (mailboxes s) = Some pre
    /\ findOneAndUpdate (byId (r_mailbox r)) incBoth None (mailboxes s)
       = (Some pre, mailboxes s')
    /\ findOne (byId (r_mailbox r)) (mailboxes s') = Some post
    /\ mb_uidNext post = mb_uidNext pre + 1
    /\ mb_modifyIndex post = mb_modifyIndex pre + 1
    /\ messages s' = messages s ++ [message]
    /\ m_id message = r_id r
    /\ m_mailbox message = r_mailbox r
    /\ m_uid message = mb_uidNext pre
    /\ m_modseq message = mb_modifyIndex pre + 1
    /\ r_uid r = mb_uidNext pre
    /\ m_uid message < mb_uidNext post
    /\ m_modseq message = mb_modifyIndex post.
Proof.
  intros Hadd Hnew.
  destruct (add_cases _ _ _ _ _ _ _ _ _ Hadd) as (mailboxData & _ & Hcase).
  destruct (findOne (isDuplicate mailboxData _ _) (messages s)) as [existing|].
  { destruct (ao_skipExisting options).
    - destruct Hcase as (Hst & _). congruence.
    - destruct Hcase as (pre & old & _ & _ & -> & _). discriminate Hnew. }
  destruct Hcase as (pre & thread & Hpre & Hmb & Hms & _ & ->).
  assert (Hid : mb_id pre = mb_id mailboxData)
    by (apply findOne_holds in Hpre; now apply byId_eq).
  cbn [r_mailbox r_id r_uid]. rewrite Hid.
  exists pre, (incBoth pre), (messageData now MAX_PLAINTEXT_CONTENT
                                MAX_HTML_CONTENT options
                                (mb_retention mailboxData) pre thread).
  split; [exact Hpre|]. split.
  { rewrite findOneAndUpdate_eq, Hpre, Hmb. reflexivity. }
  split.
  { rewrite Hmb. apply findOne_updateFirst; [reflexivity|exact Hpre]. }
  cbn. repeat split; auto; lia.
Qed.

Lemma add_reserves_slot_witness :
  exists pre post message,
    findOne (byId 10) (mailboxes Scenario.addStore) = Some pre
    /\ mb_uidNext pre = 5 /\ mb_modifyIndex pre = 10
    /\ mb_uidNext post = 6 /\ mb_modifyIndex post = 11
    /\ m_uid message = 5 /\ m_modseq message = 11.
Proof.
  destruct (add_reserves_slot Scenario.reliable 0 1000 1000 Scenario.anyDigest
              Scenario.addOptions Scenario.addStore
              (snd (add Scenario.reliable 0 1000 1000 Scenario.anyDigest
                      Scenario.addOptions Scenario.addStore))
              {| r_uidValidity := Some 1500000000; r_uid := 5; r_id := 500;
                 r_mailbox := 10; r_status := StatusNew |})
    as (pre & post & message & Hpre & _ & _ & Hu & Hm & _ & _ & _ & Hmu & Hmm & _).
  - vm_compute. reflexivity.
  - reflexivity.
  - exists pre, post, message. vm_compute in Hpre. injection Hpre as <-.
    cbn in Hu, Hm, Hmu, Hmm. auto 10.
Defined.

(** C1 (as stated) fails: [getMailbox] hands back a mailbox document of
    the caller as it is, and the probe for a duplicate looks below the
    [uidNext] of that document.  On the mailbox at [(5, 10)] the first add
    stores the message with UID 5; a second add of the same [hdate] and
    [msgid] with [skipExisting] false that names the mailbox by the
    document read before the first add finds no duplicate below UID 5: it
    answers [new], stores a second document under its own id with UID 6
    and MODSEQ 12, charges the quota again, and no EXPUNGE is journalled;
    the message of the first add keeps UID 5. *)
Lemma add_twice_with_stale_record :
  let run1 := add Scenario.reliable 0 1000 1000 Scenario.anyDigest
                Scenario.addOptions Scenario.addStore in
  let run2 := add Scenario.reliable 0 1000 1000 Scenario.anyDigest
                Scenario.staleOptions (snd run1) in
  fst run1 = Ok {| r_uidValidity := Some 1500000000; r_uid := 5;
                   r_id := 500%nat; r_mailbox := 10%nat;
                   r_status := StatusNew |}
  /\ p_hdate (ao_prepared Scenario.staleOptions)
     = p_hdate (ao_prepared Scenario.addOptions)
  /\ p_msgid (ao_prepared Scenario.staleOptions)
     = p_msgid (ao_prepared Scenario.addOptions)
  /\ ao_skipExisting Scenario.staleOptions = false
  /\ fst run2 = Ok {| r_uidValidity := Some 1500000000; r_uid := 6;
                      r_id := 501%nat; r_mailbox := 10%nat;
                      r_status := StatusNew |}
  /\ map (fun m => (m_id m, m_uid m, m_modseq m)) (messages (snd run2))
     = [(500%nat, 5, 11); (501%nat, 6, 12)]
  /\ summary (journal (snd run2))
     = [(EXISTS, 5, 500%nat); (EXISTS, 6, 501%nat)]
  /\ uidsOf EXPUNGE (journal (snd run2)) = []
  /\ map u_storageUsed (users (snd run2)) = [100 + 42 + 42]
  /\ findOne (byId 10) (mailboxes (snd run2))
     = Some (Scenario.mailbox 10 "INBOX" 7 12)
  /\ ~ (exists m, In m (messages (snd run2))
                  /\ m_id m = 500%nat /\ m_uid m = 6).
Proof.
  vm_compute.
  repeat (split; [reflexivity|]).
  intros (m & [<-|[<-|[]]] & Hid & Huid); cbn in Hid, Huid; discriminate.
Qed.

Section AddTwice.

Variable fails : nat -> bool.
Variable now : Z.
Variables MAX_PLAINTEXT_CONTENT MAX_HTML_CONTENT : nat.
Variable digest : jsstring -> string.

Let add := add fails now MAX_PLAINTEXT_CONTENT MAX_HTML_CONTENT digest.

(** C1 (amended).  Take a mailbox whose record reads [uidNext = 5] and
    [modifyIndex = 10], and a message with a fresh id that no message of
    the mailbox shares [hdate] and [msgid] with.  A successful [add] to
    that mailbox stores it with UID 5 and MODSEQ 11 and leaves the record
    at [(6, 11)].  A second successful [add] of a message with the same
    [hdate] and [msgid], with [skipExisting] false, whose mailbox argument
    resolves to the record of that mailbox as stored after the first add,
    answers [update]: the journal gets EXPUNGE for UID 5 and then EXISTS
    for UID 6, both for the message id of the first add, the stored
    document keeps its id and its content and now has UID 6 and MODSEQ 12,
    and the record is left at [(7, 12)]. *)
Theorem add_then_duplicate (s s1 s2 : Store) (options1 options2 : AddOptions)
    (r1 r2 : AddResult) (mailbox mailbox2 : Mailbox) :
  let hdate := p_hdate (ao_prepared options1) in
  let msgid := p_msgid (ao_prepared options1) in
  (* the record of the mailbox *)
  findOne (byId (mb_id mailbox)) (mailboxes s) = Some mailbox ->
  mb_uidNext mailbox = 5 ->
  mb_modifyIndex mailbox = 10 ->
  (* the message is new to the mailbox *)
  (forall m, In m (messages s) -> m_mailbox m = mb_id mailbox ->
             c_hdate (m_content m) = hdate ->
             c_msgid (m_content m) <> msgid) ->
  (forall m, In m (messages s) -> m_id m <> p_id (ao_prepared options1)) ->
  (* the first add *)
  add options1 s = (Ok r1, s1) ->
  r_mailbox r1 = mb_id mailbox ->
  (* the second add: the same mailbox, the same hdate and msgid *)
  p_hdate (ao_prepared options2) = hdate ->
  p_msgid (ao_prepared options2) = msgid ->
  ao_skipExisting options2 = false ->
  fst (getMailbox fails (ao_target options2) s1) = Ok mailbox2 ->
  findOne (byId (mb_id mailbox)) (mailboxes s1) = Some mailbox2 ->
  add options2 s1 = (Ok r2, s2) ->
  exists m1 m2 after1 after2,
    (* after the first add *)
    r_status r1 = StatusNew /\ r_uid r1 = 5
    /\ messages s1 = messages s ++ [m1]
    /\ m_id m1 = r_id r1 /\ m_mailbox m1 = mb_id mailbox
    /\ m_uid m1 = 5 /\ m_modseq m1 = 11
    /\ findOne (byId (mb_id mailbox)) (mailboxes s1) = Some after1
    /\ mb_uidNext after1 = 6 /\ mb_modifyIndex after1 = 11
    (* after the second add *)
    /\ r_status r2 = StatusUpdate /\ r_uid r2 = 6 /\ r_id r2 = r_id r1
    /\ summary (journal s2)
       = summary (journal s1) ++ [(EXPUNGE, 5, r_id r1); (EXISTS, 6, r_id r1)]
    /\ messages s2 = messages s ++ [m2]
    /\ m_id m2 = r_id r1 /\ m_mailbox m2 = mb_id mailbox
    /\ m_uid m2 = 6 /\ m_modseq m2 = 12
    /\ m_root m2 = m_root m1 /\ m_content m2 = m_content m1
    /\ findOne (byId (mb_id mailbox)) (mailboxes s2) = Some after2
    /\ mb_uidNext after2 = 7 /\ mb_modifyIndex after2 = 12.
Proof.
  intros hdate msgid Hrec Hu Hm Hnew Hfresh Hadd1 Hto Hh2 Hi2 Hskip Hget2
    Hrec2 Hadd2.
  (* the first add *)
  destruct (add_cases _ _ _ _ _ _ _ _ _ Hadd1) as (mbA & _ & Hcase1).
  assert (Hprobe1 : forall mb, mb_id mb = mb_id mailbox -> forall m,
            In m (messages s) -> isDuplicate mb hdate msgid m = false).
  { intros mb Hmb m Hin. unfold isDuplicate.
    destruct (Nat.eqb_spec (m_mailbox m) (mb_id mb)) as [E|E]; [|reflexivity].
    destruct (Z.eqb_spec (c_hdate (m_content m)) hdate) as [E2|E2];
      [|reflexivity].
    destruct (String.eqb_spec (c_msgid (m_content m)) msgid) as [E3|E3];
      [|reflexivity].
    exfalso. apply (Hnew m Hin); congruence. }
  assert (HidA : mb_id mbA = mb_id mailbox).
  { destruct (findOne (isDuplicate mbA _ _) (messages s)) as [ex|].
    - destruct (ao_skipExisting options1).
      + destruct Hcase1 as (_ & _ & _ & Hbox & _). congruence.
      + destruct Hcase1 as (pre & old & Hp & _ & -> & _). cbn in Hto.
        apply findOne_holds in Hp. destruct Hp as [_ Hp]. apply byId_eq in Hp.
        congruence.
    - destruct Hcase1 as (pre & th & Hp & _ & _ & _ & ->). cbn in Hto.
      apply findOne_holds in Hp. destruct Hp as [_ Hp]. apply byId_eq in Hp.
      congruence. }
  fold hdate msgid in Hcase1.
  rewrite (findOne_none _ _ (Hprobe1 mbA HidA)) in Hcase1.
  destruct Hcase1 as (pre & thread & Hpre & Hmb1 & Hms1 & Hj1 & Hr1).
  rewrite HidA in Hpre, Hmb1. rewrite Hrec in Hpre. injection Hpre as <-.
  set (m1 := messageData now MAX_PLAINTEXT_CONTENT MAX_HTML_CONTENT options1
               (mb_retention mbA) mailbox thread) in *.
  assert (Hafter1 : findOne (byId (mb_id mailbox)) (mailboxes s1)
                    = Some (incBoth mailbox)).
  { rewrite Hmb1. apply findOne_updateFirst; [reflexivity|exact Hrec]. }
  rewrite Hafter1 in Hrec2. injection Hrec2 as <-.
  (* the second add *)
  destruct (add_cases _ _ _ _ _ _ _ _ _ Hadd2) as (mbB & HgetB & Hcase2).
  rewrite Hget2 in HgetB. injection HgetB as <-.
  rewrite Hh2, Hi2, Hms1 in Hcase2. fold hdate msgid in Hcase2.
  assert (Hdup : isDuplicate (incBoth mailbox) hdate msgid m1 = true).
  { unfold isDuplicate, m1. cbn. rewrite Hu.
    unfold hdate, msgid.
    now rewrite Nat.eqb_refl, Z.eqb_refl, String.eqb_refl. }
  rewrite (findOne_last _ _ _ (Hprobe1 (incBoth mailbox) eq_refl) Hdup)
    in Hcase2.
  rewrite Hskip in Hcase2.
  destruct Hcase2 as (pre2 & old & Hpre2 & Hold & Hr2 & Hmb2 & Hms2 & Hj2).
  cbn [mb_id incBoth set_mb_modifyIndex set_mb_uidNext] in Hpre2, Hmb2.
  rewrite Hafter1 in Hpre2. injection Hpre2 as <-.
  assert (Hkey : forall m, In m (messages s) ->
            isMessage (m_id m1) (mb_id (incBoth mailbox)) (m_uid m1) m = false).
  { intros m Hin. unfold isMessage.
    destruct (Nat.eqb_spec (m_id m) (m_id m1)) as [E|E]; [|reflexivity].
    exfalso. apply (Hfresh m Hin). exact E. }
  assert (Hself : isMessage (m_id m1) (mb_id (incBoth mailbox)) (m_uid m1) m1
                  = true).
  { unfold isMessage. cbn. now rewrite !Nat.eqb_refl, Z.eqb_refl. }
  rewrite Hms1, (updateFirst_last _ _ _ _ Hkey Hself) in Hms2.
  rewrite Hj2. subst r1 r2.
  exists m1, (set_m_flags (ao_flags options2)
                (set_m_modseq (mb_modifyIndex (incBoth mailbox) + 1)
                   (set_m_uid (mb_uidNext (incBoth mailbox)) m1))),
    (incBoth mailbox), (incBoth (incBoth mailbox)).
  assert (Hafter2 : findOne (byId (mb_id mailbox)) (mailboxes s2)
                    = Some (incBoth (incBoth mailbox))).
  { rewrite Hmb2. apply findOne_updateFirst; [reflexivity|exact Hafter1]. }
  unfold summary. rewrite map_app. cbn. rewrite Hu, Hm.
  repeat split; auto.
  rewrite Hms2. cbn. now rewrite Hu, Hm.
Qed.

End AddTwice.

Lemma add_then_duplicate_witness :
  let run1 := add Scenario.reliable 0 1000 1000 Scenario.anyDigest
                Scenario.addOptions Scenario.addStore in
  let run2 := add Scenario.reliable 0 1000 1000 Scenario.anyDigest
                Scenario.addOptions (snd run1) in
  exists m1 m2 after1 after2,
    messages (snd run1) = [m1] /\ m_uid m1 = 5 /\ m_modseq m1 = 11
    /\ findOne (byId 10) (mailboxes (snd run1)) = Some after1
    /\ mb_uidNext after1 = 6 /\ mb_modifyIndex after1 = 11
    /\ summary (journal (snd run2))
       = summary (journal (snd run1))
         ++ [(EXPUNGE, 5, 500%nat); (EXISTS, 6, 500%nat)]
    /\ messages (snd run2) = [m2] /\ m_id m2 = 500%nat
    /\ m_uid m2 = 6 /\ m_modseq m2 = 12
    /\ findOne (byId 10) (mailboxes (snd run2)) = Some after2
    /\ mb_uidNext after2 = 7 /\ mb_modifyIndex after2 = 12.
Proof.
  intros run1 run2.
  destruct (add_then_duplicate Scenario.reliable 0 1000 1000
              Scenario.anyDigest Scenario.addStore (snd run1) (snd run2)
              Scenario.addOptions Scenario.addOptions
              {| r_uidValidity := Some 1500000000; r_uid := 5; r_id := 500;
                 r_mailbox := 10; r_status := StatusNew |}
              {| r_uidValidity := Some 1500000000; r_uid := 6; r_id := 500;
                 r_mailbox := 10; r_status := StatusUpdate |}
              Scenario.inbox (Scenario.mailbox 10 "INBOX" 6 11))
    as (m1 & m2 & after1 & after2 & _ & _ & H1 & _ & _ & H2 & H3 & H4 & H5
        & H6 & _ & _ & _ & H7 & H8 & H9 & _ & H10 & H11 & _ & _ & H12 & H13
        & H14).
  - reflexivity.
  - reflexivity.
  - reflexivity.
  - intros m [].
  - intros m [].
  - vm_compute. reflexivity.
  - reflexivity.
  - reflexivity.
  - reflexivity.
  - reflexivity.
  - vm_compute. reflexivity.
  - vm_compute. reflexivity.
  - vm_compute. reflexivity.
  - exists m1, m2, after1, after2.
    split; [exact H1|]. split; [exact H2|]. split; [exact H3|].
    split; [exact H4|]. split; [exact H5|]. split; [exact H6|].
    split; [exact H7|]. split; [exact H8|]. split; [exact H9|].
    split; [exact H10|]. split; [exact H11|]. split; [exact H12|].
    split; [exact H13|exact H14].
Defined.

(* ================================================================== *)
(** * Part 16. Cursors in UID order; the COPY hook *)
(* ================================================================== *)

Section SortFacts.

Lemma insertByUid_Forall (P : Message -> Prop) (m : Message) (l : list Message) :
  P m -> Forall P l -> Forall P (insertByUid m l).
Proof.
  intros Pm. induction l as [|x r IH]; intros Hl; cbn.
  - now constructor.
  - inversion Hl; subst. destruct (m_uid m <? m_uid x).
    + constructor; [exact Pm|exact Hl].
    + constructor; [assumption|]. now apply IH.
Qed.

Lemma insertByUid_sorted (m : Message) (l : list Message) :
  StronglySorted (fun a b => m_uid a <= m_uid b) l ->
  StronglySorted (fun a b => m_uid a <= m_uid b) (insertByUid m l).
Proof.
  induction l as [|x r IH]; intros Hs; cbn.
  - repeat constructor.
  - inversion Hs as [|? ? Hr Hx]; subst.
    destruct (Z.ltb_spec (m_uid m) (m_uid x)) as [Hlt|Hge].
    + constructor; [exact Hs|]. constructor; [lia|].
      eapply Forall_impl; [|exact Hx]. cbn. intros y Hy. lia.
    + constructor; [now apply IH|].
      apply insertByUid_Forall; [lia|exact Hx].
Qed.

(** The cursor of [sort({uid: 1})] is in ascending UID order. *)
Lemma sortByUid_sorted (l : list Message) :
  StronglySorted (fun a b => m_uid a <= m_uid b) (sortByUid l).
Proof.
  induction l as [|m r IH]; cbn; [constructor|].
  now apply insertByUid_sorted.
Qed.

Lemma insertByUid_In (m x : Message) (l : list Message) :
  In x (insertByUid m l) -> x = m \/ In x l.
Proof.
  induction l as [|y r IH]; cbn.
  - intros [<-|[]]. now left.
  - destruct (m_uid m <? m_uid y); cbn.
    + intros [<-|[<-|H]]; auto.
    + intros [<-|H]; auto. destruct (IH H); auto.
Qed.

(** It holds documents of the collection that match the query. *)
Lemma sortByUid_In (x : Message) (l : list Message) :
  In x (sortByUid l) -> In x l.
Proof.
  induction l as [|m r IH]; cbn; [trivial|].
  intros H. apply insertByUid_In in H. destruct H as [->|H]; auto.
Qed.

Lemma insertByUid_length (m : Message) (l : list Message) :
  length (insertByUid m l) = S (length l).
Proof.
  induction l as [|y r IH]; cbn; [reflexivity|].
  destruct (m_uid m <? m_uid y); cbn; [reflexivity|now rewrite IH].
Qed.

Lemma sortByUid_length (l : list Message) : length (sortByUid l) = length l.
Proof.
  induction l as [|m r IH]; cbn; [reflexivity|].
  now rewrite insertByUid_length, IH.
Qed.

Lemma StronglySorted_map {A B} (R : B -> B -> Prop) (f : A -> B) (l : list A) :
  StronglySorted (fun a b => R (f a) (f b)) l -> StronglySorted R (map f l).
Proof.
  induction 1 as [|a l Hs IH Ha]; cbn; constructor; [exact IH|].
  apply Forall_map. exact Ha.
Qed.

Lemma StronglySorted_snoc {A} (R : A -> A -> Prop) (l : list A) (a : A) :
  StronglySorted R l -> Forall (fun x => R x a) l ->
  StronglySorted R (l ++ [a]).
Proof.
  induction 1 as [|x l Hs IH Hx]; intros Ha; cbn.
  - repeat constructor.
  - inversion Ha; subst. constructor; [now apply IH|].
    apply Forall_app. split; [exact Hx|]. now constructor.
Qed.

(** An ascending list read backwards is descending. *)
Lemma rev_descending (l : list Z) :
  StronglySorted Z.le l -> StronglySorted Z.ge (rev l).
Proof.
  induction 1 as [|a l Hs IH Ha]; cbn; [constructor|].
  apply StronglySorted_snoc; [exact IH|].
  apply Forall_rev. eapply Forall_impl; [|exact Ha]. cbn. intros x Hx. lia.
Qed.

End SortFacts.

Section CollectionFacts.

Lemma updateFirst_no_match {A} (q : A -> bool) (f : A -> A) (c : list A) :
  findOne q c = None -> updateFirst q f c = c.
Proof.
  unfold findOne. induction c as [|x r IH]; cbn; [reflexivity|].
  destruct (q x); [discriminate|]. intros H. now rewrite IH.
Qed.

(** The collection after [findOneAndUpdate], found or not. *)
Lemma findOneAndUpdate_snd {A} (q : A -> bool) (f : A -> A) opt (c : list A) :
  snd (findOneAndUpdate q f opt c) = updateFirst q f c.
Proof.
  rewrite findOneAndUpdate_eq. destruct (findOne q c) eqn:E; cbn;
    [reflexivity|]. symmetry. now apply updateFirst_no_match.
Qed.

(** Updating the record of one mailbox leaves the records of the others. *)
Lemma findOne_updateFirst_other (id tid : ObjectID) (f : Mailbox -> Mailbox)
    (c : list Mailbox) :
  (forall m, mb_id (f m) = mb_id m) -> id <> tid ->
  findOne (byId id) (updateFirst (byId tid) f c) = findOne (byId id) c.
Proof.
  intros Hf Hne. unfold findOne, byId.
  induction c as [|x r IH]; cbn; [reflexivity|].
  destruct (Nat.eqb_spec (mb_id x) tid) as [Et|Et]; cbn.
  - rewrite Hf.
    destruct (Nat.eqb_spec (mb_id x) id) as [Ei|Ei]; [congruence|reflexivity].
  - now rewrite IH.
Qed.

Lemma uidsFrom_snoc (uid : Z) (n : nat) :
  uidsFrom uid (S n) = uidsFrom uid n ++ [uid + Z.of_nat n].
Proof.
  revert uid. induction n as [|n IH]; intros uid.
  - cbn. now rewrite Z.add_0_r.
  - change (uidsFrom uid (S (S n))) with (uid :: uidsFrom (uid + 1) (S n)).
    rewrite IH. cbn [uidsFrom app].
    replace (uid + Z.of_nat (S n)) with (uid + 1 + Z.of_nat n) by lia.
    reflexivity.
Qed.

Lemma uidsFrom_length (uid : Z) (n : nat) : length (uidsFrom uid n) = n.
Proof. revert uid. induction n; intros; cbn; auto. Qed.

Lemma uidsFrom_nth (uid : Z) (n i : nat) :
  (i < n)%nat -> nth_error (uidsFrom uid n) i = Some (uid + Z.of_nat i).
Proof.
  revert uid i. induction n as [|n IH]; intros uid [|i] Hi; try lia; cbn.
  - now rewrite Z.add_0_r.
  - rewrite IH by lia. f_equal. lia.
Qed.

Lemma In_updateFirst {A} (q : A -> bool) (f : A -> A) (c : list A) (x : A) :
  In x (updateFirst q f c) ->
  In x c \/ exists y, In y c /\ q y = true /\ x = f y.
Proof.
  induction c as [|d r IH]; cbn; [tauto|].
  destruct (q d) eqn:E; cbn.
  - intros [<-|H]; [right; exists d|]; auto.
  - intros [<-|H]; [auto|]. destruct (IH H) as [Hin|(y & Hy & Hq & ->)];
      [auto|]. right. exists y. auto.
Qed.

(** The record of a mailbox after the record of one mailbox has been
    updated. *)
Lemma findOne_byId_updateFirst (x id : ObjectID) (f : Mailbox -> Mailbox)
    (c : list Mailbox) :
  (forall m, mb_id (f m) = mb_id m) ->
  findOne (byId x) (updateFirst (byId id) f c)
  = option_map (fun r => if (x =? id)%nat then f r else r)
      (findOne (byId x) c).
Proof.
  intros Hf. destruct (Nat.eqb_spec x id) as [->|Hne].
  - destruct (findOne (byId id) c) as [rec|] eqn:E; cbn.
    + apply findOne_updateFirst; [|exact E]. intros m. unfold byId.
      now rewrite Hf.
    + rewrite updateFirst_no_match; assumption.
  - rewrite findOne_updateFirst_other; [|exact Hf|exact Hne].
    now destruct (findOne (byId x) c).
Qed.

Lemma uidsFrom_In (uid u : Z) (n : nat) :
  In u (uidsFrom uid n) -> uid <= u < uid + Z.of_nat n.
Proof.
  revert uid. induction n as [|n IH]; intros uid; cbn [uidsFrom];
    [intros []|].
  intros [<-|H]; [lia|]. apply IH in H. lia.
Qed.

Lemma uidsOf_app (c : Command) (j1 j2 : list JournalDoc) :
  uidsOf c (j1 ++ j2) = uidsOf c j1 ++ uidsOf c j2.
Proof. unfold uidsOf. now rewrite filter_app, map_app. Qed.

End CollectionFacts.

Section CopyFacts.

Variable fails : nat -> bool.
Variable now : Z.

(** The record that a query finds after one record has been rewritten by
    a function that the query does not see. *)
Lemma findOne_rewritten (q q' : Mailbox -> bool) (f : Mailbox -> Mailbox)
    (c : list Mailbox) (t' : Mailbox) :
  (forall m, q (f m) = q m) -> (forall m, mb_id (f m) = mb_id m) ->
  findOne q (updateFirst q' f c) = Some t' ->
  exists t, findOne q c = Some t /\ mb_id t' = mb_id t.
Proof.
  intros Hq Hid. unfold findOne.
  induction c as [|x r IH]; cbn; [discriminate|].
  destruct (q' x); cbn.
  - rewrite Hq. destruct (q x); [|eauto].
    intros [= <-]. exists x. now rewrite Hid.
  - destruct (q x); [|exact IH]. intros [= <-]. eauto.
Qed.

(** Rewriting the record that a query finds leaves the records with
    another id. *)
Lemma findOne_byId_untouched (q : Mailbox -> bool) (f : Mailbox -> Mailbox)
    (id : ObjectID) (c : list Mailbox) (t : Mailbox) :
  (forall m, mb_id (f m) = mb_id m) ->
  findOne q c = Some t -> mb_id t <> id ->
  findOne (byId id) (updateFirst q f c) = findOne (byId id) c.
Proof.
  intros Hid. unfold findOne, byId.
  induction c as [|x r IH]; cbn; [discriminate|].
  destruct (q x); cbn.
  - intros [= ->] Hne. rewrite Hid.
    destruct (Nat.eqb_spec (mb_id t) id); [contradiction|reflexivity].
  - intros H Hne. destruct (mb_id x =? id)%nat; [reflexivity|now apply IH].
Qed.

Lemma inScope_blind scope (f : Mailbox -> Mailbox) :
  (forall m, mb_id (f m) = mb_id m) -> (forall m, mb_user (f m) = mb_user m) ->
  (forall m, mb_path (f m) = mb_path m) ->
  forall m, inScope scope (f m) = inScope scope m.
Proof.
  intros Hid Hu Hp m. destruct scope; cbn; now rewrite ?Hid, ?Hu, ?Hp.
Qed.

(** The notifier leaves the records of the mailboxes that the scope does
    not stand for. *)
Lemma renumber_other scope entries s tid id :
  scopeIs scope tid s -> id <> tid ->
  findOne (byId id) (mailboxes (renumber scope entries s))
  = findOne (byId id) (mailboxes s).
Proof.
  intros Hs Hne. unfold renumber.
  destruct (existsb unnumbered entries); [|reflexivity].
  destruct (findOne (inScope scope) (mailboxes s)) as [t|] eqn:E;
    [|reflexivity].
  cbn. eapply findOne_byId_untouched; [reflexivity|exact E|].
  rewrite (Hs t E). congruence.
Qed.

Lemma renumber_scopeIs scope entries scope' tid s :
  scopeIs scope' tid s -> scopeIs scope' tid (renumber scope entries s).
Proof.
  intros Hs t. unfold renumber.
  destruct (existsb unnumbered entries); [|apply Hs].
  destruct (findOne (inScope scope) (mailboxes s)) as [t0|]; [|apply Hs].
  cbn. intros H. apply findOne_rewritten in H.
  - destruct H as (t1 & H1 & ->). now apply Hs.
  - now apply inScope_blind.
  - reflexivity.
Qed.

Lemma updateFirst_scopeIs scope tid (q : Mailbox -> bool)
    (f : Mailbox -> Mailbox) s :
  (forall m, mb_id (f m) = mb_id m) -> (forall m, mb_user (f m) = mb_user m) ->
  (forall m, mb_path (f m) = mb_path m) ->
  scopeIs scope tid s ->
  scopeIs scope tid (set_mailboxes (updateFirst q f (mailboxes s)) s).
Proof.
  intros Hid Hu Hp Hs t. cbn. intros H. apply findOne_rewritten in H.
  - destruct H as (t1 & H1 & ->). now apply Hs.
  - now apply inScope_blind.
  - exact Hid.
Qed.

Lemma Forall2_restamped_app n0 (l1 l1' l2 l2' : list Message) :
  Forall2 (restamped n0) l1 l1' -> Forall2 (restamped n0) l2 l2' ->
  Forall2 (restamped n0) (l1 ++ l2) (l1' ++ l2').
Proof. apply Forall2_app. Qed.

(** One message through the hook. *)
Lemma copyOne_next session target acc message acc' s s' :
  copyOne fails now session target acc message s = (Ok (CopyNext acc'), s') ->
  let scope := ScopeUserPath (ss_user session) (mb_path target) in
  exists item,
    findOne (byId (mb_id target)) (mailboxes s) = Some item
    /\ acc' = {| copiedMessages := S (copiedMessages acc);
                 copiedStorage :=
                   copiedStorage acc + c_size (m_content message);
                 cp_sourceUid := m_uid message :: cp_sourceUid acc;
                 cp_destinationUid := mb_uidNext item :: cp_destinationUid acc |}
    /\ (forall id,
          optRel raised
            (findOne (byId id)
               (updateFirst (byId (mb_id target)) incUidNext (mailboxes s)))
            (findOne (byId id) (mailboxes s')))
    /\ (scopeIs scope (mb_id target) s ->
        scopeIs scope (mb_id target) s'
        /\ forall id, id <> mb_id target ->
             findOne (byId id) (mailboxes s') = findOne (byId id) (mailboxes s))
    /\ Forall2 (restamped (nextOid s))
         (messages s
          ++ [copiedMessage now target (nextOid s) (mb_uidNext item) message])
         (messages s')
    /\ nextOid s' = S (nextOid s)
    /\ users s' = users s
    /\ journal s'
       = journal s
         ++ [(scope,
              withJunk (snd (junkTransition target message))
                (entry EXISTS (mb_uidNext item) (nextOid s) None
                   (m_unseen message) None))].
Proof.
  intros H scope. unfold copyOne in H.
  run_step H. apply on_mailboxes_ok in Hrun. cbn in Hrun.
  destruct Hrun as [<- ->]. rewrite findOneAndUpdate_eq in H.
  destruct (findOne (byId (mb_id target)) (mailboxes s)) as [item|];
    cbn in H; [|run_all].
  exists item. split; [reflexivity|].
  run_step H. apply on_messages_ok in Hrun. cbn in Hrun.
  destruct Hrun as [_ ->].
  run_step H.
  kept messages Hrun. kept mailboxes Hrun. kept nextOid Hrun.
  kept users Hrun. kept journal Hrun.
  apply bind_ok in H. destruct H as (u & s3 & Hadd & H).
  unfold ret in H. injection H as <- <-.
  unfold addEntries, modify in Hadd. injection Hadd as <- <-.
  cbn [mailboxes messages nextOid users journal set_journal].
  rewrite !(renumber_frame nextOid) by reflexivity.
  rewrite !(renumber_frame users) by reflexivity.
  split; [reflexivity|]. split.
  { intros id. rewrite <- K0. apply renumber_raised. }
  split.
  { intros Hs.
    assert (Hs0 : scopeIs scope (mb_id target) s0).
    { intros t Ht. rewrite K0 in Ht.
      apply (updateFirst_scopeIs scope (mb_id target) (byId (mb_id target))
               incUidNext s); [reflexivity..|exact Hs|exact Ht]. }
    split; [now apply renumber_scopeIs|].
    intros id Hid. rewrite (renumber_other _ _ _ _ _ Hs0 Hid), K0.
    apply findOne_updateFirst_other; [reflexivity|exact Hid]. }
  split.
  { rewrite <- K. apply renumber_restamped.
    intros e [<-|[]] _. cbn. lia. }
  split; [rewrite K1; reflexivity|]. split; [exact K2|].
  rewrite (renumber_frame journal) by reflexivity. rewrite K3. reflexivity.
Qed.

(** The end of the hook's loop: the quota update, whose error is not
    looked at. *)
Lemma copyUpdateQuota_run mailbox acc s u s' :
  copyUpdateQuota fails mailbox acc s = (Ok u, s') ->
  mailboxes s' = mailboxes s /\ messages s' = messages s
  /\ journal s' = journal s
  /\ (copiedMessages acc = 0%nat -> users s' = users s)
  /\ (users s' = users s
      \/ users s' = updateFirst (userById (mb_user mailbox))
                      (incStorage (copiedStorage acc)) (users s))
  /\ ((forall k, fails k = false) -> (0 < copiedMessages acc)%nat ->
      users s' = updateFirst (userById (mb_user mailbox))
                   (incStorage (copiedStorage acc)) (users s)).
Proof.
  intros H. kept mailboxes H. kept messages H. kept journal H.
  split; [exact K|]. split; [exact K0|]. split; [exact K1|].
  unfold copyUpdateQuota in H. destruct (copiedMessages acc) as [|n].
  - run_all. repeat split; auto. intros _ Hn. lia.
  - unfold ignoring, on_users, call in H. injection H as _ <-.
    destruct (fails (ops s)) eqn:Ef; cbn.
    + split; [discriminate|]. split; [now left|].
      intros Hrel _. rewrite Hrel in Ef. discriminate.
    + pose proof (findOneAndUpdate_snd (userById (mb_user mailbox))
                    (incStorage (copiedStorage acc)) None (users s)) as Hs.
      destruct (findOneAndUpdate _ _ _ (users s)) as [r c]. cbn in *. subst c.
      split; [discriminate|]. split; [now right|]. reflexivity.
Qed.

Lemma raised_uidNext_step (rec rec2 rec' : Mailbox) (n : nat) :
  raised (incUidNext rec) rec2 ->
  raised (set_mb_uidNext (mb_uidNext rec2 + Z.of_nat n) rec2) rec' ->
  raised (set_mb_uidNext (mb_uidNext rec + Z.of_nat (S n)) rec) rec'.
Proof.
  rewrite Nat2Z.inj_succ. generalize (Z.of_nat n). intros k.
  intros [H1 L1] [H2 L2].
  destruct rec as [i u p su uv un mi rt sb], rec2 as [i2 u2 p2 su2 uv2 un2 mi2 rt2 sb2],
    rec' as [i' u' p' su' uv' un' mi' rt' sb'].
  cbn in *.
  injection H1 as -> -> -> -> -> -> -> ->.
  injection H2 as -> -> -> -> -> -> -> ->.
  split; unfold set_mb_modifyIndex, set_mb_uidNext; cbn; [f_equal; lia|lia].
Qed.

(** The loop of the hook, from any point of the cursor. *)
Lemma copyNext_spec session mailbox target cursor :
  forall acc s v su du s' rec,
    copyNext fails now session mailbox target cursor acc s
      = (Ok (Copied v su du), s') ->
    findOne (byId (mb_id target)) (mailboxes s) = Some rec ->
    v = mb_uidValidity target
    /\ su = rev (map m_uid cursor) ++ cp_sourceUid acc
    /\ du = rev (uidsFrom (mb_uidNext rec) (length cursor))
            ++ cp_destinationUid acc
    /\ Forall2 (restamped (nextOid s))
         (messages s
          ++ copiesFrom now target (nextOid s) (mb_uidNext rec) cursor)
         (messages s')
    /\ (exists rec',
          findOne (byId (mb_id target)) (mailboxes s') = Some rec'
          /\ raised
               (set_mb_uidNext (mb_uidNext rec + Z.of_nat (length cursor)) rec)
               rec')
    /\ (scopeIs (ScopeUserPath (ss_user session) (mb_path target))
          (mb_id target) s ->
        forall id, id <> mb_id target ->
          findOne (byId id) (mailboxes s') = findOne (byId id) (mailboxes s))
    /\ (exists j,
          journal s' = journal s ++ j
          /\ length j = length cursor
          /\ uidsOf EXISTS j = uidsFrom (mb_uidNext rec) (length cursor)
          /\ Forall (fun d => fst d = ScopeUserPath (ss_user session)
                                       (mb_path target)
                              /\ je_command (snd d) = EXISTS) j)
    /\ ((copiedMessages acc + length cursor = 0)%nat -> users s' = users s)
    /\ (users s' = users s
        \/ users s' = updateFirst (userById (mb_user mailbox))
                        (incStorage (copiedStorage acc + totalSize cursor))
                        (users s))
    /\ ((forall k, fails k = false) ->
        (0 < copiedMessages acc + length cursor)%nat ->
        users s' = updateFirst (userById (mb_user mailbox))
                     (incStorage (copiedStorage acc + totalSize cursor))
                     (users s)).
Proof.
  induction cursor as [|message rest IH]; intros acc s v su du s' rec H Hrec;
    cbn [copyNext] in H; apply attempt_ok in H;
    destruct H as [(u & s1 & Hnext & H)|(e & s1 & _ & H)];
    try (run_step H; run_all; fail);
    kept messages Hnext; kept mailboxes Hnext; kept journal Hnext;
    kept users Hnext; kept nextOid Hnext.
  - run_step H. apply copyUpdateQuota_run in Hrun.
    destruct Hrun as (Qmb & Qms & Qj & Q0 & Qor & Qrel).
    run_all. cbn [length map rev uidsFrom copiesFrom totalSize fold_right app
                  set_fired mailboxes messages journal users].
    rewrite Nat.add_0_r, Z.add_0_r, app_nil_r, Qmb, Qms, Qj, K, K0, K1.
    split; [reflexivity|]. split; [reflexivity|]. split; [reflexivity|].
    split; [apply Forall2_restamped_refl|]. split.
    { exists rec. rewrite Hrec. split; [reflexivity|].
      split; [now destruct rec|cbn; lia]. }
    split; [reflexivity|]. split.
    { exists []. rewrite app_nil_r. repeat split; constructor. }
    rewrite <- K2, ?Z.add_0_r. split; [exact Q0|]. split; [exact Qor|].
    intros Hrel Hpos. now apply Qrel.
  - apply attempt_ok in H.
    destruct H as [(step & s2 & Hone & H)|(e & s2 & _ & H)];
      [|run_step H; run_all].
    destruct step as [acc'|acc']; [|run_step H; run_all].
    apply copyOne_next in Hone. cbv zeta in Hone.
    destruct Hone as (item & Hitem & -> & Hmb & Hsc & Hms & Hoid & Hus & Hj).
    rewrite K0, Hrec in Hitem. injection Hitem as <-.
    assert (Hrec2 : exists rec2,
              findOne (byId (mb_id target)) (mailboxes s2) = Some rec2
              /\ raised (incUidNext rec) rec2).
    { specialize (Hmb (mb_id target)). rewrite K0 in Hmb.
      rewrite (findOne_updateFirst (byId (mb_id target)) incUidNext
                 (mailboxes s) rec) in Hmb by (reflexivity || exact Hrec).
      destruct (findOne (byId (mb_id target)) (mailboxes s2)) as [rec2|];
        [|contradiction]. eauto. }
    destruct Hrec2 as (rec2 & Hrec2 & Hraised).
    assert (Hnext2 : mb_uidNext rec2 = mb_uidNext rec + 1).
    { destruct Hraised as [-> _]. reflexivity. }
    destruct (IH _ _ _ _ _ _ _ H Hrec2)
      as (Hv & Hsu & Hdu & Hmsg & Hrec' & Hother & Hjour & Hu0 & Huor & Hurel).
    cbn [copiedMessages copiedStorage cp_sourceUid cp_destinationUid
         incUidNext set_mb_uidNext mb_uidNext mb_modifyIndex] in *.
    rewrite Hnext2 in *.
    split; [exact Hv|]. split.
    { rewrite Hsu. cbn [map rev]. now rewrite <- app_assoc. }
    split.
    { rewrite Hdu. cbn [length uidsFrom rev]. now rewrite <- app_assoc. }
    split.
    { rewrite Hoid, K3 in Hmsg. rewrite K, K3 in Hms. cbn [copiesFrom].
      apply Forall2_restamped_trans
        with (l2 := messages s2
                    ++ copiesFrom now target (S (nextOid s))
                         (mb_uidNext rec + 1) rest).
      - change (copiedMessage now target (nextOid s) (mb_uidNext rec) message
                :: copiesFrom now target (S (nextOid s)) (mb_uidNext rec + 1)
                     rest)
          with ([copiedMessage now target (nextOid s) (mb_uidNext rec) message]
                ++ copiesFrom now target (S (nextOid s)) (mb_uidNext rec + 1)
                     rest).
        rewrite app_assoc. apply Forall2_restamped_app; [exact Hms|].
        apply Forall2_restamped_refl.
      - eapply Forall2_impl; [|exact Hmsg].
        intros a b. apply restamped_mono. lia. }
    split.
    { destruct Hrec' as (rec' & Hf & Hr). exists rec'.
      split; [exact Hf|]. rewrite <- Hnext2 in Hr.
      now apply (raised_uidNext_step rec rec2 rec' (length rest)). }
    split.
    { intros Hs id Hid.
      assert (Hs1 : scopeIs (ScopeUserPath (ss_user session) (mb_path target))
                      (mb_id target) s1)
        by (intros t; rewrite K0; apply Hs).
      destruct (Hsc Hs1) as [Hs2 Hkeep].
      rewrite (Hother Hs2 id Hid), (Hkeep id Hid), K0. reflexivity. }
    split.
    { destruct Hjour as (j & Hj' & Hlen & Huids & Hall).
      eexists (_ :: j). rewrite Hj', Hj, K1, <- app_assoc. cbn [app].
      split; [reflexivity|]. split; [cbn; now rewrite Hlen|]. split.
      - unfold uidsOf in *. cbn. now rewrite Huids.
      - constructor; [split; reflexivity|exact Hall]. }
    rewrite Hus, K2 in *. split.
    { intros H0. cbn [length] in H0. lia. }
    change (totalSize (message :: rest))
      with (c_size (m_content message) + totalSize rest).
    rewrite Z.add_assoc.
    split; [exact Huor|]. intros Hrel Hpos. apply Hurel; [exact Hrel|lia].
Qed.

(** With the record of the destination in the collection the loop ends
    with the UID lists, never with a sentinel. *)
Lemma copyNext_copies session mailbox target cursor :
  forall acc s r s' rec,
    findOne (byId (mb_id target)) (mailboxes s) = Some rec ->
    copyNext fails now session mailbox target cursor acc s = (Ok r, s') ->
    exists v su du, r = Copied v su du.
Proof.
  induction cursor as [|message rest IH]; intros acc s r s' rec Hrec H;
    cbn [copyNext] in H; apply attempt_ok in H;
    destruct H as [(u & s1 & Hnext & H)|(e & s1 & _ & H)];
    try (run_step H; run_all; fail); kept mailboxes Hnext.
  - run_step H. run_all. eauto.
  - apply attempt_ok in H.
    destruct H as [(step & s2 & Hone & H)|(e & s2 & _ & H)];
      [|run_step H; run_all].
    destruct step as [acc'|acc'].
    + apply copyOne_next in Hone. cbv zeta in Hone.
      destruct Hone as (item & Hitem & _ & Hmb & _).
      specialize (Hmb (mb_id target)).
      rewrite (findOne_updateFirst (byId (mb_id target)) incUidNext
                 (mailboxes s1) item) in Hmb by (reflexivity || exact Hitem).
      destruct (findOne (byId (mb_id target)) (mailboxes s2)) as [rec2|] eqn:E;
        [|contradiction].
      eapply (IH _ _ _ _ rec2); [exact E|exact H].
    + exfalso. unfold copyOne in Hone. run_step Hone.
      apply on_mailboxes_ok in Hrun. cbn in Hrun. destruct Hrun as [<- ->].
      rewrite findOneAndUpdate_eq, K, Hrec in Hone. cbn in Hone. run_all.
Qed.

(** A record found by its path is found by its id. *)
Lemma found_by_id (q : Mailbox -> bool) (c : list Mailbox) (m : Mailbox) :
  findOne q c = Some m -> exists rec, findOne (byId (mb_id m)) c = Some rec.
Proof.
  intros H. apply findOne_holds in H. destruct H as [Hin _].
  destruct (findOne (byId (mb_id m)) c) as [rec|] eqn:E; [eauto|].
  exfalso. unfold findOne in E. eapply find_none in E; [|exact Hin].
  unfold byId in E. now rewrite Nat.eqb_refl in E.
Qed.

(** The two lookups of the hook. *)
Lemma onCopy_lookups path update session s r s' :
  onCopy fails now path update session s = (Ok r, s') ->
  match findOne (mailboxQuery (RefPath (ss_user session) path)) (mailboxes s),
        findOne (mailboxQuery
                   (RefPath (ss_user session) (cu_destination update)))
          (mailboxes s) with
  | None, _ =>
      r = NONEXISTENT /\ mailboxes s' = mailboxes s
      /\ messages s' = messages s /\ users s' = users s
      /\ journal s' = journal s
  | Some _, None =>
      r = TRYCREATE /\ mailboxes s' = mailboxes s
      /\ messages s' = messages s /\ users s' = users s
      /\ journal s' = journal s
  | Some mailbox, Some target =>
      exists s0,
        mailboxes s0 = mailboxes s /\ messages s0 = messages s
        /\ users s0 = users s /\ journal s0 = journal s
        /\ nextOid s0 = nextOid s
        /\ copyNext fails now session mailbox target
             (selected (mb_id mailbox) (checkRangeQuery (cu_messages update)) s)
             {| copiedMessages := 0; copiedStorage := 0;
                cp_sourceUid := []; cp_destinationUid := [] |} s0
           = (Ok r, s')
  end.
Proof.
  unfold onCopy. intros H.
  run_step H. apply on_mailboxes_ok in Hrun.
  cbn beta iota delta [fst snd] in Hrun. destruct Hrun as [<- ->].
  destruct (findOne (mailboxQuery (RefPath _ path)) (mailboxes s))
    as [mailbox|]; [|run_all; cbn; auto].
  run_step H. apply on_mailboxes_ok in Hrun.
  cbn beta iota delta [fst snd mailboxes set_mailboxes set_ops] in Hrun.
  destruct Hrun as [<- ->].
  destruct (findOne (mailboxQuery (RefPath _ (cu_destination update))) _)
    as [target|]; [|run_all; cbn; auto].
  match type of H with
  | copyNext _ _ _ _ _ _ _ ?s0 = _ => exists s0
  end.
  repeat split; exact H.
Qed.

(** A successful copy, in full. *)
Lemma onCopy_spec path update session s v su du s' :
  onCopy fails now path update session s = (Ok (Copied v su du), s') ->
  exists mailbox target rec,
    findOne (mailboxQuery (RefPath (ss_user session) path)) (mailboxes s)
      = Some mailbox
    /\ findOne (mailboxQuery
                  (RefPath (ss_user session) (cu_destination update)))
         (mailboxes s) = Some target
    /\ findOne (byId (mb_id target)) (mailboxes s) = Some rec
    /\ let cursor :=
         selected (mb_id mailbox) (checkRangeQuery (cu_messages update)) s in
       v = mb_uidValidity target
       /\ su = rev (map m_uid cursor)
       /\ du = rev (uidsFrom (mb_uidNext rec) (length cursor))
       /\ Forall2 (restamped (nextOid s))
            (messages s
             ++ copiesFrom now target (nextOid s) (mb_uidNext rec) cursor)
            (messages s')
       /\ (exists rec',
             findOne (byId (mb_id target)) (mailboxes s') = Some rec'
             /\ raised
                  (set_mb_uidNext
                     (mb_uidNext rec + Z.of_nat (length cursor)) rec)
                  rec')
       /\ (forall id, id <> mb_id target ->
             findOne (byId id) (mailboxes s') = findOne (byId id) (mailboxes s))
       /\ (exists j,
             journal s' = journal s ++ j
             /\ length j = length cursor
             /\ uidsOf EXISTS j = uidsFrom (mb_uidNext rec) (length cursor)
             /\ Forall (fun d => fst d = ScopeUserPath (ss_user session)
                                          (mb_path target)
                                 /\ je_command (snd d) = EXISTS) j)
       /\ (cursor = [] -> users s' = users s)
       /\ ((forall k, fails k = false) -> cursor <> [] ->
           users s' = updateFirst (userById (mb_user mailbox))
                        (incStorage (totalSize cursor)) (users s)).
Proof.
  intros H. apply onCopy_lookups in H.
  destruct (findOne (mailboxQuery (RefPath _ path)) (mailboxes s))
    as [mailbox|] eqn:Em; [|destruct H as [H _]; discriminate].
  destruct (findOne (mailboxQuery (RefPath _ (cu_destination update))) _)
    as [target|] eqn:Et; [|destruct H as [H _]; discriminate].
  destruct H as (s0 & Kmb & Kms & Kus & Kj & Koid & H).
  destruct (found_by_id _ _ _ Et) as (rec & Hrec).
  exists mailbox, target, rec. repeat (split; [reflexivity|]).
  split; [exact Hrec|]. intros cursor. fold cursor in H.
  rewrite <- Kmb in Hrec.
  assert (Hscope : scopeIs (ScopeUserPath (ss_user session) (mb_path target))
                     (mb_id target) s0).
  { assert (Hpath : mb_path target = cu_destination update).
    { apply findOne_holds in Et. destruct Et as [_ Hq]. cbn in Hq.
      apply andb_true_iff in Hq. destruct Hq as [_ Hq].
      now apply String.eqb_eq in Hq. }
    intros t Ht. rewrite Kmb, Hpath in Ht.
    change (findOne (inScope (ScopeUserPath (ss_user session)
                                (cu_destination update))) (mailboxes s))
      with (findOne (mailboxQuery
                       (RefPath (ss_user session) (cu_destination update)))
              (mailboxes s)) in Ht.
    congruence. }
  destruct (copyNext_spec _ _ _ _ _ _ _ _ _ _ _ H Hrec)
    as (Hv & Hsu & Hdu & Hmsg & Hrec' & Hother & Hjour & Hu0 & _ & Hurel).
  cbn [copiedMessages copiedStorage cp_sourceUid cp_destinationUid] in *.
  rewrite app_nil_r in Hsu, Hdu. rewrite Kms, Koid in Hmsg.
  rewrite Kj in Hjour. rewrite Kus in Hu0, Hurel. rewrite Z.add_0_l in Hurel.
  repeat (split; [assumption|]).
  split; [intros id Hid; rewrite (Hother Hscope id Hid); now rewrite Kmb|].
  split; [exact Hjour|]. split.
  - intros ->. now apply Hu0.
  - intros Hrel Hne. apply Hurel; [exact Hrel|].
    destruct cursor; [contradiction|cbn; lia].
Qed.

End CopyFacts.

Section PairFacts.

Lemma Forall2_weaken {A B} (R R' : A -> B -> Prop) l l' :
  (forall a b, R a b -> R' a b) -> Forall2 R l l' -> Forall2 R' l l'.
Proof. intros H. induction 1; constructor; auto. Qed.

Lemma Forall2_rev {A B} (R : A -> B -> Prop) l l' :
  Forall2 R l l' -> Forall2 R (rev l) (rev l').
Proof.
  induction 1 as [|a b l l' Hab Hl IH]; cbn; [constructor|].
  apply Forall2_app; [exact IH|]. now repeat constructor.
Qed.

Lemma Forall2_map_left {A B C} (R : C -> B -> Prop) (f : A -> C) l l' :
  Forall2 (fun a b => R (f a) b) l l' -> Forall2 R (map f l) l'.
Proof. induction 1; cbn; constructor; auto. Qed.

Lemma Forall2_same_length {A B} (R : A -> B -> Prop) l l' :
  Forall2 R l l' -> length l = length l'.
Proof. induction 1; cbn; auto. Qed.

(** Each message of the cursor with the UID its copy is stored under. *)
Lemma copies_paired now target cursor :
  forall id uid,
    Forall2 (fun m dst =>
               exists k, In (copiedMessage now target k dst m)
                           (copiesFrom now target id uid cursor))
      cursor (uidsFrom uid (length cursor)).
Proof.
  induction cursor as [|m r IH]; intros id uid;
    cbn [copiesFrom uidsFrom length]; constructor.
  - exists id. now left.
  - eapply Forall2_weaken; [|apply IH]. cbn beta. intros a b (k & Hk).
    exists k. right. exact Hk.
Qed.

Lemma copiesFrom_uids now target cursor :
  forall id uid,
    map m_uid (copiesFrom now target id uid cursor)
    = uidsFrom uid (length cursor).
Proof.
  induction cursor as [|m r IH]; intros id uid;
    cbn [copiesFrom map length uidsFrom]; [reflexivity|].
  now rewrite IH.
Qed.

Lemma copiesFrom_mailbox now target cursor :
  forall id uid,
    Forall (fun c => m_mailbox c = mb_id target)
      (copiesFrom now target id uid cursor).
Proof.
  induction cursor as [|m r IH]; intros id uid; cbn [copiesFrom];
    constructor; [reflexivity|apply IH].
Qed.

Lemma copiesFrom_content now target cursor :
  forall id uid,
    Forall2 (fun m c =>
               m_content c = m_content m /\ m_root c = m_root m
               /\ m_flags c = m_flags m /\ m_modseq c = m_modseq m)
      cursor (copiesFrom now target id uid cursor).
Proof.
  induction cursor as [|m r IH]; intros id uid; cbn [copiesFrom];
    constructor; [repeat split|apply IH].
Qed.

Lemma selected_In mailbox query s m :
  In m (selected mailbox query s) ->
  In m (messages s) /\ m_mailbox m = mailbox /\ query (m_uid m) = true.
Proof.
  unfold selected. intros H. apply sortByUid_In in H.
  apply filter_In in H. destruct H as [Hin Hq]. unfold inMailbox in Hq.
  apply andb_true_iff in Hq. destruct Hq as [Hm Hq].
  apply Nat.eqb_eq in Hm. auto.
Qed.

(** The stored counterpart of a document. *)
Lemma restamped_pick n0 (base stored : list Message) (a : Message) :
  Forall2 (restamped n0) base stored -> In a base ->
  exists b, In b stored /\ restamped n0 a b.
Proof.
  induction 1 as [|x y l l' Hxy H IH]; cbn; [intros []|].
  intros [<-|Hin]; [eauto|]. destruct (IH Hin) as (b & Hb & Hr). eauto.
Qed.

Lemma restamped_eq n0 (a b : Message) :
  restamped n0 a b -> b = set_m_modseq (m_modseq b) a.
Proof. intros [->|[_ H]]; [now destruct a|exact H]. Qed.

(** A list that is restamped from an append is an append. *)
Lemma restamped_split n0 (l1 l2 stored : list Message) :
  Forall2 (restamped n0) (l1 ++ l2) stored ->
  exists s1 s2,
    stored = s1 ++ s2 /\ Forall2 (restamped n0) l1 s1
    /\ Forall2 (restamped n0) l2 s2.
Proof.
  revert stored. induction l1 as [|a l1 IH]; intros stored H; cbn in H.
  - exists [], stored. repeat split; [constructor|exact H].
  - inversion H as [|x y l l' Hxy Hl]; subst.
    destruct (IH _ Hl) as (s1 & s2 & -> & H1 & H2).
    exists (y :: s1), s2. repeat split; [now constructor|exact H2].
Qed.

(** What holds of the documents made holds of the documents stored, when
    it does not depend on the MODSEQ. *)
Lemma restamped_after {A} (R R' : A -> Message -> Prop) n0 (l : list A)
    (base stored : list Message) :
  (forall a b c, R a b -> restamped n0 b c -> R' a c) ->
  Forall2 R l base -> Forall2 (restamped n0) base stored ->
  Forall2 R' l stored.
Proof.
  intros HR H. revert stored.
  induction H as [|a b l base Hab H IH]; intros stored Hs;
    inversion Hs; subst; constructor; eauto.
Qed.

Lemma restamped_all_old n0 (l stored : list Message) :
  Forall2 (restamped n0) l stored ->
  (forall m, In m l -> (m_id m < n0)%nat) -> stored = l.
Proof.
  induction 1 as [|x y l l' Hxy H IH]; intros Hold; [reflexivity|].
  rewrite (restamped_old _ _ _ Hxy) by (apply Hold; now left).
  f_equal. apply IH. intros m Hm. apply Hold. now right.
Qed.

Lemma Forall2_In_left {A B} (R : A -> B -> Prop) l l' :
  Forall2 R l l' -> Forall2 (fun a b => In a l /\ R a b) l l'.
Proof.
  induction 1 as [|a b l l' Hab Hl IH]; constructor.
  - split; [now left|exact Hab].
  - eapply Forall2_weaken; [|exact IH]. cbn. intros x y [Hx Hr].
    split; [now right|exact Hr].
Qed.

End PairFacts.

(** The COPY hook: the arrays of a successful copy.  Both have one entry
    per message selected in the source mailbox; [sourceUid] lists the
    source UIDs in descending order, and at every index [destinationUid]
    holds the UID under which the copy of that source message is stored in
    the destination mailbox: the stored document is the copy that the hook
    made, with the MODSEQ that the notifier gave it. *)
Theorem onCopy_pairs_descending (fails : nat -> bool) (now : Z)
    (path : string) (update : CopyUpdate) (session : Session)
    (s s' : Store) (v : Z) (su du : list Z) :
  onCopy fails now path update session s = (Ok (Copied v su du), s') ->
  exists mailbox target,
    findOne (mailboxQuery (RefPath (ss_user session) path)) (mailboxes s)
      = Some mailbox
    /\ findOne (mailboxQuery
                  (RefPath (ss_user session) (cu_destination update)))
         (mailboxes s) = Some target
    /\ let cursor :=
         selected (mb_id mailbox) (checkRangeQuery (cu_messages update)) s in
       length su = length cursor /\ length du = length cursor
       /\ su = rev (map m_uid cursor)
       /\ StronglySorted Z.ge su
       /\ Forall2
            (fun src dst =>
               exists m id stored,
                 In m (messages s) /\ m_mailbox m = mb_id mailbox
                 /\ m_uid m = src
                 /\ In stored (messages s')
                 /\ stored = set_m_modseq (m_modseq stored)
                               (copiedMessage now target id dst m)
                 /\ m_mailbox stored = mb_id target
                 /\ m_uid stored = dst
                 /\ m_content stored = m_content m)
            su du.
Proof.
  intros H. apply onCopy_spec in H.
  destruct H as (mailbox & target & rec & Hm & Ht & _ & H).
  exists mailbox, target. split; [exact Hm|]. split; [exact Ht|].
  intros cursor. cbv zeta in H. fold cursor in H.
  destruct H as (_ & Hsu & Hdu & Hms & _).
  assert (Hpairs :
    Forall2
      (fun src dst =>
         exists m id stored,
           In m (messages s) /\ m_mailbox m = mb_id mailbox /\ m_uid m = src
           /\ In stored (messages s')
           /\ stored = set_m_modseq (m_modseq stored)
                         (copiedMessage now target id dst m)
           /\ m_mailbox stored = mb_id target
           /\ m_uid stored = dst
           /\ m_content stored = m_content m)
      su du).
  { rewrite Hsu, Hdu, <- map_rev. apply Forall2_map_left, Forall2_rev.
    eapply Forall2_weaken;
      [|apply Forall2_In_left, (copies_paired now target cursor (nextOid s))].
    cbn beta. intros m dst (Hin & k & Hk).
    apply selected_In in Hin. destruct Hin as (Hin & Hbox & _).
    destruct (restamped_pick _ _ _ (copiedMessage now target k dst m) Hms)
      as (stored & Hstored & Hr); [apply in_or_app; now right|].
    exists m, k, stored.
    pose proof (restamped_fields _ _ _ Hr) as (_ & Hb & Hu & Hc & _).
    repeat split; auto. now apply restamped_eq in Hr. }
  split; [rewrite Hsu; now rewrite length_rev, length_map|].
  split.
  { rewrite <- (Forall2_same_length _ _ _ Hpairs), Hsu.
    now rewrite length_rev, length_map. }
  split; [exact Hsu|]. split; [|exact Hpairs].
  rewrite Hsu. apply rev_descending, StronglySorted_map.
  apply sortByUid_sorted.
Qed.

Lemma onCopy_pairs_descending_witness :
  exists su du,
    fst (onCopy Scenario.reliable 0 "INBOX" Scenario.copyUpdate
           Scenario.copySession Scenario.moveStore)
      = Ok (Copied 1500000000 su du)
    /\ su = [9; 7] /\ length du = 2%nat /\ StronglySorted Z.ge su.
Proof.
  destruct (onCopy_pairs_descending Scenario.reliable 0 "INBOX"
              Scenario.copyUpdate Scenario.copySession Scenario.moveStore
              (snd (onCopy Scenario.reliable 0 "INBOX" Scenario.copyUpdate
                      Scenario.copySession Scenario.moveStore))
              1500000000 [9; 7] [4; 3])
    as (mailbox & target & Hm & _ & H).
  - vm_compute. reflexivity.
  - vm_compute in Hm. injection Hm as <-. cbv zeta in H.
    destruct H as (_ & Hdu & _ & Hsorted & _).
    exists [9; 7], [4; 3]. split; [vm_compute; reflexivity|].
    split; [reflexivity|]. split; [reflexivity|exact Hsorted].
Defined.

(** The COPY hook: the UIDs it hands out.  The copies get the UIDs from
    the destination's [uidNext] on, one after the other in source UID
    order, so [destinationUid] is that run read backwards.  The record of
    the destination ends with [uidNext] raised by the number of copies and
    with every other field as it was, but for [modifyIndex]: that is the
    notifier's to raise, and it is not lowered.  No other mailbox record
    is touched. *)
Theorem onCopy_uids_consecutive (fails : nat -> bool) (now : Z)
    (path : string) (update : CopyUpdate) (session : Session)
    (s s' : Store) (v : Z) (su du : list Z) :
  onCopy fails now path update session s = (Ok (Copied v su du), s') ->
  exists target before after,
    findOne (mailboxQuery
               (RefPath (ss_user session) (cu_destination update)))
      (mailboxes s) = Some target
    /\ v = mb_uidValidity target
    /\ findOne (byId (mb_id target)) (mailboxes s) = Some before
    /\ findOne (byId (mb_id target)) (mailboxes s') = Some after
    /\ du = rev (uidsFrom (mb_uidNext before) (length su))
    /\ mb_uidNext after = mb_uidNext before + Z.of_nat (length su)
    /\ after = set_mb_modifyIndex (mb_modifyIndex after)
                 (set_mb_uidNext (mb_uidNext after) before)
    /\ mb_modifyIndex before <= mb_modifyIndex after
    /\ (forall uid, In uid du -> mb_uidNext before <= uid < mb_uidNext after)
    /\ (forall id, id <> mb_id target ->
          findOne (byId id) (mailboxes s') = findOne (byId id) (mailboxes s)).
Proof.
  intros H. apply onCopy_spec in H.
  destruct H as (mailbox & target & rec & _ & Ht & Hrec & H).
  cbv zeta in H.
  destruct H as (Hv & Hsu & Hdu & _ & (rec' & Hrec' & Hr) & Hother & _).
  assert (Hlen : length su
                 = length (selected (mb_id mailbox)
                             (checkRangeQuery (cu_messages update)) s))
    by (rewrite Hsu; now rewrite length_rev, length_map).
  rewrite <- Hlen in Hdu, Hr.
  assert (Hn : mb_uidNext rec' = mb_uidNext rec + Z.of_nat (length su)).
  { destruct Hr as [-> _]. reflexivity. }
  exists target, rec, rec'. repeat (split; [assumption|]).
  split; [rewrite Hn; apply Hr|]. split; [apply Hr|].
  split; [|exact Hother].
  intros uid Hin. rewrite Hdu in Hin. apply in_rev in Hin.
  apply In_nth_error in Hin. destruct Hin as (i & Hi).
  assert (Hlt : (i < length su)%nat).
  { rewrite <- (uidsFrom_length (mb_uidNext rec) (length su)).
    apply nth_error_Some. congruence. }
  rewrite uidsFrom_nth in Hi by exact Hlt. injection Hi as <-. lia.
Qed.

Lemma onCopy_uids_consecutive_witness :
  exists target before after,
    findOne (byId (mb_id target)) (mailboxes Scenario.moveStore) = Some before
    /\ mb_uidNext before = 3
    /\ mb_uidNext after = 3 + Z.of_nat (length [9; 7])
    /\ 4 <= mb_modifyIndex after.
Proof.
  destruct (onCopy_uids_consecutive Scenario.reliable 0 "INBOX"
              Scenario.copyUpdate Scenario.copySession Scenario.moveStore
              (snd (onCopy Scenario.reliable 0 "INBOX" Scenario.copyUpdate
                      Scenario.copySession Scenario.moveStore))
              1500000000 [9; 7] [4; 3])
    as (target & before & after & Ht & _ & Hb & _ & _ & Hn & _ & Hle & _).
  - vm_compute. reflexivity.
  - exists target, before, after. split; [exact Hb|].
    vm_compute in Ht. injection Ht as <-.
    vm_compute in Hb. injection Hb as <-. split; [reflexivity|].
    split; [exact Hn|exact Hle].
Defined.

(** The COPY hook only appends.  After a successful copy the collection
    of messages is the collection before followed by the copies, in source
    UID order, and the journal is the journal before followed by one
    EXISTS entry per copy, under the user and the path of the destination,
    with the destination UIDs in ascending order.  The MODSEQ of the
    copies is the notifier's; it reassigns no document whose id is below
    the counter that the hook draws the ids of the copies from. *)
Theorem onCopy_appends (fails : nat -> bool) (now : Z)
    (path : string) (update : CopyUpdate) (session : Session)
    (s s' : Store) (v : Z) (su du : list Z) :
  onCopy fails now path update session s = (Ok (Copied v su du), s') ->
  exists mailbox target old copies entries,
    findOne (mailboxQuery (RefPath (ss_user session) path)) (mailboxes s)
      = Some mailbox
    /\ findOne (mailboxQuery
                  (RefPath (ss_user session) (cu_destination update)))
         (mailboxes s) = Some target
    /\ messages s' = old ++ copies
    /\ Forall2 (restamped (nextOid s)) (messages s) old
    /\ ((forall m, In m (messages s) -> (m_id m < nextOid s)%nat) ->
        old = messages s)
    /\ map m_uid copies = rev du
    /\ Forall (fun c => m_mailbox c = mb_id target) copies
    /\ Forall2 (fun m c =>
                  m_content c = m_content m /\ m_root c = m_root m
                  /\ m_flags c = m_flags m)
         (selected (mb_id mailbox) (checkRangeQuery (cu_messages update)) s)
         copies
    /\ journal s' = journal s ++ entries
    /\ uidsOf EXISTS entries = rev du
    /\ length entries = length du
    /\ Forall (fun d => fst d = ScopeUserPath (ss_user session)
                                 (cu_destination update)
                        /\ je_command (snd d) = EXISTS) entries.
Proof.
  intros H. apply onCopy_spec in H.
  destruct H as (mailbox & target & rec & Hm & Ht & Hrec & H).
  cbv zeta in H.
  set (cursor := selected (mb_id mailbox)
                   (checkRangeQuery (cu_messages update)) s) in *.
  destruct H as (_ & _ & Hdu & Hms & _ & _ & (j & Hj & Hlen & Huids & Hall) & _).
  apply restamped_split in Hms. destruct Hms as (old & copies & Hs' & Hold & Hcp).
  exists mailbox, target, old, copies, j.
  assert (Hpath : mb_path target = cu_destination update).
  { apply findOne_holds in Ht. destruct Ht as [_ Hq]. cbn in Hq.
    apply andb_true_iff in Hq. destruct Hq as [_ Hq].
    now apply String.eqb_eq in Hq. }
  rewrite Hdu, rev_involutive. rewrite Hpath in Hall.
  split; [exact Hm|]. split; [exact Ht|]. split; [exact Hs'|].
  split; [exact Hold|].
  split; [now apply restamped_all_old|].
  split.
  { rewrite <- (copiesFrom_uids now target cursor (nextOid s) (mb_uidNext rec)).
    clear - Hcp. induction Hcp as [|a b l l' Hab H IH]; cbn; [reflexivity|].
    f_equal; [|exact IH]. now destruct (restamped_fields _ _ _ Hab) as (_ & _ & -> & _). }
  split.
  { pose proof (copiesFrom_mailbox now target cursor (nextOid s)
                  (mb_uidNext rec)) as Hbox.
    clear - Hcp Hbox. induction Hcp as [|a b l l' Hab H IH]; constructor.
    - inversion Hbox; subst.
      destruct (restamped_fields _ _ _ Hab) as (_ & -> & _). assumption.
    - apply IH. now inversion Hbox. }
  split.
  { eapply restamped_after;
      [|apply (copiesFrom_content now target cursor (nextOid s)
                 (mb_uidNext rec))|exact Hcp].
    cbn beta. intros m c c' (Hc & Hr & Hf & _) Hcc'.
    destruct (restamped_fields _ _ _ Hcc')
      as (_ & _ & _ & -> & _ & -> & ->). auto. }
  split; [exact Hj|]. split; [exact Huids|].
  split; [now rewrite Hlen, length_rev, uidsFrom_length|exact Hall].
Qed.

Lemma onCopy_appends_witness :
  exists copies entries,
    messages (snd (onCopy Scenario.reliable 0 "INBOX" Scenario.copyUpdate
                     Scenario.copySession Scenario.moveStore))
      = messages Scenario.moveStore ++ copies
    /\ map m_uid copies = [3; 4]
    /\ uidsOf EXISTS entries = [3; 4].
Proof.
  destruct (onCopy_appends Scenario.reliable 0 "INBOX"
              Scenario.copyUpdate Scenario.copySession Scenario.moveStore
              (snd (onCopy Scenario.reliable 0 "INBOX" Scenario.copyUpdate
                      Scenario.copySession Scenario.moveStore))
              1500000000 [9; 7] [4; 3])
    as (mailbox & target & old & copies & entries & _ & _ & Hms & _ & Hold
        & Hu & _ & _ & _ & He & _).
  - vm_compute. reflexivity.
  - exists copies, entries. split; [|split; [exact Hu|exact He]].
    rewrite Hms, Hold; [reflexivity|].
    intros m [<-|[<-|[<-|[]]]]; cbn; lia.
Defined.

(** The COPY hook and the quota.  A copy of no message leaves every
    [storageUsed] as it is.  When the database does not fail, a successful
    copy adds the total size of the messages copied to the [storageUsed]
    of the owner of the source mailbox, in one update, and changes no
    other user. *)
Theorem onCopy_charges_quota (fails : nat -> bool) (now : Z)
    (path : string) (update : CopyUpdate) (session : Session)
    (s s' : Store) (v : Z) (su du : list Z) :
  (forall k, fails k = false) ->
  onCopy fails now path update session s = (Ok (Copied v su du), s') ->
  exists mailbox,
    findOne (mailboxQuery (RefPath (ss_user session) path)) (mailboxes s)
      = Some mailbox
    /\ let cursor :=
         selected (mb_id mailbox) (checkRangeQuery (cu_messages update)) s in
       (cursor = [] -> users s' = users s)
       /\ (cursor <> [] ->
           users s' = updateFirst (userById (mb_user mailbox))
                        (incStorage (totalSize cursor)) (users s)).
Proof.
  intros Hrel H. apply onCopy_spec in H.
  destruct H as (mailbox & target & rec & Hm & _ & _ & H). cbv zeta in H.
  destruct H as (_ & _ & _ & _ & _ & _ & _ & H0 & H1).
  exists mailbox. split; [exact Hm|]. cbv zeta. split; [exact H0|].
  now apply H1.
Qed.

Lemma onCopy_charges_quota_witness :
  users (snd (onCopy Scenario.reliable 0 "INBOX" Scenario.copyUpdate
                Scenario.copySession Scenario.moveStore))
    = [{| u_id := 1; u_storageUsed := 50 |}].
Proof.
  destruct (onCopy_charges_quota Scenario.reliable 0 "INBOX"
              Scenario.copyUpdate Scenario.copySession Scenario.moveStore
              (snd (onCopy Scenario.reliable 0 "INBOX" Scenario.copyUpdate
                      Scenario.copySession Scenario.moveStore))
              1500000000 [9; 7] [4; 3])
    as (mailbox & Hm & _ & H).
  - reflexivity.
  - vm_compute. reflexivity.
  - vm_compute in Hm. injection Hm as <-. rewrite H; [reflexivity|].
    vm_compute. discriminate.
Defined.

(** The answers that the loop of the hook can end with. *)
Lemma copyNext_answers (fails : nat -> bool) (now : Z) session mailbox target
    cursor :
  forall acc s r s',
    copyNext fails now session mailbox target cursor acc s = (Ok r, s') ->
    r = TRYCREATE \/ exists v su du, r = Copied v su du.
Proof.
  induction cursor as [|message rest IH]; intros acc s r s' H;
    cbn [copyNext] in H; apply attempt_ok in H;
    destruct H as [(u & s1 & Hnext & H)|(e & s1 & _ & H)];
    try (run_step H; run_all; fail).
  - run_step H. run_all. right. eauto.
  - apply attempt_ok in H.
    destruct H as [(step & s2 & Hone & H)|(e & s2 & _ & H)];
      [|run_step H; run_all].
    destruct step as [acc'|acc']; [now apply IH in H|].
    run_step H. run_all. now left.
Qed.

(** The COPY hook: its sentinels.  Whenever the hook answers without an
    error, the answer is NONEXISTENT exactly when the session's user has no
    mailbox at the source path.  When there is one but none at the
    destination path, the answer is TRYCREATE.  In both cases the hook has
    written nothing.  The UID lists are only the answer when both
    mailboxes were found.  (TRYCREATE is also what the hook answers when
    the record of the destination is gone by the time a UID is to be
    reserved; of that case nothing is said here.) *)
Theorem onCopy_sentinels (fails : nat -> bool) (now : Z)
    (path : string) (update : CopyUpdate) (session : Session)
    (s s' : Store) (r : CopyResult) :
  onCopy fails now path update session s = (Ok r, s') ->
  let source :=
    findOne (mailboxQuery (RefPath (ss_user session) path)) (mailboxes s) in
  let destination :=
    findOne (mailboxQuery (RefPath (ss_user session) (cu_destination update)))
      (mailboxes s) in
  (r = NONEXISTENT <-> source = None)
  /\ (source <> None -> destination = None -> r = TRYCREATE)
  /\ ((exists v su du, r = Copied v su du) ->
      source <> None /\ destination <> None)
  /\ (source = None \/ destination = None ->
      mailboxes s' = mailboxes s /\ messages s' = messages s
      /\ users s' = users s /\ journal s' = journal s).
Proof.
  intros H source destination. apply onCopy_lookups in H.
  fold source destination in H.
  destruct source as [mailbox|]; [destruct destination as [target|] eqn:Ed|].
  - destruct H as (s0 & _ & _ & _ & _ & _ & H).
    apply copyNext_answers in H.
    split; [split; [intros ->|discriminate]|].
    { destruct H as [H|(v & su & du & H)]; discriminate. }
    split; [discriminate|]. split; [split; discriminate|].
    intros [Hn|Hn]; discriminate.
  - destruct H as (-> & Hmb & Hms & Hus & Hj).
    split; [split; discriminate|]. split; [reflexivity|].
    split; [intros (v & su & du & Hr); discriminate|auto].
  - destruct H as (-> & Hmb & Hms & Hus & Hj).
    split; [split; reflexivity|]. split; [intros Hn; now elim Hn|].
    split; [intros (v & su & du & Hr); discriminate|auto].
Qed.

Lemma onCopy_sentinels_witness :
  (onCopy Scenario.reliable 0 "Nowhere" Scenario.copyUpdate
     Scenario.copySession Scenario.moveStore
   = (Ok NONEXISTENT,
      snd (onCopy Scenario.reliable 0 "Nowhere" Scenario.copyUpdate
             Scenario.copySession Scenario.moveStore))
   /\ findOne (mailboxQuery (RefPath 1 "Nowhere"))
        (mailboxes Scenario.moveStore) = None)
  /\ (fst (onCopy Scenario.reliable 0 "INBOX"
             {| cu_destination := "Nowhere"; cu_messages := [7; 9] |}
             Scenario.copySession Scenario.moveStore)
      = Ok TRYCREATE
      /\ messages (snd (onCopy Scenario.reliable 0 "INBOX"
                          {| cu_destination := "Nowhere";
                             cu_messages := [7; 9] |}
                          Scenario.copySession Scenario.moveStore))
         = messages Scenario.moveStore).
Proof.
  assert (H : onCopy Scenario.reliable 0 "Nowhere" Scenario.copyUpdate
                Scenario.copySession Scenario.moveStore
              = (Ok NONEXISTENT,
                 snd (onCopy Scenario.reliable 0 "Nowhere" Scenario.copyUpdate
                        Scenario.copySession Scenario.moveStore)))
    by (vm_compute; reflexivity).
  split.
  - split; [exact H|].
    apply (proj1 (onCopy_sentinels _ _ _ _ _ _ _ _ H)). reflexivity.
  - destruct (onCopy_sentinels Scenario.reliable 0 "INBOX"
                {| cu_destination := "Nowhere"; cu_messages := [7; 9] |}
                Scenario.copySession Scenario.moveStore
                (snd (onCopy Scenario.reliable 0 "INBOX"
                        {| cu_destination := "Nowhere";
                           cu_messages := [7; 9] |}
                        Scenario.copySession Scenario.moveStore))
                TRYCREATE)
      as (_ & _ & _ & Hw).
    + vm_compute. reflexivity.
    + split; [vm_compute; reflexivity|].
      apply Hw. right. vm_compute. reflexivity.
Defined.
(* ================================================================== *)
(** * Part 16b. The COPY hook: the arrays, index by index *)
(* ================================================================== *)

Section IndexFacts.

(** The UIDs of a run of reservations, read backwards, go down. *)
Lemma uidsFrom_rev_descending (uid : Z) (n : nat) :
  StronglySorted Z.gt (rev (uidsFrom uid n)).
Proof.
  induction n as [|n IH]; [constructor|].
  rewrite uidsFrom_snoc, rev_app_distr. cbn [rev app].
  constructor; [exact IH|].
  apply Forall_rev, Forall_forall. intros u Hu.
  apply uidsFrom_In in Hu. lia.
Qed.

(** What holds of two arrays entry by entry holds at every index. *)
Lemma paired_at (R : Z -> Z -> Prop) (su du : list Z) :
  Forall2 R su du ->
  forall i src dst,
    nth_error su i = Some src -> nth_error du i = Some dst -> R src dst.
Proof.
  induction 1 as [|a b l l' Hab Hl IH]; intros [|i] src dst Hs Hd;
    cbn in Hs, Hd; try discriminate.
  - injection Hs as <-. injection Hd as <-. exact Hab.
  - eapply IH; eassumption.
Qed.

End IndexFacts.

(** C10.  A successful COPY of [n] messages, the messages selected in the
    source mailbox, stores [n] more documents and returns two arrays of
    length [n].  At every index [i], [sourceUid[i]] is the UID of a
    message of the source mailbox and [destinationUid[i]] the UID under
    which its copy, with the same content, is stored in the destination
    mailbox.  [sourceUid] is the UIDs of the selected messages read
    backwards: the hook goes through them in ascending UID order and puts
    each pair at the front, so [sourceUid] goes down, and so does
    [destinationUid]. *)
Theorem onCopy_arrays_indexed (fails : nat -> bool) (now : Z)
    (path : string) (update : CopyUpdate) (session : Session)
    (s s' : Store) (v : Z) (su du : list Z) :
  onCopy fails now path update session s = (Ok (Copied v su du), s') ->
  exists mailbox target,
    findOne (mailboxQuery (RefPath (ss_user session) path)) (mailboxes s)
      = Some mailbox
    /\ findOne (mailboxQuery
                  (RefPath (ss_user session) (cu_destination update)))
         (mailboxes s) = Some target
    /\ let cursor :=
         selected (mb_id mailbox) (checkRangeQuery (cu_messages update)) s in
       let n := length cursor in
       length (messages s') = (length (messages s) + n)%nat
       /\ length su = n /\ length du = n
       /\ (forall i src dst,
             nth_error su i = Some src -> nth_error du i = Some dst ->
             exists m stored,
               In m (messages s) /\ m_mailbox m = mb_id mailbox
               /\ m_uid m = src
               /\ In stored (messages s')
               /\ m_mailbox stored = mb_id target
               /\ m_uid stored = dst
               /\ m_content stored = m_content m)
       /\ StronglySorted Z.le (map m_uid cursor)
       /\ su = rev (map m_uid cursor)
       /\ StronglySorted Z.ge su
       /\ StronglySorted Z.gt du.
Proof.
  intros H. apply onCopy_spec in H.
  destruct H as (mailbox & target & rec & Hm & Ht & _ & H).
  exists mailbox, target. split; [exact Hm|]. split; [exact Ht|].
  intros cursor n. cbv zeta in H. fold cursor in H.
  destruct H as (_ & Hsu & Hdu & Hms & _).
  assert (Hsorted : StronglySorted Z.le (map m_uid cursor))
    by apply StronglySorted_map, sortByUid_sorted.
  split.
  { rewrite <- (Forall2_length Hms), length_app. f_equal.
    rewrite <- (length_map m_uid), copiesFrom_uids. apply uidsFrom_length. }
  split; [rewrite Hsu; now rewrite length_rev, length_map|].
  split; [rewrite Hdu; now rewrite length_rev, uidsFrom_length|].
  split.
  { apply paired_at. rewrite Hsu, Hdu, <- map_rev.
    apply Forall2_map_left, Forall2_rev.
    eapply Forall2_weaken;
      [|apply Forall2_In_left, (copies_paired now target cursor (nextOid s))].
    cbn beta. intros m dst (Hin & k & Hk).
    apply selected_In in Hin. destruct Hin as (Hin & Hbox & _).
    destruct (restamped_pick _ _ _ (copiedMessage now target k dst m) Hms)
      as (stored & Hstored & Hr); [apply in_or_app; now right|].
    exists m, stored.
    pose proof (restamped_fields _ _ _ Hr) as (_ & Hb & Hu & Hc & _).
    repeat split; auto. }
  split; [exact Hsorted|]. split; [exact Hsu|].
  split; [rewrite Hsu; now apply rev_descending|].
  rewrite Hdu. apply uidsFrom_rev_descending.
Qed.

Lemma onCopy_arrays_indexed_witness :
  let run := onCopy Scenario.reliable 0 "INBOX" Scenario.copyUpdate
               Scenario.copySession Scenario.moveStore in
  fst run = Ok (Copied 1500000000 [9; 7] [4; 3])
  /\ length (messages (snd run)) = 5%nat
  /\ exists m stored,
       In m (messages Scenario.moveStore) /\ m_uid m = 9
       /\ In stored (messages (snd run))
       /\ m_mailbox stored = 20%nat /\ m_uid stored = 4
       /\ m_content stored = m_content m.
Proof.
  intros run.
  destruct (onCopy_arrays_indexed Scenario.reliable 0 "INBOX"
              Scenario.copyUpdate Scenario.copySession Scenario.moveStore
              (snd run) 1500000000 [9; 7] [4; 3])
    as (mailbox & target & Hm & Ht & Hlen & _ & _ & Hat & _).
  - vm_compute. reflexivity.
  - split; [vm_compute; reflexivity|].
    vm_compute in Hm. injection Hm as <-.
    vm_compute in Ht. injection Ht as <-.
    split; [rewrite Hlen; vm_compute; reflexivity|].
    destruct (Hat 0%nat 9 4 eq_refl eq_refl)
      as (m & stored & H1 & _ & H2 & H3 & H4 & H5 & H6).
    exists m, stored. repeat split; assumption.
Defined.
(* ================================================================== *)
(** * Part 17. [move] *)
(* ================================================================== *)

Section UniqueFacts.

Lemma insertByUid_perm (m : Message) (l : list Message) :
  Permutation (insertByUid m l) (m :: l).
Proof.
  induction l as [|x r IH]; cbn; [reflexivity|].
  destruct (m_uid m <? m_uid x); [reflexivity|].
  rewrite IH. apply perm_swap.
Qed.

(** The cursor holds the selected documents, each once. *)
Lemma sortByUid_perm (l : list Message) : Permutation (sortByUid l) l.
Proof.
  induction l as [|m r IH]; cbn; [reflexivity|].
  rewrite insertByUid_perm. now constructor.
Qed.

(** A selection of documents with unique ids has unique ids. *)
Lemma filter_unique_ids (keep : Message -> bool) (c : list Message) :
  NoDup (map m_id c) -> NoDup (map m_id (filter keep c)).
Proof.
  intros Hc. induction c as [|d c IH]; [exact Hc|].
  apply NoDup_cons_iff in Hc. destruct Hc as [Hd Hc]. cbn [filter].
  destruct (keep d); [|exact (IH Hc)].
  cbn [map]. apply NoDup_cons; [|exact (IH Hc)].
  contradict Hd. apply in_map_iff in Hd. destruct Hd as (y & Ey & Hy).
  apply filter_In in Hy. rewrite <- Ey. apply in_map, Hy.
Qed.

Lemma deleteFirst_app_left {A} (q : A -> bool) (l l' : list A) (x : A) :
  In x l -> q x = true -> deleteFirst q (l ++ l') = deleteFirst q l ++ l'.
Proof.
  induction l as [|y r IH]; cbn; [tauto|].
  intros [->|Hin] Hq.
  - now rewrite Hq.
  - destruct (q y); [reflexivity|]. now rewrite IH.
Qed.

Lemma withoutIds_absent (ids : list ObjectID) (l : list Message) :
  (forall m, In m l -> ~ In (m_id m) ids) -> withoutIds ids l = l.
Proof.
  intros H. unfold withoutIds. induction l as [|x r IH]; cbn; [reflexivity|].
  destruct (existsb (Nat.eqb (m_id x)) ids) eqn:E; cbn.
  - exfalso. apply existsb_exists in E. destruct E as (i & Hi & E).
    apply Nat.eqb_eq in E. subst i. apply (H x); [now left|exact Hi].
  - rewrite IH; [reflexivity|]. intros m Hm. apply H. now right.
Qed.

(** With unique ids, [deleteOne] by the id of a document of the collection
    takes out that document and no other. *)
Lemma deleteFirst_unique (m : Message) (l : list Message) :
  NoDup (map m_id l) -> In m l ->
  deleteFirst (isMessage (m_id m) (m_mailbox m) (m_uid m)) l
  = withoutIds [m_id m] l.
Proof.
  unfold withoutIds, isMessage.
  induction l as [|x r IH]; cbn; [tauto|].
  intros Hnd Hin. inversion Hnd as [|? ? Hx Hr]; subst.
  rewrite orb_false_r.
  destruct Hin as [->|Hin].
  - rewrite !Nat.eqb_refl, Z.eqb_refl. cbn.
    symmetry. apply (withoutIds_absent [m_id m]).
    intros y Hy [E|[]]. apply Hx. rewrite E. now apply in_map.
  - destruct (Nat.eqb_spec (m_id x) (m_id m)) as [E|E]; cbn.
    + exfalso. apply Hx. rewrite E. now apply in_map.
    + now rewrite IH.
Qed.

Lemma withoutIds_app (ids : list ObjectID) (l l' : list Message) :
  withoutIds ids (l ++ l') = withoutIds ids l ++ withoutIds ids l'.
Proof. unfold withoutIds. apply filter_app. Qed.

Lemma withoutIds_cons (id : ObjectID) (ids : list ObjectID) (l : list Message) :
  withoutIds ids (withoutIds [id] l) = withoutIds (id :: ids) l.
Proof.
  unfold withoutIds. induction l as [|x r IH]; [reflexivity|].
  cbn [filter existsb]. rewrite orb_false_r.
  destruct (m_id x =? id)%nat; cbn [negb orb filter]; [exact IH|].
  destruct (existsb (Nat.eqb (m_id x)) ids); cbn [negb]; [exact IH|].
  f_equal. exact IH.
Qed.

Lemma withoutIds_In (ids : list ObjectID) (l : list Message) (m : Message) :
  In m (withoutIds ids l) <-> In m l /\ ~ In (m_id m) ids.
Proof.
  unfold withoutIds. rewrite filter_In, negb_true_iff.
  split; intros [H1 H2]; split; trivial.
  - intros Hin. assert (existsb (Nat.eqb (m_id m)) ids = true); [|congruence].
    apply existsb_exists. exists (m_id m). split; [exact Hin|].
    apply Nat.eqb_refl.
  - destruct (existsb (Nat.eqb (m_id m)) ids) eqn:E; [|reflexivity].
    exfalso. apply H2.
    apply existsb_exists in E. destruct E as (i & Hi & E).
    apply Nat.eqb_eq in E. now subst.
Qed.

(** One step of [move] on a collection with unique ids: the document [m]
    goes, the clone [mv] with the fresh id [n] comes. *)
Lemma unique_step (l : list Message) (n : ObjectID) (m mv : Message)
    (rest : list Message) :
  NoDup (map m_id l) -> (forall x, In x l -> (m_id x < n)%nat) ->
  NoDup (map m_id (m :: rest)) -> (forall x, In x (m :: rest) -> In x l) ->
  m_id mv = n ->
  let l2 := withoutIds [m_id m] l ++ [mv] in
  NoDup (map m_id l2)
  /\ (forall x, In x l2 -> (m_id x < S n)%nat)
  /\ (forall x, In x rest -> In x l2)
  /\ withoutIds (map m_id rest) l2
     = withoutIds (map m_id (m :: rest)) l ++ [mv].
Proof.
  intros Hnd Hlt Hc Hsub Hmv l2. subst l2.
  inversion Hc as [|? ? Hm Hrest]; subst.
  split.
  { rewrite map_app. cbn [map].
    eapply Permutation_NoDup; [apply Permutation_cons_append|].
    constructor; [|now apply filter_unique_ids].
    intros Hin. apply in_map_iff in Hin. destruct Hin as (y & Hy & Hin).
    apply withoutIds_In in Hin. destruct Hin as [Hin _].
    apply Hlt in Hin. lia. }
  split.
  { intros x Hx. apply in_app_or in Hx. destruct Hx as [Hx|[<-|[]]]; [|lia].
    apply withoutIds_In in Hx. destruct Hx as [Hx _]. apply Hlt in Hx. lia. }
  split.
  { intros x Hx. apply in_or_app. left. apply withoutIds_In.
    split; [apply Hsub; now right|]. intros [E|[]]. apply Hm. rewrite E.
    now apply in_map. }
  rewrite withoutIds_app, withoutIds_cons. f_equal.
  apply withoutIds_absent. intros x [<-|[]] Hin.
  apply in_map_iff in Hin. destruct Hin as (y & Hy & Hin).
  assert (m_id y < m_id mv)%nat by (apply Hlt, Hsub; now right). lia.
Qed.

End UniqueFacts.

Section MovedFacts.

Variable now : Z.

Lemma applyMoveUpdate_ids (message : Message) (c : Change) :
  m_id (applyMoveUpdate message c) = m_id message
  /\ m_uid (applyMoveUpdate message c) = m_uid message
  /\ m_mailbox (applyMoveUpdate message c) = m_mailbox message
  /\ m_content (applyMoveUpdate message c) = m_content message
  /\ m_modseq (applyMoveUpdate message c) = m_modseq message
  /\ m_user (applyMoveUpdate message c) = m_user message.
Proof.
  destruct c as [v|v|v|v|[t|]|k]; cbn; unfold maintainFlag;
    repeat match goal with
           | |- context [if ?b then _ else _] => destruct b
           end; cbn; auto 10.
Qed.

(** The document that [move] stores: the content of the source message
    under the new id, in the target, at the reserved UID, with
    [modseq = 0]. *)
Lemma movedMessage_ids options target id uid message :
  let moved := movedMessage now options target id uid message in
  m_id moved = id /\ m_uid moved = uid /\ m_mailbox moved = mb_id target
  /\ m_content moved = m_content message /\ m_modseq moved = 0
  /\ m_user moved = m_user message.
Proof.
  unfold movedMessage.
  set (m0 := {| m_id := id; m_root := _ |}).
  assert (H0 : m_id m0 = id /\ m_uid m0 = uid /\ m_mailbox m0 = mb_id target
               /\ m_content m0 = m_content message /\ m_modseq m0 = 0
               /\ m_user m0 = m_user message)
    by (cbn; auto 10).
  clearbody m0. revert m0 H0.
  induction (mo_updates options) as [|c l IH]; intros m0 H0; cbn [fold_left].
  - cbv zeta. destruct (mo_markAsSeen options); [|exact H0].
    unfold markAsSeen. destruct (hasFlag _ _); cbn; exact H0.
  - apply IH. pose proof (applyMoveUpdate_ids m0 c). intuition congruence.
Qed.

End MovedFacts.

Section RestampFacts.

Lemma restamped_ids n0 (l l' : list Message) :
  Forall2 (restamped n0) l l' -> map m_id l' = map m_id l.
Proof.
  induction 1 as [|a b l l' Hab H IH]; cbn; [reflexivity|].
  now rewrite IH, (restamped_id _ _ _ Hab).
Qed.

(** A document below [n0] is still in the collection, as it was. *)
Lemma restamped_In_old n0 (l l' : list Message) (m : Message) :
  Forall2 (restamped n0) l l' -> In m l -> (m_id m < n0)%nat -> In m l'.
Proof.
  induction 1 as [|a b l l' Hab H IH]; cbn; [tauto|].
  intros [<-|Hin] Hlt; [left; now apply (restamped_old n0)|right; auto].
Qed.

Lemma withoutIds_restamped n0 ids (l l' : list Message) :
  Forall2 (restamped n0) l l' ->
  Forall2 (restamped n0) (withoutIds ids l) (withoutIds ids l').
Proof.
  apply filter_restamped. intros a b Hab.
  now rewrite (restamped_id _ _ _ Hab).
Qed.

Lemma uniqueIds_restamped n0 (l : list Message) (n : ObjectID) s' :
  NoDup (map m_id l) -> (forall x, In x l -> (m_id x < n)%nat) ->
  Forall2 (restamped n0) l (messages s') -> nextOid s' = n ->
  uniqueIds s'.
Proof.
  intros Hnd Hlt Hr Hn. pose proof (restamped_ids _ _ _ Hr) as Hids.
  split; [now rewrite Hids|]. intros m Hm. rewrite Hn.
  apply (in_map m_id) in Hm. rewrite Hids in Hm.
  apply in_map_iff in Hm. destruct Hm as (x & <- & Hx). now apply Hlt.
Qed.

Lemma raised_set_uidNext (a b : Mailbox) (v : Z) :
  raised a b -> raised (set_mb_uidNext v a) (set_mb_uidNext v b).
Proof.
  intros [H L]. split; [|exact L]. rewrite H at 1. reflexivity.
Qed.

End RestampFacts.

Section MoveFacts.

Variable fails : nat -> bool.
Variable now : Z.
Variable BULK : nat.

(** The notifier on the scope of a mailbox document. *)
Lemma renumber_target entries s target rec :
  existsb unnumbered entries = true ->
  findOne (byId (mb_id target)) (mailboxes s) = Some rec ->
  findOne (byId (mb_id target))
    (mailboxes (renumber (ScopeMailbox target) entries s))
  = Some (set_mb_modifyIndex (mb_modifyIndex rec + 1) rec).
Proof.
  intros Hu Hrec. unfold renumber. rewrite Hu.
  change (inScope (ScopeMailbox target)) with (byId (mb_id target)).
  rewrite Hrec. cbn [mailboxes set_messages set_mailboxes].
  apply findOne_updateFirst; [reflexivity|exact Hrec].
Qed.

Lemma scopeIs_mailbox target s : scopeIs (ScopeMailbox target) (mb_id target) s.
Proof.
  intros t Ht.
  change (inScope (ScopeMailbox target)) with (byId (mb_id target)) in Ht.
  apply findOne_holds in Ht. now apply byId_eq.
Qed.

Lemma pending_plain n0 acc :
  pending n0 acc -> existsb unnumbered (removeEntries acc) = false.
Proof.
  intros [H _]. induction H as [|e l He H IH]; [reflexivity|].
  cbn [existsb]. rewrite IH, orb_false_r. unfold unnumbered. now rewrite He.
Qed.

Lemma pending_numbered n0 acc :
  pending n0 acc -> existsEntries acc <> [] ->
  existsb unnumbered (existsEntries acc) = true.
Proof.
  intros [_ H] Hne. destruct H as [|e l [He _] H]; [contradiction|].
  cbn [existsb]. now rewrite He.
Qed.

(** The flush of [move]. *)
Lemma flushMove_ok mailboxData target acc u s s' n0 :
  flushMove mailboxData target acc s = (Ok u, s') ->
  pending n0 acc ->
  (forall id, id <> mb_id target ->
     findOne (byId id) (mailboxes s') = findOne (byId id) (mailboxes s))
  /\ (forall rec, findOne (byId (mb_id target)) (mailboxes s) = Some rec ->
      findOne (byId (mb_id target)) (mailboxes s')
      = Some (match existsEntries acc with
              | [] => rec
              | _ => set_mb_modifyIndex (mb_modifyIndex rec + 1) rec
              end))
  /\ Forall2 (restamped n0) (messages s) (messages s')
  /\ users s' = users s /\ nextOid s' = nextOid s
  /\ journal s'
     = journal s
       ++ map (pair (ScopeMailbox mailboxData)) (removeEntries acc)
       ++ map (pair (ScopeMailbox target)) (existsEntries acc).
Proof.
  unfold flushMove. intros H Hp.
  apply bind_ok in H. destruct H as (u1 & s1 & H1 & H).
  unfold addEntries, modify in H1. injection H1 as _ <-.
  rewrite (renumber_plain _ _ _ (pending_plain _ _ Hp)) in H.
  apply bind_ok in H. destruct H as (u2 & s2 & H2 & H).
  unfold addEntries, modify in H2. injection H2 as _ <-.
  run_all. cbn [mailboxes messages users nextOid journal set_fired set_journal].
  set (s1 := set_journal
               (journal s ++ map (pair (ScopeMailbox mailboxData))
                               (removeEntries acc)) s) in *.
  rewrite (renumber_frame users), (renumber_frame nextOid),
    (renumber_frame journal) by reflexivity.
  split.
  { intros id Hid.
    now rewrite (renumber_other _ _ _ _ _ (scopeIs_mailbox target s1) Hid). }
  split.
  { intros rec Hrec. destruct (existsEntries acc) as [|e l] eqn:E.
    - now rewrite renumber_plain.
    - apply renumber_target; [|exact Hrec].
      rewrite <- E. apply (pending_numbered n0); [exact Hp|]. now rewrite E. }
  split.
  { apply (renumber_restamped n0 _ _ s1). intros e Hin _.
    destruct Hp as [_ Hp]. rewrite Forall_forall in Hp. now apply Hp. }
  repeat (split; [reflexivity|]). cbn. now rewrite <- app_assoc.
Qed.

(** One message through [move]. *)
Lemma moveOne_ok options mailboxData target acc message acc' s s' n0 :
  moveOne fails now BULK options mailboxData target acc message s
    = (Ok acc', s') ->
  pending n0 acc -> (n0 <= nextOid s)%nat ->
  exists item,
    let moved :=
      movedMessage now options target (nextOid s) (mb_uidNext item) message in
    let r := entry EXPUNGE (m_uid message) (m_id message) None
               (m_unseen message) (ignoreOf (mo_session options)) in
    let e := withJunk (snd (junkTransition target message))
               (entry EXISTS (mb_uidNext item) (nextOid s) None
                  (m_unseen moved) None) in
    let flush := (BULK <=? length (existsEntries acc ++ [e]))%nat in
    findOne (byId (mb_id target)) (mailboxes s) = Some item
    /\ sourceUid acc'
       = sourceUid acc ++ [refOf (mo_returnIds options) message]
    /\ destinationUid acc'
       = destinationUid acc ++ [refOf (mo_returnIds options) moved]
    /\ findOne (byId (mb_id target)) (mailboxes s')
       = Some (if flush
               then set_mb_modifyIndex (mb_modifyIndex item + 1)
                      (incUidNext item)
               else incUidNext item)
    /\ (forall id, id <> mb_id target ->
          findOne (byId id) (mailboxes s') = findOne (byId id) (mailboxes s))
    /\ Forall2 (restamped n0)
         (deleteFirst
            (isMessage (m_id message) (mb_id mailboxData) (m_uid message))
            (messages s ++ [moved]))
         (messages s')
    /\ nextOid s' = S (nextOid s)
    /\ users s' = users s
    /\ pending n0 acc'
    /\ (if flush then
          removeEntries acc' = [] /\ existsEntries acc' = []
          /\ journal s'
             = journal s
               ++ map (pair (ScopeMailbox mailboxData))
                    (removeEntries acc ++ [r])
               ++ map (pair (ScopeMailbox target)) (existsEntries acc ++ [e])
        else
          removeEntries acc' = removeEntries acc ++ [r]
          /\ existsEntries acc' = existsEntries acc ++ [e]
          /\ journal s' = journal s).
Proof.
  intros H Hp Hn0. unfold moveOne in H.
  run_step H. apply on_mailboxes_ok in Hrun. cbn in Hrun.
  destruct Hrun as [<- ->]. rewrite findOneAndUpdate_eq in H.
  destruct (findOne (byId (mb_id target)) (mailboxes s)) as [item|] eqn:Eitem;
    cbn in H; [|run_all].
  exists item. cbv zeta. split; [reflexivity|].
  run_step H. apply on_messages_ok in Hrun. cbn in Hrun.
  destruct Hrun as [_ ->].
  run_step H. apply on_messages_ok in Hrun. cbn in Hrun.
  destruct Hrun as [_ ->].
  run_step H.
  assert (Hid : m_id (movedMessage now options target (nextOid s)
                        (mb_uidNext item) message) = nextOid s)
    by apply movedMessage_ids.
  assert (Huid : m_uid (movedMessage now options target (nextOid s)
                        (mb_uidNext item) message) = mb_uidNext item)
    by apply movedMessage_ids.
  unfold refOf. rewrite Hid, Huid.
  cbn [existsEntries] in H.
  set (r := entry EXPUNGE (m_uid message) (m_id message) None
              (m_unseen message) (ignoreOf (mo_session options))) in *.
  set (e := withJunk (snd (junkTransition target message))
              (entry EXISTS (mb_uidNext item) (nextOid s) None
                 (m_unseen (movedMessage now options target (nextOid s)
                              (mb_uidNext item) message)) None)) in *.
  assert (Hp2 : pending n0
                  {| sourceUid :=
                       sourceUid acc
                       ++ [if mo_returnIds options then RId (m_id message)
                           else RUid (m_uid message)];
                     destinationUid :=
                       destinationUid acc
                       ++ [if mo_returnIds options then RId (nextOid s)
                           else RUid (mb_uidNext item)];
                     removeEntries := removeEntries acc ++ [r];
                     existsEntries := existsEntries acc ++ [e] |}).
  { destruct Hp as [Hr He]. split; cbn [removeEntries existsEntries];
      apply Forall_app; (split; [assumption|]); repeat constructor.
    cbn. exact Hn0. }
  assert (Hsame : forall s1 : Store,
            messages s1
            = deleteFirst
                (isMessage (m_id message) (mb_id mailboxData) (m_uid message))
                (messages s
                 ++ [movedMessage now options target (nextOid s)
                       (mb_uidNext item) message]) ->
            Forall2 (restamped n0)
              (deleteFirst
                 (isMessage (m_id message) (mb_id mailboxData) (m_uid message))
                 (messages s
                  ++ [movedMessage now options target (nextOid s)
                        (mb_uidNext item) message]))
              (messages s1)).
  { intros s1 ->. apply Forall2_restamped_refl. }
  assert (Hrec1 : findOne (byId (mb_id target))
                    (updateFirst (byId (mb_id target)) incUidNext (mailboxes s))
                  = Some (incUidNext item))
    by (apply findOne_updateFirst; [reflexivity|exact Eitem]).
  assert (Hoth1 : forall id, id <> mb_id target ->
            findOne (byId id)
              (updateFirst (byId (mb_id target)) incUidNext (mailboxes s))
            = findOne (byId id) (mailboxes s))
    by (intros id Hne; apply findOne_updateFirst_other;
        [reflexivity|exact Hne]).
  assert (Ka : mailboxes s0
               = updateFirst (byId (mb_id target)) incUidNext (mailboxes s)
               /\ messages s0
                  = deleteFirst
                      (isMessage (m_id message) (mb_id mailboxData)
                         (m_uid message))
                      (messages s
                       ++ [movedMessage now options target (nextOid s)
                             (mb_uidNext item) message])
               /\ nextOid s0 = S (nextOid s) /\ users s0 = users s
               /\ journal s0 = journal s).
  { destruct (mo_session options); run_all; cbn; auto. }
  destruct Ka as (Kmb & Kms & Koid & Kus & Kj).
  destruct (BULK <=? _)%nat.
  - apply bind_ok in H. destruct H as (u & s3 & Hflush & H).
    unfold ret in H. injection H as <- <-.
    apply (flushMove_ok _ _ _ _ _ _ n0) in Hflush; [|exact Hp2].
    destruct Hflush as (Foth & Ftgt & Fms & Fus & Foid & Fj).
    cbn [removeEntries existsEntries sourceUid destinationUid] in *.
    rewrite Kmb in Foth, Ftgt. rewrite Kms in Fms.
    split; [reflexivity|]. split; [reflexivity|]. split.
    { rewrite (Ftgt _ Hrec1). destruct (existsEntries acc); reflexivity. }
    split; [intros id Hne; rewrite (Foth id Hne); now apply Hoth1|].
    split; [exact Fms|]. split; [congruence|]. split; [congruence|].
    split; [split; constructor|].
    rewrite Fj, Kj. auto.
  - unfold ret in H. injection H as <- <-.
    cbn [removeEntries existsEntries sourceUid destinationUid].
    rewrite Kmb. auto 12.
Qed.

(** The end of [move], without an error to hand on. *)
Lemma moveDone_ok mailboxData target acc r s s' n0 :
  moveDone mailboxData target acc None s = (Ok r, s') ->
  pending n0 acc ->
  r = {| mr_uidValidity := mb_uidValidity target;
         mr_sourceUid := sourceUid acc;
         mr_destinationUid := destinationUid acc;
         mr_mailbox := mb_id mailboxData;
         mr_status := StatusMoved |}
  /\ (forall id, id <> mb_id target ->
        findOne (byId id) (mailboxes s') = findOne (byId id) (mailboxes s))
  /\ (forall rec, findOne (byId (mb_id target)) (mailboxes s) = Some rec ->
      findOne (byId (mb_id target)) (mailboxes s')
      = Some (match existsEntries acc with
              | [] => rec
              | _ => set_mb_modifyIndex (mb_modifyIndex rec + 1) rec
              end))
  /\ Forall2 (restamped n0) (messages s) (messages s')
  /\ users s' = users s /\ nextOid s' = nextOid s
  /\ journal s'
     = journal s
       ++ moveJournal BULK mailboxData target (removeEntries acc)
            (existsEntries acc) [].
Proof.
  unfold moveDone. intros H Hp. cbn [moveJournal].
  apply bind_ok in H. destruct H as (u & s1 & Hflush & H).
  unfold ret in H. injection H as <- <-. split; [reflexivity|].
  destruct (existsEntries acc) as [|e l] eqn:E.
  - unfold ret in Hflush. injection Hflush as _ <-.
    rewrite app_nil_r. repeat split; auto. apply Forall2_restamped_refl.
  - apply (flushMove_ok _ _ _ _ _ _ n0) in Hflush; [|exact Hp].
    rewrite E in Hflush. exact Hflush.
Qed.

(** The loop of [move], from any point of the cursor. *)
Lemma moveNext_spec options mailboxData target cursor :
  forall acc s r s' rec n0,
    moveNext fails now BULK options mailboxData target cursor acc s
      = (Ok r, s') ->
    findOne (byId (mb_id target)) (mailboxes s) = Some rec ->
    pending n0 acc -> (n0 <= nextOid s)%nat ->
    r = {| mr_uidValidity := mb_uidValidity target;
           mr_sourceUid :=
             sourceUid acc ++ map (refOf (mo_returnIds options)) cursor;
           mr_destinationUid :=
             destinationUid acc
             ++ map (refOf (mo_returnIds options))
                  (movedFrom now options target (nextOid s) (mb_uidNext rec)
                     cursor);
           mr_mailbox := mb_id mailboxData;
           mr_status := StatusMoved |}
    /\ (exists rec',
          findOne (byId (mb_id target)) (mailboxes s') = Some rec'
          /\ raised
               (set_mb_uidNext (mb_uidNext rec + Z.of_nat (length cursor)) rec)
               rec'
          /\ (cursor <> [] \/ existsEntries acc <> [] ->
              mb_modifyIndex rec < mb_modifyIndex rec'))
    /\ (forall id, id <> mb_id target ->
          findOne (byId id) (mailboxes s') = findOne (byId id) (mailboxes s))
    /\ users s' = users s
    /\ nextOid s' = (nextOid s + length cursor)%nat
    /\ journal s'
       = journal s
         ++ moveJournal BULK mailboxData target (removeEntries acc)
              (existsEntries acc)
              (combine (expungeOf options cursor)
                 (existsFrom now options target (nextOid s) (mb_uidNext rec)
                    cursor))
    /\ (uniqueIds s -> NoDup (map m_id cursor) ->
        (forall m, In m cursor ->
           In m (messages s) /\ m_mailbox m = mb_id mailboxData
           /\ (m_id m < n0)%nat) ->
        Forall2 (restamped n0)
          (withoutIds (map m_id cursor) (messages s)
           ++ movedFrom now options target (nextOid s) (mb_uidNext rec) cursor)
          (messages s')
        /\ uniqueIds s').
Proof.
  induction cursor as [|message rest IH]; intros acc s r s' rec n0 H Hrec Hp Hn0;
    cbn [moveNext] in H; apply attempt_ok in H;
    destruct H as [(u & s1 & Hnext & H)|(e & s1 & _ & H)];
    try (unfold moveDone in H; run_step H; run_all; fail);
    kept messages Hnext; kept mailboxes Hnext; kept journal Hnext;
    kept users Hnext; kept nextOid Hnext.
  - apply (moveDone_ok _ _ _ _ _ _ n0) in H; [|exact Hp].
    destruct H as (-> & Hoth & Htgt & Hms & Hus & Hoid & Hj).
    cbn [map movedFrom expungeOf existsFrom combine length].
    rewrite K0 in Hoth, Htgt. rewrite K in Hms.
    rewrite !app_nil_r, Hus, Hoid, Hj, K1, K2, K3, Nat.add_0_r.
    split; [reflexivity|]. split.
    { eexists. split; [apply Htgt; exact Hrec|]. rewrite Z.add_0_r.
      split.
      - destruct (existsEntries acc); (split; [now destruct rec|cbn; lia]).
      - intros [Hc|He]; [now elim Hc|].
        destruct (existsEntries acc); [now elim He|cbn; lia]. }
    split; [exact Hoth|].
    repeat (split; [reflexivity|]).
    intros [Hnd Hlt] _ _.
    rewrite (withoutIds_absent (@nil ObjectID) (messages s)) by (intros m _ []).
    split; [exact Hms|].
    eapply uniqueIds_restamped; [exact Hnd|exact Hlt|exact Hms|].
    now rewrite Hoid, K3.
  - apply attempt_ok in H.
    destruct H as [(acc' & s2 & Hone & H)|(e & s2 & _ & H)];
      [|unfold moveDone in H; run_step H; run_all].
    apply (moveOne_ok _ _ _ _ _ _ _ _ n0) in Hone;
      [|exact Hp|rewrite K3; exact Hn0].
    cbv zeta in Hone.
    destruct Hone
      as (item & Hitem & Hsu & Hdu & Hmb & Hoth & Hms & Hoid & Hus & Hp'
          & Hflush).
    rewrite K0, Hrec in Hitem. injection Hitem as <-.
    rewrite K3 in *. rewrite K in Hms. rewrite K0 in Hoth. rewrite K1 in *.
    assert (Hn2 : (n0 <= nextOid s2)%nat) by lia.
    destruct (IH _ _ _ _ _ _ H Hmb Hp' Hn2)
      as (Hr & Hrec' & Hother & Husers & Hnext' & Hjour & Hmsg).
    rewrite Hoid in *.
    assert (Hu2 : forall b : bool,
              mb_uidNext (if b
                          then set_mb_modifyIndex (mb_modifyIndex rec + 1)
                                 (incUidNext rec)
                          else incUidNext rec) = mb_uidNext rec + 1)
      by (intros []; reflexivity).
    rewrite Hu2 in *.
    split.
    { rewrite Hr, Hsu, Hdu. cbn [map movedFrom].
      now rewrite <- !app_assoc. }
    split.
    { destruct Hrec' as (rec' & Hf & Hraised & Hstrict). exists rec'.
      split; [exact Hf|]. split.
      - cbn [length]. rewrite Nat2Z.inj_succ.
        eapply raised_trans; [|exact Hraised].
        replace (mb_uidNext rec + Z.succ (Z.of_nat (length rest)))
          with (mb_uidNext rec + 1 + Z.of_nat (length rest)) by lia.
        destruct (BULK <=? _)%nat;
          (split; [now destruct rec|cbn; lia]).
      - intros _. destruct Hraised as [_ Hle].
        destruct (BULK <=? _)%nat eqn:Eb.
        + cbn in Hle. lia.
        + cbn in Hle. destruct Hflush as (_ & He & _).
          assert (mb_modifyIndex rec < mb_modifyIndex rec'); [|assumption].
          cbn in Hstrict. apply Hstrict. right. rewrite He.
          now destruct (existsEntries acc). }
    split.
    { intros id Hid. now rewrite (Hother id Hid), (Hoth id Hid). }
    split; [now rewrite Husers, Hus, K2|].
    split; [rewrite Hnext'; cbn [length]; lia|].
    split.
    { rewrite Hjour. cbn [expungeOf map existsFrom combine moveJournal].
      destruct (BULK <=? _)%nat.
      - destruct Hflush as (-> & -> & ->). now rewrite <- !app_assoc.
      - destruct Hflush as (-> & -> & ->). reflexivity. }
    intros [Hnd Hlt] Hc Hsub.
    assert (Hin : In message (messages s)) by (apply Hsub; now left).
    assert (Hbox : m_mailbox message = mb_id mailboxData)
      by (apply Hsub; now left).
    rewrite <- Hbox in Hms.
    rewrite (deleteFirst_app_left _ _ _ message) in Hms;
      [|exact Hin|unfold isMessage; now rewrite !Nat.eqb_refl, Z.eqb_refl].
    rewrite deleteFirst_unique in Hms by assumption.
    destruct (unique_step (messages s) (nextOid s) message
                (movedMessage now options target (nextOid s) (mb_uidNext rec)
                   message) rest Hnd Hlt Hc)
      as (Und & Ult & Usub & Ueq);
      [intros x Hx; now apply Hsub|apply movedMessage_ids|].
    cbv zeta in Und, Ult, Usub, Ueq.
    destruct Hmsg as [Hmsg Huniq].
    + eapply uniqueIds_restamped; [exact Und|exact Ult|exact Hms|exact Hoid].
    + now inversion Hc.
    + intros m Hm. split; [|split; apply Hsub; now right].
      eapply restamped_In_old; [exact Hms|now apply Usub|].
      apply Hsub. now right.
    + split; [|exact Huniq].
      eapply Forall2_restamped_trans; [|exact Hmsg].
      cbn [movedFrom].
      change (movedMessage now options target (nextOid s) (mb_uidNext rec)
                message
              :: movedFrom now options target (S (nextOid s))
                   (mb_uidNext rec + 1) rest)
        with ([movedMessage now options target (nextOid s) (mb_uidNext rec)
                 message]
              ++ movedFrom now options target (S (nextOid s))
                   (mb_uidNext rec + 1) rest).
      rewrite app_assoc, <- Ueq.
      apply Forall2_app; [|apply Forall2_restamped_refl].
      now apply withoutIds_restamped.
Qed.

(** [getMailbox] when it hands on a record. *)
Lemma getMailbox_ok ref s m s1 :
  getMailbox fails ref s = (Ok m, s1) ->
  resolve ref s = Some m
  /\ mailboxes s1 = mailboxes s /\ messages s1 = messages s
  /\ users s1 = users s /\ journal s1 = journal s
  /\ nextOid s1 = nextOid s.
Proof.
  intros H.
  assert (Hdata : mailboxes s1 = mailboxes s /\ messages s1 = messages s
                  /\ users s1 = users s /\ journal s1 = journal s
                  /\ nextOid s1 = nextOid s).
  { repeat split; (eapply keeps_run; [|exact H]);
      apply getMailbox_keeps; auto with keeps; now intros []. }
  split; [|exact Hdata].
  destruct ref; cbn [getMailbox resolve] in *;
    try (run_step H; now subst);
    (run_step H; apply on_mailboxes_ok in Hrun;
     cbn beta iota delta [fst snd] in Hrun; destruct Hrun as [<- ->];
     destruct (findOne _ (mailboxes s)); run_all; reflexivity).
Qed.

(** The record of a mailbox after the modification index of a mailbox has
    been raised. *)
Lemma findOne_bumped (id tid : ObjectID) (c : list Mailbox) (rec : Mailbox) :
  findOne (byId tid) c = Some rec ->
  exists rec0,
    findOne (byId tid) (updateFirst (byId id) incModifyIndex c) = Some rec0
    /\ mb_uidNext rec0 = mb_uidNext rec
    /\ mb_modifyIndex rec0
       = mb_modifyIndex rec + (if (tid =? id)%nat then 1 else 0).
Proof.
  intros H. destruct (Nat.eqb_spec tid id) as [->|Hne].
  - exists (incModifyIndex rec).
    split; [apply findOne_updateFirst; [reflexivity|exact H]|].
    split; reflexivity.
  - exists rec. rewrite findOne_updateFirst_other; [|reflexivity|congruence].
    split; [exact H|]. split; [reflexivity|lia].
Qed.

(** [move] up to its loop. *)
Lemma move_runs options s r s' :
  move fails now BULK options s = (Ok r, s') ->
  exists source target s0,
    resolve (mo_source options) s = Some source
    /\ resolve (mo_destination options) s = Some target
    /\ messages s0 = messages s /\ users s0 = users s
    /\ journal s0 = journal s /\ nextOid s0 = nextOid s
    /\ (mailboxes s0 = mailboxes s
        \/ mailboxes s0
           = updateFirst (byId (mb_id source)) incModifyIndex (mailboxes s))
    /\ ((forall k, fails k = false) ->
        mailboxes s0
        = updateFirst (byId (mb_id source)) incModifyIndex (mailboxes s))
    /\ moveNext fails now BULK options source target
         (selected (mb_id source) (moveQuery options) s)
         {| sourceUid := []; destinationUid := [];
            removeEntries := []; existsEntries := [] |} s0
       = (Ok r, s').
Proof.
  unfold move. intros H.
  run_step H. rename a into source. apply getMailbox_ok in Hrun.
  destruct Hrun as (Hsrc & Kmb & Kms & Kus & Kj & Koid).
  run_step H. rename a into target. apply getMailbox_ok in Hrun.
  destruct Hrun as (Htgt & Kmb0 & Kms0 & Kus0 & Kj0 & Koid0).
  run_step H. cbv beta in H.
  exists source, target, s2.
  assert (Hres : resolve (mo_destination options) s = Some target).
  { destruct (mo_destination options); cbn [resolve] in *;
      try exact Htgt; now rewrite <- Kmb. }
  unfold ignoring, on_mailboxes, call in Hrun. injection Hrun as _ <-.
  unfold selected.
  destruct (fails (ops s1)) eqn:Ef; cbn [snd] in *.
  - cbn in H |- *. rewrite Kms0, Kms in H.
    rewrite Kmb0, Kmb, Kms0, Kms, Kus0, Kus, Kj0, Kj, Koid0, Koid.
    repeat (split; [auto; fail|]).
    split; [|exact H].
    intros Hrel. rewrite Hrel in Ef. discriminate.
  - pose proof (findOneAndUpdate_snd (byId (mb_id source)) incModifyIndex
                  None (mailboxes s1)) as Hs.
    cbn [mailboxes set_ops] in *.
    destruct (findOneAndUpdate _ _ _ (mailboxes s1)) as [it c].
    cbn [snd] in *. subst c. cbn in H |- *. rewrite Kms0, Kms in H.
    rewrite Kmb0, Kmb, Kms0, Kms, Kus0, Kus, Kj0, Kj, Koid0, Koid.
    rewrite Kmb0, Kmb in H.
    repeat (split; [auto; fail|]). exact H.
Qed.

End MoveFacts.

Section MoveJournalFacts.

Variable bulk : nat.
Variables source target : Mailbox.

Lemma uidsOf_same (c : Command) (scope : Scope) (l : list JournalEntry) :
  Forall (fun e => je_command e = c) l ->
  uidsOf c (map (pair scope) l) = map je_uid l.
Proof.
  unfold uidsOf. induction 1 as [|e l He Hl IH]; cbn; [reflexivity|].
  rewrite He. destruct c; cbn; now rewrite IH.
Qed.

Lemma uidsOf_other (c c' : Command) (scope : Scope) (l : list JournalEntry) :
  c <> c' -> Forall (fun e => je_command e = c') l ->
  uidsOf c (map (pair scope) l) = [].
Proof.
  unfold uidsOf. intros Hne. induction 1 as [|e l He Hl IH]; cbn;
    [reflexivity|].
  rewrite He. destruct c, c'; cbn; try congruence; exact IH.
Qed.

(** The journal documents of a run of [move]: every EXPUNGE entry and
    every EXISTS entry once, each kind in the order in which the entries
    were made. *)
Lemma moveJournal_uids (new : list (JournalEntry * JournalEntry)) :
  forall R E,
    length R = length E ->
    Forall (fun e => je_command e = EXPUNGE) R ->
    Forall (fun e => je_command e = EXISTS) E ->
    Forall (fun p => je_command (fst p) = EXPUNGE
                     /\ je_command (snd p) = EXISTS) new ->
    uidsOf EXPUNGE (moveJournal bulk source target R E new)
    = map je_uid R ++ map (fun p => je_uid (fst p)) new
    /\ uidsOf EXISTS (moveJournal bulk source target R E new)
       = map je_uid E ++ map (fun p => je_uid (snd p)) new
    /\ length (moveJournal bulk source target R E new)
       = (length R + length E + 2 * length new)%nat
    /\ Forall (fun d => (je_command (snd d) = EXPUNGE
                         /\ fst d = ScopeMailbox source)
                        \/ (je_command (snd d) = EXISTS
                            /\ fst d = ScopeMailbox target))
         (moveJournal bulk source target R E new).
Proof.
  assert (Hflush : forall R E,
    Forall (fun e => je_command e = EXPUNGE) R ->
    Forall (fun e => je_command e = EXISTS) E ->
    let j := map (pair (ScopeMailbox source)) R
             ++ map (pair (ScopeMailbox target)) E in
    uidsOf EXPUNGE j = map je_uid R /\ uidsOf EXISTS j = map je_uid E
    /\ length j = (length R + length E)%nat
    /\ Forall (fun d => (je_command (snd d) = EXPUNGE
                         /\ fst d = ScopeMailbox source)
                        \/ (je_command (snd d) = EXISTS
                            /\ fst d = ScopeMailbox target)) j).
  { intros R E HR HE j. subst j. rewrite !uidsOf_app.
    rewrite (uidsOf_same EXPUNGE), (uidsOf_other EXPUNGE EXISTS),
      (uidsOf_other EXISTS EXPUNGE), (uidsOf_same EXISTS), app_nil_r;
      try assumption; try discriminate.
    split; [reflexivity|]. split; [reflexivity|].
    split; [now rewrite length_app, !length_map|].
    apply Forall_app. split; apply Forall_map.
    - eapply Forall_impl; [|exact HR]. cbn. auto.
    - eapply Forall_impl; [|exact HE]. cbn. auto. }
  induction new as [|[r e] rest IH]; intros R E Hlen HR HE Hnew;
    cbn [moveJournal].
  - cbn [map length]. rewrite !app_nil_r, Nat.mul_0_r, Nat.add_0_r.
    destruct E as [|e E'].
    + destruct R; [|discriminate]. cbn. auto.
    + apply Hflush; assumption.
  - inversion Hnew as [|? ? [Hr He] Hrest]; subst. cbn [fst snd] in *.
    assert (HR' : Forall (fun e => je_command e = EXPUNGE) (R ++ [r]))
      by (apply Forall_app; split; [exact HR|now constructor]).
    assert (HE' : Forall (fun e => je_command e = EXISTS) (E ++ [e]))
      by (apply Forall_app; split; [exact HE|now constructor]).
    destruct (bulk <=? length (E ++ [e]))%nat.
    + destruct (IH [] [] eq_refl (Forall_nil _) (Forall_nil _) Hrest)
        as (I1 & I2 & I3 & I4).
      destruct (Hflush _ _ HR' HE') as (F1 & F2 & F3 & F4).
      cbv zeta in F1, F2, F3, F4.
      repeat split.
      * rewrite uidsOf_app, F1, I1, map_app. cbn [map app fst].
        now rewrite <- app_assoc.
      * rewrite uidsOf_app, F2, I2, map_app. cbn [map app snd].
        now rewrite <- app_assoc.
      * unfold JournalDoc in *.
        rewrite length_app, F3, I3, !length_app. cbn [length]. lia.
      * apply Forall_app. split; assumption.
    + destruct (IH (R ++ [r]) (E ++ [e])) as (I1 & I2 & I3 & I4);
        try assumption.
      { rewrite !length_app. cbn. lia. }
      rewrite I1, I2, I3, !map_app, !length_app. cbn [map app length fst snd].
      rewrite <- !app_assoc. cbn [app].
      repeat split; try reflexivity; try lia. exact I4.
Qed.

(** A run that makes no more entries than fit into one batch writes them
    in one go, the removals first. *)
Lemma moveJournal_one_batch (new : list (JournalEntry * JournalEntry)) :
  forall R E,
    length R = length E -> (length E + length new <= bulk)%nat ->
    moveJournal bulk source target R E new
    = map (pair (ScopeMailbox source)) (R ++ map fst new)
      ++ map (pair (ScopeMailbox target)) (E ++ map snd new).
Proof.
  induction new as [|[r e] rest IH]; intros R E Hlen Hfit;
    cbn [moveJournal map fst snd].
  - rewrite !app_nil_r. destruct E; [|reflexivity].
    destruct R; [reflexivity|discriminate].
  - destruct (Nat.leb_spec bulk (length (E ++ [e]))) as [Hle|Hgt].
    + rewrite length_app in Hle. cbn [length] in *.
      destruct rest; [|cbn [length] in Hfit; lia].
      cbn [moveJournal map]. now rewrite app_nil_r.
    + rewrite IH.
      * now rewrite <- !app_assoc.
      * rewrite !length_app. cbn. lia.
      * rewrite length_app in *. cbn [length] in *. lia.
Qed.

(** A run that fills a batch: the batch goes to the journal, the
    removals first, before anything of the rest. *)
Lemma moveJournal_first_batch (new : list (JournalEntry * JournalEntry)) :
  forall R E,
    length R = length E -> (length E < bulk)%nat ->
    (bulk <= length E + length new)%nat ->
    moveJournal bulk source target R E new
    = (map (pair (ScopeMailbox source))
         (R ++ firstn (bulk - length E) (map fst new))
       ++ map (pair (ScopeMailbox target))
            (E ++ firstn (bulk - length E) (map snd new)))
      ++ moveJournal bulk source target [] [] (skipn (bulk - length E) new).
Proof.
  induction new as [|[r e] rest IH]; intros R E Hlen Hlt Hfit;
    [cbn [length] in Hfit; lia|].
  cbn [moveJournal map fst snd].
  destruct (Nat.leb_spec bulk (length (E ++ [e]))) as [Hle|Hgt];
    rewrite length_app in *; cbn [length] in *.
  - replace (bulk - length E)%nat with 1%nat by lia. reflexivity.
  - rewrite IH; rewrite ?length_app; cbn [length]; try lia.
    replace (bulk - length E)%nat with (S (bulk - (length E + 1)))%nat by lia.
    cbn [firstn skipn]. now rewrite <- !app_assoc.
Qed.

(** The journal of a run that still has a removal waiting starts with
    it. *)
Lemma moveJournal_head (new : list (JournalEntry * JournalEntry)) :
  forall r0 R E,
    length (r0 :: R) = length E ->
    exists tl,
      moveJournal bulk source target (r0 :: R) E new
      = (ScopeMailbox source, r0) :: tl.
Proof.
  induction new as [|[r e] rest IH]; intros r0 R E Hlen; cbn [moveJournal].
  - destruct E; [discriminate|]. cbn. eauto.
  - destruct (bulk <=? _)%nat.
    + cbn. eauto.
    + apply (IH r0 (R ++ [r]) (E ++ [e])).
      cbn [length] in *. rewrite !length_app. cbn. lia.
Qed.

Lemma moveJournal_starts (new : list (JournalEntry * JournalEntry)) r e :
  exists tl,
    moveJournal bulk source target [] [] ((r, e) :: new)
    = (ScopeMailbox source, r) :: tl.
Proof.
  cbn [moveJournal]. destruct (bulk <=? _)%nat; [cbn; eauto|].
  apply moveJournal_head. reflexivity.
Qed.


End MoveJournalFacts.

Lemma skipn_nth {A} (l : list A) (k : nat) :
  (k < length l)%nat ->
  exists x tl, skipn k l = x :: tl /\ nth_error l k = Some x.
Proof.
  revert k. induction l as [|y r IH]; intros k Hk; [cbn in Hk; lia|].
  destruct k; cbn; [eauto|]. apply IH. cbn in Hk. lia.
Qed.

Section MoveEntries.

Variable now : Z.
Variable options : MoveOptions.
Variable target : Mailbox.

(** The entries that [move] makes for the messages of its cursor. *)
Lemma move_entries (cursor : list Message) :
  forall id uid,
    let new := combine (expungeOf options cursor)
                 (existsFrom now options target id uid cursor) in
    map fst new = expungeOf options cursor
    /\ map snd new = existsFrom now options target id uid cursor
    /\ length new = length cursor
    /\ map (fun p => je_uid (fst p)) new = map m_uid cursor
    /\ map (fun p => je_uid (snd p)) new = uidsFrom uid (length cursor)
    /\ Forall (fun p => je_command (fst p) = EXPUNGE
                        /\ je_command (snd p) = EXISTS) new.
Proof.
  induction cursor as [|m r IH]; intros id uid;
    cbn [expungeOf existsFrom combine map length uidsFrom fst snd].
  - repeat split; constructor.
  - destruct (IH (S id) (uid + 1)) as (I1 & I2 & I3 & I4 & I5 & I6).
    cbv zeta in I1, I2, I3, I4, I5, I6. unfold expungeOf in *.
    rewrite I1, I2, I3, I4, I5.
    repeat split; try reflexivity. constructor; [split; reflexivity|exact I6].
Qed.

Lemma movedFrom_uids (cursor : list Message) :
  forall id uid,
    map m_uid (movedFrom now options target id uid cursor)
    = uidsFrom uid (length cursor)
    /\ map m_id (movedFrom now options target id uid cursor)
       = seq id (length cursor)
    /\ Forall2 (fun m c =>
                  m_content c = m_content m /\ m_mailbox c = mb_id target
                  /\ m_modseq c = 0 /\ m_user c = m_user m)
         cursor (movedFrom now options target id uid cursor).
Proof.
  induction cursor as [|m r IH]; intros id uid;
    cbn [movedFrom map length uidsFrom seq].
  - repeat split; constructor.
  - destruct (IH (S id) (uid + 1)) as (I1 & I2 & I3).
    destruct (movedMessage_ids now options target id uid m)
      as (M1 & M2 & M3 & M4 & M5 & M6).
    rewrite I1, I2, M1, M2. repeat split; try reflexivity.
    constructor; [auto|exact I3].
Qed.


End MoveEntries.

Section MoveSpec.

Variable fails : nat -> bool.
Variable now : Z.
Variable BULK : nat.

Lemma selected_NoDup mailbox query s :
  NoDup (map m_id (messages s)) ->
  NoDup (map m_id (selected mailbox query s)).
Proof.
  intros H. unfold selected.
  eapply Permutation_NoDup;
    [apply Permutation_map; symmetry; apply sortByUid_perm|].
  now apply filter_unique_ids.
Qed.

Lemma selected_sorted mailbox query s :
  StronglySorted Z.le (map m_uid (selected mailbox query s)).
Proof. apply StronglySorted_map, sortByUid_sorted. Qed.

(** A successful [move], in full. *)
Lemma move_spec options s r s' source target before :
  move fails now BULK options s = (Ok r, s') ->
  resolve (mo_source options) s = Some source ->
  resolve (mo_destination options) s = Some target ->
  findOne (byId (mb_id target)) (mailboxes s) = Some before ->
  let cursor := selected (mb_id source) (moveQuery options) s in
  let moved :=
    movedFrom now options target (nextOid s) (mb_uidNext before) cursor in
  r = {| mr_uidValidity := mb_uidValidity target;
         mr_sourceUid := map (refOf (mo_returnIds options)) cursor;
         mr_destinationUid := map (refOf (mo_returnIds options)) moved;
         mr_mailbox := mb_id source;
         mr_status := StatusMoved |}
  /\ (exists after,
        findOne (byId (mb_id target)) (mailboxes s') = Some after
        /\ raised
             (set_mb_uidNext (mb_uidNext before + Z.of_nat (length cursor))
                before)
             after
        /\ (cursor <> [] -> mb_modifyIndex before < mb_modifyIndex after))
  /\ (forall id, id <> mb_id target -> id <> mb_id source ->
        findOne (byId id) (mailboxes s') = findOne (byId id) (mailboxes s))
  /\ ((forall k, fails k = false) ->
      forall rec, findOne (byId (mb_id source)) (mailboxes s) = Some rec ->
      exists rec',
        findOne (byId (mb_id source)) (mailboxes s') = Some rec'
        /\ mb_modifyIndex rec + 1 <= mb_modifyIndex rec'
        /\ (mb_id source <> mb_id target -> rec' = incModifyIndex rec))
  /\ journal s'
     = journal s
       ++ moveJournal BULK source target [] []
            (combine (expungeOf options cursor)
               (existsFrom now options target (nextOid s)
                  (mb_uidNext before) cursor))
  /\ (uniqueIds s ->
      Forall2 (restamped (nextOid s))
        (withoutIds (map m_id cursor) (messages s) ++ moved) (messages s')
      /\ uniqueIds s')
  /\ (forall id rec', id <> mb_id target ->
        findOne (byId id) (mailboxes s') = Some rec' ->
        exists rec,
          findOne (byId id) (mailboxes s) = Some rec
          /\ mb_uidNext rec' = mb_uidNext rec).
Proof.
  intros H Hsrc Htgt Hbefore cursor moved. subst moved.
  apply move_runs in H.
  destruct H as (source' & target' & s0 & Hsrc' & Htgt' & Kms & Kus & Kj
                 & Koid & Hmb & Hrel & H).
  rewrite Hsrc in Hsrc'. injection Hsrc' as <-.
  rewrite Htgt in Htgt'. injection Htgt' as <-.
  fold cursor in H.
  assert (Hrec0 : exists rec0,
            findOne (byId (mb_id target)) (mailboxes s0) = Some rec0
            /\ mb_uidNext rec0 = mb_uidNext before
            /\ raised before rec0
            /\ (mailboxes s0
                = updateFirst (byId (mb_id source)) incModifyIndex (mailboxes s)
                -> mb_id source = mb_id target ->
                mb_modifyIndex rec0 = mb_modifyIndex before + 1)).
  { destruct Hmb as [E|E].
    - exists before. rewrite E. split; [exact Hbefore|].
      split; [reflexivity|]. split; [apply raised_refl|].
      intros E' Hst. exfalso. rewrite Hst in E'.
      pose proof (findOne_updateFirst (byId (mb_id target)) incModifyIndex
                    (mailboxes s) before (fun x => eq_refl) Hbefore) as F.
      rewrite <- E', Hbefore in F. injection F as F.
      apply (f_equal mb_modifyIndex) in F. cbn in F. lia.
    - rewrite E.
      destruct (findOne_bumped (mb_id source) _ _ _ Hbefore)
        as (rec0 & Hf & Hu & Hm).
      exists rec0. split; [exact Hf|]. split; [exact Hu|].
      destruct (Nat.eqb_spec (mb_id target) (mb_id source)) as [Est|Hne].
      + rewrite <- Est in Hf.
        rewrite (findOne_updateFirst (byId (mb_id target)) incModifyIndex
                   (mailboxes s) before (fun x => eq_refl) Hbefore) in Hf.
        injection Hf as <-. split; [|reflexivity].
        split; [reflexivity|cbn; lia].
      + rewrite findOne_updateFirst_other in Hf by (reflexivity || exact Hne).
        rewrite Hbefore in Hf. injection Hf as <-.
        split; [apply raised_refl|]. intros _ Hst. congruence. }
  destruct Hrec0 as (rec0 & Hrec0 & Huid0 & Hraised0 & Hbump0).
  assert (Hp0 : pending (nextOid s0)
                  {| sourceUid := []; destinationUid := [];
                     removeEntries := []; existsEntries := [] |})
    by (split; constructor).
  destruct (moveNext_spec _ _ _ _ _ _ _ _ _ _ _ _ _ H Hrec0 Hp0 (le_n _))
    as (Hr & (rec' & Hrec' & Hraised & Hstrict) & Hother & _ & _ & Hjour
        & Hmsg).
  cbn [sourceUid destinationUid removeEntries existsEntries app] in *.
  rewrite Huid0, Koid in *. rewrite Kj in Hjour. rewrite Kms in Hmsg.
  split; [exact Hr|]. split.
  { exists rec'. split; [exact Hrec'|]. split.
    - eapply raised_trans; [|exact Hraised].
      rewrite <- Huid0 at 1.
      replace (set_mb_uidNext (mb_uidNext rec0 + Z.of_nat (length cursor)) before)
        with (set_mb_uidNext (mb_uidNext before + Z.of_nat (length cursor)) before)
        by (now rewrite Huid0).
      rewrite <- Huid0. rewrite Huid0.
      now apply raised_set_uidNext.
    - intros Hne. destruct Hraised0 as [_ L0].
      specialize (Hstrict (or_introl Hne)). lia. }
  split.
  { intros id Hid Hid'. rewrite (Hother id Hid).
    destruct Hmb as [->| ->]; [reflexivity|].
    apply findOne_updateFirst_other; [reflexivity|exact Hid']. }
  split.
  { intros Hall rec Hrec. specialize (Hrel Hall).
    destruct (Nat.eq_dec (mb_id source) (mb_id target)) as [E|Hne].
    - exists rec'. rewrite E. split; [exact Hrec'|].
      rewrite E, Hbefore in Hrec. injection Hrec as <-.
      split; [|intros Hc; now elim Hc].
      rewrite <- (Hbump0 Hrel E). destruct Hraised as [_ L]. exact L.
    - exists (incModifyIndex rec). rewrite (Hother _ Hne), Hrel.
      split; [apply findOne_updateFirst; [reflexivity|exact Hrec]|].
      split; [cbn; lia|reflexivity]. }
  split; [exact Hjour|].
  split.
  { intros Huniq. apply Hmsg.
    - destruct Huniq as [Hnd Hlt]. split; [now rewrite Kms|].
      intros m. rewrite Kms, Koid. apply Hlt.
    - apply selected_NoDup, Huniq.
    - intros m Hm'. apply selected_In in Hm'.
      split; [tauto|]. split; [tauto|]. apply Huniq. tauto. }
  intros id rec'' Hid Hf. rewrite (Hother id Hid) in Hf.
  destruct Hmb as [Hmb|Hmb]; rewrite Hmb in Hf; [eauto|].
  rewrite findOne_byId_updateFirst in Hf by reflexivity.
  destruct (findOne (byId id) (mailboxes s)) as [rec|]; [|discriminate].
  cbn in Hf. injection Hf as <-. exists rec. split; [reflexivity|].
  now destruct (id =? mb_id source)%nat.
Qed.

End MoveSpec.

Section MoveKeeps.

Variable fails : nat -> bool.
Variable now : Z.
Variable BULK : nat.

Lemma moveNext_keeps {F} (proj : Store -> F) options mailboxData target cursor :
  data proj ->
  (forall c s, proj (set_mailboxes c s) = proj s) ->
  (forall c s, proj (set_messages c s) = proj s) ->
  (forall c s, proj (set_journal c s) = proj s) ->
  (forall c s, proj (set_fired c s) = proj s) ->
  (forall c s, proj (set_wire c s) = proj s) ->
  (forall c s, proj (set_nextOid c s) = proj s) ->
  forall acc,
    keeps proj (moveNext fails now BULK options mailboxData target cursor acc).
Proof.
  intros D Hmb Hms Hj Hf Hw Ho.
  assert (Kcall : forall A (f : list Mailbox -> A * list Mailbox),
            keeps proj (on_mailboxes fails f)).
  { intros A f. apply keeps_call; [exact D|]. intros s.
    destruct (f (mailboxes s)). apply Hmb. }
  assert (Kmsg : forall A (f : list Message -> A * list Message),
            keeps proj (on_messages fails f)).
  { intros A f. apply keeps_call; [exact D|]. intros s.
    destruct (f (messages s)). apply Hms. }
  assert (Kflush : forall acc, keeps proj (flushMove mailboxData target acc)).
  { intros acc. unfold flushMove, fire.
    apply keeps_bind; [apply keeps_addEntries; auto|intro].
    apply keeps_bind; [apply keeps_addEntries; auto|intro].
    apply keeps_bind; [apply keeps_modify; intro; auto|intro].
    apply keeps_modify. intro. auto. }
  assert (Kdone : forall acc err,
            keeps proj (moveDone mailboxData target acc err)).
  { intros acc err. unfold moveDone. apply keeps_bind.
    - destruct (existsEntries acc); [apply keeps_ret|apply Kflush].
    - intros _. destruct err; [apply keeps_fail|apply keeps_ret]. }
  induction cursor as [|message rest IH]; intros acc; cbn [moveNext];
    (apply keeps_attempt;
     [apply keeps_call; [exact D|reflexivity]|intro; apply Kdone|intros _]).
  - apply Kdone.
  - apply keeps_attempt; [|intro; apply Kdone|intro; apply IH].
    unfold moveOne. apply keeps_bind; [apply Kcall|]. intros [item|];
      [|apply keeps_fail].
    apply keeps_bind; [intro; apply Ho|]. intros id.
    apply keeps_bind; [apply Kmsg|]. intros _.
    apply keeps_bind; [apply Kmsg|]. intros _.
    apply keeps_bind.
    { destruct (mo_session options); [|apply keeps_ret].
      apply keeps_modify. intro. apply Hw. }
    intros _. destruct (BULK <=? _)%nat; [|apply keeps_ret].
    apply keeps_bind; [apply Kflush|]. intros _. apply keeps_ret.
Qed.

Lemma move_keeps {F} (proj : Store -> F) options :
  data proj ->
  (forall c s, proj (set_mailboxes c s) = proj s) ->
  (forall c s, proj (set_messages c s) = proj s) ->
  (forall c s, proj (set_journal c s) = proj s) ->
  (forall c s, proj (set_fired c s) = proj s) ->
  (forall c s, proj (set_wire c s) = proj s) ->
  (forall c s, proj (set_nextOid c s) = proj s) ->
  keeps proj (move fails now BULK options).
Proof.
  intros D Hmb Hms Hj Hf Hw Ho. unfold move.
  apply keeps_bind;
    [apply getMailbox_keeps; [exact D|intro; apply Hmb]|]. intros source.
  apply keeps_bind;
    [apply getMailbox_keeps; [exact D|intro; apply Hmb]|]. intros target.
  apply keeps_bind.
  { apply keeps_ignoring, keeps_call; [exact D|]. intros s.
    destruct (findOneAndUpdate _ _ _ _). apply Hmb. }
  intros _ s. now apply moveNext_keeps.
Qed.

End MoveKeeps.

Lemma refOf_map (returnIds : bool) (l : list Message) :
  map (refOf returnIds) l
  = if returnIds then map RId (map m_id l) else map RUid (map m_uid l).
Proof.
  unfold refOf. destruct returnIds; rewrite map_map; reflexivity.
Qed.

Lemma selected_complete mailbox query s m :
  In m (messages s) -> m_mailbox m = mailbox -> query (m_uid m) = true ->
  In m (selected mailbox query s).
Proof.
  intros Hin Hbox Hq. unfold selected.
  eapply Permutation_in; [symmetry; apply sortByUid_perm|].
  apply filter_In. split; [exact Hin|]. unfold inMailbox.
  now rewrite Hbox, Nat.eqb_refl, Hq.
Qed.

Lemma Forall2_right {A B} (P : B -> Prop) (R : A -> B -> Prop) l l' :
  (forall a b, R a b -> P b) -> Forall2 R l l' -> Forall P l'.
Proof. intros H. induction 1; constructor; eauto. Qed.

(** [move]: what a successful move returns.  [sourceUid] lists the
    selected messages of the source in ascending UID order, and
    [destinationUid], index by index, what each of them became: the UIDs
    from the target's [uidNext] on, one after the other (with [returnIds],
    the ids of the messages and of their replacements instead).  The
    validity is that of the target, the mailbox that of the source. *)
Theorem move_uids (fails : nat -> bool) (now : Z) (BULK : nat)
    (options : MoveOptions) (s s' : Store) (r : MoveResult)
    (source target before : Mailbox) :
  move fails now BULK options s = (Ok r, s') ->
  resolve (mo_source options) s = Some source ->
  resolve (mo_destination options) s = Some target ->
  findOne (byId (mb_id target)) (mailboxes s) = Some before ->
  let cursor := selected (mb_id source) (moveQuery options) s in
  mr_uidValidity r = mb_uidValidity target
  /\ mr_mailbox r = mb_id source
  /\ mr_status r = StatusMoved
  /\ mr_sourceUid r
     = (if mo_returnIds options then map RId (map m_id cursor)
        else map RUid (map m_uid cursor))
  /\ StronglySorted Z.le (map m_uid cursor)
  /\ mr_destinationUid r
     = (if mo_returnIds options
        then map RId (seq (nextOid s) (length cursor))
        else map RUid (uidsFrom (mb_uidNext before) (length cursor)))
  /\ length (mr_sourceUid r) = length cursor
  /\ length (mr_destinationUid r) = length cursor.
Proof.
  intros H Hs Ht Hb cursor.
  destruct (move_spec _ _ _ _ _ _ _ _ _ _ H Hs Ht Hb) as (-> & _).
  fold cursor. cbn [mr_uidValidity mr_mailbox mr_status mr_sourceUid
                    mr_destinationUid].
  destruct (movedFrom_uids now options target cursor (nextOid s)
              (mb_uidNext before)) as (Hu & Hi & _).
  rewrite !refOf_map, Hu, Hi.
  repeat (split; [reflexivity|]).
  split; [apply selected_sorted|]. split; [reflexivity|].
  destruct (mo_returnIds options);
    rewrite !length_map, ?length_seq, ?uidsFrom_length; auto.
Qed.

Lemma move_uids_witness :
  mr_sourceUid
    {| mr_uidValidity := 1500000000; mr_sourceUid := [RUid 7; RUid 9];
       mr_destinationUid := [RUid 3; RUid 4]; mr_mailbox := 10%nat;
       mr_status := StatusMoved |}
  = map RUid (map m_uid (selected 10%nat (checkRangeQuery [7; 9])
                           Scenario.moveStore))
  /\ StronglySorted Z.le
       (map m_uid (selected 10%nat (checkRangeQuery [7; 9])
                     Scenario.moveStore)).
Proof.
  destruct (move_uids Scenario.reliable 0 100 Scenario.moveOptions
              Scenario.moveStore
              (snd (move Scenario.reliable 0 100 Scenario.moveOptions
                      Scenario.moveStore))
              {| mr_uidValidity := 1500000000;
                 mr_sourceUid := [RUid 7; RUid 9];
                 mr_destinationUid := [RUid 3; RUid 4]; mr_mailbox := 10%nat;
                 mr_status := StatusMoved |}
              (Scenario.mailbox 10 "INBOX" 10 20)
              (Scenario.mailbox 20 "Archive" 3 4)
              (Scenario.mailbox 20 "Archive" 3 4))
    as (_ & _ & _ & Hsu & Hsorted & _).
  - vm_compute. reflexivity.
  - vm_compute. reflexivity.
  - vm_compute. reflexivity.
  - vm_compute. reflexivity.
  - split; [exact Hsu|exact Hsorted].
Defined.

(** [move] and the mailbox records.  The record of the target ends with
    [uidNext] raised by the number of messages moved and with every other
    field as it was, but for [modifyIndex]: that is never lowered, and it
    is raised when a message was moved, the notifier taking the MODSEQ of
    the replacements from it.  When the database does not fail, the
    [modifyIndex] of the source is raised, by [move] itself, whether or
    not a message was selected, and when the source is not the target
    nothing else of its record changes.  No other record changes. *)
Theorem move_mailbox_records (fails : nat -> bool) (now : Z) (BULK : nat)
    (options : MoveOptions) (s s' : Store) (r : MoveResult)
    (source target before : Mailbox) :
  move fails now BULK options s = (Ok r, s') ->
  resolve (mo_source options) s = Some source ->
  resolve (mo_destination options) s = Some target ->
  findOne (byId (mb_id target)) (mailboxes s) = Some before ->
  (exists after,
     findOne (byId (mb_id target)) (mailboxes s') = Some after
     /\ mb_uidNext after
        = mb_uidNext before + Z.of_nat (length (mr_destinationUid r))
     /\ after = set_mb_modifyIndex (mb_modifyIndex after)
                  (set_mb_uidNext (mb_uidNext after) before)
     /\ mb_modifyIndex before <= mb_modifyIndex after
     /\ (mr_destinationUid r <> [] ->
         mb_modifyIndex before < mb_modifyIndex after))
  /\ ((forall k, fails k = false) ->
      forall rec, findOne (byId (mb_id source)) (mailboxes s) = Some rec ->
      exists rec',
        findOne (byId (mb_id source)) (mailboxes s') = Some rec'
        /\ mb_modifyIndex rec < mb_modifyIndex rec'
        /\ (mb_id source <> mb_id target ->
            rec' = set_mb_modifyIndex (mb_modifyIndex rec') rec))
  /\ (forall id, id <> mb_id target -> id <> mb_id source ->
        findOne (byId id) (mailboxes s') = findOne (byId id) (mailboxes s)).
Proof.
  intros H Hs Ht Hb.
  destruct (move_spec _ _ _ _ _ _ _ _ _ _ H Hs Ht Hb)
    as (-> & Hafter & Hother & Hbump & _).
  cbn [mr_destinationUid]. rewrite length_map.
  destruct (movedFrom_uids now options target
              (selected (mb_id source) (moveQuery options) s) (nextOid s)
              (mb_uidNext before)) as (Hu & _).
  apply (f_equal (@length Z)) in Hu.
  rewrite length_map, uidsFrom_length in Hu. rewrite Hu.
  split; [|split; [|exact Hother]].
  - destruct Hafter as (after & Hf & [Heq Hle] & Hstrict).
    exists after. split; [exact Hf|].
    assert (Hn : mb_uidNext after
                 = mb_uidNext before
                   + Z.of_nat (length (selected (mb_id source)
                                         (moveQuery options) s)))
      by (rewrite Heq; reflexivity).
    split; [exact Hn|]. split; [rewrite Hn; exact Heq|].
    split; [exact Hle|]. intros Hne. apply Hstrict. intros E.
    rewrite E in Hne. now apply Hne.
  - intros Hall rec Hrec. destruct (Hbump Hall rec Hrec) as (rec' & Hf & Hle & Hx).
    exists rec'. split; [exact Hf|]. split; [lia|].
    intros Hne. rewrite (Hx Hne). reflexivity.
Qed.

Lemma move_mailbox_records_witness :
  exists after rec',
    findOne (byId 20%nat)
      (mailboxes (snd (move Scenario.reliable 0 100 Scenario.moveOptions
                         Scenario.moveStore))) = Some after
    /\ mb_uidNext after = 5 /\ 4 < mb_modifyIndex after
    /\ findOne (byId 10%nat)
         (mailboxes (snd (move Scenario.reliable 0 100 Scenario.moveOptions
                            Scenario.moveStore))) = Some rec'
    /\ 20 < mb_modifyIndex rec'.
Proof.
  destruct (move_mailbox_records Scenario.reliable 0 100 Scenario.moveOptions
              Scenario.moveStore
              (snd (move Scenario.reliable 0 100 Scenario.moveOptions
                      Scenario.moveStore))
              {| mr_uidValidity := 1500000000;
                 mr_sourceUid := [RUid 7; RUid 9];
                 mr_destinationUid := [RUid 3; RUid 4]; mr_mailbox := 10%nat;
                 mr_status := StatusMoved |}
              (Scenario.mailbox 10 "INBOX" 10 20)
              (Scenario.mailbox 20 "Archive" 3 4)
              (Scenario.mailbox 20 "Archive" 3 4))
    as ((after & Ha & Hn & _ & _ & Hm) & Hbump & _).
  - vm_compute. reflexivity.
  - vm_compute. reflexivity.
  - vm_compute. reflexivity.
  - vm_compute. reflexivity.
  - destruct (Hbump (fun k => eq_refl) (Scenario.mailbox 10 "INBOX" 10 20)
                eq_refl) as (rec' & Hr & Hi & _).
    exists after, rec'. split; [exact Ha|]. split; [exact Hn|].
    split; [apply Hm; discriminate|]. split; [exact Hr|exact Hi].
Defined.

(** [move] and the collection of messages.  In a collection with unique
    ids drawn from the counter, a successful move takes out exactly the
    selected messages of the source and appends one replacement for each,
    in UID order: same content and owner, mailbox of the target, the next
    UIDs of the target.  Each replacement is the document that [move]
    made, which it wrote with [modseq = 0], with the MODSEQ that the
    notifier gave it; no other document is touched.  The ids stay unique,
    and when the target is another mailbox no selected message is left in
    the source. *)
Theorem move_replaces (fails : nat -> bool) (now : Z) (BULK : nat)
    (options : MoveOptions) (s s' : Store) (r : MoveResult)
    (source target before : Mailbox) :
  move fails now BULK options s = (Ok r, s') ->
  resolve (mo_source options) s = Some source ->
  resolve (mo_destination options) s = Some target ->
  findOne (byId (mb_id target)) (mailboxes s) = Some before ->
  uniqueIds s ->
  let cursor := selected (mb_id source) (moveQuery options) s in
  exists moved,
    messages s' = withoutIds (map m_id cursor) (messages s) ++ moved
    /\ Forall2 (fun m c =>
                  m_content c = m_content m /\ m_user c = m_user m
                  /\ m_mailbox c = mb_id target)
         cursor moved
    /\ Forall2 (fun made c =>
                  m_modseq made = 0 /\ c = set_m_modseq (m_modseq c) made)
         (movedFrom now options target (nextOid s) (mb_uidNext before) cursor)
         moved
    /\ map m_uid moved = uidsFrom (mb_uidNext before) (length cursor)
    /\ map m_id moved = seq (nextOid s) (length cursor)
    /\ uniqueIds s'
    /\ (mb_id target <> mb_id source ->
        forall m, In m (messages s') -> m_mailbox m = mb_id source ->
                  moveQuery options (m_uid m) = false).
Proof.
  intros H Hs Ht Hb Huniq cursor.
  destruct (move_spec _ _ _ _ _ _ _ _ _ _ H Hs Ht Hb)
    as (_ & _ & _ & _ & _ & Hmsg & _).
  destruct (Hmsg Huniq) as (Hms & Huniq'). fold cursor in Hms.
  apply restamped_split in Hms.
  destruct Hms as (old & moved & Hs' & Hold & Hmv).
  assert (Eold : old = withoutIds (map m_id cursor) (messages s)).
  { eapply restamped_all_old; [exact Hold|]. intros m Hm.
    apply withoutIds_In in Hm. apply Huniq. tauto. }
  subst old.
  destruct (movedFrom_uids now options target cursor (nextOid s)
              (mb_uidNext before)) as (Hu & Hi & Hc).
  assert (Hfields : Forall2 (fun m c =>
                               m_content c = m_content m
                               /\ m_user c = m_user m
                               /\ m_mailbox c = mb_id target) cursor moved).
  { eapply restamped_after; [|exact Hc|exact Hmv]. cbn beta.
    intros m c c' (Hcn & Hbox & _ & Hus) Hcc'.
    destruct (restamped_fields _ _ _ Hcc')
      as (_ & -> & _ & -> & -> & _). auto. }
  exists moved. split; [exact Hs'|]. split; [exact Hfields|].
  split.
  { assert (Hzero : Forall (fun c => m_modseq c = 0)
                       (movedFrom now options target (nextOid s)
                          (mb_uidNext before) cursor)).
    { eapply Forall2_right; [|exact Hc]. intros a b Hab. apply Hab. }
    clear - Hmv Hzero.
    induction Hmv as [|a b l l' Hab Hl IH]; constructor.
    - split; [now inversion Hzero|now apply restamped_eq in Hab].
    - apply IH. now inversion Hzero. }
  split.
  { rewrite <- Hu. clear - Hmv.
    induction Hmv as [|a b l l' Hab Hl IH]; cbn; [reflexivity|].
    f_equal; [|exact IH]. now destruct (restamped_fields _ _ _ Hab) as (_ & _ & -> & _). }
  split; [rewrite <- Hi; apply (restamped_ids _ _ _ Hmv)|].
  split; [exact Huniq'|].
  intros Hne m Hin Hbox.
  destruct (moveQuery options (m_uid m)) eqn:Hq; [exfalso|reflexivity].
  rewrite Hs' in Hin. apply in_app_or in Hin. destruct Hin as [Hin|Hin].
  - apply withoutIds_In in Hin. destruct Hin as [Hin Hnot]. apply Hnot.
    apply in_map. now apply selected_complete.
  - eapply Forall2_right in Hfields;
      [|intros a b Hab; exact (proj2 (proj2 Hab))].
    rewrite Forall_forall in Hfields. apply Hfields in Hin. congruence.
Qed.

Lemma move_replaces_witness :
  exists moved,
    messages (snd (move Scenario.reliable 0 100 Scenario.moveOptions
                     Scenario.moveStore))
    = [Scenario.message 508 10 8 18 10 "<b@y>"] ++ moved
    /\ map m_uid moved = [3; 4]
    /\ Forall (fun c => 4 < m_modseq c) moved.
Proof.
  destruct (move_replaces Scenario.reliable 0 100 Scenario.moveOptions
              Scenario.moveStore
              (snd (move Scenario.reliable 0 100 Scenario.moveOptions
                      Scenario.moveStore))
              {| mr_uidValidity := 1500000000;
                 mr_sourceUid := [RUid 7; RUid 9];
                 mr_destinationUid := [RUid 3; RUid 4]; mr_mailbox := 10%nat;
                 mr_status := StatusMoved |}
              (Scenario.mailbox 10 "INBOX" 10 20)
              (Scenario.mailbox 20 "Archive" 3 4)
              (Scenario.mailbox 20 "Archive" 3 4))
    as (moved & Hms & _ & _ & Hu & _).
  - vm_compute. reflexivity.
  - vm_compute. reflexivity.
  - vm_compute. reflexivity.
  - vm_compute. reflexivity.
  - split.
    + cbn. repeat constructor; cbn; intuition discriminate.
    + intros m [<-|[<-|[<-|[]]]]; cbn; lia.
  - exists moved. split; [exact Hms|]. split; [exact Hu|].
    vm_compute in Hms. injection Hms as <-.
    repeat constructor.
Defined.

(** [move] and the journal.  A successful move appends two entries per
    message and nothing else: an EXPUNGE entry under the source with the
    UID the message had, and an EXISTS entry under the target with the UID
    it got; each kind appears in UID order. *)
Theorem move_journal (fails : nat -> bool) (now : Z) (BULK : nat)
    (options : MoveOptions) (s s' : Store) (r : MoveResult)
    (source target before : Mailbox) :
  move fails now BULK options s = (Ok r, s') ->
  resolve (mo_source options) s = Some source ->
  resolve (mo_destination options) s = Some target ->
  findOne (byId (mb_id target)) (mailboxes s) = Some before ->
  let cursor := selected (mb_id source) (moveQuery options) s in
  exists j,
    journal s' = journal s ++ j
    /\ length j = (2 * length cursor)%nat
    /\ uidsOf EXPUNGE j = map m_uid cursor
    /\ uidsOf EXISTS j = uidsFrom (mb_uidNext before) (length cursor)
    /\ Forall (fun d => (je_command (snd d) = EXPUNGE
                         /\ fst d = ScopeMailbox source)
                        \/ (je_command (snd d) = EXISTS
                            /\ fst d = ScopeMailbox target)) j.
Proof.
  intros H Hs Ht Hb cursor.
  destruct (move_spec _ _ _ _ _ _ _ _ _ _ H Hs Ht Hb)
    as (_ & _ & _ & _ & Hj & _).
  fold cursor in Hj.
  destruct (move_entries now options target cursor (nextOid s)
              (mb_uidNext before)) as (_ & _ & Hlen & He & Hx & Hall).
  cbv zeta in Hlen, He, Hx, Hall.
  destruct (moveJournal_uids BULK source target _ [] [] eq_refl
              (Forall_nil _) (Forall_nil _) Hall) as (J1 & J2 & J3 & J4).
  eexists. split; [exact Hj|].
  rewrite J1, J2, J3, Hlen, He, Hx. cbn [length map app].
  split; [lia|]. split; [reflexivity|]. split; [reflexivity|exact J4].
Qed.

Lemma move_journal_witness :
  exists j,
    journal (snd (move Scenario.reliable 0 1 Scenario.moveOptions
                    Scenario.moveStore)) = j
    /\ uidsOf EXPUNGE j = [7; 9] /\ uidsOf EXISTS j = [3; 4].
Proof.
  destruct (move_journal Scenario.reliable 0 1 Scenario.moveOptions
              Scenario.moveStore
              (snd (move Scenario.reliable 0 1 Scenario.moveOptions
                      Scenario.moveStore))
              {| mr_uidValidity := 1500000000;
                 mr_sourceUid := [RUid 7; RUid 9];
                 mr_destinationUid := [RUid 3; RUid 4]; mr_mailbox := 10%nat;
                 mr_status := StatusMoved |}
              (Scenario.mailbox 10 "INBOX" 10 20)
              (Scenario.mailbox 20 "Archive" 3 4)
              (Scenario.mailbox 20 "Archive" 3 4))
    as (j & Hj & _ & He & Hx & _).
  - vm_compute. reflexivity.
  - vm_compute. reflexivity.
  - vm_compute. reflexivity.
  - vm_compute. reflexivity.
  - exists j. split; [exact Hj|]. split; [exact He|exact Hx].
Defined.

(** [move] within one batch.  When no more messages are selected than
    [BULK_BATCH_SIZE], the journal gets all EXPUNGE entries first, under
    the source, then all EXISTS entries, under the target. *)
Theorem move_one_batch (fails : nat -> bool) (now : Z) (BULK : nat)
    (options : MoveOptions) (s s' : Store) (r : MoveResult)
    (source target before : Mailbox) :
  move fails now BULK options s = (Ok r, s') ->
  resolve (mo_source options) s = Some source ->
  resolve (mo_destination options) s = Some target ->
  findOne (byId (mb_id target)) (mailboxes s) = Some before ->
  let cursor := selected (mb_id source) (moveQuery options) s in
  (length cursor <= BULK)%nat ->
  journal s'
  = journal s
    ++ map (pair (ScopeMailbox source)) (expungeOf options cursor)
    ++ map (pair (ScopeMailbox target))
         (existsFrom now options target (nextOid s) (mb_uidNext before)
            cursor).
Proof.
  intros H Hs Ht Hb cursor Hfit.
  destruct (move_spec _ _ _ _ _ _ _ _ _ _ H Hs Ht Hb)
    as (_ & _ & _ & _ & Hj & _).
  fold cursor in Hj.
  destruct (move_entries now options target cursor (nextOid s)
              (mb_uidNext before)) as (Hf & Hsn & Hlen & _).
  cbv zeta in Hf, Hsn, Hlen.
  rewrite Hj, moveJournal_one_batch; [|reflexivity|cbn; lia].
  cbn [app]. now rewrite Hf, Hsn.
Qed.

Lemma move_one_batch_witness :
  map (fun d => je_command (snd d))
    (journal (snd (move Scenario.reliable 0 2 Scenario.moveOptions
                     Scenario.moveStore)))
  = [EXPUNGE; EXPUNGE; EXISTS; EXISTS].
Proof.
  rewrite (move_one_batch Scenario.reliable 0 2 Scenario.moveOptions
             Scenario.moveStore
             (snd (move Scenario.reliable 0 2 Scenario.moveOptions
                     Scenario.moveStore))
             {| mr_uidValidity := 1500000000;
                mr_sourceUid := [RUid 7; RUid 9];
                mr_destinationUid := [RUid 3; RUid 4]; mr_mailbox := 10%nat;
                mr_status := StatusMoved |}
             (Scenario.mailbox 10 "INBOX" 10 20)
             (Scenario.mailbox 20 "Archive" 3 4)
             (Scenario.mailbox 20 "Archive" 3 4)).
  - vm_compute. reflexivity.
  - vm_compute. reflexivity.
  - vm_compute. reflexivity.
  - vm_compute. reflexivity.
  - vm_compute. reflexivity.
  - vm_compute. lia.
Defined.

(** [move] in batches.  When more messages are selected than
    [BULK_BATCH_SIZE], the journal gets the EXPUNGE entries of the first
    [BULK_BATCH_SIZE] messages, then their EXISTS entries, and only then
    the EXPUNGE entry of the next message: the removals do not all come
    before the additions. *)
Theorem move_batches (fails : nat -> bool) (now : Z) (BULK : nat)
    (options : MoveOptions) (s s' : Store) (r : MoveResult)
    (source target before : Mailbox) :
  move fails now BULK options s = (Ok r, s') ->
  resolve (mo_source options) s = Some source ->
  resolve (mo_destination options) s = Some target ->
  findOne (byId (mb_id target)) (mailboxes s) = Some before ->
  let cursor := selected (mb_id source) (moveQuery options) s in
  (0 < BULK < length cursor)%nat ->
  exists e rest,
    nth_error (expungeOf options cursor) BULK = Some e
    /\ journal s'
       = journal s
         ++ map (pair (ScopeMailbox source))
              (firstn BULK (expungeOf options cursor))
         ++ map (pair (ScopeMailbox target))
              (firstn BULK
                 (existsFrom now options target (nextOid s)
                    (mb_uidNext before) cursor))
         ++ (ScopeMailbox source, e) :: rest.
Proof.
  intros H Hs Ht Hb cursor Hbulk.
  destruct (move_spec _ _ _ _ _ _ _ _ _ _ H Hs Ht Hb)
    as (_ & _ & _ & _ & Hj & _).
  fold cursor in Hj.
  destruct (move_entries now options target cursor (nextOid s)
              (mb_uidNext before)) as (Hf & Hsn & Hlen & _).
  cbv zeta in Hf, Hsn, Hlen.
  rewrite moveJournal_first_batch in Hj; cbn [length]; try lia.
  cbn [length app] in Hj. rewrite Nat.sub_0_r, Hf, Hsn in Hj.
  destruct (skipn_nth (combine (expungeOf options cursor)
                         (existsFrom now options target (nextOid s)
                            (mb_uidNext before) cursor)) BULK)
    as ([e x] & tl & Hskip & Hnth); [lia|].
  rewrite Hskip in Hj.
  destruct (moveJournal_starts BULK source target tl e x) as (rest & Hrest).
  rewrite Hrest in Hj. exists e, rest. split.
  - rewrite <- Hf. rewrite nth_error_map, Hnth. reflexivity.
  - rewrite Hj. now rewrite <- !app_assoc.
Qed.

Lemma move_batches_witness :
  map (fun d => je_command (snd d))
    (firstn 3 (journal (snd (move Scenario.reliable 0 1 Scenario.moveOptions
                               Scenario.moveStore))))
  = [EXPUNGE; EXISTS; EXPUNGE].
Proof.
  destruct (move_batches Scenario.reliable 0 1 Scenario.moveOptions
              Scenario.moveStore
              (snd (move Scenario.reliable 0 1 Scenario.moveOptions
                      Scenario.moveStore))
              {| mr_uidValidity := 1500000000;
                 mr_sourceUid := [RUid 7; RUid 9];
                 mr_destinationUid := [RUid 3; RUid 4]; mr_mailbox := 10%nat;
                 mr_status := StatusMoved |}
              (Scenario.mailbox 10 "INBOX" 10 20)
              (Scenario.mailbox 20 "Archive" 3 4)
              (Scenario.mailbox 20 "Archive" 3 4))
    as (e & rest & He & Hj).
  - vm_compute. reflexivity.
  - vm_compute. reflexivity.
  - vm_compute. reflexivity.
  - vm_compute. reflexivity.
  - vm_compute. lia.
  - rewrite Hj. vm_compute in He. injection He as <-. reflexivity.
Defined.

(** [move] does no accounting: whatever it returns, and whichever calls
    fail, the users (and with them every [storageUsed]), the threads and
    the attachments are as before. *)
Theorem move_keeps_users (fails : nat -> bool) (now : Z) (BULK : nat)
    (options : MoveOptions) (s : Store) :
  users (snd (move fails now BULK options s)) = users s
  /\ threads (snd (move fails now BULK options s)) = threads s
  /\ attachments (snd (move fails now BULK options s)) = attachments s.
Proof.
  repeat split; apply move_keeps; try reflexivity; now intros ? ?.
Qed.

Section MoveSafe.

Variable fails : nat -> bool.
Variable now : Z.
Variable BULK : nat.

Lemma covers_refl s s' : messages s' = messages s -> covers s s'.
Proof. intros E m Hm. exists m. rewrite E. auto. Qed.

Lemma covers_trans s1 s2 s3 : covers s1 s2 -> covers s2 s3 -> covers s1 s3.
Proof.
  intros H12 H23 m Hm. destruct (H12 m Hm) as (m2 & Hm2 & Hc & Hu).
  destruct (H23 m2 Hm2) as (m3 & Hm3 & Hc3 & Hu3).
  exists m3. split; [exact Hm3|]. split; congruence.
Qed.

Lemma unique_by_id (l : list Message) (a b : Message) :
  NoDup (map m_id l) -> In a l -> In b l -> m_id a = m_id b -> a = b.
Proof.
  induction l as [|x r IH]; cbn; [tauto|].
  intros Hnd Ha Hb E. inversion Hnd as [|? ? Hx Hr]; subst.
  destruct Ha as [->|Ha], Hb as [->|Hb]; auto.
  - exfalso. apply Hx. rewrite E. now apply in_map.
  - exfalso. apply Hx. rewrite <- E. now apply in_map.
Qed.

(** Replacing a document by one with its content loses nothing. *)
Lemma covers_step s s' (message mv : Message) :
  NoDup (map m_id (messages s)) -> In message (messages s) ->
  m_content mv = m_content message -> m_user mv = m_user message ->
  messages s' = withoutIds [m_id message] (messages s) ++ [mv] ->
  covers s s'.
Proof.
  intros Hnd Hin Hc Hu Hms m Hm. rewrite Hms.
  destruct (Nat.eq_dec (m_id m) (m_id message)) as [E|Hne].
  - assert (m = message) by (eapply unique_by_id; eauto). subst m.
    exists mv. split; [apply in_or_app; right; now left|]. auto.
  - exists m. split; [|auto]. apply in_or_app. left. apply withoutIds_In.
    split; [exact Hm|]. intros [E|[]]. congruence.
Qed.

Lemma bind_any {A B} (m : M A) (k : A -> M B) s o s' :
  bind m k s = (o, s') ->
  (exists e, m s = (Fail e, s') /\ o = Fail e)
  \/ (exists a s1, m s = (Ok a, s1) /\ k a s1 = (o, s')).
Proof.
  unfold bind. destruct (m s) as [[a|e] s1]; [eauto|].
  intros [= <- <-]. eauto.
Qed.

Lemma call_fail {A} (act : Store -> A * Store) s e s' :
  call fails act s = (Fail e, s') -> s' = set_ops (S (ops s)) s.
Proof.
  unfold call. destruct (fails (ops s)); [now intros [= _ <-]|].
  destruct (act _). discriminate.
Qed.

(** What the notifier does to a document loses nothing. *)
Lemma covers_restamped n0 s s' :
  Forall2 (restamped n0) (messages s) (messages s') -> covers s s'.
Proof.
  intros H m Hm. destruct (restamped_pick _ _ _ m H Hm) as (m' & Hin & Hr).
  exists m'. split; [exact Hin|].
  destruct (restamped_fields _ _ _ Hr) as (_ & _ & _ & Hc & Hu & _). auto.
Qed.

(** The flush and the end of [move], whatever is pending. *)
Lemma flushMove_any mailboxData target acc s :
  Forall2 (restamped 0) (messages s)
    (messages (snd (flushMove mailboxData target acc s))).
Proof.
  unfold flushMove, bind, addEntries, fire, modify. cbn.
  eapply Forall2_restamped_trans;
    [|apply renumber_restamped; intros; lia].
  cbn. apply renumber_restamped. intros; lia.
Qed.

Lemma moveDone_any mailboxData target acc err s :
  covers s (snd (moveDone mailboxData target acc err s)).
Proof.
  apply (covers_restamped 0). unfold moveDone, bind.
  destruct (existsEntries acc).
  - cbn. destruct err; apply Forall2_restamped_refl.
  - pose proof (flushMove_any mailboxData target acc s) as F.
    destruct (flushMove mailboxData target acc s) as [[u|e] s1]; cbn in *.
    + destruct err; exact F.
    + exact F.
Qed.

(** One message through [move], when a step fails: the collection is as
    it was, or has the replacement, or has the replacement instead of the
    message. *)
Lemma moveOne_any options mailboxData target acc message s e s' :
  moveOne fails now BULK options mailboxData target acc message s
    = (Fail e, s') ->
  (messages s' = messages s
   /\ (nextOid s' = nextOid s \/ nextOid s' = S (nextOid s)))
  \/ (exists mv,
        m_id mv = nextOid s /\ nextOid s' = S (nextOid s)
        /\ m_content mv = m_content message /\ m_user mv = m_user message
        /\ (messages s' = messages s ++ [mv]
            \/ messages s'
               = deleteFirst
                   (isMessage (m_id message) (mb_id mailboxData)
                      (m_uid message))
                   (messages s ++ [mv]))).
Proof.
  unfold moveOne. intros H.
  apply bind_any in H. destruct H as [(e0 & E1 & _)|(item & s1 & E1 & H)].
  { left. unfold on_mailboxes in E1. apply call_fail in E1. subst s'. auto. }
  apply on_mailboxes_ok in E1. destruct E1 as [_ ->].
  destruct item as [item|].
  2:{ unfold fail in H. injection H as _ <-. left. auto. }
  apply bind_any in H. destruct H as [(e0 & E & _)|(id & s2 & E & H)];
    [discriminate E|].
  unfold newObjectID in E. injection E as <- <-.
  cbn [nextOid set_mailboxes set_ops] in H.
  set (mv := movedMessage now options target (nextOid s) (mb_uidNext item)
               message) in *.
  assert (Hmv : m_id mv = nextOid s /\ m_content mv = m_content message
                /\ m_user mv = m_user message).
  { destruct (movedMessage_ids now options target (nextOid s)
                (mb_uidNext item) message) as (M1 & _ & _ & M4 & _ & M6).
    auto. }
  destruct Hmv as (Hid & Hc & Hu).
  apply bind_any in H. destruct H as [(e0 & E2 & _)|(u & s3 & E2 & H)].
  { left. unfold on_messages in E2. apply call_fail in E2. subst s'. auto. }
  apply on_messages_ok in E2. destruct E2 as [_ ->].
  right. exists mv. split; [exact Hid|].
  apply bind_any in H. destruct H as [(e0 & E3 & _)|(u' & s4 & E3 & H)].
  { unfold on_messages in E3. apply call_fail in E3. subst s'. cbn. auto 10. }
  exfalso. revert H.
  unfold bind, write, modify, flushMove, addEntries, fire, ret.
  destruct (mo_session options); cbn; destruct (BULK <=? _)%nat; discriminate.
Qed.

(** The loop of [move] loses nothing, however it ends. *)
Lemma moveNext_covers options mailboxData target cursor :
  forall acc s o s' n0,
    moveNext fails now BULK options mailboxData target cursor acc s = (o, s') ->
    pending n0 acc -> (n0 <= nextOid s)%nat ->
    uniqueIds s -> NoDup (map m_id cursor) ->
    (forall m, In m cursor ->
       In m (messages s) /\ m_mailbox m = mb_id mailboxData
       /\ (m_id m < n0)%nat) ->
    covers s s'.
Proof.
  induction cursor as [|message rest IH];
    intros acc s o s' n0 H Hp Hn0 Huniq Hc Hsub;
    cbn [moveNext] in H; unfold attempt in H;
    destruct (cursorNext fails s) as [[u|e] s1] eqn:Hnext;
    kept messages Hnext; kept nextOid Hnext;
    try (apply covers_trans with s1; [apply covers_refl; exact K|];
         replace s' with (snd (o, s')) by reflexivity; rewrite <- H;
         apply moveDone_any).
  destruct (moveOne _ _ _ _ _ _ _ _ s1) as [[acc'|e] s2] eqn:Hone.
  - apply (moveOne_ok _ _ _ _ _ _ _ _ _ _ _ n0) in Hone;
      [|exact Hp|rewrite K0; exact Hn0].
    cbv zeta in Hone.
    destruct Hone as (item & _ & _ & _ & _ & _ & Hms & Hoid & _ & Hp' & _).
    rewrite K, K0 in *. destruct Huniq as [Hnd Hlt].
    assert (Hin : In message (messages s)) by (apply Hsub; now left).
    assert (Hbox : m_mailbox message = mb_id mailboxData)
      by (apply Hsub; now left).
    rewrite <- Hbox in Hms.
    rewrite (deleteFirst_app_left _ _ _ message) in Hms;
      [|exact Hin|unfold isMessage; now rewrite !Nat.eqb_refl, Z.eqb_refl].
    rewrite deleteFirst_unique in Hms by assumption.
    destruct (movedMessage_ids now options target (nextOid s)
                (mb_uidNext item) message) as (M1 & _ & _ & M4 & _ & M6).
    destruct (unique_step (messages s) (nextOid s) message _ rest
                Hnd Hlt Hc (fun x Hx => proj1 (Hsub x Hx)) M1)
      as (Und & Ult & Usub & _).
    cbv zeta in Und, Ult, Usub.
    apply covers_trans
      with (set_messages
              (withoutIds [m_id message] (messages s)
               ++ [movedMessage now options target (nextOid s)
                     (mb_uidNext item) message]) s);
      [eapply covers_step; eauto|].
    apply covers_trans with s2; [apply (covers_restamped n0); exact Hms|].
    eapply (IH _ _ _ _ n0); [exact H|exact Hp'|lia| | |].
    + eapply uniqueIds_restamped; [exact Und|exact Ult|exact Hms|exact Hoid].
    + now inversion Hc.
    + intros m Hm. split; [|split; apply Hsub; now right].
      eapply restamped_In_old; [exact Hms|now apply Usub|].
      apply Hsub. now right.
  - apply covers_trans with s2;
      [|replace s' with (snd (o, s')) by reflexivity; rewrite <- H;
        apply moveDone_any].
    apply moveOne_any in Hone.
    destruct Hone as [[Hms _]|(mv & Hid & _ & Hcn & Hu & [Hms|Hms])].
    + apply covers_refl. congruence.
    + intros m Hm. exists m. rewrite Hms, K. split; [|auto].
      apply in_or_app. now left.
    + destruct Huniq as [Hnd Hlt].
      assert (Hin : In message (messages s)) by (apply Hsub; now left).
      assert (Hbox : m_mailbox message = mb_id mailboxData)
        by (apply Hsub; now left).
      rewrite K, <- Hbox in Hms.
      rewrite (deleteFirst_app_left _ _ _ message) in Hms;
        [|exact Hin|unfold isMessage; now rewrite !Nat.eqb_refl, Z.eqb_refl].
      rewrite deleteFirst_unique in Hms by assumption.
      eapply covers_step; eauto.
Qed.

End MoveSafe.

(** [move] never loses a message.  In a collection with unique ids drawn
    from the counter, whatever [move] returns and whichever calls fail,
    every message that was stored is still stored afterwards, or a message
    with its content and its owner is: the original is deleted only once
    its replacement has been inserted. *)
Theorem move_never_loses (fails : nat -> bool) (now : Z) (BULK : nat)
    (options : MoveOptions) (s : Store) :
  uniqueIds s -> covers s (snd (move fails now BULK options s)).
Proof.
  intros Huniq. unfold move, bind.
  destruct (getMailbox fails (mo_source options) s) as [[source|e] s1] eqn:E1;
    [|kept messages E1; apply covers_refl; exact K].
  assert (K1 : messages s1 = messages s /\ nextOid s1 = nextOid s).
  { split; (eapply keeps_run; [|exact E1]);
      apply getMailbox_keeps; auto with keeps; now intros []. }
  destruct (getMailbox fails (mo_destination options) s1)
    as [[target|e] s2] eqn:E2.
  2:{ apply covers_refl. cbn. rewrite <- (proj1 K1).
      eapply keeps_run; [|exact E2].
      apply getMailbox_keeps; auto with keeps; now intros []. }
  assert (K2 : messages s2 = messages s1 /\ nextOid s2 = nextOid s1).
  { split; (eapply keeps_run; [|exact E2]);
      apply getMailbox_keeps; auto with keeps; now intros []. }
  destruct (ignoring _ s2) as [[u|e] s3] eqn:E3.
  2:{ unfold ignoring in E3. discriminate. }
  kept messages E3. kept nextOid E3.
  destruct K1 as [Kms1 Ko1], K2 as [Kms2 Ko2].
  destruct (moveNext _ _ _ _ _ _ _ _ s3) as [o s'] eqn:H. cbn [snd].
  apply covers_trans with s3; [apply covers_refl; congruence|].
  eapply (moveNext_covers _ _ _ _ _ _ _ _ _ _ _ (nextOid s3));
    [exact H|split; constructor|lia| | |].
  - destruct Huniq as [Hnd Hlt]. split; [now rewrite K, Kms2, Kms1|].
    intros m. rewrite K, Kms2, Kms1, K0, Ko2, Ko1. apply Hlt.
  - eapply Permutation_NoDup;
      [apply Permutation_map; symmetry; apply sortByUid_perm|].
    apply filter_unique_ids. rewrite K, Kms2, Kms1. apply Huniq.
  - intros m Hm. apply sortByUid_In in Hm. apply filter_In in Hm.
    destruct Hm as [Hin Hq]. split; [exact Hin|].
    unfold inMailbox in Hq. apply andb_true_iff in Hq.
    split; [now apply Nat.eqb_eq|].
    rewrite K0, Ko2, Ko1. apply Huniq. now rewrite <- Kms1, <- Kms2, <- K.
Qed.

Lemma move_never_loses_witness :
  covers Scenario.moveStore
    (snd (move (fun k => Nat.eqb k 6) 0 100 Scenario.moveOptions
            Scenario.moveStore)).
Proof.
  apply move_never_loses. split.
  - cbn. repeat constructor; cbn; intuition discriminate.
  - intros m [<-|[<-|[<-|[]]]]; cbn; lia.
Defined.
(* ================================================================== *)
(** * Part 17b. [move]: the order of the arrays and of the journal *)
(* ================================================================== *)



(* ================================================================== *)
(** * Part 18. Errors, the quota and the UID bound: [add] and [del] *)
(* ================================================================== *)

Section QuietFacts.

Variable fails : nat -> bool.

Lemma quiet_keeps {F A} (proj : Store -> F) (m : M A) :
  keeps proj m -> quiet proj m.
Proof. intros K s e s' H. specialize (K s). now rewrite H in K. Qed.

Lemma quiet_ret {F A} (proj : Store -> F) (a : A) : quiet proj (ret a).
Proof. intros s e s' H. discriminate. Qed.

Lemma quiet_fail {F A} (proj : Store -> F) (e : Error) :
  quiet proj (@fail A e).
Proof. intros s e' s' [= _ <-]. reflexivity. Qed.

Lemma quiet_call {F A} (proj : Store -> F) (act : Store -> A * Store) :
  data proj -> quiet proj (call fails act).
Proof.
  intros D s e s' H. unfold call in H.
  destruct (fails (ops s)); [injection H as _ <-; apply D|].
  destruct (act _). discriminate.
Qed.

(** After a step that leaves the part alone, the rest decides. *)
Lemma quiet_bind_keeps {F A B} (proj : Store -> F) (m : M A) (k : A -> M B) :
  keeps proj m -> (forall a, quiet proj (k a)) -> quiet proj (bind m k).
Proof.
  intros K Q s e s' H. unfold bind in H. specialize (K s).
  destruct (m s) as [[a|e0] s1]; cbn in K.
  - rewrite <- K. eapply Q. exact H.
  - now injection H as _ <-.
Qed.

(** Before steps that hand no error on, the first step decides. *)
Lemma quiet_bind_succeeds {F A B} (proj : Store -> F) (m : M A)
    (k : A -> M B) :
  quiet proj m -> (forall a, succeeds (k a)) -> quiet proj (bind m k).
Proof.
  intros Q S s e s' H. unfold bind in H.
  destruct (m s) as [[a|e0] s1] eqn:E.
  - destruct (S a s1) as (b & s2 & Hk). congruence.
  - injection H as _ <-. eapply Q. exact E.
Qed.

(** A step that has either written and is followed by steps that hand no
    error on, or has not written. *)
Lemma quiet_bind_cases {F A B} (proj : Store -> F) (m : M A) (k : A -> M B) :
  quiet proj m ->
  (forall a, succeeds (k a)
             \/ (quiet proj (k a)
                 /\ forall s s1, m s = (Ok a, s1) -> proj s1 = proj s)) ->
  quiet proj (bind m k).
Proof.
  intros Q C s e s' H. unfold bind in H.
  destruct (m s) as [[a|e0] s1] eqn:E.
  - destruct (C a) as [S|[Qk Kk]].
    + destruct (S s1) as (b & s2 & Hk). congruence.
    + rewrite <- (Kk s s1 E). eapply Qk. exact H.
  - injection H as _ <-. eapply Q. exact E.
Qed.

(** An error callback that leaves the part alone. *)
Lemma quiet_orElse {F A} (proj : Store -> F) (m : M A) (h : Error -> M A) :
  quiet proj m -> (forall e, keeps proj (h e)) -> quiet proj (orElse m h).
Proof.
  intros Q K s e s' H. unfold orElse in H.
  destruct (m s) as [[a|e0] s1] eqn:E; [discriminate|].
  specialize (K e0 s1). rewrite H in K. cbn in K. rewrite K.
  eapply Q. exact E.
Qed.

Lemma succeeds_ret {A} (a : A) : succeeds (ret a).
Proof. intros s. unfold ret. eauto. Qed.

Lemma succeeds_modify (f : Store -> Store) : succeeds (modify f).
Proof. intros s. unfold modify. eauto. Qed.

Lemma succeeds_bind {A B} (m : M A) (k : A -> M B) :
  succeeds m -> (forall a, succeeds (k a)) -> succeeds (bind m k).
Proof.
  intros Sm Sk s. destruct (Sm s) as (a & s1 & Hm).
  destruct (Sk a s1) as (b & s2 & Hk). exists b, s2.
  unfold bind. now rewrite Hm.
Qed.

Lemma succeeds_ignoring {A} (m : M A) : succeeds (ignoring m).
Proof. intros s. unfold ignoring. eauto. Qed.

Lemma succeeds_when (b : bool) (m : M unit) :
  succeeds m -> succeeds (if b then m else ret tt).
Proof. destruct b; [trivial|intros _; apply succeeds_ret]. Qed.

Lemma data_effects : data effects.
Proof. now intros n s. Qed.

Lemma effects_eq s s' :
  effects s' = effects s ->
  messages s' = messages s /\ journal s' = journal s
  /\ fired s' = fired s /\ wire s' = wire s.
Proof. unfold effects. intros [= -> -> -> ->]. auto. Qed.

End QuietFacts.

#[global] Hint Resolve succeeds_ret succeeds_modify succeeds_bind
  succeeds_ignoring succeeds_when data_effects : keeps.

Ltac succeeds_auto :=
  repeat match goal with
  | |- forall _, _ => intro
  | |- succeeds (bind _ _) => apply succeeds_bind
  | |- succeeds (ret _) => apply succeeds_ret
  | |- succeeds (modify _) => apply succeeds_modify
  | |- succeeds (ignoring _) => apply succeeds_ignoring
  | |- succeeds (if _ then _ else ret tt) => apply succeeds_when
  | |- succeeds (addEntries _ _) => apply succeeds_modify
  | |- succeeds (fire _ _) => apply succeeds_modify
  | |- succeeds (write _) => apply succeeds_modify
  | |- succeeds (match ?x with _ => _ end) => destruct x
  end.

Section AddErrors.

Variable fails : nat -> bool.
Variable now : Z.
Variables MAX_PLAINTEXT_CONTENT MAX_HTML_CONTENT : nat.
Variable digest : jsstring -> string.

Lemma getMailbox_effects ref : keeps effects (getMailbox fails ref).
Proof. apply getMailbox_keeps; [apply data_effects|]. now intros []. Qed.

Lemma checkExisting_quiet mb hdate msgid flags options :
  quiet effects (checkExistingMessage fails mb hdate msgid flags options).
Proof.
  unfold checkExistingMessage.
  apply quiet_bind_keeps; [unfold on_messages; keeps_auto|].
  intros [existing|]; [|apply quiet_ret].
  destruct (ao_skipExisting options); [apply quiet_ret|].
  apply quiet_bind_keeps; [unfold on_mailboxes; keeps_auto|].
  intros [pre|]; [|apply quiet_fail].
  apply quiet_bind_succeeds;
    [unfold on_messages; apply quiet_call, data_effects|].
  intros [updated|]; succeeds_auto.
Qed.

Lemma checkExisting_none_effects mb hdate msgid flags options s s' :
  checkExistingMessage fails mb hdate msgid flags options s = (Ok None, s') ->
  effects s' = effects s.
Proof.
  intros H. destruct (checkExisting_none _ _ _ _ _ _ _ _ H) as (Hnone & _).
  unfold checkExistingMessage in H.
  run_step H. apply on_messages_ok in Hrun. cbn in Hrun.
  destruct Hrun as [<- ->]. rewrite Hnone in H.
  run_step H. reflexivity.
Qed.

(** [add] when it hands an error on. *)
Lemma add_quiet options :
  quiet effects
    (add fails now MAX_PLAINTEXT_CONTENT MAX_HTML_CONTENT digest options).
Proof.
  unfold add. apply quiet_bind_keeps; [apply getMailbox_effects|].
  intros mailboxData. apply quiet_bind_cases; [apply checkExisting_quiet|].
  intros [info|]; [left; apply succeeds_ret|right].
  split; [|intros s s1; apply checkExisting_none_effects].
  unfold cleanup. apply quiet_orElse.
  2:{ intros e. destruct (attachmentIdsOf _); [apply keeps_fail|].
      unfold deleteMany, on_attachments. keeps_auto. }
  apply quiet_bind_keeps;
    [unfold storeNodeBodies, on_attachments; keeps_auto|]. intros _.
  apply quiet_bind_keeps; [unfold on_users; keeps_auto|]. intros _.
  unfold rollback. apply quiet_orElse;
    [|intros e; unfold on_users; keeps_auto].
  apply quiet_bind_keeps; [unfold on_mailboxes; keeps_auto|].
  intros [pre|]; [|apply quiet_fail].
  apply quiet_bind_keeps;
    [unfold getThreadId, on_threads; keeps_auto|]. intros thread.
  apply quiet_bind_succeeds;
    [unfold on_messages; apply quiet_call, data_effects|].
  succeeds_auto.
Qed.

End AddErrors.

Section DelErrors.

Variable fails : nat -> bool.

(** [del] when it hands an error on. *)
Lemma del_quiet options : quiet effects (del fails options).
Proof.
  unfold del. apply quiet_bind_keeps; [apply getMailbox_effects|].
  intros mailboxData.
  apply quiet_bind_succeeds;
    [unfold on_messages; apply quiet_call, data_effects|].
  succeeds_auto.
Qed.

(** A successful [del]. *)
Lemma del_ok options s b s' :
  del fails options s = (Ok b, s') ->
  exists mailboxData,
    resolve (match do_mailbox options with
             | Some o => o
             | None => RefId (m_mailbox (do_message options)) None
             end) s = Some mailboxData
    /\ b = true
    /\ messages s'
       = deleteFirst
           (isMessage (m_id (do_message options)) (mb_id mailboxData)
              (m_uid (do_message options))) (messages s)
    /\ journal s'
       = journal s
         ++ [(ScopeId (mb_id mailboxData),
              entry EXPUNGE (m_uid (do_message options))
                (m_id (do_message options)) None
                (m_unseen (do_message options))
                (ignoreOf (do_session options)))]
    /\ fired s' = fired s ++ [(mb_user mailboxData, mb_path mailboxData)].
Proof.
  unfold del. intros H.
  run_step H. rename a into mailboxData.
  assert (Kf : fired s0 = fired s).
  { eapply keeps_run; [|exact Hrun].
    apply getMailbox_keeps; [now intros ? ?|now intros []]. }
  apply getMailbox_ok in Hrun.
  destruct Hrun as (Hres & _ & Kms & _ & Kj & _).
  exists mailboxData. split; [exact Hres|].
  run_step H. apply on_messages_ok in Hrun. cbn in Hrun.
  destruct Hrun as [_ ->].
  run_step H. kept messages Hrun. kept journal Hrun. kept fired Hrun.
  run_step H. kept messages Hrun0. kept journal Hrun0. kept fired Hrun0.
  run_all; cbn in *; repeat split; congruence.
Qed.

End DelErrors.

Section BoundFacts.

(** New documents above the bound of a mailbox whose [uidNext] is raised
    accordingly keep every UID below the [uidNext] of its mailbox. *)
Lemma uidsBelowNext_step (s s' : Store) (id : ObjectID)
    (f : Mailbox -> Mailbox) (n : Z) :
  uidsBelowNext s ->
  (forall m, mb_id (f m) = mb_id m) ->
  (forall m, mb_uidNext (f m) = mb_uidNext m + n) -> 0 <= n ->
  mailboxes s' = updateFirst (byId id) f (mailboxes s) ->
  (forall m, In m (messages s') ->
     In m (messages s)
     \/ (m_mailbox m = id
         /\ forall rec, findOne (byId id) (mailboxes s) = Some rec ->
                        m_uid m < mb_uidNext rec + n)) ->
  uidsBelowNext s'.
Proof.
  intros Hinv Hid Hnext Hn Hmb Hms m rec' Hin Hrec'.
  rewrite Hmb, findOne_byId_updateFirst in Hrec' by exact Hid.
  destruct (findOne (byId (m_mailbox m)) (mailboxes s)) as [rec|] eqn:E;
    [|discriminate].
  cbn in Hrec'. injection Hrec' as <-.
  destruct (Hms m Hin) as [Hold|[Hbox Hnew]].
  - specialize (Hinv m rec Hold E).
    destruct (m_mailbox m =? id)%nat; [rewrite Hnext|]; lia.
  - rewrite Hbox, Nat.eqb_refl, Hnext. apply Hnew. now rewrite <- Hbox.
Qed.

(** The same from what is known of the records afterwards. *)
Lemma uidsBelowNext_records (s s' : Store) (tid : ObjectID) (n : Z) :
  uidsBelowNext s -> 0 <= n ->
  (forall id rec',
     findOne (byId id) (mailboxes s') = Some rec' ->
     exists rec,
       findOne (byId id) (mailboxes s) = Some rec
       /\ mb_uidNext rec' = mb_uidNext rec + (if (id =? tid)%nat then n else 0)) ->
  (forall m, In m (messages s') ->
     In m (messages s)
     \/ (m_mailbox m = tid
         /\ forall rec, findOne (byId tid) (mailboxes s) = Some rec ->
                        m_uid m < mb_uidNext rec + n)) ->
  uidsBelowNext s'.
Proof.
  intros Hinv Hn Hrec Hms m rec' Hin Hrec'.
  destruct (Hrec _ _ Hrec') as (rec & Hf & Hu).
  destruct (Hms m Hin) as [Hold|[Hbox Hnew]].
  - specialize (Hinv m rec Hold Hf).
    destruct (m_mailbox m =? tid)%nat; lia.
  - rewrite Hbox, Nat.eqb_refl in Hu. rewrite Hbox in Hf.
    specialize (Hnew rec Hf). lia.
Qed.

(** The same when the notifier has been at the documents. *)
Lemma uidsBelowNext_restamped (s s' : Store) (tid : ObjectID) (n : Z)
    (n0 : ObjectID) (old added : list Message) :
  uidsBelowNext s -> 0 <= n ->
  (forall id rec',
     findOne (byId id) (mailboxes s') = Some rec' ->
     exists rec,
       findOne (byId id) (mailboxes s) = Some rec
       /\ mb_uidNext rec' = mb_uidNext rec + (if (id =? tid)%nat then n else 0)) ->
  Forall2 (restamped n0) (old ++ added) (messages s') ->
  (forall m, In m old -> In m (messages s)) ->
  (forall m, In m added ->
     m_mailbox m = tid
     /\ forall rec, findOne (byId tid) (mailboxes s) = Some rec ->
                    m_uid m < mb_uidNext rec + n) ->
  uidsBelowNext s'.
Proof.
  intros Hinv Hn Hrec Hms Hold Hadd m rec' Hin Hrec'.
  destruct (Hrec _ _ Hrec') as (rec & Hf & Hu).
  assert (Hbase : exists a, In a (old ++ added) /\ restamped n0 a m).
  { clear - Hms Hin. induction Hms as [|a b l l' Hab H IH]; [destruct Hin|].
    destruct Hin as [<-|Hin]; [exists a; split; [now left|exact Hab]|].
    destruct (IH Hin) as (x & Hx & Hr). exists x. split; [now right|exact Hr]. }
  destruct Hbase as (a & Ha & Hr).
  destruct (restamped_fields _ _ _ Hr) as (_ & Hbox & Huid & _).
  rewrite Hbox in Hf, Hu. rewrite Huid.
  apply in_app_or in Ha. destruct Ha as [Ha|Ha].
  - specialize (Hinv a rec (Hold a Ha) Hf).
    destruct (m_mailbox a =? tid)%nat; lia.
  - destruct (Hadd a Ha) as [Hb Hnew].
    rewrite Hb, Nat.eqb_refl in Hu. rewrite Hb in Hf.
    specialize (Hnew rec Hf). lia.
Qed.

End BoundFacts.

Section AddQuota.

Variable fails : nat -> bool.
Variable now : Z.
Variables MAX_PLAINTEXT_CONTENT MAX_HTML_CONTENT : nat.
Variable digest : jsstring -> string.

Lemma on_users_ok {A} (f : list User -> A * list User) s a s' :
  on_users fails f s = (Ok a, s') ->
  fst (f (users s)) = a
  /\ s' = set_users (snd (f (users s))) (set_ops (S (ops s)) s).
Proof.
  intros H. apply call_ok in H. destruct H as [_ H]. cbn in H.
  destruct (f (users s)) as [x c]. injection H as <- <-. auto.
Qed.

(** [add] and the quota. *)
Lemma add_users options s r s' :
  add fails now MAX_PLAINTEXT_CONTENT MAX_HTML_CONTENT digest options s
    = (Ok r, s') ->
  exists mailboxData,
    resolve (ao_target options) s = Some mailboxData
    /\ ((r_status r = StatusNew
         /\ users s'
            = updateFirst (userById (mb_user mailboxData))
                (incStorage (p_size (ao_prepared options))) (users s))
        \/ (r_status r <> StatusNew /\ users s' = users s)).
Proof.
  intros Hadd. pose proof Hadd as H. unfold add in H.
  run_step H. rename a into mailboxData. apply getMailbox_ok in Hrun.
  destruct Hrun as (Hres & _ & Kms & Kus & _).
  exists mailboxData. split; [exact Hres|].
  run_step H. kept users Hrun.
  destruct a as [info|].
  - right. run_step H. split; [|congruence].
    apply checkExisting_some in Hrun.
    destruct Hrun as (existing & _ & [Hskip|Hupd]).
    + destruct Hskip as (_ & -> & _). discriminate.
    + destruct Hupd as (_ & pre & old & _ & _ & -> & _). discriminate.
  - left. apply checkExisting_none in Hrun. destruct Hrun as (Hnone & _).
    rewrite Kms in Hnone.
    destruct (add_cases _ _ _ _ _ _ _ _ _ Hadd) as (mb' & Hget & Hcase).
    destruct (getMailbox fails (ao_target options) s) as [[mb''|e] s0'] eqn:Eg;
      [|discriminate].
    cbn in Hget. injection Hget as ->.
    apply getMailbox_ok in Eg. destruct Eg as (Hres' & _).
    rewrite Hres in Hres'. injection Hres' as <-.
    rewrite Hnone in Hcase. destruct Hcase as (pre & thread & _ & _ & _ & _ & ->).
    split; [reflexivity|].
    apply cleanup_ok in H. run_step H. kept users Hrun.
    run_step H. apply on_users_ok in Hrun0. destruct Hrun0 as [_ ->].
    apply rollback_ok in H. kept users H. cbn in K1.
    rewrite K1, findOneAndUpdate_snd. congruence.
Qed.

End AddQuota.

(** [add] when it fails.  Whichever call hands the error on, and whatever
    was reserved or charged on the way, [add] has then stored no message,
    written no journal entry, poked nobody and sent nothing to the
    session. *)
Theorem add_failure_stores_nothing (fails : nat -> bool) (now : Z)
    (MAX_PLAINTEXT_CONTENT MAX_HTML_CONTENT : nat)
    (digest : jsstring -> string) (options : AddOptions)
    (s s' : Store) (e : Error) :
  add fails now MAX_PLAINTEXT_CONTENT MAX_HTML_CONTENT digest options s
    = (Fail e, s') ->
  messages s' = messages s /\ journal s' = journal s
  /\ fired s' = fired s /\ wire s' = wire s.
Proof. intros H. apply effects_eq. eapply add_quiet. exact H. Qed.

Lemma add_failure_stores_nothing_witness :
  messages (snd (add (fun k => Nat.eqb k 7) 0 1000 1000 Scenario.anyDigest
                   Scenario.addOptions Scenario.addStore)) = []
  /\ journal (snd (add (fun k => Nat.eqb k 7) 0 1000 1000 Scenario.anyDigest
                     Scenario.addOptions Scenario.addStore)) = [].
Proof.
  destruct (add_failure_stores_nothing (fun k => Nat.eqb k 7) 0 1000 1000
              Scenario.anyDigest Scenario.addOptions Scenario.addStore
              (snd (add (fun k => Nat.eqb k 7) 0 1000 1000 Scenario.anyDigest
                      Scenario.addOptions Scenario.addStore))
              StoreError) as (Hm & Hj & _).
  - vm_compute. reflexivity.
  - split; [exact Hm|exact Hj].
Defined.

(** [add] with [skipExisting] on a duplicate.  When the database answers
    and the mailbox holds a message with the [hdate] and the [msgid] of
    the new one, [add] returns [skip] with the UID and the id of that
    message, and changes nothing: no record, no message, no quota, no
    journal entry. *)
Theorem add_skips_duplicate (fails : nat -> bool) (now : Z)
    (MAX_PLAINTEXT_CONTENT MAX_HTML_CONTENT : nat)
    (digest : jsstring -> string) (options : AddOptions) (s : Store)
    (mailboxData : Mailbox) (existing : Message) :
  (forall k, fails k = false) ->
  resolve (ao_target options) s = Some mailboxData ->
  findOne (isDuplicate mailboxData (p_hdate (ao_prepared options))
             (p_msgid (ao_prepared options))) (messages s) = Some existing ->
  ao_skipExisting options = true ->
  exists s',
    add fails now MAX_PLAINTEXT_CONTENT MAX_HTML_CONTENT digest options s
    = (Ok {| r_uidValidity := None; r_uid := m_uid existing;
             r_id := m_id existing; r_mailbox := mb_id mailboxData;
             r_status := StatusSkip |}, s')
    /\ mailboxes s' = mailboxes s /\ messages s' = messages s
    /\ users s' = users s /\ journal s' = journal s
    /\ threads s' = threads s /\ attachments s' = attachments s.
Proof.
  intros Hrel Hres Hdup Hskip.
  assert (Hget : exists s0,
            getMailbox fails (ao_target options) s = (Ok mailboxData, s0)
            /\ mailboxes s0 = mailboxes s /\ messages s0 = messages s
            /\ users s0 = users s /\ journal s0 = journal s
            /\ threads s0 = threads s /\ attachments s0 = attachments s).
  { destruct (ao_target options); cbn [getMailbox resolve] in *.
    - injection Hres as ->. eexists. split; [reflexivity|]. auto 10.
    - unfold bind, on_mailboxes, call. rewrite Hrel.
      cbn [mailboxes set_ops]. rewrite Hres.
      eexists. split; [reflexivity|]. cbn. auto 10.
    - unfold bind, on_mailboxes, call. rewrite Hrel.
      cbn [mailboxes set_ops]. rewrite Hres.
      eexists. split; [reflexivity|]. cbn. auto 10.
    - unfold bind, on_mailboxes, call. rewrite Hrel.
      cbn [mailboxes set_ops]. rewrite Hres.
      eexists. split; [reflexivity|]. cbn. auto 10. }
  destruct Hget as (s0 & Hget & Kmb & Kms & Kus & Kj & Kth & Kat).
  eexists.
  unfold add, bind, checkExistingMessage, bind, on_messages, call.
  rewrite Hget, Hrel. cbn [messages set_ops]. rewrite Kms, Hdup. cbn [fst snd].
  rewrite Hskip. split; [reflexivity|]. cbn. auto 10.
Qed.

Lemma add_skips_duplicate_witness :
  exists s',
    add Scenario.reliable 0 1000 1000 Scenario.anyDigest
      {| ao_target := RefId 10%nat None;
         ao_prepared := Scenario.prepared;
         ao_maildata := ao_maildata Scenario.addOptions;
         ao_flags := []; ao_meta := []; ao_filters := [];
         ao_session := None; ao_skipExisting := true |}
      Scenario.delStore
    = (Ok {| r_uidValidity := None; r_uid := 5; r_id := 500%nat;
             r_mailbox := 10%nat; r_status := StatusSkip |}, s')
    /\ messages s' = messages Scenario.delStore.
Proof.
  destruct (add_skips_duplicate Scenario.reliable 0 1000 1000
              Scenario.anyDigest
              {| ao_target := RefId 10%nat None;
                 ao_prepared := Scenario.prepared;
                 ao_maildata := ao_maildata Scenario.addOptions;
                 ao_flags := []; ao_meta := []; ao_filters := [];
                 ao_session := None; ao_skipExisting := true |}
              Scenario.delStore (Scenario.mailbox 10 "INBOX" 6 11)
              (Scenario.message 500 10 5 11 42 "<x@y>"))
    as (s' & Hrun & _ & Hms & _).
  - reflexivity.
  - vm_compute. reflexivity.
  - vm_compute. reflexivity.
  - reflexivity.
  - exists s'. split; [exact Hrun|exact Hms].
Defined.

(** [add] and the quota.  A successful [add] that stores a new message
    charges its size to the owner of the mailbox; one that finds a
    duplicate, and skips it or rewrites it, charges nothing. *)
Theorem add_charges_quota (fails : nat -> bool) (now : Z)
    (MAX_PLAINTEXT_CONTENT MAX_HTML_CONTENT : nat)
    (digest : jsstring -> string) (options : AddOptions)
    (s s' : Store) (r : AddResult) :
  add fails now MAX_PLAINTEXT_CONTENT MAX_HTML_CONTENT digest options s
    = (Ok r, s') ->
  exists mailboxData,
    resolve (ao_target options) s = Some mailboxData
    /\ users s'
       = match r_status r with
         | StatusNew =>
             updateFirst (userById (mb_user mailboxData))
               (incStorage (p_size (ao_prepared options))) (users s)
         | _ => users s
         end.
Proof.
  intros H. apply add_users in H.
  destruct H as (mailboxData & Hres & [[Hst Hus]|[Hst Hus]]);
    exists mailboxData; (split; [exact Hres|]).
  - now rewrite Hst.
  - destruct (r_status r); congruence.
Qed.

Lemma add_charges_quota_witness :
  users (snd (add Scenario.reliable 0 1000 1000 Scenario.anyDigest
                Scenario.addOptions Scenario.addStore))
  = [{| u_id := 1%nat; u_storageUsed := 142 |}].
Proof.
  destruct (add_charges_quota Scenario.reliable 0 1000 1000
              Scenario.anyDigest Scenario.addOptions Scenario.addStore
              (snd (add Scenario.reliable 0 1000 1000 Scenario.anyDigest
                      Scenario.addOptions Scenario.addStore))
              {| r_uidValidity := Some 1500000000; r_uid := 5;
                 r_id := 500%nat; r_mailbox := 10%nat;
                 r_status := StatusNew |}) as (mailboxData & Hres & Hus).
  - vm_compute. reflexivity.
  - rewrite Hus. vm_compute in Hres. injection Hres as <-. reflexivity.
Defined.

(** [add] never reuses a UID.  If every stored message has a UID below
    the [uidNext] of its mailbox, the same holds after a successful [add];
    and unless the message was skipped, the UID that [add] returns is
    above the UID of every message that the mailbox held. *)
Theorem add_keeps_uid_bound (fails : nat -> bool) (now : Z)
    (MAX_PLAINTEXT_CONTENT MAX_HTML_CONTENT : nat)
    (digest : jsstring -> string) (options : AddOptions)
    (s s' : Store) (r : AddResult) :
  add fails now MAX_PLAINTEXT_CONTENT MAX_HTML_CONTENT digest options s
    = (Ok r, s') ->
  uidsBelowNext s ->
  uidsBelowNext s'
  /\ (r_status r <> StatusSkip ->
      forall m, In m (messages s) -> m_mailbox m = r_mailbox r ->
                m_uid m < r_uid r).
Proof.
  intros Hadd Hinv.
  destruct (add_cases _ _ _ _ _ _ _ _ _ Hadd) as (mailboxData & _ & Hcase).
  destruct (findOne (isDuplicate mailboxData _ _) (messages s))
    as [existing|].
  - destruct (ao_skipExisting options).
    + destruct Hcase as (Hst & _ & _ & _ & Hcore).
      apply core_eq in Hcore. destruct Hcore as (Hmb & Hms & _).
      split; [|congruence].
      intros m rec. rewrite Hmb, Hms. apply Hinv.
    + destruct Hcase as (pre & old & Hpre & Hold & -> & Hmb & Hms & _).
      assert (Hid : mb_id pre = mb_id mailboxData)
        by (apply findOne_holds in Hpre; now apply byId_eq).
      split.
      * eapply (uidsBelowNext_step s s' (mb_id mailboxData) incBoth 1);
          try eassumption; try reflexivity; try lia.
        intros m Hin. rewrite Hms in Hin.
        apply In_updateFirst in Hin.
        destruct Hin as [Hin|(y & Hy & Hq & ->)]; [now left|right].
        unfold isMessage in Hq. rewrite !andb_true_iff in Hq.
        destruct Hq as [[_ Hbox] _]. apply Nat.eqb_eq in Hbox.
        cbn. split; [congruence|]. intros rec Hrec.
        rewrite Hpre in Hrec. injection Hrec as <-. lia.
      * intros _ m Hin Hbox. cbn [r_mailbox r_uid] in *.
        apply (Hinv m pre Hin). now rewrite Hbox, Hid.
  - destruct Hcase as (pre & thread & Hpre & Hmb & Hms & _ & ->).
    assert (Hid : mb_id pre = mb_id mailboxData)
      by (apply findOne_holds in Hpre; now apply byId_eq).
    split.
    + eapply (uidsBelowNext_step s s' (mb_id mailboxData) incBoth 1);
        try eassumption; try reflexivity; try lia.
      intros m Hin. rewrite Hms in Hin. apply in_app_or in Hin.
      destruct Hin as [Hin|[<-|[]]]; [now left|right].
      cbn. split; [exact Hid|]. intros rec Hrec.
      rewrite Hpre in Hrec. injection Hrec as <-. lia.
    + intros _ m Hin Hbox. cbn [r_mailbox r_uid] in *.
      apply (Hinv m pre Hin). now rewrite Hbox, Hid.
Qed.

Lemma add_keeps_uid_bound_witness :
  uidsBelowNext
    (snd (add Scenario.reliable 0 1000 1000 Scenario.anyDigest
            Scenario.addOptions Scenario.delStore)).
Proof.
  apply (add_keeps_uid_bound Scenario.reliable 0 1000 1000 Scenario.anyDigest
           Scenario.addOptions Scenario.delStore
           (snd (add Scenario.reliable 0 1000 1000 Scenario.anyDigest
                   Scenario.addOptions Scenario.delStore))
           {| r_uidValidity := Some 1500000000; r_uid := 6;
              r_id := 500%nat; r_mailbox := 10%nat;
              r_status := StatusUpdate |}).
  - vm_compute. reflexivity.
  - intros m rec [<-|[]] Hrec. vm_compute in Hrec. injection Hrec as <-.
    reflexivity.
Defined.

(** [del] when it fails: no message is deleted, no journal entry written,
    nobody poked, nothing sent to the session. *)
Theorem del_failure_deletes_nothing (fails : nat -> bool)
    (options : DelOptions) (s s' : Store) (e : Error) :
  del fails options s = (Fail e, s') ->
  messages s' = messages s /\ journal s' = journal s
  /\ fired s' = fired s /\ wire s' = wire s.
Proof. intros H. apply effects_eq. eapply del_quiet. exact H. Qed.

Lemma del_failure_deletes_nothing_witness :
  messages (snd (del (fun k => Nat.eqb k 1) Scenario.delOptions
                   Scenario.delStore))
  = messages Scenario.delStore.
Proof.
  destruct (del_failure_deletes_nothing (fun k => Nat.eqb k 1)
              Scenario.delOptions Scenario.delStore
              (snd (del (fun k => Nat.eqb k 1) Scenario.delOptions
                      Scenario.delStore)) StoreError) as (Hm & _).
  - vm_compute. reflexivity.
  - exact Hm.
Defined.

(** [del] when it succeeds.  It answers [true], takes out at most one
    document, the first with the id, the mailbox and the UID of the
    message, and hands the notifier one EXPUNGE entry for it, with the id
    of the mailbox for a scope (where [add] gives the mailbox document).
    A message that is not stored is no error: the entry is handed over
    all the same. *)
Theorem del_expunges (fails : nat -> bool) (options : DelOptions)
    (s s' : Store) (b : bool) :
  del fails options s = (Ok b, s') ->
  exists mailboxData,
    resolve (match do_mailbox options with
             | Some o => o
             | None => RefId (m_mailbox (do_message options)) None
             end) s = Some mailboxData
    /\ b = true
    /\ messages s'
       = deleteFirst
           (isMessage (m_id (do_message options)) (mb_id mailboxData)
              (m_uid (do_message options))) (messages s)
    /\ ((forall x, In x (messages s) ->
           isMessage (m_id (do_message options)) (mb_id mailboxData)
             (m_uid (do_message options)) x = false) ->
        messages s' = messages s)
    /\ journal s'
       = journal s
         ++ [(ScopeId (mb_id mailboxData),
              entry EXPUNGE (m_uid (do_message options))
                (m_id (do_message options)) None
                (m_unseen (do_message options))
                (ignoreOf (do_session options)))].
Proof.
  intros H.
  apply del_ok in H.
  destruct H as (mailboxData & Hres & -> & Hms & Hj & _).
  exists mailboxData. repeat (split; [assumption || reflexivity|]).
  split; [|exact Hj].
  intros Hnone. rewrite Hms. clear Hms.
  induction (messages s) as [|x l IH]; cbn; [reflexivity|].
  rewrite (Hnone x) by now left. f_equal. apply IH. intros y Hy.
  apply Hnone. now right.
Qed.

Lemma del_expunges_witness :
  messages (snd (del Scenario.reliable Scenario.delOptions Scenario.delStore))
  = []
  /\ map (fun d => (je_command (snd d), je_uid (snd d)))
       (journal (snd (del Scenario.reliable Scenario.delOptions
                        Scenario.delStore)))
     = [(EXPUNGE, 5)].
Proof.
  destruct (del_expunges Scenario.reliable Scenario.delOptions
              Scenario.delStore
              (snd (del Scenario.reliable Scenario.delOptions
                      Scenario.delStore)) true)
    as (mailboxData & Hres & _ & Hms & _ & Hj).
  - vm_compute. reflexivity.
  - vm_compute in Hres. injection Hres as <-.
    rewrite Hms, Hj. split; reflexivity.
Defined.

(** [move] never reuses a UID.  In a collection with unique ids, if every
    stored message has a UID below the [uidNext] of its mailbox, the same
    holds after a successful move. *)
Theorem move_keeps_uid_bound (fails : nat -> bool) (now : Z) (BULK : nat)
    (options : MoveOptions) (s s' : Store) (r : MoveResult)
    (source target before : Mailbox) :
  move fails now BULK options s = (Ok r, s') ->
  resolve (mo_source options) s = Some source ->
  resolve (mo_destination options) s = Some target ->
  findOne (byId (mb_id target)) (mailboxes s) = Some before ->
  uniqueIds s ->
  uidsBelowNext s ->
  uidsBelowNext s'.
Proof.
  intros H Hs Ht Hb Huniq Hinv.
  destruct (move_spec _ _ _ _ _ _ _ _ _ _ H Hs Ht Hb)
    as (_ & (after & Hafter & Hraised & _) & _ & _ & _ & Hmsg & Hrecs).
  destruct (Hmsg Huniq) as (Hms & _).
  set (cursor := selected (mb_id source) (moveQuery options) s) in *.
  destruct (movedFrom_uids now options target cursor (nextOid s)
              (mb_uidNext before)) as (Hu & _ & Hc).
  assert (Hn : mb_uidNext after
               = mb_uidNext before + Z.of_nat (length cursor))
    by (destruct Hraised as [-> _]; reflexivity).
  apply (uidsBelowNext_restamped s s' (mb_id target)
           (Z.of_nat (length cursor)) (nextOid s)
           (withoutIds (map m_id cursor) (messages s))
           (movedFrom now options target (nextOid s) (mb_uidNext before)
              cursor)); [exact Hinv|lia| |exact Hms| |].
  - intros id rec' Hf. destruct (Nat.eqb_spec id (mb_id target)) as [->|Hne].
    + exists before. rewrite Hafter in Hf. injection Hf as <-. auto.
    + destruct (Hrecs id rec' Hne Hf) as (rec & Hrec & Hsame).
      exists rec. split; [exact Hrec|lia].
  - intros m Hin. now apply withoutIds_In in Hin.
  - intros m Hin. split.
    + eapply Forall2_right in Hc;
        [|intros a b Hab; exact (proj1 (proj2 Hab))].
      rewrite Forall_forall in Hc. now apply Hc.
    + intros rec Hrec. rewrite Hb in Hrec. injection Hrec as <-.
      apply (in_map m_uid) in Hin. rewrite Hu in Hin.
      apply uidsFrom_In in Hin. lia.
Qed.

Lemma move_keeps_uid_bound_witness :
  uidsBelowNext
    (snd (move Scenario.reliable 0 100 Scenario.moveOptions
            Scenario.moveStore)).
Proof.
  apply (move_keeps_uid_bound Scenario.reliable 0 100 Scenario.moveOptions
           Scenario.moveStore
           (snd (move Scenario.reliable 0 100 Scenario.moveOptions
                   Scenario.moveStore))
           {| mr_uidValidity := 1500000000;
              mr_sourceUid := [RUid 7; RUid 9];
              mr_destinationUid := [RUid 3; RUid 4]; mr_mailbox := 10%nat;
              mr_status := StatusMoved |}
           (Scenario.mailbox 10 "INBOX" 10 20)
           (Scenario.mailbox 20 "Archive" 3 4)
           (Scenario.mailbox 20 "Archive" 3 4)).
  - vm_compute. reflexivity.
  - vm_compute. reflexivity.
  - vm_compute. reflexivity.
  - vm_compute. reflexivity.
  - split.
    + cbn. repeat constructor; cbn; intuition discriminate.
    + intros m [<-|[<-|[<-|[]]]]; cbn; lia.
  - intros m rec [<-|[<-|[<-|[]]]] Hrec; vm_compute in Hrec;
      injection Hrec as <-; reflexivity.
Defined.

(** The COPY hook never reuses a UID: if every stored message has a UID
    below the [uidNext] of its mailbox, the same holds after a copy that
    answers with its result. *)
Theorem onCopy_keeps_uid_bound (fails : nat -> bool) (now : Z)
    (path : string) (update : CopyUpdate) (session : Session)
    (s s' : Store) (v : Z) (su du : list Z) :
  onCopy fails now path update session s = (Ok (Copied v su du), s') ->
  uidsBelowNext s ->
  uidsBelowNext s'.
Proof.
  intros H Hinv. apply onCopy_spec in H.
  destruct H as (mailbox & target & rec & _ & _ & Hrec & H). cbv zeta in H.
  set (cursor := selected (mb_id mailbox)
                   (checkRangeQuery (cu_messages update)) s) in *.
  destruct H as (_ & _ & _ & Hms & (rec' & Hrec' & Hraised) & Hother & _).
  assert (Hn : mb_uidNext rec'
               = mb_uidNext rec + Z.of_nat (length cursor))
    by (destruct Hraised as [-> _]; reflexivity).
  apply (uidsBelowNext_restamped s s' (mb_id target)
           (Z.of_nat (length cursor)) (nextOid s) (messages s)
           (copiesFrom now target (nextOid s) (mb_uidNext rec) cursor));
    [exact Hinv|lia| |exact Hms|auto|].
  - intros id rec'' Hf. destruct (Nat.eqb_spec id (mb_id target)) as [->|Hne].
    + exists rec. rewrite Hrec' in Hf. injection Hf as <-. auto.
    + rewrite (Hother id Hne) in Hf. exists rec''. split; [exact Hf|lia].
  - intros m Hin. split.
    + pose proof (copiesFrom_mailbox now target cursor (nextOid s)
                    (mb_uidNext rec)) as Hc.
      rewrite Forall_forall in Hc. now apply Hc.
    + intros rec0 Hrec0. rewrite Hrec in Hrec0. injection Hrec0 as <-.
      apply (in_map m_uid) in Hin. rewrite copiesFrom_uids in Hin.
      apply uidsFrom_In in Hin. lia.
Qed.

Lemma onCopy_keeps_uid_bound_witness :
  uidsBelowNext
    (snd (onCopy Scenario.reliable 0 "INBOX" Scenario.copyUpdate
            Scenario.copySession Scenario.moveStore)).
Proof.
  apply (onCopy_keeps_uid_bound Scenario.reliable 0 "INBOX"
           Scenario.copyUpdate Scenario.copySession Scenario.moveStore
           (snd (onCopy Scenario.reliable 0 "INBOX" Scenario.copyUpdate
                   Scenario.copySession Scenario.moveStore))
           1500000000 [9; 7] [4; 3]).
  - vm_compute. reflexivity.
  - intros m rec [<-|[<-|[<-|[]]]] Hrec; vm_compute in Hrec;
      injection Hrec as <-; reflexivity.
Defined.
(* ================================================================== *)
(** * Part 19. [update] *)
(* ================================================================== *)

Section UpdateLoop.

Variable fails : nat -> bool.
Variable BULK : nat.

(** The update document leaves the key of a message alone. *)
Lemma applyUpdates_key (u : Updates) (m : Message) :
  m_id (applyUpdates u m) = m_id m
  /\ m_mailbox (applyUpdates u m) = m_mailbox m
  /\ m_uid (applyUpdates u m) = m_uid m
  /\ m_content (applyUpdates u m) = m_content m.
Proof. repeat split. Qed.

Lemma applyUpdates_modseq (u : Updates) (m : Message) (v : Z) :
  s_modseq (up_set u) = Some v -> m_modseq (applyUpdates u m) = v.
Proof. intros H. cbn. now rewrite H. Qed.

(** In a collection with unique ids, the update of the document with
    the key of [m] is the update of [m]. *)
Lemma updateFirst_by_key (u : Updates) (m : Message) (c : list Message) :
  NoDup (map m_id c) -> In m c ->
  findOne (isMessage (m_id m) (m_mailbox m) (m_uid m)) c = Some m
  /\ updateFirst (isMessage (m_id m) (m_mailbox m) (m_uid m))
       (applyUpdates u) c
     = map (fun x => if (m_id x =? m_id m)%nat then applyUpdates u x else x) c.
Proof.
  unfold findOne, isMessage. induction c as [|d c IH]; [intros _ []|].
  intros Hc Hin. apply NoDup_cons_iff in Hc. destruct Hc as [Hd Hc].
  cbn [find updateFirst map].
  destruct (Nat.eqb_spec (m_id d) (m_id m)) as [E|E].
  - assert (d = m).
    { destruct Hin as [->|Hin]; [reflexivity|]. exfalso. apply Hd.
      rewrite E. now apply in_map. }
    subst d. rewrite Nat.eqb_refl, Z.eqb_refl. cbn [andb].
    split; [reflexivity|]. f_equal.
    rewrite <- (map_id c) at 1. apply map_ext_in. intros x Hx.
    destruct (Nat.eqb_spec (m_id x) (m_id m)) as [Ex|Ex]; [|reflexivity].
    exfalso. apply Hd. rewrite <- Ex. now apply in_map.
  - cbn [andb]. destruct Hin as [->|Hin]; [contradiction|].
    destruct (IH Hc Hin) as [Hf Hu]. split; [exact Hf|]. now rewrite Hu.
Qed.

Lemma updateMessage_ok q u s item s' :
  updateMessage fails q u s = (Ok item, s') ->
  item = findOne q (messages s)
  /\ messages s' = updateFirst q (applyUpdates u) (messages s)
  /\ mailboxes s' = mailboxes s /\ journal s' = journal s.
Proof.
  unfold updateMessage. intros H.
  destruct (conflicting u); [run_step H; run_all|].
  apply on_messages_ok in H. destruct H as [<- ->].
  rewrite findOneAndUpdate_eq.
  destruct (findOne q (messages s)) eqn:E; cbn; auto.
  rewrite updateFirst_no_match by exact E. auto.
Qed.

(** The entries of [update] are FETCH entries: the notifier only appends
    them. *)
Lemma fetch_plain (notifyEntries : list JournalEntry) (m : Message)
    (unseenChange : bool) :
  existsb unnumbered notifyEntries = false ->
  existsb unnumbered (notifyEntries ++ [fetchEntry m unseenChange]) = false.
Proof. intros H. rewrite existsb_app, H. reflexivity. Qed.

Lemma updateDone_ok mailboxData notifyEntries updatedCount n s s' :
  updateDone mailboxData notifyEntries updatedCount None s = (Ok n, s') ->
  existsb unnumbered notifyEntries = false ->
  n = updatedCount /\ messages s' = messages s
  /\ mailboxes s' = mailboxes s
  /\ journal s' = journal s ++ map (pair (ScopeMailbox mailboxData)) notifyEntries.
Proof.
  unfold updateDone. intros H Hplain.
  destruct notifyEntries as [|j l]; run_all;
    rewrite ?(renumber_plain _ _ _ Hplain); cbn; rewrite ?app_nil_r; auto.
Qed.

(** The loop of [update], from any point of the cursor. *)
Lemma updateNext_spec mailbox mailboxData u unseenChange cursor :
  forall notifyEntries updatedCount s n s',
    updateNext fails BULK mailbox mailboxData u unseenChange cursor
      notifyEntries updatedCount s = (Ok n, s') ->
    existsb unnumbered notifyEntries = false ->
    NoDup (map m_id (messages s)) -> NoDup (map m_id cursor) ->
    (forall m, In m cursor -> In m (messages s) /\ m_mailbox m = mailbox) ->
    n = updatedCount + Z.of_nat (length cursor)
    /\ mailboxes s' = mailboxes s
    /\ messages s'
       = map (fun x => if existsb (Nat.eqb (m_id x)) (map m_id cursor)
                       then applyUpdates u x else x) (messages s)
    /\ journal s'
       = journal s
         ++ map (pair (ScopeMailbox mailboxData))
              (notifyEntries
               ++ map (fun m => fetchEntry m unseenChange) cursor).
Proof.
  induction cursor as [|m rest IH];
    intros notifyEntries updatedCount s n s' H Hplain Hnd Hc Hsub;
    cbn [updateNext] in H; apply attempt_ok in H;
    destruct H as [(tick & s1 & Hnext & H)|(e & s1 & _ & H)];
    try (unfold updateDone in H; run_step H; run_all; fail);
    kept messages Hnext; kept mailboxes Hnext; kept journal Hnext.
  - apply updateDone_ok in H; [|exact Hplain].
    destruct H as (-> & Hms & Hmb & Hj).
    cbn [length map existsb]. rewrite !app_nil_r, Hms, Hmb, Hj, K, K0, K1.
    rewrite map_id. repeat split. lia.
  - apply attempt_ok in H.
    destruct H as [(item & s2 & Hone & H)|(e & s2 & _ & H)];
      [|unfold updateDone in H; run_step H; run_all].
    apply updateMessage_ok in Hone.
    destruct Hone as (Hitem & Hms & Hmb & Hj). subst item.
    rewrite K in Hms. rewrite K0 in Hmb. rewrite K1 in Hj.
    assert (Hin : In m (messages s)) by (apply Hsub; now left).
    assert (Hbox : m_mailbox m = mailbox) by (apply Hsub; now left).
    subst mailbox. rewrite K in H.
    destruct (updateFirst_by_key u m (messages s) Hnd Hin) as [Hf Hu].
    rewrite Hf in H. rewrite Hu in Hms.
    cbn [map] in Hc. apply NoDup_cons_iff in Hc. destruct Hc as [Hm Hc].
    assert (Hids : map m_id (messages s2) = map m_id (messages s)).
    { rewrite Hms, map_map. apply map_ext. intros x.
      now destruct (m_id x =? m_id m)%nat. }
    assert (Hsub2 : forall y, In y rest ->
                      In y (messages s2) /\ m_mailbox y = m_mailbox m).
    { intros y Hy. destruct (Hsub y (or_intror Hy)) as [Hy1 Hy2].
      split; [|congruence]. rewrite Hms. apply in_map_iff. exists y.
      split; [|exact Hy1].
      destruct (Nat.eqb_spec (m_id y) (m_id m)) as [E|E]; [|reflexivity].
      exfalso. apply Hm. rewrite <- E. now apply in_map. }
    assert (Hfinal :
      map (fun x => if existsb (Nat.eqb (m_id x)) (map m_id rest)
                    then applyUpdates u x else x) (messages s2)
      = map (fun x => if existsb (Nat.eqb (m_id x)) (map m_id (m :: rest))
                      then applyUpdates u x else x) (messages s)).
    { rewrite Hms, map_map. apply map_ext. intros x. cbn [map existsb].
      destruct (Nat.eqb_spec (m_id x) (m_id m)) as [E|E]; cbn [orb];
        [|reflexivity].
      destruct (existsb (Nat.eqb (m_id (applyUpdates u x))) (map m_id rest))
        eqn:Ex; [|reflexivity].
      exfalso. apply Hm. apply existsb_exists in Ex.
      destruct Ex as (i & Hi & Ei). apply Nat.eqb_eq in Ei.
      destruct (applyUpdates_key u x) as (Hk & _). rewrite Hk in Ei.
      rewrite <- E, Ei. exact Hi. }
    match type of H with
    | (if ?b then _ else _) _ = _ => destruct b
    end.
    + run_step H. run_step H. run_all.
      rewrite (renumber_plain _ _ _ (fetch_plain _ m unseenChange Hplain))
        in H.
      specialize (IH _ _ _ _ _ H eq_refl).
      cbn [messages set_fired set_journal mailboxes journal] in IH.
      rewrite Hids in IH.
      destruct (IH Hnd Hc Hsub2) as (-> & Hmb' & Hms' & Hj').
      rewrite Hmb', Hmb, Hms', Hfinal, Hj', Hj.
      cbn [length map app]. rewrite <- !app_assoc, !map_app. cbn [map app].
      rewrite <- !app_assoc. repeat split. lia.
    + specialize (IH _ _ _ _ _ H (fetch_plain _ m unseenChange Hplain)).
      rewrite Hids in IH.
      destruct (IH Hnd Hc Hsub2) as (-> & Hmb' & Hms' & Hj').
      rewrite Hmb', Hmb, Hms', Hfinal, Hj', Hj.
      cbn [length map app]. rewrite <- !app_assoc. cbn [app].
      repeat split. lia.
Qed.

End UpdateLoop.

Section UpdateSpec.

Variable fails : nat -> bool.
Variable BULK : nat.

Lemma fold_applyChange_update (changes : list Change) (u : Updates) :
  up_update (fold_left applyChange changes u)
  = up_update u || existsb recognised changes.
Proof.
  revert u. induction changes as [|c r IH]; intros u; cbn [fold_left existsb].
  - now rewrite orb_false_r.
  - rewrite IH. destruct c as [v|v|v|v|[t|]|k]; cbn;
      rewrite ?orb_true_r; reflexivity.
Qed.

Lemma buildUpdates_update (changes : list Change) :
  up_update (buildUpdates changes) = existsb recognised changes.
Proof. unfold buildUpdates. now rewrite fold_applyChange_update. Qed.

(** In a collection with unique ids, the ids of a selection tell the
    selection. *)
Lemma selection_by_id (hit : Message -> bool) (c : list Message) (x : Message) :
  NoDup (map m_id c) -> In x c ->
  existsb (Nat.eqb (m_id x)) (map m_id (filter hit c)) = hit x.
Proof.
  intros Hc Hx. destruct (hit x) eqn:E.
  - apply existsb_exists. exists (m_id x). split; [|apply Nat.eqb_refl].
    apply in_map, filter_In. auto.
  - destruct (existsb _ _) eqn:Ex; [exfalso|reflexivity].
    apply existsb_exists in Ex. destruct Ex as (i & Hi & Ei).
    apply Nat.eqb_eq in Ei. subst i. apply in_map_iff in Hi.
    destruct Hi as (y & Ey & Hy). apply filter_In in Hy.
    destruct Hy as [Hy Hhit].
    assert (y = x) by (eapply unique_by_id; eauto). congruence.
Qed.

(** A successful [update], in full. *)
Lemma update_spec user mailbox query changes s n s' :
  update fails BULK user mailbox query changes s = (Ok n, s') ->
  NoDup (map m_id (messages s)) ->
  exists rec,
    findOne (fun m => byId mailbox m && (mb_user m =? user)%nat) (mailboxes s)
      = Some rec
    /\ mailboxes s'
       = updateFirst (fun m => byId mailbox m && (mb_user m =? user)%nat)
           incModifyIndex (mailboxes s)
    /\ n = Z.of_nat (length (filter (inMailbox mailbox query) (messages s)))
    /\ messages s'
       = map (fun x => if inMailbox mailbox query x
                       then applyUpdates (updatesFor changes rec) x else x)
           (messages s)
    /\ journal s'
       = journal s
         ++ map (fun m => (ScopeMailbox (incModifyIndex rec),
                           fetchEntry m (changesSeen changes)))
              (filter (inMailbox mailbox query) (messages s)).
Proof.
  unfold update. intros H Hnd.
  destruct (negb (up_update (buildUpdates changes))); [discriminate|].
  run_step H. apply on_mailboxes_ok in Hrun.
  rewrite findOneAndUpdate_eq in Hrun.
  destruct (findOne _ (mailboxes s)) as [rec|] eqn:Erec; cbn in Hrun;
    destruct Hrun as [<- ->]; [|discriminate].
  exists rec. split; [reflexivity|].
  assert (Hid : mb_id rec = mailbox).
  { apply findOne_holds in Erec. destruct Erec as [_ Hq].
    apply andb_true_iff in Hq. destruct Hq as [Hq _]. now apply byId_eq. }
  cbn [incModifyIndex set_mb_modifyIndex mb_id mb_modifyIndex messages
       set_mailboxes set_ops] in H.
  rewrite Hid in H.
  apply updateNext_spec in H; cbn [messages set_mailboxes set_ops];
    [|reflexivity|exact Hnd|now apply filter_unique_ids|].
  2:{ intros m Hm. apply filter_In in Hm. destruct Hm as [Hin Hq].
      split; [exact Hin|]. unfold inMailbox in Hq.
      apply andb_true_iff in Hq. now apply Nat.eqb_eq. }
  cbn [messages mailboxes journal set_mailboxes set_ops app] in H.
  destruct H as (-> & -> & -> & ->).
  split; [reflexivity|]. split; [lia|]. split.
  - apply map_ext_in. intros x Hx. now rewrite selection_by_id.
  - now rewrite map_map.
Qed.

End UpdateSpec.

Section UpdateErrors.

Variable fails : nat -> bool.
Variable BULK : nat.

Lemma raises_ret {A} (P : Error -> Prop) (a : A) : raises P (ret a).
Proof. intros s e s' H. discriminate. Qed.

Lemma raises_fail {A} (P : Error -> Prop) (e : Error) :
  P e -> raises P (@fail A e).
Proof. intros He s e' s' [= <- _]. exact He. Qed.

Lemma raises_modify (P : Error -> Prop) (f : Store -> Store) :
  raises P (modify f).
Proof. intros s e s' H. discriminate. Qed.

Lemma raises_call {A} (P : Error -> Prop) (act : Store -> A * Store) :
  P StoreError -> raises P (call fails act).
Proof.
  intros He s e s' H. unfold call in H.
  destruct (fails (ops s)); [now injection H as <- _|].
  destruct (act _). discriminate.
Qed.

Lemma raises_bind {A B} (P : Error -> Prop) (m : M A) (k : A -> M B) :
  raises P m -> (forall a, raises P (k a)) -> raises P (bind m k).
Proof.
  intros Rm Rk s e s' H. unfold bind in H.
  destruct (m s) as [[a|e0] s1] eqn:E.
  - eapply Rk. exact H.
  - injection H as <- _. eapply Rm. exact E.
Qed.

Lemma raises_attempt {A B} (P : Error -> Prop) (m : M A) h (k : A -> M B) :
  raises P m -> (forall e, P e -> raises P (h e)) ->
  (forall a, raises P (k a)) -> raises P (attempt m h k).
Proof.
  intros Rm Rh Rk s e s' H. unfold attempt in H.
  destruct (m s) as [[a|e0] s1] eqn:E.
  - eapply Rk. exact H.
  - eapply Rh; [|exact H]. eapply Rm. exact E.
Qed.

Lemma updateDone_raises (P : Error -> Prop) mailboxData notifyEntries
    updatedCount (err : option Error) :
  (forall e, err = Some e -> P e) ->
  raises P (updateDone mailboxData notifyEntries updatedCount err).
Proof.
  intros He. unfold updateDone. apply raises_bind.
  - destruct notifyEntries; [apply raises_ret|].
    unfold addEntries, fire. apply raises_bind; [apply raises_modify|].
    intros _. apply raises_modify.
  - intros _. destruct err; [apply raises_fail; auto|apply raises_ret].
Qed.

(** The loop of [update] hands on the errors of the driver only. *)
Lemma updateNext_raises mailbox mailboxData u unseenChange cursor :
  forall notifyEntries updatedCount,
    raises (fun e => e = StoreError)
      (updateNext fails BULK mailbox mailboxData u unseenChange cursor
         notifyEntries updatedCount).
Proof.
  induction cursor as [|m rest IH]; intros notifyEntries updatedCount;
    cbn [updateNext];
    (apply raises_attempt;
     [apply raises_call; reflexivity
     |intros e ->; apply updateDone_raises; now intros e [= <-]
     |intros _]).
  - apply updateDone_raises. discriminate.
  - apply raises_attempt.
    + unfold updateMessage. destruct (conflicting u).
      * apply raises_bind; [apply raises_call; reflexivity|].
        intros _. now apply raises_fail.
      * apply raises_call. reflexivity.
    + intros e ->. apply updateDone_raises. now intros e [= <-].
    + intros [item|]; [|apply IH].
      destruct (BULK <=? _)%nat; [|apply IH].
      unfold addEntries, fire.
      apply raises_bind; [apply raises_modify|]. intros _.
      apply raises_bind; [apply raises_modify|]. intros _. apply IH.
Qed.

End UpdateErrors.

(** [update] without a key it knows.  [update] hands on the error that
    nothing was changed exactly when [changes] has none of the keys
    [seen], [deleted], [flagged], [draft] and [expires]; it does so before
    it calls the database, which is left as it is: no MODSEQ is used up. *)
Theorem update_nothing_changed (fails : nat -> bool) (BULK : nat)
    (user mailbox : ObjectID) (query : Z -> bool) (changes : list Change)
    (s : Store) :
  (fst (update fails BULK user mailbox query changes s) = Fail NothingChanged
   <-> existsb recognised changes = false)
  /\ (existsb recognised changes = false ->
      snd (update fails BULK user mailbox query changes s) = s).
Proof.
  unfold update. rewrite buildUpdates_update.
  destruct (existsb recognised changes); cbn [negb].
  - split; [|discriminate]. split; [|discriminate].
    intros H.
    destruct (bind _ _ s) as [o s'] eqn:E. cbn in H. subst o.
    exfalso.
    match type of E with
    | ?m s = _ =>
        assert (R : raises
                      (fun e => e = StoreError \/ e = MailboxMissingPlain) m)
    end.
    { apply raises_bind; [apply raises_call; now left|].
      intros [mailboxData|]; [|apply raises_fail; now right].
      intros s0 e s1 H. left. eapply updateNext_raises. exact H. }
    apply R in E. destruct E; discriminate.
  - split; [|reflexivity]. split; reflexivity.
Qed.

Lemma update_nothing_changed_witness :
  update Scenario.reliable 150 1%nat 10%nat (fun uid => uid =? 5)
    [ChOther "answered"] Scenario.updateStore
  = (Fail NothingChanged, Scenario.updateStore).
Proof.
  destruct (update_nothing_changed Scenario.reliable 150 1%nat 10%nat
              (fun uid => uid =? 5) [ChOther "answered"] Scenario.updateStore)
    as [Hfst Hsnd].
  rewrite (surjective_pairing (update _ _ _ _ _ _ _)).
  rewrite (proj2 Hfst eq_refl), (Hsnd eq_refl). reflexivity.
Defined.

(** [update] when it succeeds.  One MODSEQ is taken from the record of
    the mailbox, whether or not a message is selected.  In a collection
    with unique ids every selected message of the mailbox, and no other
    document, is rewritten by the update document; it keeps its id, its
    mailbox, its UID and its content and gets the new MODSEQ.  The number
    returned is the number of selected messages. *)
Theorem update_rewrites_selected (fails : nat -> bool) (BULK : nat)
    (user mailbox : ObjectID) (query : Z -> bool) (changes : list Change)
    (s s' : Store) (n : Z) :
  update fails BULK user mailbox query changes s = (Ok n, s') ->
  NoDup (map m_id (messages s)) ->
  exists rec,
    findOne (fun m => byId mailbox m && (mb_user m =? user)%nat) (mailboxes s)
      = Some rec
    /\ findOne (fun m => byId mailbox m && (mb_user m =? user)%nat)
         (mailboxes s')
       = Some (incModifyIndex rec)
    /\ n = Z.of_nat (length (filter (inMailbox mailbox query) (messages s)))
    /\ Forall2
         (fun m m' =>
            if inMailbox mailbox query m
            then m' = applyUpdates (updatesFor changes rec) m
                 /\ m_modseq m' = mb_modifyIndex rec + 1
                 /\ m_id m' = m_id m /\ m_mailbox m' = m_mailbox m
                 /\ m_uid m' = m_uid m /\ m_content m' = m_content m
            else m' = m)
         (messages s) (messages s').
Proof.
  intros H Hnd. apply update_spec in H; [|exact Hnd].
  destruct H as (rec & Hrec & Hmb & Hn & Hms & _).
  exists rec. split; [exact Hrec|]. split.
  { rewrite Hmb. apply findOne_updateFirst; [reflexivity|exact Hrec]. }
  split; [exact Hn|]. rewrite Hms. clear.
  induction (messages s) as [|m l IH]; cbn [map]; constructor; [|exact IH].
  destruct (inMailbox mailbox query m); [|reflexivity].
  repeat split.
Qed.

Lemma update_rewrites_selected_witness :
  exists m',
    messages (snd (update Scenario.reliable 150 1%nat 10%nat
                     (fun uid => uid =? 5) [ChSeen true]
                     Scenario.updateStore)) = [m']
    /\ m_modseq m' = 12 /\ m_uid m' = 5.
Proof.
  destruct (update_rewrites_selected Scenario.reliable 150 1%nat 10%nat
              (fun uid => uid =? 5) [ChSeen true] Scenario.updateStore
              (snd (update Scenario.reliable 150 1%nat 10%nat
                      (fun uid => uid =? 5) [ChSeen true]
                      Scenario.updateStore)) 1)
    as (rec & Hrec & _ & _ & Hall).
  - vm_compute. reflexivity.
  - cbn. repeat constructor. intros [].
  - vm_compute in Hrec. injection Hrec as <-.
    remember (messages (snd (update Scenario.reliable 150 1%nat 10%nat
                               (fun uid => uid =? 5) [ChSeen true]
                               Scenario.updateStore))) as out eqn:Eout.
    change (messages Scenario.updateStore)
      with [Scenario.message 500 10 5 11 42 "<x@y>"] in Hall.
    inversion Hall as [|? m' ? l' Hm Hl]; subst.
    inversion Hl; subst. exists m'.
    change (inMailbox 10%nat (fun uid => uid =? 5)
              (Scenario.message 500 10 5 11 42 "<x@y>")) with true in Hm.
    destruct Hm as (_ & Hseq & _ & _ & Huid & _).
    split; [reflexivity|]. split; [exact Hseq|rewrite Huid; reflexivity].
Defined.

(** [update] and the journal.  A successful update appends one FETCH
    entry per selected message, in the order of the collection, under the
    mailbox; the flags of each entry are the flags that the message had
    before the update (the driver hands back the document as it was), and
    [unseenChange] tells whether [changes.seen] is truthy. *)
Theorem update_journals_old_flags (fails : nat -> bool) (BULK : nat)
    (user mailbox : ObjectID) (query : Z -> bool) (changes : list Change)
    (s s' : Store) (n : Z) :
  update fails BULK user mailbox query changes s = (Ok n, s') ->
  NoDup (map m_id (messages s)) ->
  exists entries,
    journal s' = journal s ++ entries
    /\ Forall2
         (fun m d =>
            je_command (snd d) = FETCH
            /\ je_uid (snd d) = m_uid m /\ je_message (snd d) = m_id m
            /\ je_flags (snd d) = Some (m_flags m)
            /\ je_unseenChange (snd d) = Some (changesSeen changes)
            /\ exists rec, fst d = ScopeMailbox rec /\ mb_id rec = mailbox)
         (filter (inMailbox mailbox query) (messages s)) entries.
Proof.
  intros H Hnd. apply update_spec in H; [|exact Hnd].
  destruct H as (rec & Hrec & _ & _ & _ & Hj).
  eexists. split; [exact Hj|].
  assert (Hid : mb_id rec = mailbox).
  { apply findOne_holds in Hrec. destruct Hrec as [_ Hq].
    apply andb_true_iff in Hq. destruct Hq as [Hq _]. now apply byId_eq. }
  clear Hj.
  induction (filter (inMailbox mailbox query) (messages s)) as [|m l IH];
    cbn [map]; [constructor|]. constructor; [|exact IH].
  cbn. repeat split. exists (incModifyIndex rec). split; [reflexivity|exact Hid].
Qed.

Lemma update_journals_old_flags_witness :
  map (fun d => je_flags (snd d))
    (journal (snd (update Scenario.reliable 150 1%nat 10%nat
                     (fun uid => uid =? 5) [ChSeen true]
                     Scenario.updateStore)))
  = [Some []]
  /\ map m_flags
       (messages (snd (update Scenario.reliable 150 1%nat 10%nat
                         (fun uid => uid =? 5) [ChSeen true]
                         Scenario.updateStore)))
     = [["\Seen"]].
Proof.
  destruct (update_journals_old_flags Scenario.reliable 150 1%nat 10%nat
              (fun uid => uid =? 5) [ChSeen true] Scenario.updateStore
              (snd (update Scenario.reliable 150 1%nat 10%nat
                      (fun uid => uid =? 5) [ChSeen true]
                      Scenario.updateStore)) 1)
    as (entries & Hj & Hall).
  - vm_compute. reflexivity.
  - cbn. repeat constructor. intros [].
  - split; [|reflexivity]. rewrite Hj.
    change (filter (inMailbox 10%nat (fun uid => uid =? 5))
              (messages Scenario.updateStore))
      with [Scenario.message 500 10 5 11 42 "<x@y>"] in Hall.
    inversion Hall as [|? d ? l' Hd Hl]; subst.
    inversion Hl; subst.
    destruct Hd as (_ & _ & _ & Hflags & _). cbn. now rewrite Hflags.
Defined.
(* ================================================================== *)
(** * Part 20. [getThreadId] *)
(* ================================================================== *)

Section ThreadFacts.

Variable fails : nat -> bool.
Variable digest : jsstring -> string.

Lemma hasId_In (id : string) (ids : list string) :
  existsb (String.eqb id) ids = true <-> In id ids.
Proof.
  rewrite existsb_exists. split.
  - intros (y & Hy & E). apply String.eqb_eq in E. now subst.
  - intros H. exists id. split; [exact H|apply String.eqb_refl].
Qed.

(** [$addToSet] keeps what the set has and adds each of the values. *)
Lemma addToSet_incl (l set : list string) :
  (forall id, In id set -> In id (addToSet l set))
  /\ (forall id, In id l -> In id (addToSet l set)).
Proof.
  unfold addToSet. revert set. induction l as [|x l IH]; intros set;
    cbn [fold_left]; [split; [auto|intros id []]|].
  destruct (existsb (String.eqb x) set) eqn:E.
  - destruct (IH set) as [I1 I2]. split; [exact I1|].
    intros id [<-|Hin]; [|now apply I2]. apply I1. now apply hasId_In.
  - destruct (IH (set ++ [x])) as [I1 I2]. split.
    + intros id Hin. apply I1, in_or_app. now left.
    + intros id [<-|Hin]; [|now apply I2]. apply I1, in_or_app.
      right. now left.
Qed.

(** Values that the set has change nothing. *)
Lemma addToSet_absorb (l set : list string) :
  (forall id, In id l -> In id set) -> addToSet l set = set.
Proof.
  unfold addToSet. induction l as [|x l IH]; intros H; cbn [fold_left];
    [reflexivity|].
  assert (E : existsb (String.eqb x) set = true)
    by (apply hasId_In, H; now left).
  rewrite E. apply IH. intros id Hid. apply H. now right.
Qed.

Lemma sharesId_spec (refs : list string) (th : Thread) :
  sharesId refs th = true <-> exists id, In id (th_ids th) /\ In id refs.
Proof.
  unfold sharesId. rewrite existsb_exists. split.
  - intros (id & Hid & E). apply hasId_In in E. eauto.
  - intros (id & Hid & E). exists id. split; [exact Hid|now apply hasId_In].
Qed.

Lemma beqString_eq (a b : jsstring) : beqString a b = true <-> a = b.
Proof.
  unfold beqString. destruct (list_eq_dec N.eq_dec a b); split; congruence.
Qed.

Lemma on_threads_ok {A} (f : list Thread -> A * list Thread) s a s' :
  on_threads fails f s = (Ok a, s') ->
  fst (f (threads s)) = a
  /\ s' = set_threads (snd (f (threads s))) (set_ops (S (ops s)) s).
Proof.
  intros H. apply call_ok in H. destruct H as [_ H]. cbn in H.
  destruct (f (threads s)) as [x c]. injection H as <- <-. auto.
Qed.

Lemma findOne_updated {A} (q : A -> bool) (f : A -> A) (c : list A) (d : A) :
  findOne q c = Some d -> q (f d) = true ->
  findOne q (updateFirst q f c) = Some (f d)
  /\ In (f d) (updateFirst q f c).
Proof.
  unfold findOne. intros H Hq. induction c as [|x r IH]; [discriminate|].
  cbn [find updateFirst] in *. destruct (q x) eqn:E.
  - injection H as ->. cbn [find]. rewrite Hq. split; [reflexivity|now left].
  - cbn [find]. rewrite E. destruct (IH H) as [I1 I2].
    split; [exact I1|now right].
Qed.

Lemma updateFirst_length {A} (q : A -> bool) (f : A -> A) (c : list A) :
  length (updateFirst q f c) = length c.
Proof.
  induction c as [|x r IH]; [reflexivity|]. cbn [updateFirst].
  destruct (q x); cbn [length]; [reflexivity|now rewrite IH].
Qed.

Lemma updateFirst_fixed {A} (q : A -> bool) (f : A -> A) (c : list A) (d : A) :
  findOne q c = Some d -> f d = d -> updateFirst q f c = c.
Proof.
  unfold findOne. intros H Hf. induction c as [|x r IH]; [reflexivity|].
  cbn [find updateFirst] in *. destruct (q x).
  - injection H as ->. now rewrite Hf.
  - now rewrite IH.
Qed.

(** The two ways in which [getThreadId] answers. *)
Lemma getThreadId_ok user subject tree s tid s' :
  getThreadId fails digest user subject tree s = (Ok tid, s') ->
  let refs := referenceIds digest tree in
  let q := fun th => (th_user th =? user)%nat && sharesId refs th
                     && beqString (th_subject th) subject in
  match findOne q (threads s) with
  | Some old =>
      tid = th_id old
      /\ threads s'
         = updateFirst q (fun th => set_th_ids (addToSet refs (th_ids th)) th)
             (threads s)
      /\ nextOid s' = nextOid s
  | None =>
      tid = nextOid s
      /\ threads s'
         = threads s
           ++ [{| th_id := tid; th_user := user; th_subject := subject;
                  th_ids := refs |}]
      /\ nextOid s' = S (nextOid s)
  end.
Proof.
  intros H. cbv zeta. unfold getThreadId in H.
  run_step H. apply on_threads_ok in Hrun.
  rewrite findOneAndUpdate_eq in Hrun.
  destruct (findOne _ (threads s)) as [old|]; cbn in Hrun;
    destruct Hrun as [<- ->].
  - run_step H. cbn. auto.
  - run_step H. run_step H. apply on_threads_ok in Hrun0. cbn in Hrun0.
    destruct Hrun0 as [_ ->]. run_all. cbn. auto.
Qed.

End ThreadFacts.

(** [getThreadId]: the thread it answers with.  The thread is stored, it
    belongs to the user, has the subject, and holds every reference id of
    the message.  It is a thread that was there and shared a reference id
    with the message, with its ids kept, or else a new thread with just
    these ids; a message without reference ids always gets a new
    thread. *)
Theorem getThreadId_joins (fails : nat -> bool) (digest : jsstring -> string)
    (user : ObjectID) (subject : jsstring) (tree : MimeTree)
    (s s' : Store) (tid : ObjectID) :
  getThreadId fails digest user subject tree s = (Ok tid, s') ->
  exists th,
    In th (threads s') /\ th_id th = tid
    /\ th_user th = user /\ th_subject th = subject
    /\ (forall id, In id (referenceIds digest tree) -> In id (th_ids th))
    /\ ((exists old,
           In old (threads s) /\ th_id old = tid
           /\ (exists id, In id (th_ids old)
                          /\ In id (referenceIds digest tree))
           /\ (forall id, In id (th_ids old) -> In id (th_ids th))
           /\ length (threads s') = length (threads s))
        \/ (threads s' = threads s ++ [th]
            /\ th_ids th = referenceIds digest tree
            /\ tid = nextOid s))
    /\ (referenceIds digest tree = [] -> threads s' = threads s ++ [th]).
Proof.
  intros H. apply getThreadId_ok in H. cbv zeta in H.
  set (refs := referenceIds digest tree) in *.
  set (q := fun th => (th_user th =? user)%nat && sharesId refs th
                      && beqString (th_subject th) subject) in *.
  destruct (findOne q (threads s)) as [old|] eqn:E.
  - destruct H as (-> & Hth & _).
    pose proof (findOne_holds _ _ _ E) as [Hin Hq]. unfold q in Hq.
    rewrite !andb_true_iff in Hq. destruct Hq as [[Hu Hs] Hsub].
    apply Nat.eqb_eq in Hu. apply beqString_eq in Hsub.
    apply sharesId_spec in Hs.
    destruct (addToSet_incl refs (th_ids old)) as [Hkeep Hadd].
    exists (set_th_ids (addToSet refs (th_ids old)) old).
    assert (Hq' : q (set_th_ids (addToSet refs (th_ids old)) old) = true).
    { unfold q. cbn [th_user th_subject set_th_ids].
      rewrite Hu, Nat.eqb_refl, Hsub.
      rewrite (proj2 (beqString_eq subject subject) eq_refl).
      rewrite !andb_true_r. cbn [andb]. apply sharesId_spec.
      destruct Hs as (id & Hid & Hr). exists id.
      split; [cbn; now apply Hkeep|exact Hr]. }
    destruct (findOne_updated q
                (fun th => set_th_ids (addToSet refs (th_ids th)) th)
                _ _ E Hq') as [_ Hin'].
    rewrite Hth. split; [exact Hin'|]. cbn [th_id th_user th_subject th_ids
                                            set_th_ids].
    repeat (split; [assumption || reflexivity|]).
    split.
    + left. exists old. split; [exact Hin|]. split; [reflexivity|].
      split; [exact Hs|]. split; [exact Hkeep|].
      apply updateFirst_length.
    + intros Hnil. exfalso. destruct Hs as (id & _ & Hr).
      rewrite Hnil in Hr. destruct Hr.
  - destruct H as (-> & Hth & _). eexists. rewrite Hth.
    split; [apply in_or_app; right; now left|].
    cbn [th_id th_user th_subject th_ids].
    repeat (split; [reflexivity|]). split; [auto|].
    split; [right; repeat split|reflexivity].
Qed.

Lemma getThreadId_joins_witness :
  exists th,
    threads (snd (getThreadId Scenario.reliable Scenario.anyDigest 1%nat
                    (lit "hello") {| attachmentMap := []; parsedHeader := [] |}
                    (Scenario.store [] [] 0)))
    = [th]
    /\ th_id th = 1000%nat.
Proof.
  destruct (getThreadId_joins Scenario.reliable Scenario.anyDigest 1%nat
              (lit "hello") {| attachmentMap := []; parsedHeader := [] |}
              (Scenario.store [] [] 0)
              (snd (getThreadId Scenario.reliable Scenario.anyDigest 1%nat
                      (lit "hello")
                      {| attachmentMap := []; parsedHeader := [] |}
                      (Scenario.store [] [] 0)))
              1000%nat) as (th & _ & Hid & _ & _ & _ & _ & Hnew).
  - vm_compute. reflexivity.
  - exists th. split; [apply Hnew; reflexivity|exact Hid].
Defined.

(** [getThreadId] twice.  For a message with at least one reference id,
    resolving the thread a second time answers with the thread of the
    first time, makes no new thread and adds no id. *)
Theorem getThreadId_stable (fails : nat -> bool) (digest : jsstring -> string)
    (user : ObjectID) (subject : jsstring) (tree : MimeTree)
    (s s1 s2 : Store) (t1 t2 : ObjectID) :
  getThreadId fails digest user subject tree s = (Ok t1, s1) ->
  getThreadId fails digest user subject tree s1 = (Ok t2, s2) ->
  referenceIds digest tree <> [] ->
  t2 = t1 /\ threads s2 = threads s1.
Proof.
  intros H1 H2 Hrefs.
  apply getThreadId_ok in H1. apply getThreadId_ok in H2. cbv zeta in H1, H2.
  set (refs := referenceIds digest tree) in *.
  set (q := fun th => (th_user th =? user)%nat && sharesId refs th
                      && beqString (th_subject th) subject) in *.
  set (f := fun th => set_th_ids (addToSet refs (th_ids th)) th) in *.
  assert (Hfix : forall th,
            (forall id, In id refs -> In id (th_ids th)) -> f th = th).
  { intros th Hth. unfold f. rewrite addToSet_absorb by exact Hth.
    now destruct th. }
  destruct (findOne q (threads s)) as [old|] eqn:E.
  - destruct H1 as (-> & Hth & _).
    pose proof (findOne_holds _ _ _ E) as [_ Hq]. unfold q in Hq.
    rewrite !andb_true_iff in Hq. destruct Hq as [[Hu Hs] Hsub].
    destruct (addToSet_incl refs (th_ids old)) as [Hkeep Hadd].
    assert (Hq' : q (f old) = true).
    { unfold q, f. cbn [th_user th_subject set_th_ids].
      rewrite Hu, Hsub. cbn [andb]. rewrite andb_true_r.
      apply sharesId_spec. apply sharesId_spec in Hs.
      destruct Hs as (id & Hid & Hr). exists id.
      split; [cbn; now apply Hkeep|exact Hr]. }
    destruct (findOne_updated q f _ _ E Hq') as [Hfound _].
    rewrite Hth, Hfound in H2. destruct H2 as (-> & Hth2 & _).
    split; [reflexivity|]. rewrite Hth2, Hth.
    apply (updateFirst_fixed q f _ (f old) Hfound).
    apply Hfix. intros id Hid. unfold f. cbn. now apply Hadd.
  - destruct H1 as (-> & Hth & _).
    set (new := {| th_id := nextOid s; th_user := user;
                   th_subject := subject; th_ids := refs |}) in *.
    assert (Hq : q new = true).
    { unfold q, new. cbn [th_user th_subject].
      rewrite Nat.eqb_refl, (proj2 (beqString_eq subject subject) eq_refl).
      cbn [andb]. rewrite andb_true_r. apply sharesId_spec. cbn [th_ids].
      destruct refs as [|id refs']; [contradiction|].
      exists id. split; now left. }
    assert (Hfound : findOne q (threads s1) = Some new).
    { rewrite Hth. apply findOne_last; [|exact Hq].
      intros x Hx. unfold findOne in E. eapply find_none in E; eauto. }
    rewrite Hfound in H2. destruct H2 as (-> & Hth2 & _).
    split; [reflexivity|]. rewrite Hth2.
    apply (updateFirst_fixed q f _ new Hfound).
    apply Hfix. auto.
Qed.

Lemma getThreadId_stable_witness :
  fst (getThreadId Scenario.reliable (fun _ => "h") 1%nat (lit "hello")
         {| attachmentMap := [];
            parsedHeader := [("message-id", [lit "<x@y>"])] |}
         (snd (getThreadId Scenario.reliable (fun _ => "h") 1%nat
                 (lit "hello")
                 {| attachmentMap := [];
                    parsedHeader := [("message-id", [lit "<x@y>"])] |}
                 (Scenario.store [] [] 0))))
  = Ok 1000%nat.
Proof.
  destruct (getThreadId_stable Scenario.reliable (fun _ => "h") 1%nat
              (lit "hello")
              {| attachmentMap := [];
                 parsedHeader := [("message-id", [lit "<x@y>"])] |}
              (Scenario.store [] [] 0)
              (snd (getThreadId Scenario.reliable (fun _ => "h") 1%nat
                      (lit "hello")
                      {| attachmentMap := [];
                         parsedHeader := [("message-id", [lit "<x@y>"])] |}
                      (Scenario.store [] [] 0)))
              (snd (getThreadId Scenario.reliable (fun _ => "h") 1%nat
                      (lit "hello")
                      {| attachmentMap := [];
                         parsedHeader := [("message-id", [lit "<x@y>"])] |}
                      (snd (getThreadId Scenario.reliable (fun _ => "h") 1%nat
                              (lit "hello")
                              {| attachmentMap := [];
                                 parsedHeader :=
                                   [("message-id", [lit "<x@y>"])] |}
                              (Scenario.store [] [] 0)))))
              1000%nat 1000%nat) as [Ht _].
  - vm_compute. reflexivity.
  - vm_compute. reflexivity.
  - vm_compute. discriminate.
  - vm_compute. reflexivity.
Defined.
(* ================================================================== *)
(** * Part 21. SASL PLAIN: who gets authenticated *)
(* ================================================================== *)

Section LoginFacts.

Import Auth.

(** What [authenticate] does to the connection. *)
Lemma authenticate_cases (onAuth : AuthRequest -> AuthReply)
    (connection : Connection) (token : jsstring) :
  (cn_state (fst (authenticate onAuth connection token)) = cn_state connection
   /\ cn_session_user (fst (authenticate onAuth connection token))
      = cn_session_user connection
   /\ forall r, snd (authenticate onAuth connection token) = Respond r ->
                rs_response r <> "OK")
  \/ (exists req u,
        ar_method req = "PLAIN"
        /\ onAuth req = AuthOk u
        /\ length (AuthScenario.fieldsOf token) = 3%nat
        /\ ar_username req = trim (nth 1 (AuthScenario.fieldsOf token) [])
        /\ ar_password req = trim (nth 2 (AuthScenario.fieldsOf token) [])
        /\ cn_state (fst (authenticate onAuth connection token))
           = Authenticated
        /\ cn_session_user (fst (authenticate onAuth connection token))
           = Some u
        /\ exists r, snd (authenticate onAuth connection token) = Respond r
                     /\ rs_response r = "OK").
Proof.
  unfold authenticate, AuthScenario.fieldsOf, field.
  destruct (length _ =? 3)%nat eqn:Elen; cbn [negb].
  2:{ left. cbn. repeat split. intros r [= <-]. discriminate. }
  apply Nat.eqb_eq in Elen.
  match goal with
  | |- context [onAuth ?q] => destruct (onAuth q) as [e| |u] eqn:Ehook
  end.
  - left. cbn. repeat split. intros r [=].
  - left. cbn. repeat split. intros r [= <-]. discriminate.
  - right. eexists. exists u. split; [|split; [exact Ehook|]]; [reflexivity|].
    cbn. repeat split; try assumption. eexists. split; reflexivity.
Qed.

End LoginFacts.

(** [authenticate] logs in whoever the hook answers with. *)
Lemma authenticate_login (onAuth : Auth.AuthRequest -> Auth.AuthReply)
    (connection : Auth.Connection) (token : jsstring) (u : Auth.AuthUser) :
  length (AuthScenario.fieldsOf token) = 3%nat ->
  onAuth (AuthScenario.requestOf token) = Auth.AuthOk u ->
  Auth.cn_state (fst (Auth.authenticate onAuth connection token))
  = Auth.Authenticated
  /\ Auth.cn_session_user (fst (Auth.authenticate onAuth connection token))
     = Some u
  /\ exists r, snd (Auth.authenticate onAuth connection token)
               = Auth.Respond r
               /\ Auth.rs_response r = "OK".
Proof.
  unfold Auth.authenticate, AuthScenario.requestOf, AuthScenario.fieldsOf,
    Auth.field.
  intros Hlen Hhook. rewrite Hlen, Nat.eqb_refl. cbn [negb]. rewrite Hhook.
  cbn. repeat split. eexists. split; reflexivity.
Qed.

(** AUTHENTICATE PLAIN: who gets authenticated.  The token of the command
    is its trimmed attribute, the token after the continuation request is
    the line itself.  Neither the command nor that line changes the state
    or the user of the connection, and neither answers OK, unless the
    server's [onAuth] hook answered with a user to the request with the
    method PLAIN and the second and third field of that very token,
    decoded and trimmed; then the connection is authenticated as that
    user.  Conversely, when the token decodes to three fields and the hook
    answers with a user to that request, the line after the continuation
    request logs that user in, and so does the command on a secure
    connection with a non-empty token.  On a connection without TLS (and
    STARTTLS neither disabled nor ignored) the command answers BAD and
    leaves the connection as it is, whatever the token and the hook. *)
Theorem plain_login_only_by_hook (this : Auth.Connection)
    (attribute : option jsstring) (line : jsstring) :
  let sent := trim (match attribute with Some v => v | None => [] end) in
  let request := fun token =>
    {| Auth.ar_method := "PLAIN";
       Auth.ar_username := trim (nth 1 (AuthScenario.fieldsOf token) []);
       Auth.ar_password := trim (nth 2 (AuthScenario.fieldsOf token) []) |} in
  let loggedIn := fun (run : Auth.Connection * Auth.Outcome) u =>
    Auth.cn_state (fst run) = Auth.Authenticated
    /\ Auth.cn_session_user (fst run) = Some u
    /\ exists r, snd run = Auth.Respond r /\ Auth.rs_response r = "OK" in
  let only := fun token (run : Auth.Connection * Auth.Outcome) =>
    (Auth.cn_state (fst run) = Auth.cn_state this
     /\ Auth.cn_session_user (fst run) = Auth.cn_session_user this
     /\ forall r, snd run = Auth.Respond r -> Auth.rs_response r <> "OK")
    \/ (exists onAuth u,
          Auth.cn_onAuth this = Some onAuth
          /\ length (AuthScenario.fieldsOf token) = 3%nat
          /\ onAuth (request token) = Auth.AuthOk u
          /\ loggedIn run u) in
  only sent (Auth.handler this attribute)
  /\ only line (Auth.nextHandler this line)
  /\ (forall onAuth u,
        Auth.cn_onAuth this = Some onAuth ->
        length (AuthScenario.fieldsOf line) = 3%nat ->
        onAuth (request line) = Auth.AuthOk u ->
        loggedIn (Auth.nextHandler this line) u)
  /\ (forall onAuth u,
        Auth.cn_secure this = true ->
        Auth.cn_onAuth this = Some onAuth ->
        nonEmpty sent = true ->
        length (AuthScenario.fieldsOf sent) = 3%nat ->
        onAuth (request sent) = Auth.AuthOk u ->
        loggedIn (Auth.handler this attribute) u)
  /\ (Auth.cn_secure this = false ->
      Auth.cn_disableSTARTTLS this = false ->
      Auth.cn_ignoreSTARTTLS this = false ->
      Auth.handler this attribute = (this, Auth.BAD "Run STARTTLS first")).
Proof.
  intros sent request loggedIn only.
  assert (Hauth : forall onAuth c token,
            Auth.cn_onAuth this = Some onAuth ->
            Auth.cn_state c = Auth.cn_state this ->
            Auth.cn_session_user c = Auth.cn_session_user this ->
            only token (Auth.authenticate onAuth c token)).
  { intros onAuth c token Hhook Hst Hus.
    destruct (authenticate_cases onAuth c token)
      as [(H1 & H2 & H3)|(req & u & Hm & Ho & Hl & Hn & Hp & H)].
    - left. rewrite H1, H2. auto.
    - right. exists onAuth, u. split; [exact Hhook|]. split; [exact Hl|].
      split; [|exact H]. unfold request. rewrite <- Hn, <- Hp, <- Hm.
      now destruct req. }
  split; [|split; [|split; [|split]]].
  - unfold Auth.handler. fold sent.
    destruct (negb (Auth.cn_secure this) && _ && _);
      [left; cbn; repeat split; intros r [= <-]; discriminate|].
    destruct (Auth.cn_onAuth this) as [onAuth|] eqn:Hhook;
      [|left; cbn; repeat split; intros r [= <-]; discriminate].
    destruct (negb (nonEmpty sent));
      [left; cbn; repeat split; intros r [=]|].
    now apply Hauth.
  - unfold Auth.nextHandler.
    destruct (Auth.cn_onAuth this) as [onAuth|] eqn:Hhook;
      [|left; cbn; repeat split; intros r [= <-]; discriminate].
    now apply Hauth.
  - intros onAuth u Hhook Hlen Hok. unfold Auth.nextHandler. rewrite Hhook.
    now apply authenticate_login.
  - intros onAuth u Hs Hhook Hne Hlen Hok. unfold Auth.handler. fold sent.
    rewrite Hs, Hhook, Hne. cbn [negb andb].
    now apply authenticate_login.
  - intros Hs Hd Hi. unfold Auth.handler. now rewrite Hs, Hd, Hi.
Qed.

Lemma plain_login_only_by_hook_witness :
  AuthScenario.fieldsOf (lit "AGFsaWNlAHNlY3JldA==")
  = [[]; lit "alice"; lit "secret"]
  /\ Auth.cn_session_user
       (fst (Auth.handler AuthScenario.tlsConnection
               (Some (lit " AGFsaWNlAHNlY3JldA=="))))
     = Some AuthScenario.alice
  /\ Auth.cn_state
       (fst (Auth.nextHandler AuthScenario.tlsConnection
               (lit "AGFsaWNlAHNlY3JldA==")))
     = Auth.Authenticated
  /\ Auth.cn_session_user
       (fst (Auth.handler AuthScenario.tlsConnection
               (Some (lit "AGFsaWNlAHdyb25n"))))
     = None.
Proof.
  destruct (plain_login_only_by_hook AuthScenario.tlsConnection
              (Some (lit " AGFsaWNlAHNlY3JldA=="))
              (lit "AGFsaWNlAHNlY3JldA=="))
    as (_ & _ & Hline & Hcommand & _).
  split; [vm_compute; reflexivity|].
  split.
  - apply (Hcommand AuthScenario.aliceOnly AuthScenario.alice);
      vm_compute; reflexivity.
  - split.
    + apply (Hline AuthScenario.aliceOnly AuthScenario.alice);
        vm_compute; reflexivity.
    + vm_compute. reflexivity.
Defined.
(* ================================================================== *)
(** * Part 22. [move]: flags and columns *)
(* ================================================================== *)

Section FlagFacts.

Lemma hasFlag_In (flags : list string) (f : string) :
  hasFlag flags f = true <-> In f flags.
Proof.
  unfold hasFlag. rewrite existsb_exists. split.
  - intros (y & Hy & E). apply String.eqb_eq in E. now subst.
  - intros H. exists f. split; [exact H|apply String.eqb_refl].
Qed.

Lemma hasFlag_same (l l' : list string) (f : string) :
  (In f l <-> In f l') -> hasFlag l f = hasFlag l' f.
Proof.
  intros H. destruct (hasFlag l f) eqn:E.
  - symmetry. apply hasFlag_In, H, hasFlag_In, E.
  - destruct (hasFlag l' f) eqn:E'; [|reflexivity].
    apply hasFlag_In, H, hasFlag_In in E'. congruence.
Qed.

(** [new Set(flags)] holds the flags. *)
Lemma In_collected (l acc : list string) (f : string) :
  In f (fold_left
          (fun acc x => if existsb (String.eqb x) acc then acc else acc ++ [x])
          l acc)
  <-> In f acc \/ In f l.
Proof.
  revert acc. induction l as [|x l IH]; intros acc; cbn [fold_left].
  - cbn. tauto.
  - rewrite IH. destruct (existsb (String.eqb x) acc) eqn:E.
    + assert (In x acc).
      { apply existsb_exists in E. destruct E as (y & Hy & E).
        apply String.eqb_eq in E. now subst. }
      cbn. intuition (subst; auto).
    + rewrite in_app_iff. cbn. tauto.
Qed.

Lemma In_withoutFlag (fname f : string) (flags : list string) :
  In f (withoutFlag fname flags) <-> In f flags /\ f <> fname.
Proof.
  unfold withoutFlag, dedup. rewrite filter_In, In_collected, negb_true_iff.
  cbn [In]. rewrite String.eqb_neq. tauto.
Qed.

(** [maintainFlag] makes the flag present or absent as wanted and leaves
    the other flags. *)
Lemma maintainFlag_flags (fname : string) (present : bool) (m : Message)
    (f : string) :
  hasFlag (m_flags (maintainFlag fname present m)) f
  = if String.eqb f fname then present else hasFlag (m_flags m) f.
Proof.
  unfold maintainFlag.
  destruct (String.eqb_spec f fname) as [->|Hne].
  - destruct present; cbn [negb andb].
    + destruct (hasFlag (m_flags m) fname) eqn:E; cbn [negb];
        [exact E|]. cbn [m_flags set_m_flags].
      apply hasFlag_In, in_or_app. right. now left.
    + destruct (hasFlag (m_flags m) fname) eqn:E; [|exact E].
      cbn [m_flags set_m_flags].
      destruct (hasFlag (withoutFlag fname (m_flags m)) fname) eqn:E';
        [|reflexivity].
      apply hasFlag_In, In_withoutFlag in E'. now destruct E'.
  - destruct (present && _); [|destruct (negb present && _)];
      cbn [m_flags set_m_flags]; [| |reflexivity]; apply hasFlag_same.
    + rewrite in_app_iff. cbn. intuition congruence.
    + rewrite In_withoutFlag. tauto.
Qed.

Lemma maintainFlag_columns (fname : string) (present : bool) (m : Message) :
  m_unseen (maintainFlag fname present m) = m_unseen m
  /\ m_undeleted (maintainFlag fname present m) = m_undeleted m
  /\ m_flagged (maintainFlag fname present m) = m_flagged m
  /\ m_draft (maintainFlag fname present m) = m_draft m.
Proof.
  unfold maintainFlag.
  destruct (present && _); [|destruct (negb present && _)]; repeat split.
Qed.

(** One key of [updates] keeps the columns and the flags in step. *)
Lemma applyMoveUpdate_consistent (m : Message) (c : Change) :
  consistent m -> consistent (applyMoveUpdate m c).
Proof.
  intros (H1 & H2 & H3 & H4).
  destruct c as [v|v|v|v|[t|]|k]; cbn [applyMoveUpdate];
    try (repeat split; assumption);
    match goal with
    | |- consistent (_ _ (maintainFlag ?f ?p m)) =>
        destruct (maintainFlag_columns f p m) as (C1 & C2 & C3 & C4);
        pose proof (maintainFlag_flags f p m) as Hf
    end;
    unfold consistent;
    cbn [m_unseen m_undeleted m_flagged m_draft m_flags set_m_unseen
         set_m_undeleted set_m_flagged set_m_draft];
    rewrite ?C1, ?C2, ?C3, ?C4, !Hf; cbn; rewrite ?negb_involutive; auto.
Qed.

Lemma markAsSeen_consistent (m : Message) :
  consistent m ->
  consistent (markAsSeen m) /\ m_unseen (markAsSeen m) = false.
Proof.
  intros (H1 & H2 & H3 & H4). unfold markAsSeen.
  cbn [m_flags set_m_unseen].
  destruct (hasFlag (m_flags m) "\Seen") eqn:E.
  - split; [|reflexivity]. unfold consistent.
    cbn [m_unseen m_undeleted m_flagged m_draft m_flags set_m_unseen].
    rewrite E. auto.
  - split; [|reflexivity]. unfold consistent.
    cbn [m_unseen m_undeleted m_flagged m_draft m_flags set_m_unseen
         set_m_flags].
    rewrite !hasFlag_app, E. cbn -[hasFlag]. rewrite ?orb_false_r. auto.
Qed.

End FlagFacts.

(** [move] keeps columns and flags in step.  If the columns [unseen],
    [undeleted], [flagged] and [draft] of a message say what its flags
    say, so do those of the document that [move] stores for it, whatever
    the keys of [updates].  The keys [seen] and [deleted] store their
    value in [unseen] and [undeleted] as it is given and set the flag
    [\Seen], [\Deleted] to the opposite; the keys [flagged] and [draft]
    store their value in the column of their own name and set the flag
    [\Flagged], [\Draft] to it; [markAsSeen] leaves the document
    seen. *)
Theorem move_keeps_flags_in_step (now : Z) (options : MoveOptions)
    (target : Mailbox) (id : ObjectID) (uid : Z) (message : Message) :
  consistent message ->
  consistent (movedMessage now options target id uid message)
  /\ (mo_markAsSeen options = true ->
      m_unseen (movedMessage now options target id uid message) = false)
  /\ (forall v m, consistent m ->
        m_unseen (applyMoveUpdate m (ChSeen v)) = v
        /\ hasFlag (m_flags (applyMoveUpdate m (ChSeen v))) "\Seen" = negb v
        /\ m_undeleted (applyMoveUpdate m (ChDeleted v)) = v
        /\ hasFlag (m_flags (applyMoveUpdate m (ChDeleted v))) "\Deleted"
           = negb v
        /\ m_flagged (applyMoveUpdate m (ChFlagged v)) = v
        /\ hasFlag (m_flags (applyMoveUpdate m (ChFlagged v))) "\Flagged" = v
        /\ m_draft (applyMoveUpdate m (ChDraft v)) = v
        /\ hasFlag (m_flags (applyMoveUpdate m (ChDraft v))) "\Draft" = v).
Proof.
  intros Hm.
  assert (Hfold : forall l m0, consistent m0 ->
            consistent (fold_left applyMoveUpdate l m0)).
  { induction l as [|c l IH]; intros m0 H0; [exact H0|].
    cbn [fold_left]. apply IH. now apply applyMoveUpdate_consistent. }
  unfold movedMessage.
  set (m0 := {| m_id := id; m_root := _ |}).
  assert (H0 : consistent m0).
  { destruct Hm as (H1 & H2 & H3 & H4). unfold consistent, m0. cbn. auto. }
  specialize (Hfold (mo_updates options) m0 H0).
  split; [|split].
  - cbv zeta. destruct (mo_markAsSeen options); [|exact Hfold].
    now apply markAsSeen_consistent.
  - intros ->. cbv zeta. now apply markAsSeen_consistent.
  - intros v m Hc.
    cbn [applyMoveUpdate m_unseen set_m_unseen m_undeleted set_m_undeleted
         m_flagged set_m_flagged m_draft set_m_draft m_flags].
    rewrite !maintainFlag_flags. cbn. repeat split; reflexivity.
Qed.

Lemma move_keeps_flags_in_step_witness :
  let moved :=
    movedMessage 0
      {| mo_source := RefId 10%nat None; mo_destination := RefId 20%nat None;
         mo_messageQuery := None; mo_messages := [7]; mo_returnIds := false;
         mo_updates := [ChDeleted false; ChDraft true; ChSeen false];
         mo_markAsSeen := false; mo_session := None |}
      (Scenario.mailbox 20 "Archive" 3 4) 1000%nat 3
      (Scenario.message 507 10 7 17 10 "<a@y>") in
  consistent moved
  /\ m_flags moved = ["\Deleted"; "\Draft"; "\Seen"]
  /\ m_undeleted moved = false /\ m_draft moved = true
  /\ m_unseen moved = false /\ m_flagged moved = false.
Proof.
  intros moved. split.
  - apply move_keeps_flags_in_step. repeat split.
  - vm_compute. repeat split; reflexivity.
Defined.
(* ================================================================== *)
(** * Part 23. The journal stream *)
(* ================================================================== *)

Section StreamFacts.

Import Stream.

Variable stringify : JsObject -> string.
Variable toString : JsValue -> string.

Lemma includes_In (l : list string) (x : string) :
  Sse.includes l x = true <-> In x l.
Proof.
  unfold Sse.includes. rewrite existsb_exists. split.
  - intros (y & Hy & E). apply String.eqb_eq in E. now subst.
  - intros H. exists x. split; [exact H|apply String.eqb_refl].
Qed.

Lemma setAdd_spec (x : string) (set : list string) :
  (NoDup set -> NoDup (setAdd x set))
  /\ (forall y, In y (setAdd x set) <-> In y set \/ y = x).
Proof.
  unfold setAdd. destruct (Sse.includes set x) eqn:E.
  - apply includes_In in E. split; [auto|]. intros y. split; [auto|].
    intros [H| ->]; assumption.
  - split.
    + intros Hnd. eapply Permutation_NoDup; [apply Permutation_cons_append|].
      constructor; [|exact Hnd]. intros Hin. apply includes_In in Hin.
      congruence.
    + intros y. rewrite in_app_iff. cbn. intuition.
Qed.

(** The set of mailboxes after a run of entries. *)
Lemma collected_spec (docs : list JsObject) :
  forall set,
    (NoDup set -> NoDup (fold_left (collect toString) docs set))
    /\ (forall m, In m (fold_left (collect toString) docs set)
                  <-> In m set
                      \/ exists e, In e docs /\ touches toString e = Some m).
Proof.
  induction docs as [|e docs IH]; intros set; cbn [fold_left].
  - split; [auto|]. intros m. split; [auto|]. intros [H|(e & [] & _)]. exact H.
  - destruct (IH (collect toString set e)) as [Hnd Hin]. split.
    + intros H. apply Hnd. unfold collect.
      destruct (touches toString e); [now apply setAdd_spec|exact H].
    + intros m. rewrite Hin. unfold collect.
      destruct (touches toString e) as [x|] eqn:Ex.
      * rewrite (proj2 (setAdd_spec x set)). split.
        -- intros [[H| ->]|(e' & He' & Ht)]; eauto.
           ++ right. exists e. split; [now left|exact Ex].
           ++ right. exists e'. split; [now right|exact Ht].
        -- intros [H|(e' & [<-|He'] & Ht)]; eauto.
           left. right. congruence.
      * split.
        -- intros [H|(e' & He' & Ht)]; eauto.
           right. exists e'. split; [now right|exact Ht].
        -- intros [H|(e' & [<-|He'] & Ht)]; eauto. congruence.
Qed.

(** The [switch] on the command, read off the entry. *)
Lemma touches_spec (e : JsObject) (m : string) :
  touches toString e = Some m
  <-> truthy (obj_get "mailbox" e) = true
      /\ m = toString (obj_get "mailbox" e)
      /\ (obj_get "command" e = VStr "EXISTS"
          \/ obj_get "command" e = VStr "EXPUNGE"
          \/ (obj_get "command" e = VStr "FETCH"
              /\ (truthy (obj_get "unseen" e) = true
                  \/ truthy (obj_get "unseenChange" e) = true))).
Proof.
  unfold touches.
  destruct (obj_get "command" e) as [| |b|z|c|h|l] eqn:Ec;
    try (split; [discriminate|];
         intros (_ & _ & [H|[H|[H _]]]); discriminate).
  destruct (String.eqb_spec c "EXISTS") as [->|H1]; cbn [orb].
  { destruct (truthy (obj_get "mailbox" e)).
    - split; [intros [= <-]; auto|]. now intros (_ & -> & _).
    - split; [discriminate|]. now intros (H & _). }
  destruct (String.eqb_spec c "EXPUNGE") as [->|H2]; cbn [orb].
  { destruct (truthy (obj_get "mailbox" e)).
    - split; [intros [= <-]; auto|]. now intros (_ & -> & _).
    - split; [discriminate|]. now intros (H & _). }
  destruct (String.eqb_spec c "FETCH") as [->|H3].
  - destruct (truthy (obj_get "mailbox" e)); cbn [andb];
      [|split; [discriminate|]; now intros (H & _)].
    destruct (truthy (obj_get "unseen" e)); cbn [orb].
    { split; [|now intros (_ & -> & _)]. intros [= <-].
      split; [reflexivity|]. split; [reflexivity|]. right. right. auto. }
    destruct (truthy (obj_get "unseenChange" e)).
    { split; [|now intros (_ & -> & _)]. intros [= <-].
      split; [reflexivity|]. split; [reflexivity|]. right. right. auto. }
    split; [discriminate|].
    intros (_ & _ & [H|[H|(_ & [H|H])]]); discriminate.
  - split; [discriminate|].
    intros (_ & _ & [H|[H|[H _]]]); congruence.
Qed.

(** An entry that the [switch] adds a mailbox for has a command. *)
Lemma touches_command (e : JsObject) (m : string) :
  touches toString e = Some m -> truthy (obj_get "command" e) = true.
Proof.
  intros H. apply touches_spec in H as (_ & _ & [H|[H|[H _]]]);
    now rewrite H.
Qed.

(** The set only grows, at its end. *)
Lemma collected_grows (docs : list JsObject) :
  forall set, exists more,
    fold_left (collect toString) docs set = set ++ more.
Proof.
  induction docs as [|e docs IH]; intros set; cbn [fold_left].
  - exists []. now rewrite app_nil_r.
  - destruct (IH (collect toString set e)) as (more & ->).
    unfold collect, setAdd.
    destruct (touches toString e) as [x|]; [|now exists more].
    destruct (Sse.includes set x); [now exists more|].
    exists (x :: more). now rewrite <- app_assoc.
Qed.

Variable getMailboxCounter : string -> bool -> JsValue.

(** The loop over the documents that the cursor yields before it ends or
    fails. *)
Lemma processNext_docs (docs : list JsObject) (tail : list CursorItem) :
  forall lastEventId set processed written,
    processNext stringify toString getMailboxCounter
      (map Doc docs ++ tail) lastEventId set processed written
    = processNext stringify toString getMailboxCounter tail
        (last (map (obj_get "_id") docs) lastEventId)
        (fold_left (collect toString) (withCommand docs) set)
        (processed + length (withCommand docs))
        (written
         ++ map (Sse.formatJournalData stringify toString) (withCommand docs)).
Proof.
  induction docs as [|e docs IH]; intros lastEventId set processed written.
  - cbn. now rewrite Nat.add_0_r, app_nil_r.
  - cbn [map app processNext withCommand filter].
    assert (Hlast : forall (l : list JsValue) a d,
              last (a :: l) d = last l a).
    { induction l as [|b l IHl]; intros a d; [reflexivity|].
      change (last (a :: b :: l) d) with (last (b :: l) d).
      now rewrite !IHl. }
    rewrite Hlast.
    destruct (truthy (obj_get "command" e)); cbn [negb].
    + rewrite IH. cbn [fold_left length map]. fold (withCommand docs).
      rewrite <- app_assoc. cbn [app].
      now rewrite Nat.add_succ_r.
    + rewrite IH. reflexivity.
Qed.

End StreamFacts.

(** The journal stream.  When the cursor yields the entries [docs] and
    ends, [loadJournalStream] has written one frame per entry with a
    command, in the order of the cursor, and then one COUNTERS frame, with
    the total and the unseen count of the mailbox, for every mailbox named
    by an entry whose command is EXISTS or EXPUNGE, or is FETCH with
    [unseen] or [unseenChange] set; each such mailbox once, those named
    within a prefix of the entries first; all with the id of the last
    entry read.  It reports that id (the one it was given when there was
    no entry) and the number of entries with a command.  When the cursor
    fails after [docs], the frames of [docs] have been written, no
    COUNTERS frame, and the error is handed on. *)
Theorem loadJournalStream_frames (stringify : JsObject -> string)
    (toString : JsValue -> string)
    (getMailboxCounter : string -> bool -> JsValue)
    (docs : list JsObject) (lastEventId : JsValue) :
  let lastRead := last (map (obj_get "_id") docs) lastEventId in
  let commanded := filter (fun e => truthy (obj_get "command" e)) docs in
  let counters := fun mailbox =>
    Sse.formatJournalData stringify toString
      [("command", VStr "COUNTERS"); ("_id", lastRead);
       ("mailbox", VOid mailbox);
       ("total", getMailboxCounter mailbox false);
       ("unseen", getMailboxCounter mailbox true)] in
  Stream.loadJournalStream stringify toString getMailboxCounter
    (map Stream.Doc docs) lastEventId
  = (map (Sse.formatJournalData stringify toString) commanded
     ++ map counters (Stream.touched toString docs),
     Stream.StreamDone lastRead (length commanded))
  /\ NoDup (Stream.touched toString docs)
  /\ (forall m,
        In m (Stream.touched toString docs)
        <-> exists e,
              In e docs
              /\ truthy (obj_get "mailbox" e) = true
              /\ m = toString (obj_get "mailbox" e)
              /\ (obj_get "command" e = VStr "EXISTS"
                  \/ obj_get "command" e = VStr "EXPUNGE"
                  \/ (obj_get "command" e = VStr "FETCH"
                      /\ (truthy (obj_get "unseen" e) = true
                          \/ truthy (obj_get "unseenChange" e) = true))))
  /\ (forall before after,
        docs = before ++ after ->
        exists later,
          Stream.touched toString docs
          = Stream.touched toString before ++ later)
  /\ (forall message rest,
        Stream.loadJournalStream stringify toString getMailboxCounter
          (map Stream.Doc docs ++ Stream.Broken message :: rest) lastEventId
        = (map (Sse.formatJournalData stringify toString) commanded,
           Stream.StreamError message)).
Proof.
  intros lastRead commanded counters.
  unfold Stream.loadJournalStream, Stream.touched.
  split; [|split; [|split; [|split]]].
  - rewrite <- (app_nil_r (map Stream.Doc docs)), processNext_docs.
    reflexivity.
  - apply (proj1 (collected_spec toString (Stream.withCommand docs) [])).
    constructor.
  - intros m.
    rewrite (proj2 (collected_spec toString (Stream.withCommand docs) [])).
    cbn [In]. split.
    + intros [[]|(e & He & Ht)]. exists e.
      apply filter_In in He as [He _]. split; [exact He|].
      now apply touches_spec.
    + intros (e & He & Ht). right. exists e.
      apply (touches_spec toString) in Ht. split; [|exact Ht].
      apply filter_In. split; [exact He|].
      now apply (touches_command toString e m).
  - intros before after ->. unfold Stream.withCommand.
    rewrite filter_app, fold_left_app. apply collected_grows.
  - intros message rest. rewrite processNext_docs. reflexivity.
Qed.

Lemma loadJournalStream_frames_witness :
  Stream.touched SseSpec.idToString SseSpec.streamDocs = ["bb"; "dd"]
  /\ In "dd" (Stream.touched SseSpec.idToString SseSpec.streamDocs)
  /\ ~ In "cc" (Stream.touched SseSpec.idToString SseSpec.streamDocs)
  /\ snd (Stream.loadJournalStream SseSpec.keyPerLine SseSpec.idToString
            SseSpec.threeOneUnseen (map Stream.Doc SseSpec.streamDocs)
            VUndefined)
     = Stream.StreamDone (VOid "e5") 4
  /\ length (fst (Stream.loadJournalStream SseSpec.keyPerLine
                    SseSpec.idToString SseSpec.threeOneUnseen
                    (map Stream.Doc SseSpec.streamDocs) VUndefined))
     = 6%nat.
Proof.
  destruct (loadJournalStream_frames SseSpec.keyPerLine SseSpec.idToString
              SseSpec.threeOneUnseen SseSpec.streamDocs VUndefined)
    as (Hrun & _ & Hin & _ & _).
  split; [vm_compute; reflexivity|].
  split.
  { apply Hin.
    exists [("_id", VOid "e5"); ("command", VStr "FETCH");
            ("mailbox", VOid "dd"); ("unseenChange", VBool true)].
    split; [vm_compute; auto 6|].
    split; [reflexivity|]. split; [reflexivity|].
    right. right. split; [reflexivity|]. right. reflexivity. }
  split.
  { intros H. apply Hin in H as (e & He & _ & Hm & Hc).
    vm_compute in He.
    destruct He as [<-|[<-|[<-|[<-|[<-|[]]]]]]; vm_compute in Hm, Hc;
      try discriminate.
    destruct Hc as [Hc|[Hc|(_ & [Hc|Hc])]]; discriminate. }
  rewrite Hrun. split; vm_compute; reflexivity.
Defined.
(* ================================================================== *)
(** * Part 24. The hooks OPEN and UNSUBSCRIBE *)
(* ================================================================== *)

(** OPEN and UNSUBSCRIBE.  Both look the mailbox of the user at the path
    up and answer NONEXISTENT exactly when there is none, leaving the
    database as it is; an error of the driver is handed on.  Otherwise
    OPEN answers with the record and, as [uidList], the UIDs of the
    messages of that mailbox and of no other, in ascending order, and
    writes nothing; UNSUBSCRIBE clears [subscribed] on that record and
    changes no other.  When the database answers, both hooks answer. *)
Theorem path_hooks (fails : nat -> bool) (path : string) (session : Session)
    (s : Store) :
  let q := mailboxQuery (RefPath (ss_user session) path) in
  match onOpen fails path session s with
  | (Ok (Opened mailbox uidList), s') =>
      findOne q (mailboxes s) = Some mailbox
      /\ StronglySorted Z.le uidList
      /\ (forall uid,
            In uid uidList
            <-> exists m, In m (messages s) /\ m_mailbox m = mb_id mailbox
                          /\ m_uid m = uid)
      /\ length uidList
         = length (filter (fun m => (m_mailbox m =? mb_id mailbox)%nat)
                     (messages s))
      /\ mailboxes s' = mailboxes s /\ messages s' = messages s
  | (Ok OpenNonexistent, s') =>
      findOne q (mailboxes s) = None
      /\ mailboxes s' = mailboxes s /\ messages s' = messages s
  | (Fail e, s') =>
      e = StoreError /\ mailboxes s' = mailboxes s
      /\ messages s' = messages s
  end
  /\ match onUnsubscribe fails path session s with
     | (Ok Unsubscribed, s') =>
         exists mailbox,
           findOne q (mailboxes s) = Some mailbox
           /\ mailboxes s'
              = updateFirst q (set_mb_subscribed false) (mailboxes s)
           /\ findOne q (mailboxes s')
              = Some (set_mb_subscribed false mailbox)
           /\ messages s' = messages s
     | (Ok UnsubscribeNonexistent, s') =>
         findOne q (mailboxes s) = None /\ mailboxes s' = mailboxes s
         /\ messages s' = messages s
     | (Fail e, s') =>
         e = StoreError /\ mailboxes s' = mailboxes s
         /\ messages s' = messages s
     end
  /\ ((forall k, fails k = false) ->
      (exists r s', onOpen fails path session s = (Ok r, s'))
      /\ (exists r s', onUnsubscribe fails path session s = (Ok r, s'))).
Proof.
  intros q. split; [|split].
  - unfold onOpen, bind, on_mailboxes, on_messages, call. fold q.
    destruct (fails (ops s)); [cbn; auto|].
    cbn [mailboxes set_ops set_mailboxes].
    destruct (findOne q (mailboxes s)) as [mailbox|] eqn:E;
      cbn [ops set_ops set_mailboxes]; [|cbn; auto].
    destruct (fails (S (ops s))); [cbn; auto|].
    cbn [ret messages set_mailboxes set_ops set_messages mailboxes].
    split; [reflexivity|]. split.
    { apply StronglySorted_map, sortByUid_sorted. }
    split.
    { intros uid. rewrite in_map_iff. split.
      - intros (m & Hu & Hin). apply sortByUid_In, filter_In in Hin.
        destruct Hin as [Hin Hq]. apply Nat.eqb_eq in Hq. eauto.
      - intros (m & Hin & Hbox & Hu). exists m. split; [exact Hu|].
        eapply Permutation_in; [symmetry; apply sortByUid_perm|].
        apply filter_In. split; [exact Hin|]. now apply Nat.eqb_eq. }
    split; [now rewrite length_map, sortByUid_length|]. split; reflexivity.
  - unfold onUnsubscribe, bind, on_mailboxes, call. fold q.
    destruct (fails (ops s)); [cbn; auto|].
    cbn [mailboxes set_ops]. rewrite findOneAndUpdate_eq.
    destruct (findOne q (mailboxes s)) as [mailbox|] eqn:E; cbn; [|auto].
    exists mailbox. split; [reflexivity|]. split; [reflexivity|].
    split; [|reflexivity].
    apply findOne_updateFirst; [reflexivity|exact E].
  - intros Hrel. split.
    + unfold onOpen, bind, on_mailboxes, on_messages, call. rewrite Hrel.
      cbn [mailboxes set_ops].
      destruct (findOne _ (mailboxes s)); cbn; rewrite ?Hrel; cbn;
        unfold ret; eauto.
    + unfold onUnsubscribe, bind, on_mailboxes, call. rewrite Hrel.
      destruct (findOneAndUpdate _ _ _ _) as [[item|] c]; cbn; unfold ret;
        eauto.
Qed.
